(* ===== verification/_CoqProject ===== *)
-Q . S2P
Prelude.v
Bytes.v
Llist.v
Xtoy.v
Scanf.v
Json.v
Files.v
Rfc.v
Options.v
AddressPool.v
Allocator.v
Timer.v
Packet.v
Database.v
Transaction.v
Acl.v
Lease.v
Server.v
Archive.v
GuiRfc.v
Inspect.v
TabInspect.v
TabLeases.v
TabConfig.v
TabEditor.v
Messages.v
Request.v
Snoop.v
Unix.v
Console.v
TabLogs.v
Serve.v
Interface.v
Expiry.v
Invariant.v
Exchange.v
Config.v
Agreement.v
Init.v
