(* ===== verification/Prelude.v ===== *)
(** * Verification of the DHCPv4 server and its configuration interface

    The repository holds two programs.  The server ([src/server/src], C) keeps
    pools of addresses, answers the datagrams of clients on UDP port 67,
    records leases in JSON files and answers commands on a local socket.  The
    interface ([src/gui/src], C++) edits the configuration file the server
    reads, shows the lease files and the messages the server stored, and sends
    the commands.  They only meet in files and on the socket.  This library
    models the components of both, one file each, in the order in which they
    call each other.

    Shared:

    - [Llist] ([utils/llist.c]): linked lists on a heap of nodes.  Every other
      file uses Rocq lists for them, which the refinement theorems justify.
    - [Xtoy] ([utils/xtoy.c], and its copy [xtoy.cpp] in the interface):
      addresses as text; [Scanf]: the other conversions of [sscanf] and
      [printf] that the programs use.
    - [Json], [Files]: the parts of cJSON and of the file system both rely on.
      cJSON is an interface (a class) with the laws used and one instance to
      run the model; system calls succeed or fail as a schedule of faults says,
      and move all their bytes when they succeed.

    The server:

    - [Rfc] ([RFC/]), [Options] ([dhcp_options.c]), [Packet] ([dhcp_packet.c]):
      option lists, packets in memory and the messages parsed from them.
    - [AddressPool] ([address_pool.c]), [Allocator] ([allocator.c]): the bitmap
      of each pool and the choice of addresses.
    - [Timer] ([timer.c]), [Transaction] ([transaction.c],
      [transaction_cache.c]): the cache of conversations and their expiry.
    - [Acl] ([security/acl.c], [security/dynamic_acl.c]): who is served.
    - [Lease] ([lease.c]), [Database] and [Archive] ([database.c]): what is
      kept on disk; [Archive] reads a stored conversation back.
    - [Server] ([dhcp_server.h]): the state of the server as one record.
    - [Messages], [Request] ([messages/]): the handlers of the five kinds of
      client message and the replies they send.
    - [Snoop] ([security/dhcp_snooping/]): the scan for rogue servers.
    - [Unix] ([unix_server.c], [commands.c]): the commands of the local socket.
    - [Serve] ([dhcp_server.c], the end of [lease.c]): the loop of the server,
      one datagram, one command and the timers per turn, and the loading of the
      leases at the start; [Expiry]: what the loop and the start do to the lease
      files; [Invariant]: what every turn preserves; [Exchange]: whole turns,
      from the datagram of a client to the datagram it gets back.
    - [Config] ([config.c]), [Init] ([init.c], [main.c]): the command line, the
      configuration file and the way to the loop.

    The interface:

    - [GuiRfc] ([RFC-2132.cpp]): its table of the types of options.
    - [Inspect] ([database.cpp], [tab_inspect.cpp]) and [TabInspect]
      ([tab_inspect.cpp]): stored messages on the screen.
    - [TabLeases] ([tab_leases.cpp]): the lease files on the screen.
    - [TabConfig] and [TabEditor] ([tab_config.cpp]): the configuration file
      loaded into the fields and written back, and the fields' editors.
    - [Console] ([tab_command.cpp], [commands.cpp]): the typed commands.
    - [TabLogs] ([tab_logs.cpp]): the log file, with its lines wrapped.
    - [Interface] ([main.cpp], [main_renderer.cpp]): the tabs together, what a
      user does in them and the refresh of the one that is shown.

    Between the two: [Agreement] composes what [TabConfig] writes with what
    [Config] reads, [Inspect] and [Archive] what [Database] stores with what is
    shown, and [Console] a typed command with its answer from [Unix].

    Conventions.  Code that cannot fail is a function; code that can reach
    undefined behaviour returns a [result], whose [Undef] names the cause (in
    C++ also an exception that nothing catches); code on state is a [prog].
    Machine integers are [Z] with the wrap-around written out ([u8], [u16],
    [u32]); byte areas are lists of bytes read with [rd] and [slice], which are
    undefined out of range.  Memory allocation succeeds; arguments that the
    code only ever passes as valid pointers have no NULL case; the clock is
    read once per operation; the host is little endian.

    Loops that the code bounds by a counter recurse on it; the others carry
    fuel, and a theorem says how much is enough or that none is: the parser of
    options ([parse_fuel]; which areas it returns for, which keep it for ever and
    which it overruns is decided by [dhcp_option_parse_outcome]), the search for an address ([assign_fuel]), the scan, the reading of a stored
    conversation ([load_fuel], one turn per record), the two loops of the
    viewer ([type_fuel], [options_fuel], one turn per byte) and the wrapping of
    a log line ([wrap_loop], one turn per character; no fuel is enough on a
    screen with no columns).

    What the theorems show.

    - Addresses: the allocator never leases an address twice while it is in
      use, a pool's bitmap and counter implement a set of addresses.
    - Wire and disk formats: options and packets survive the trip through the
      wire format and the serialiser never writes outside its buffer; the lease
      files keep what is added until it is removed; a stored conversation is
      read back as it was.
    - Handlers: they send the reply the protocol asks for, take or free exactly
      the address concerned and leave the rest of the state alone, on their
      error branches too.
    - Time: expired transactions give back the addresses they offered, the
      lease timer frees exactly the overdue addresses among those in use, the
      last of a pool apart, and a restart takes back exactly the valid ones
      ([Expiry]); a scan ends when its timer does.
    - Life of the server: a started server is well formed ([Init]) and every
      turn keeps it so, whatever arrives and whatever fails ([Invariant]); that
      the slots of the cache have distinct ids is meant, there and in
      [Transaction], for the ids other than 0.  When the configuration file is
      loaded the options it yields can be sent ([Config]).
    - Exchanges ([Exchange]): a turn that receives the bytes of a DHCPDISCOVER
      ends with bytes that every client parses as the DHCPOFFER of a free
      address, one that receives a renewal with the DHCPACK and the extended
      lease, both for messages with a parameter request list; the DHCPREQUEST
      that answers an offer is never acknowledged, as the server then reads freed
      memory.
    - Interface: what is loaded is what was applied, the editors keep the lists
      of names and of contents in step, the viewers show every option and every
      lease of their files, the tables of the two programs agree; a session of
      edits from the start to the exit, with a frame drawn after each input,
      ends with status 0 or at one of two mistakes; and a tab that is not opened
      stays as it is, with any number of inputs for each frame ([Interface]).
    - Between the two programs: an option, a pool and the settings typed in the
      interface are what the server is configured with ([Agreement]; the
      options before the first bad address, the pools with addresses on their
      subnet), and a typed command shows the server's report ([Console]).
    - Departures: an option area with padding that parses for ever, a request
      that reads the options of a discover already freed, a discover or a renewal
      without option 55 that dereferences NULL, a transaction id 0 that takes two
      slots, an acknowledgement that the timer of its transaction does not find,
      a transaction duration that the server looks up under another key, a
      configuration whose access list turns itself on when it is applied, options
      lost behind a bad address, a button and a field that end the interface,
      files too long for the buffers that read them.

    Not modelled: the layout and drawing of the interface ([tab_help.cpp], the
    widgets the tabs' constructors build), of which [Interface] keeps what a user
    can do, as lists of inputs that the drawing library hands over before each
    frame; logging ([logging.c], [logger.cpp]), usage texts and dumps (output
    only); the functions that only free memory or close descriptors at the end
    ([uninit_dhcp_server], [unix_server_clean]); the directories the
    server's [main] makes; the external libraries (cJSON, FTXUI, cclog).  The
    calls that set up a socket are modelled by whether they fail. *)

From Stdlib Require Export ZArith Lia.
From stdpp Require Export base list gmap strings.
#[global] Open Scope Z_scope.
#[global] Set Default Proof Using "Type".

(** ** Results of running C code

    [Ret a] is a normal return with value [a].  [Undef f] is a run that reaches
    behaviour the C standard leaves undefined, with the reason [f].  [NoFuel]
    is a loop that has not finished within the iterations it was given. *)
Inductive fault :=
  | OutOfBounds     (* an access outside an object *)
  | NullDeref       (* a dereference of NULL *)
  | UseAfterFree    (* an access to a freed object *)
  | BadShift        (* a shift by the width of the operand or more *)
  | BadConversion   (* a conversion of a number that does not fit the type *)
  | Uninitialised   (* a use of a variable that was not assigned *)
  | Uncaught.       (* a C++ exception that nothing catches *)

Inductive result (A : Type) :=
  | Ret (a : A)
  | Undef (f : fault)
  | NoFuel.
Arguments Ret {A} _.
Arguments Undef {A} _.
Arguments NoFuel {A}.

#[export] Instance result_ret : MRet result := @Ret.
#[export] Instance result_bind : MBind result := λ A B k m,
  match m with Ret a => k a | Undef f => Undef f | NoFuel => NoFuel end.

#[export] Instance fault_eq_dec : EqDecision fault.
Proof. solve_decision. Defined.

(** A run that returns. *)
Definition returns {A} (m : result A) : Prop := ∃ a, m = Ret a.

Lemma bind_Ret {A B} (m : result A) (k : A → result B) b :
  (m ≫= k) = Ret b ↔ ∃ a, m = Ret a ∧ k a = Ret b.
Proof.
  destruct m; simpl; split; try discriminate.
  - intros H. eauto.
  - intros (a' & [= ->] & H). exact H.
  - intros (a' & [=] & _).
  - intros (a' & [=] & _).
Qed.

Lemma ret_bind {A B} (a : A) (k : A → result B) : (Ret a ≫= k) = k a.
Proof. reflexivity. Qed.

(** A pointer that is dereferenced. *)
Definition deref {A} (p : option A) : result A :=
  match p with Some a => Ret a | None => Undef NullDeref end.

(** ** Stateful code

    [prog S A] is code that reads and writes a state of type [S]. *)
Definition prog (S A : Type) : Type := S → result (A * S).

#[export] Instance prog_ret {S} : MRet (prog S) := λ A a s, Ret (a, s).
#[export] Instance prog_bind {S} : MBind (prog S) := λ A B k m s,
  match m s with Ret (a, s') => k a s' | Undef f => Undef f | NoFuel => NoFuel end.

Definition get_state {S} : prog S S := λ s, Ret (s, s).
Definition put_state {S} (s : S) : prog S () := λ _, Ret ((), s).
Definition gets {S A} (f : S → A) : prog S A := λ s, Ret (f s, s).
Definition modify {S} (f : S → S) : prog S () := λ s, Ret ((), f s).
Definition lift {S A} (m : result A) : prog S A := λ s,
  match m with Ret a => Ret (a, s) | Undef f => Undef f | NoFuel => NoFuel end.

Lemma prog_bind_Ret {S A B} (m : prog S A) (k : A → prog S B) s b s2 :
  (m ≫= k) s = Ret (b, s2) ↔ ∃ a s1, m s = Ret (a, s1) ∧ k a s1 = Ret (b, s2).
Proof.
  unfold mbind, prog_bind. destruct (m s) as [[a s1]| |]; split; try discriminate.
  - intros H. eauto.
  - intros (a' & s' & [= -> ->] & H). exact H.
  - intros (a' & s' & [=] & _).
  - intros (a' & s' & [=] & _).
Qed.

(** One step of a run. *)
Lemma prog_bind_eq {S A B} (m : prog S A) (k : A → prog S B) s :
  (m ≫= k) s =
  match m s with Ret (a, s') => k a s' | Undef f => Undef f | NoFuel => NoFuel end.
Proof. reflexivity. Qed.

Lemma bind_gets {S A B} (f : S → A) (k : A → prog S B) s : (gets f ≫= k) s = k (f s) s.
Proof. reflexivity. Qed.

Lemma bind_modify {S B} (f : S → S) (k : () → prog S B) s : (modify f ≫= k) s = k () (f s).
Proof. reflexivity. Qed.

Lemma bind_mret {S A B} (a : A) (k : A → prog S B) s :
  ((mret a : prog S A) ≫= k) s = k a s.
Proof. reflexivity. Qed.

Lemma bind_assoc {S A B C} (m : prog S A) (k : A → prog S B) (k' : B → prog S C) s :
  ((m ≫= k) ≫= k') s = (m ≫= (λ a, k a ≫= k')) s.
Proof. unfold mbind, prog_bind. destruct (m s) as [[a s']| |]; reflexivity. Qed.

(** *** Invariants of runs

    A property of the state that every run of [m] that returns keeps. *)
Definition preserves {S A} (I : S → Prop) (m : prog S A) : Prop :=
  ∀ s a s', I s → m s = Ret (a, s') → I s'.

Create HintDb preserve.

Section Preserves.
Context {S : Type} (I : S → Prop).

Lemma preserves_bind {A B} (m : prog S A) (k : A → prog S B) :
  preserves I m → (∀ a, preserves I (k a)) → preserves I (m ≫= k).
Proof. intros Hm Hk s b s2 Hs (a & s1 & H1 & H2)%prog_bind_Ret. eapply Hk, H2. by eapply Hm. Qed.

Lemma preserves_mret {A} (a : A) : preserves I (mret a : prog S A).
Proof. by intros s b s' Hs [= <- <-]. Qed.

Lemma preserves_gets {A} (f : S → A) : preserves I (gets f).
Proof. by intros s b s' Hs [= <- <-]. Qed.

Lemma preserves_lift {A} (m : result A) : preserves I (lift m).
Proof. intros s b s' Hs. unfold lift. destruct m; [|done..]. by intros [= <- <-]. Qed.

Lemma preserves_modify (f : S → S) : (∀ s, I s → I (f s)) → preserves I (modify f).
Proof. intros Hf s b s' Hs [= <- <-]. by apply Hf. Qed.

Lemma preserves_no_fuel {A} : preserves I (λ _, NoFuel : result (A * S)).
Proof. by intros s b s' Hs. Qed.
End Preserves.

#[export] Hint Resolve preserves_mret preserves_gets preserves_lift preserves_no_fuel : preserve.

(** ** Unsigned machine integers *)
Definition u8 (z : Z) : Z := z mod 2 ^ 8.
Definition u16 (z : Z) : Z := z mod 2 ^ 16.
Definition u32 (z : Z) : Z := z mod 2 ^ 32.
Definition is_u8 (z : Z) : Prop := 0 ≤ z < 2 ^ 8.
Definition is_u16 (z : Z) : Prop := 0 ≤ z < 2 ^ 16.
Definition is_u32 (z : Z) : Prop := 0 ≤ z < 2 ^ 32.

#[export] Instance is_u8_dec z : Decision (is_u8 z).
Proof. unfold is_u8. apply _. Defined.
#[export] Instance is_u16_dec z : Decision (is_u16 z).
Proof. unfold is_u16. apply _. Defined.
#[export] Instance is_u32_dec z : Decision (is_u32 z).
Proof. unfold is_u32. apply _. Defined.

Declare Scope c_scope.
Delimit Scope c_scope with C.
Notation "a +32 b" := (u32 (a + b)) (at level 50, left associativity) : c_scope.
Notation "a -32 b" := (u32 (a - b)) (at level 50, left associativity) : c_scope.
Open Scope c_scope.

(** [~x] of a [uint32_t]. *)
Definition not32 (z : Z) : Z := u32 (Z.lnot z).

(** [x >> n] of a [uint32_t]: undefined when [n] is not below 32. *)
Definition shr32 (x n : Z) : result Z :=
  if (0 <=? n) && (n <? 32) then Ret (Z.shiftr x n) else Undef BadShift.

Lemma u32_small z : is_u32 z → u32 z = z.
Proof. apply Z.mod_small. Qed.
Lemma u8_small z : is_u8 z → u8 z = z.
Proof. apply Z.mod_small. Qed.
Lemma u16_small z : is_u16 z → u16 z = z.
Proof. apply Z.mod_small. Qed.
Lemma u32_range z : is_u32 (u32 z).
Proof. unfold is_u32, u32. apply Z.mod_pos_bound. lia. Qed.
Lemma u8_range z : is_u8 (u8 z).
Proof. unfold is_u8, u8. apply Z.mod_pos_bound. lia. Qed.
Lemma u16_range z : is_u16 (u16 z).
Proof. unfold is_u16, u16. apply Z.mod_pos_bound. lia. Qed.

Lemma not32_eq z : is_u32 z → not32 z = 2 ^ 32 - 1 - z.
Proof.
  intros Hz. unfold not32, u32, is_u32 in *.
  replace (Z.lnot z) with ((2 ^ 32 - 1 - z) + (-1) * 2 ^ 32) by (unfold Z.lnot; lia).
  rewrite Z.mod_add by lia. apply Z.mod_small. lia.
Qed.

Lemma is_u32_lor a b : is_u32 a → is_u32 b → is_u32 (Z.lor a b).
Proof.
  intros Ha Hb. unfold is_u32 in *. split; [apply Z.lor_nonneg; lia|].
  destruct (decide (Z.lor a b = 0)) as [->|]; [lia|].
  assert (0 < Z.lor a b) by (assert (0 ≤ Z.lor a b) by (apply Z.lor_nonneg; lia); lia).
  apply Z.log2_lt_pow2; [done|]. rewrite Z.log2_lor by lia.
  apply Z.max_lub_lt.
  - destruct (decide (a = 0)) as [->|]; [done|]. apply Z.log2_lt_pow2; lia.
  - destruct (decide (b = 0)) as [->|]; [done|]. apply Z.log2_lt_pow2; lia.
Qed.

Create HintDb dhcp.
#[export] Hint Resolve u8_range u16_range u32_range : dhcp.

(** ** Lists *)
Lemma filter_ext_in {A} (P Q : A → Prop) `{∀ x, Decision (P x)} `{∀ x, Decision (Q x)} (l : list A) :
  (∀ x, x ∈ l → P x ↔ Q x) → filter P l = filter Q l.
Proof.
  induction l as [|x l IH]; intros Hpq; [done|]. rewrite !filter_cons.
  rewrite IH by (intros y Hy; apply Hpq; by right).
  destruct (decide (P x)) as [Hp|Hp]; destruct (decide (Q x)) as [Hq|Hq]; [done | | | done];
    exfalso; [apply Hq | apply Hp]; by apply (Hpq x (list_elem_of_here _ _)).
Qed.

Lemma filter_length_neg {A} (P : A → Prop) `{∀ x, Decision (P x)} (l : list A) :
  (length (filter P l) + length (filter (λ x, ¬ P x) l) = length l)%nat.
Proof.
  induction l as [|x l IH]; [done|]. rewrite !filter_cons.
  destruct (decide (P x)); [rewrite decide_False by tauto | rewrite decide_True by done]; simpl; lia.
Qed.

(** ** The jump conditions of the cclog macros

    Error handling in the server is written with the macros of
    [cclog_macros.h], a library that is not part of this repository:
    [if_failed(v, label)] jumps to [label] when the call that returned [v]
    failed.  Their conditions are parameters, with the behaviour the callers
    rely on: a failure is a value other than 0 ([init_logging] fails with 1,
    [memcmp] with either sign), the [_n] forms test for a negative value
    (file descriptors, byte counts), the [_ne] forms for the value 0
    (addresses and lease times, where 0 is the error). *)
Class Cclog := {
  if_failed : Z → bool;
  if_failed_n : Z → bool;
  if_failed_ne : Z → bool;
  if_failed_spec v : if_failed v = negb (v =? 0);
  if_failed_n_spec v : if_failed_n v = (v <? 0);
  if_failed_ne_spec v : if_failed_ne v = (v =? 0);
}.

(** The conditions at work, used to run the model on concrete inputs. *)
Definition cclog_run : Cclog := {|
  if_failed v := negb (v =? 0);
  if_failed_n v := v <? 0;
  if_failed_ne v := v =? 0;
  if_failed_spec v := eq_refl;
  if_failed_n_spec v := eq_refl;
  if_failed_ne_spec v := eq_refl;
|}.

(** ** Tactics *)

(** Case analysis on the boolean tests of the code, turned into arithmetic. *)
Ltac bool_to_prop :=
  repeat match goal with
  | H : _ && _ = true |- _ => apply andb_true_iff in H as [? ?]
  | H : _ && _ = false |- _ => apply andb_false_iff in H
  | H : _ || _ = true |- _ => apply orb_true_iff in H
  | H : _ || _ = false |- _ => apply orb_false_iff in H as [? ?]
  | H : negb _ = true |- _ => apply negb_true_iff in H
  | H : negb _ = false |- _ => apply negb_false_iff in H
  | H : (_ =? _) = true |- _ => apply Z.eqb_eq in H
  | H : (_ =? _) = false |- _ => apply Z.eqb_neq in H
  | H : (_ <? _) = true |- _ => apply Z.ltb_lt in H
  | H : (_ <? _) = false |- _ => apply Z.ltb_ge in H
  | H : (_ <=? _) = true |- _ => apply Z.leb_le in H
  | H : (_ <=? _) = false |- _ => apply Z.leb_gt in H
  | H : bool_decide _ = true |- _ => apply bool_decide_eq_true in H
  | H : bool_decide _ = false |- _ => apply bool_decide_eq_false in H
  end.

Ltac case_if E :=
  match goal with
  | |- context [if ?b then _ else _] => destruct b eqn:E
  end; bool_to_prop.

(** Splits the hypotheses about runs that return into their steps. *)
Ltac inv_run :=
  repeat match goal with
  | H : Ret _ = Ret _ |- _ => injection H; clear H; intros; subst
  | H : Undef _ = Ret _ |- _ => discriminate H
  | H : NoFuel = Ret _ |- _ => discriminate H
  | H : (_ ≫= _) = Ret _ |- _ => apply bind_Ret in H as (? & ? & H)
  | H : mret _ = Ret _ |- _ => injection H; clear H; intros; subst
  end.

(** Opens the run of [f] in a hypothesis. *)
Ltac open_run f :=
  match goal with H : context [f] |- _ => unfold f in H; inv_run end.

(** A program that is built from parts known to the hint database [preserve]. *)
Ltac preserve :=
  repeat first
    [ solve [eauto 2 with preserve]
    | apply preserves_bind; [|intros ?]
    | match goal with
      | |- preserves _ (match ?x with _ => _ end) => destruct x
      | |- preserves _ (let '_ := ?x in _) => destruct x
      end ].

(** A decidable proposition about concrete values, by evaluation. *)
Ltac by_decision := apply (bool_decide_unpack _); vm_compute; exact I.
