(* ===== verification/Bytes.v ===== *)
(** Byte buffers: bounds-checked reads and writes of C arrays, copies between
    them, and integers as little- and big-endian byte sequences. *)
From S2P Require Import Prelude.

Definition zlen {A} (l : list A) : Z := Z.of_nat (length l).
Definition is_bytes (l : list Z) : Prop := Forall is_u8 l.
#[export] Instance is_bytes_dec l : Decision (is_bytes l).
Proof. unfold is_bytes. apply _. Defined.

(** ** Access to an array *)

(** [buf[i]] *)
Definition rd {A} (buf : list A) (i : Z) : result A :=
  if 0 <=? i then
    match buf !! Z.to_nat i with Some b => Ret b | None => Undef OutOfBounds end
  else Undef OutOfBounds.

(** [buf[i] = v] *)
Definition wr {A} (buf : list A) (i : Z) (v : A) : result (list A) :=
  if (0 <=? i) && (i <? zlen buf) then Ret (<[Z.to_nat i := v]> buf)
  else Undef OutOfBounds.

(** [memcpy(_, buf + off, len)]: the bytes it reads *)
Definition slice (buf : list Z) (off len : Z) : result (list Z) :=
  if (0 <=? off) && (0 <=? len) && (off + len <=? zlen buf)
  then Ret (take (Z.to_nat len) (drop (Z.to_nat off) buf))
  else Undef OutOfBounds.

(** [memcpy(buf + off, bs, |bs|)]: the buffer it leaves *)
Definition splice (off : nat) (bs buf : list Z) : list Z :=
  take off buf ++ bs ++ drop (off + length bs) buf.
Definition blit (buf : list Z) (off : Z) (bs : list Z) : result (list Z) :=
  if (0 <=? off) && (off + zlen bs <=? zlen buf)
  then Ret (splice (Z.to_nat off) bs buf)
  else Undef OutOfBounds.

Lemma rd_Ret {A} (buf : list A) i b :
  rd buf i = Ret b ↔ 0 ≤ i ∧ buf !! Z.to_nat i = Some b.
Proof.
  unfold rd. destruct (0 <=? i) eqn:E; bool_to_prop.
  - destruct (buf !! Z.to_nat i); naive_solver.
  - split; [discriminate | lia].
Qed.

Lemma rd_in {A} (buf : list A) i : 0 ≤ i < zlen buf → ∃ b, rd buf i = Ret b.
Proof.
  intros Hi. destruct (lookup_lt_is_Some_2 buf (Z.to_nat i)) as [b Hb].
  { unfold zlen in Hi. lia. }
  exists b. apply rd_Ret. split; [lia | done].
Qed.

Lemma rd_out {A} (buf : list A) i : ¬ (0 ≤ i < zlen buf) → rd buf i = Undef OutOfBounds.
Proof.
  intros Hi. unfold rd, zlen in *. case_if E; [|done].
  rewrite lookup_ge_None_2; [done | lia].
Qed.

Lemma wr_in {A} (buf : list A) i v :
  0 ≤ i < zlen buf → wr buf i v = Ret (<[Z.to_nat i := v]> buf).
Proof. intros Hi. unfold wr. case_if E; [done|]. lia. Qed.

Lemma slice_in buf off len :
  0 ≤ off → 0 ≤ len → off + len ≤ zlen buf →
  slice buf off len = Ret (take (Z.to_nat len) (drop (Z.to_nat off) buf)).
Proof. intros. unfold slice. case_if E; [done|]. lia. Qed.

Lemma slice_prefix buf len :
  0 ≤ len ≤ zlen buf → slice buf 0 len = Ret (take (Z.to_nat len) buf).
Proof. intros. by rewrite slice_in by lia. Qed.

Lemma slice_Ret buf off len bs :
  slice buf off len = Ret bs ↔
  0 ≤ off ∧ 0 ≤ len ∧ off + len ≤ zlen buf ∧
  bs = take (Z.to_nat len) (drop (Z.to_nat off) buf).
Proof.
  unfold slice. case_if E.
  - split; [intros [= <-]; auto with lia | intros (?&?&?&->); done].
  - split; [discriminate | lia].
Qed.

Lemma slice_length buf off len bs : slice buf off len = Ret bs → zlen bs = len.
Proof.
  intros (?&?&?&->)%slice_Ret. unfold zlen in *.
  rewrite length_take, length_drop. lia.
Qed.

Lemma slice_bytes buf off len bs :
  is_bytes buf → slice buf off len = Ret bs → is_bytes bs.
Proof. intros ? (?&?&?&->)%slice_Ret. by apply Forall_take, Forall_drop. Qed.

Lemma blit_in buf off bs :
  0 ≤ off → off + zlen bs ≤ zlen buf →
  blit buf off bs = Ret (splice (Z.to_nat off) bs buf).
Proof. intros. unfold blit. case_if E; [done|]. lia. Qed.

Lemma length_splice off bs buf :
  (off + length bs ≤ length buf)%nat → length (splice off bs buf) = length buf.
Proof.
  intros. unfold splice. rewrite !length_app, length_take, length_drop. lia.
Qed.

Lemma zlen_app {A} (a b : list A) : zlen (a ++ b) = zlen a + zlen b.
Proof. unfold zlen. rewrite length_app. lia. Qed.
Lemma zlen_cons {A} (x : A) l : zlen (x :: l) = 1 + zlen l.
Proof. unfold zlen. simpl. lia. Qed.
Lemma zlen_nonneg {A} (l : list A) : 0 ≤ zlen l.
Proof. unfold zlen. lia. Qed.

(** A read at the boundary of a concatenation. *)
Lemma rd_middle {A} (a b : list A) x : rd (a ++ x :: b) (zlen a) = Ret x.
Proof.
  apply rd_Ret. split; [apply zlen_nonneg|]. unfold zlen.
  rewrite Nat2Z.id. by apply list_lookup_middle.
Qed.

Lemma slice_middle (a b c : list Z) : slice (a ++ b ++ c) (zlen a) (zlen b) = Ret b.
Proof.
  rewrite slice_in; [| apply zlen_nonneg.. |]; last first.
  { rewrite !zlen_app. pose proof (zlen_nonneg c). lia. }
  unfold zlen. rewrite !Nat2Z.id, drop_app_length, take_app_length. done.
Qed.

Lemma blit_middle (a b c bs : list Z) :
  length bs = length b → blit (a ++ b ++ c) (zlen a) bs = Ret (a ++ bs ++ c).
Proof.
  intros Hl. rewrite blit_in; [| apply zlen_nonneg |]; last first.
  { rewrite !zlen_app. pose proof (zlen_nonneg c). unfold zlen. lia. }
  unfold splice, zlen. rewrite Nat2Z.id, take_app_length.
  rewrite drop_app_add', Hl, drop_app_length; done.
Qed.

(** ** Integers as bytes *)
Fixpoint le_bytes (n : nat) (z : Z) : list Z :=
  match n with
  | O => []
  | S n' => Z.land z 255 :: le_bytes n' (Z.shiftr z 8)
  end.

Fixpoint le_val (bs : list Z) : Z :=
  match bs with
  | [] => 0
  | b :: bs' => b + 256 * le_val bs'
  end.

Definition be_bytes (n : nat) (z : Z) : list Z := rev (le_bytes n z).
Definition be_val (bs : list Z) : Z := le_val (rev bs).

Lemma land_255 z : Z.land z 255 = z mod 256.
Proof. change 255 with (Z.ones 8). by rewrite Z.land_ones by lia. Qed.
Lemma shiftr_8 z : Z.shiftr z 8 = z / 256.
Proof. by rewrite Z.shiftr_div_pow2 by lia. Qed.

Lemma length_le_bytes n z : length (le_bytes n z) = n.
Proof. revert z. induction n; intros; simpl; auto. Qed.
Lemma length_be_bytes n z : length (be_bytes n z) = n.
Proof. unfold be_bytes. by rewrite length_rev, length_le_bytes. Qed.

Lemma le_bytes_is_bytes n z : is_bytes (le_bytes n z).
Proof.
  revert z. induction n; intros; simpl; constructor; [|apply IHn].
  rewrite land_255. unfold is_u8. change (2 ^ 8) with 256. apply Z.mod_pos_bound. lia.
Qed.

Lemma le_val_bytes n z : le_val (le_bytes n z) = z mod 256 ^ Z.of_nat n.
Proof.
  revert z. induction n as [|n IH]; intros z.
  - simpl. by rewrite Z.mod_1_r.
  - cbn [le_bytes le_val]. rewrite IH, land_255, shiftr_8, Nat2Z.inj_succ, Z.pow_succ_r by lia.
    rewrite Z.rem_mul_r; lia.
Qed.

Lemma le_val_range bs : is_bytes bs → 0 ≤ le_val bs < 256 ^ Z.of_nat (length bs).
Proof.
  induction 1 as [|b bs Hb Hbs IH]; [simpl; lia|].
  cbn [le_val length]. rewrite Nat2Z.inj_succ, Z.pow_succ_r by lia.
  unfold is_u8 in Hb. lia.
Qed.

Lemma le_bytes_val bs : is_bytes bs → le_bytes (length bs) (le_val bs) = bs.
Proof.
  induction 1 as [|b bs Hb Hbs IH]; [done|].
  cbn [le_bytes le_val length]. unfold is_u8 in Hb.
  rewrite land_255, shiftr_8. f_equal.
  - rewrite Z.mul_comm, Z.mod_add by lia. apply Z.mod_small. lia.
  - rewrite Z.mul_comm, Z.div_add by lia.
    rewrite (Z.div_small b 256) by lia. by rewrite Z.add_0_l.
Qed.

Lemma be_val_bytes n z : be_val (be_bytes n z) = z mod 256 ^ Z.of_nat n.
Proof. unfold be_val, be_bytes. by rewrite rev_involutive, le_val_bytes. Qed.

Lemma be_bytes_S n z : be_bytes (S n) z = be_bytes n (Z.shiftr z 8) ++ [Z.land z 255].
Proof. done. Qed.

Lemma le_val_app a b : le_val (a ++ b) = le_val a + 256 ^ Z.of_nat (length a) * le_val b.
Proof.
  induction a as [|x a IH]; cbn [app le_val length]; [simpl; lia|].
  rewrite IH, Nat2Z.inj_succ, Z.pow_succ_r by lia. lia.
Qed.

Lemma be_val_cons b bs : be_val (b :: bs) = b * 256 ^ Z.of_nat (length bs) + be_val bs.
Proof.
  unfold be_val. cbn [rev]. rewrite le_val_app, length_rev. simpl. lia.
Qed.

Lemma le_bytes_app a b z :
  le_bytes (a + b) z = le_bytes a z ++ le_bytes b (Z.shiftr z (8 * Z.of_nat a)).
Proof.
  revert z. induction a as [|a IH]; intros z; cbn [Nat.add le_bytes app].
  - by rewrite Z.mul_0_r, Z.shiftr_0_r.
  - rewrite IH, Z.shiftr_shiftr by lia. do 4 f_equal. lia.
Qed.

Lemma le_bytes_0 n : le_bytes n 0 = replicate n 0.
Proof. induction n as [|n IH]; [done|]. cbn [le_bytes replicate]. by rewrite <-IH. Qed.

(** A number that fits [a] bytes, written on more. *)
Lemma le_bytes_pad a b z :
  0 ≤ z < 256 ^ Z.of_nat a → le_bytes (a + b) z = le_bytes a z ++ replicate b 0.
Proof.
  intros Hz. rewrite le_bytes_app, Z.shiftr_div_pow2 by lia.
  rewrite Z.pow_mul_r by lia. change (2 ^ 8) with 256.
  by rewrite Z.div_small, le_bytes_0.
Qed.

(** ** Byte order: [htonl], [ntohl], [htons] and [ntohs] of a little-endian host *)
Definition htonl (z : Z) : Z := le_val (be_bytes 4 z).
Definition ntohl (z : Z) : Z := le_val (be_bytes 4 z).
Definition htons (z : Z) : Z := le_val (be_bytes 2 z).
Definition ntohs (z : Z) : Z := le_val (be_bytes 2 z).

Lemma swap_involutive n z :
  0 ≤ z < 256 ^ Z.of_nat n →
  le_val (be_bytes n (le_val (be_bytes n z))) = z.
Proof.
  intros Hz. unfold be_bytes at 1.
  assert (Hb : is_bytes (be_bytes n z)) by apply Forall_rev, le_bytes_is_bytes.
  pose proof (le_bytes_val _ Hb) as E. rewrite length_be_bytes in E. rewrite E.
  unfold be_bytes. rewrite rev_involutive, le_val_bytes. by apply Z.mod_small.
Qed.

Lemma swap_range n z : 0 ≤ le_val (be_bytes n z) < 256 ^ Z.of_nat n.
Proof.
  pose proof (le_val_range (be_bytes n z)) as H. rewrite length_be_bytes in H.
  apply H, Forall_rev, le_bytes_is_bytes.
Qed.

Lemma ntohl_htonl z : is_u32 z → ntohl (htonl z) = z.
Proof. apply (swap_involutive 4). Qed.
Lemma htonl_ntohl z : is_u32 z → htonl (ntohl z) = z.
Proof. apply (swap_involutive 4). Qed.
Lemma ntohs_htons z : is_u16 z → ntohs (htons z) = z.
Proof. apply (swap_involutive 2). Qed.
Lemma htonl_range z : is_u32 (htonl z).
Proof. apply (swap_range 4). Qed.
Lemma htons_range z : is_u16 (htons z).
Proof. apply (swap_range 2). Qed.

#[export] Hint Resolve htonl_range htons_range le_bytes_is_bytes zlen_nonneg : dhcp.

(** ** Disjoint bit fields *)
Lemma lor_shiftl_add hi lo k :
  0 ≤ k → 0 ≤ lo < 2 ^ k → Z.lor (Z.shiftl hi k) lo = hi * 2 ^ k + lo.
Proof.
  intros Hk Hlo. rewrite <-Z.shiftl_mul_pow2 by done. rewrite <-Z.add_lor_land.
  enough (Z.land (Z.shiftl hi k) lo = 0) by lia.
  destruct (decide (lo = 0)) as [->|]; [apply Z.land_0_r|].
  apply Z.bits_inj'. intros i Hi. rewrite Z.land_spec, Z.bits_0.
  destruct (Z.ltb_spec i k).
  - by rewrite Z.shiftl_spec_low.
  - rewrite (Z.bits_above_log2 lo i); [by rewrite andb_false_r | lia |].
    apply Z.log2_lt_pow2; [lia|]. apply Z.lt_le_trans with (2 ^ k); [lia|].
    apply Z.pow_le_mono_r; lia.
Qed.

(** The four octets of an address and the address they make. *)
Lemma octets_combine a b c d :
  is_u8 a → is_u8 b → is_u8 c → is_u8 d →
  Z.lor (Z.lor (Z.lor (Z.shiftl a 24) (Z.shiftl b 16)) (Z.shiftl c 8)) d =
  a * 2 ^ 24 + b * 2 ^ 16 + c * 2 ^ 8 + d.
Proof.
  unfold is_u8. intros. rewrite <-!Z.lor_assoc.
  rewrite (lor_shiftl_add c d 8) by lia.
  rewrite (lor_shiftl_add b _ 16), (lor_shiftl_add a _ 24);
    change (2 ^ 24) with 16777216; change (2 ^ 16) with 65536;
    change (2 ^ 8) with 256 in *; lia.
Qed.

Lemma octets_split z : is_u32 z →
  Z.land (Z.shiftr z 24) 255 * 2 ^ 24 + Z.land (Z.shiftr z 16) 255 * 2 ^ 16 +
  Z.land (Z.shiftr z 8) 255 * 2 ^ 8 + Z.land z 255 = z.
Proof.
  unfold is_u32. intros Hz. rewrite !land_255, !Z.shiftr_div_pow2 by lia.
  change (2 ^ 24) with 16777216. change (2 ^ 16) with 65536. change (2 ^ 8) with 256.
  change (2 ^ 32) with 4294967296 in Hz.
  Z.div_mod_to_equations. lia.
Qed.
