(* ===== verification/Llist.v ===== *)
(** The linked list of [utils/llist.c]: nodes and list headers as cells of a
    heap, reached through pointers.  The representation predicate [is_llist]
    relates a header to the sequence of data pointers it holds; the theorems
    show that every operation implements the operation on sequences, which is
    what the other files use for their lists. *)
From S2P Require Import Prelude.

(** ** The heap *)
Abbreviation loc := positive.

Record llnode := Node { n_data : loc; n_next : option loc; n_free : bool }.
Record llist := List_ { first : option loc; last_ : option loc }.

(** A cell is a node, a list header, or an object stored in a list. *)
Inductive cell := CNode (n : llnode) | CList (l : llist) | CData.

Abbreviation heap := (gmap loc cell).

(** [calloc]: a cell at an address that is not in use. *)
Definition alloc (c : cell) : prog heap loc := λ h,
  let l := fresh (dom h) in Ret (l, <[l := c]> h).

(** [free] *)
Definition free (l : loc) : prog heap () := λ h,
  match h !! l with Some _ => Ret ((), delete l h) | None => Undef UseAfterFree end.

Definition load_node (l : loc) : prog heap llnode := λ h,
  match h !! l with Some (CNode n) => Ret (n, h) | _ => Undef UseAfterFree end.
Definition load_list (l : loc) : prog heap llist := λ h,
  match h !! l with Some (CList x) => Ret (x, h) | _ => Undef UseAfterFree end.
Definition store (l : loc) (c : cell) : prog heap () := λ h,
  match h !! l with Some _ => Ret ((), <[l := c]> h) | None => Undef UseAfterFree end.

(** ** Operations *)
Definition llist_new : prog heap (option loc) :=
  list ← alloc (CList (List_ None None));
  mret (Some list).

Definition llist_append (list data : option loc) (free_data : bool) : prog heap Z :=
  match list, data with
  | Some list, Some data =>
      node ← alloc (CNode (Node data None free_data));
      l ← load_list list;
      match first l with
      | None =>
          _ ← store list (CList (List_ (Some node) (Some node)));
          mret 0
      | Some _ =>
          last ← lift (deref (last_ l));
          n ← load_node last;
          _ ← store last (CNode (Node (n_data n) (Some node) (n_free n)));
          _ ← store list (CList (List_ (first l) (Some node)));
          mret 0
      end
  | _, _ => mret (-1)
  end.

(** The [for] loop of [llist_get_index], with [n] iterations to go. *)
Fixpoint get_index_loop (n : nat) (node : option loc) : prog heap (option loc) :=
  match n with
  | O => mret node
  | S n' =>
      p ← lift (deref node);
      x ← load_node p;
      match n_next x with
      | Some next => get_index_loop n' (Some next)
      | None => mret None
      end
  end.

Definition llist_get_index (list : option loc) (index : Z) : prog heap (option loc) :=
  match list with
  | None => mret None
  | Some list =>
      if index <? 0 then mret None else
      l ← load_list list;
      get_index_loop (Z.to_nat index) (first l)
  end.

(** The [while (node)] loop of [llist_clear]. *)
Fixpoint clear_loop (fuel : nat) (node : option loc) : prog heap () :=
  match node with
  | None => mret ()
  | Some p =>
      match fuel with
      | O => λ _, NoFuel
      | S fuel' =>
          n ← load_node p;
          _ ← (if n_free n then free (n_data n) else mret ());
          _ ← free p;
          clear_loop fuel' (n_next n)
      end
  end.

Definition llist_clear (fuel : nat) (list : option loc) : prog heap () :=
  match list with
  | None => mret ()
  | Some list =>
      l ← load_list list;
      _ ← clear_loop fuel (first l);
      store list (CList (List_ None None))
  end.

(** [llist_destroy]: the result is the pointer it leaves in [*list_ptr]. *)
Definition llist_destroy (fuel : nat) (list : option loc) : prog heap (option loc) :=
  match list with
  | None => mret None
  | Some l =>
      _ ← llist_clear fuel (Some l);
      _ ← free l;
      mret None
  end.

(** The [llist_foreach] macro.  [code data acc] is one run of the body on a
    node with that data, with a flag that is [true] when the body leaves the
    loop; [i] is the index of the next node. *)
Fixpoint llist_foreach {T} (fuel : nat) (list : option loc) (i : Z)
    (code : loc → T → bool * T) (acc : T) : prog heap T :=
  match fuel with
  | O => λ _, NoFuel
  | S fuel' =>
      node ← llist_get_index list i;
      match node with
      | None => mret acc
      | Some p =>
          n ← load_node p;
          let '(stop, acc') := code (n_data n) acc in
          if stop then mret acc' else llist_foreach fuel' list (i + 1) code acc'
      end
  end.

(** ** Representation *)

(** [chain h p ns]: the nodes [ns], each an address with its data and flag,
    are linked from [p]. *)
Fixpoint chain (h : heap) (p : option loc) (ns : list (loc * (loc * bool))) : Prop :=
  match ns with
  | [] => p = None
  | (n, (d, f)) :: ns' =>
      p = Some n ∧ ∃ next, h !! n = Some (CNode (Node d next f)) ∧ chain h next ns'
  end.

Definition is_llist_at (h : heap) (l : loc) (ns : list (loc * (loc * bool))) : Prop :=
  (∃ p, h !! l = Some (CList (List_ p (fst <$> last ns))) ∧ chain h p ns) ∧
  NoDup (l :: ns.*1).

(** [is_llist h l ds]: the list at [l] holds the data pointers (with their
    [free] flags) [ds], in order. *)
Definition is_llist (h : heap) (l : loc) (ds : list (loc * bool)) : Prop :=
  ∃ ns, is_llist_at h l ns ∧ ds = ns.*2.

(** Running a body over a sequence until it leaves the loop. *)
Fixpoint fold_until {A T} (code : A → T → bool * T) (ds : list A) (acc : T) : T :=
  match ds with
  | [] => acc
  | d :: ds' => let '(stop, acc') := code d acc in
               if stop then acc' else fold_until code ds' acc'
  end.

(** ** Lemmas on chains *)
Lemma chain_insert h p ns l c :
  l ∉ ns.*1 → chain h p ns → chain (<[l := c]> h) p ns.
Proof.
  revert p. induction ns as [|[n [d f]] ns IH]; intros p Hl Hc; [done|].
  simpl in *. destruct Hc as (-> & nx & Hn & Hc). split; [done|].
  exists nx. rewrite lookup_insert_ne by set_solver. split; [done|].
  apply IH; [set_solver | done].
Qed.

Lemma chain_delete h p ns l : l ∉ ns.*1 → chain h p ns → chain (delete l h) p ns.
Proof.
  revert p. induction ns as [|[n [d f]] ns IH]; intros p Hl Hc; [done|].
  simpl in *. destruct Hc as (-> & nx & Hn & Hc). split; [done|].
  exists nx. rewrite lookup_delete_ne by set_solver. split; [done|].
  apply IH; [set_solver | done].
Qed.


(** Linking a new last node. *)
Lemma chain_snoc h p ns n d f l d' f' :
  NoDup (ns ++ [(n, (d, f))]).*1 → l ∉ (ns ++ [(n, (d, f))]).*1 →
  h !! l = Some (CNode (Node d' None f')) →
  chain h p (ns ++ [(n, (d, f))]) →
  h !! n = Some (CNode (Node d None f)) ∧
  chain (<[n := CNode (Node d (Some l) f)]> h) p ((ns ++ [(n, (d, f))]) ++ [(l, (d', f'))]).
Proof.
  revert p. induction ns as [|[m [e g]] ns IH]; intros p Hnd Hl Hh Hc; simpl in *.
  - destruct Hc as (-> & nx & Hn & ->). split; [exact Hn|]. split; [done|].
    exists (Some l). rewrite lookup_insert_eq. split; [done|]. split; [done|].
    exists None. rewrite lookup_insert_ne; [done|]. intros ->. apply Hl. left.
  - destruct Hc as (-> & nx & Hm & Hc). apply NoDup_cons in Hnd as [Hnm Hnd].
    apply not_elem_of_cons in Hl as [Hlm Hl].
    destruct (IH nx Hnd Hl Hh Hc) as [Hn Hc'].
    split; [done|]. split; [done|]. exists nx.
    rewrite lookup_insert_ne; [done|]. intros ->. apply Hnm.
    rewrite fmap_app. apply elem_of_app. right. left.
Qed.

Lemma chain_lookup h p ns i x :
  chain h p ns → ns !! i = Some x →
  ∃ next, h !! x.1 = Some (CNode (Node x.2.1 next x.2.2)).
Proof.
  revert p i. induction ns as [|[n [d f]] ns IH]; intros p i Hc Hi; [done|].
  simpl in Hc. destruct Hc as (-> & nx & Hn & Hc).
  destruct i as [|i]; simpl in Hi; [injection Hi as <-; eauto | eauto].
Qed.

(** ** Indexing *)
Lemma get_index_loop_spec h ns : ∀ p n,
  chain h p ns → (n ≠ O → ns ≠ []) →
  get_index_loop n p h = Ret (fst <$> ns !! n, h).
Proof.
  induction ns as [|[x [d f]] ns IH]; intros p n Hc Hn; simpl in Hc.
  - subst. destruct n; [done | by destruct Hn].
  - destruct Hc as (-> & nx & Hx & Hc). destruct n as [|n]; [done|].
    simpl. unfold mbind, prog_bind, lift, load_node. simpl. rewrite Hx. simpl.
    destruct nx as [nx|].
    + apply IH; [done|]. intros _ ->. done.
    + destruct ns as [|[y [e g]] ns]; [done|]. simpl in Hc. naive_solver.
Qed.

Lemma llist_get_index_ns h l ns i :
  is_llist_at h l ns → 0 ≤ i → (i ≠ 0 → ns ≠ []) →
  llist_get_index (Some l) i h = Ret (fst <$> ns !! Z.to_nat i, h).
Proof.
  intros [(p & Hl & Hc) _] Hi Hns. unfold llist_get_index.
  destruct (Z.ltb_spec i 0); [lia|].
  unfold mbind, prog_bind, load_list. rewrite Hl. simpl.
  apply get_index_loop_spec; [done|]. intros. apply Hns. lia.
Qed.

(** ** The loop *)
Lemma llist_foreach_ns {T} (code : loc → T → bool * T) h l ns :
  is_llist_at h l ns → ∀ fuel i acc,
  (i ≤ length ns)%nat → (length ns - i < fuel)%nat →
  llist_foreach fuel (Some l) (Z.of_nat i) code acc h =
    Ret (fold_until code (drop i ns.*2.*1) acc, h).
Proof.
  intros Hl. induction fuel as [|fuel IH]; intros i acc Hi Hf; [lia|].
  cbn [llist_foreach]. unfold mbind at 1, prog_bind at 1.
  rewrite (llist_get_index_ns _ _ ns) by (done || lia || (destruct ns; simpl in *; done || lia)).
  rewrite Nat2Z.id. destruct (ns !! i) as [[n [d f]]|] eqn:E; simpl.
  - destruct Hl as [(p & Hlp & Hc) Hnd].
    destruct (chain_lookup _ _ _ _ _ Hc E) as [nx Hn]. simpl in Hn.
    unfold mbind, prog_bind, load_node. rewrite Hn. simpl.
    assert (Hlt : (i < length ns)%nat) by (eapply lookup_lt_Some; eauto).
    assert (Hd : drop i ns.*2.*1 = d :: drop (S i) ns.*2.*1).
    { apply drop_S. by rewrite !list_lookup_fmap, E. }
    rewrite Hd. simpl. destruct (code d acc) as [[] acc']; [done|].
    replace (Z.of_nat i + 1) with (Z.of_nat (S i)) by lia.
    apply IH; lia.
  - apply lookup_ge_None in E. rewrite drop_ge; [done|]. by rewrite !length_fmap.
Qed.

(** ** Clearing *)

(** The objects a list owns: the data appended with [free_data] set. *)
Definition owned (ds : list (loc * bool)) : list loc :=
  (filter (λ d : loc * bool, d.2 = true) ds).*1.

Lemma chain_next_other h p ns l :
  chain h p ns → l ∉ ns.*1 → chain (delete l h) p ns.
Proof. intros. by apply chain_delete. Qed.

(** What a turn and the rest of the loop free together. *)
Lemma cleared_cons (h h' : heap) n (d : loc) (f : bool) (ns : list (loc * (loc * bool))) :
  n ∉ ns.*1 → n ∉ owned ns.*2 → (f = true → d ∉ ns.*1 ∧ d ∉ owned ns.*2) →
  (∀ l, h' !! l = if decide (l ∈ ns.*1 ++ owned ns.*2) then None
                  else delete n (if f then delete d h else h) !! l) →
  ∀ l, h' !! l = if decide (l ∈ ((n, (d, f)) :: ns).*1 ++ owned ((n, (d, f)) :: ns).*2) then None else h !! l.
Proof.
  intros Hnn Hno Hdn Hh' l. rewrite Hh'. unfold owned in *. simpl.
  destruct (decide (l = n)) as [->|Hln].
  { rewrite decide_False by set_solver. rewrite decide_True by set_solver.
    apply lookup_delete_eq. }
  destruct (decide (l ∈ ns.*1 ++ _)) as [Hin|Hin].
  { rewrite decide_True; [done|]. destruct f; simpl; set_solver. }
  rewrite lookup_delete_ne by done.
  destruct f; simpl; [destruct (decide (l = d)) as [->|]|].
  - rewrite decide_True by set_solver. apply lookup_delete_eq.
  - rewrite decide_False by set_solver. by rewrite lookup_delete_ne.
  - rewrite decide_False by set_solver. done.
Qed.

Lemma clear_loop_spec : ∀ ns fuel p h,
  chain h p ns → NoDup (ns.*1 ++ owned ns.*2) →
  (∀ d, d ∈ owned ns.*2 → is_Some (h !! d)) → (length ns ≤ fuel)%nat →
  ∃ h', clear_loop fuel p h = Ret ((), h') ∧
    ∀ l, h' !! l = if decide (l ∈ ns.*1 ++ owned ns.*2) then None else h !! l.
Proof.
  induction ns as [|[n [d f]] ns IH]; intros fuel p h Hc Hnd Hown Hf.
  { simpl in Hc. subst. exists h. split; [by destruct fuel|].
    intros l. by destruct (decide (l ∈ _)) as [?%elem_of_nil|]. }
  simpl in Hc. destruct Hc as (-> & nx & Hn & Hc).
  destruct fuel as [|fuel]; [simpl in Hf; lia|].
  set (h1 := if f then delete d h else h).
  assert (Hnn : n ∉ ns.*1) by (simpl in Hnd; apply NoDup_cons in Hnd as [Hnn _]; set_solver).
  assert (Hdn : f = true → d ≠ n ∧ d ∉ ns.*1 ∧ d ∉ owned ns.*2).
  { intros ->. unfold owned in Hnd. simpl in Hnd.
    apply NoDup_cons in Hnd as [H1 H2]. apply NoDup_app in H2 as (_ & H2 & H3).
    apply NoDup_cons in H3 as [H3 _]. split_and!; [set_solver | | exact H3].
    intros Hd. apply (H2 _ Hd). left. }
  assert (Hnd' : NoDup (ns.*1 ++ owned ns.*2)).
  { unfold owned in *. simpl in Hnd. apply NoDup_cons in Hnd as [_ Hnd].
    destruct f; simpl in Hnd; [|done].
    apply NoDup_app in Hnd as (? & H2 & H3). apply NoDup_cons in H3 as [_ H3].
    apply NoDup_app. split_and!; [done | set_solver | done]. }
  assert (Hno : n ∉ owned ns.*2).
  { simpl in Hnd. apply NoDup_cons in Hnd as [H1 _]. unfold owned in *.
    destruct f; simpl in H1; set_solver. }
  assert (Hn1 : h1 !! n = Some (CNode (Node d nx f))).
  { subst h1. destruct f; [rewrite lookup_delete_ne by naive_solver|]; done. }
  destruct (IH fuel nx (delete n h1)) as (h' & Hrun & Hh').
  { apply chain_delete; [done|]. subst h1. destruct f; [|done].
    apply chain_delete; [naive_solver|done]. }
  { done. }
  { intros e He. rewrite lookup_delete_ne by set_solver. subst h1.
    assert (is_Some (h !! e)) by (apply Hown; unfold owned in *; destruct f; set_solver).
    destruct f; [rewrite lookup_delete_ne by naive_solver|]; done. }
  { simpl in Hf. lia. }
  exists h'. split.
  - cbn [clear_loop]. unfold mbind, prog_bind, load_node. rewrite Hn. simpl.
    destruct f; simpl.
    + unfold free. destruct (Hown d) as [c Hd]; [unfold owned; set_solver|].
      rewrite Hd. fold h1. rewrite Hn1. done.
    + unfold free. fold h1. rewrite Hn1. done.
  - apply cleared_cons; [done | done | naive_solver | exact Hh'].
Qed.

Lemma last_fmap_chain h p ns :
  chain h p ns → p = fst <$> head ns.
Proof. destruct ns as [|[n [d f]] ns]; [done|]. by intros [-> _]. Qed.

Lemma llist_append_ns h l ns d f :
  is_llist_at h l ns →
  ∃ n h', llist_append (Some l) (Some d) f h = Ret (0, h') ∧
    n ∉ dom h ∧ is_llist_at h' l (ns ++ [(n, (d, f))]) ∧
    (∀ x, x ∉ l :: n :: ns.*1 → h' !! x = h !! x).
Proof.
  intros [(p & Hl & Hc) Hnd]. apply NoDup_cons in Hnd as [Hln Hnd].
  set (n := fresh (dom h)). set (h1 := <[n := CNode (Node d None f)]> h).
  assert (Hnf : n ∉ dom h) by apply is_fresh.
  assert (Hnl : n ≠ l) by (intros E; apply Hnf; rewrite E; apply elem_of_dom; eauto).
  assert (Hnns : n ∉ ns.*1).
  { intros (x & Hx & Hin)%list_elem_of_fmap. apply list_elem_of_lookup in Hin as [i Hi].
    destruct (chain_lookup _ _ _ _ _ Hc Hi) as [nx Hnx].
    apply Hnf. rewrite Hx. apply elem_of_dom. eauto. }
  assert (Hl1 : h1 !! l = Some (CList (List_ p (fst <$> last ns)))).
  { subst h1. by rewrite lookup_insert_ne. }
  assert (Hc1 : chain h1 p ns) by by apply chain_insert.
  assert (Hnd' : NoDup (l :: (ns ++ [(n, (d, f))]).*1)).
  { rewrite fmap_app. apply NoDup_cons. split.
    - apply not_elem_of_app. split; [done|]. simpl. set_solver.
    - apply NoDup_app. split_and!; [done | set_solver | apply NoDup_singleton]. }
  destruct ns as [|[m [e g]] ms _] using rev_ind.
  - simpl in Hc, Hl1. subst p. exists n, (<[l := CList (List_ (Some n) (Some n))]> h1).
    split; [|split; [done|split; [split; [|done]|]]].
    + unfold llist_append, mbind, prog_bind, alloc, load_list. fold n h1.
      rewrite Hl1. simpl. unfold store. by rewrite Hl1.
    + exists (Some n). rewrite lookup_insert_eq. split; [done|]. simpl. split; [done|].
      exists None. rewrite lookup_insert_ne by done. subst h1. by rewrite lookup_insert_eq.
    + intros x Hx. subst h1. rewrite !lookup_insert_ne by set_solver. done.
  - rewrite last_snoc in Hl1. simpl in Hl1.
    destruct (chain_snoc h1 p ms m e g n d f) as [Hm Hc2]; try done.
    { subst h1. apply lookup_insert_eq. }
    assert (Hp : is_Some p).
    { rewrite (last_fmap_chain _ _ _ Hc). destruct ms as [|[? [? ?]]]; simpl; eauto. }
    destruct Hp as [p0 ->].
    set (h2 := <[m := CNode (Node e (Some n) g)]> h1).
    assert (Hml : m ≠ l) by (intros ->; apply Hln; rewrite fmap_app; set_solver).
    exists n, (<[l := CList (List_ (Some p0) (Some n))]> h2).
    split; [|split; [done|split; [split; [|done]|]]].
    + unfold llist_append, mbind, prog_bind, alloc, load_list. fold n h1.
      rewrite Hl1. simpl. unfold load_node, store. rewrite Hm. simpl.
      rewrite Hm, lookup_insert_ne by done. by rewrite Hl1.
    + exists (Some p0). rewrite lookup_insert_eq, last_snoc. split; [done|].
      apply chain_insert; [|exact Hc2]. by apply NoDup_cons in Hnd' as [? _].
    + intros x Hx. subst h2 h1. rewrite fmap_app in Hx.
      rewrite !lookup_insert_ne by set_solver. done.
Qed.

(** ** Theorems *)

(** C36. [llist_append] on a list that represents [ds] succeeds and leaves the
    list representing [ds] with the new data at the end; cells that do not
    belong to the list keep their contents. *)
Theorem llist_append_refines h l ns d f :
  is_llist_at h l ns →
  ∃ n h', llist_append (Some l) (Some d) f h = Ret (0, h') ∧
    is_llist h' l (ns.*2 ++ [(d, f)]) ∧
    (∀ x, x ∈ dom h → x ∉ l :: ns.*1 → x ≠ n ∧ h' !! x = h !! x).
Proof.
  intros H. destruct (llist_append_ns _ _ _ d f H) as (n & h' & E & Hn & H' & Hfr).
  exists n, h'. split; [done|]. split.
  - exists (ns ++ [(n, (d, f))]). by rewrite fmap_app.
  - intros x Hx Hxn. assert (x ≠ n) by (intros ->; done).
    split; [done|]. apply Hfr. set_solver.
Qed.

(** [llist_foreach] over a list that represents [ds] runs its body on the
    data pointers of [ds] in order, until the body leaves the loop, and ends:
    one iteration more than the list has elements is enough. *)
Theorem llist_foreach_refines {T} (code : loc → T → bool * T) h l ds fuel acc :
  is_llist h l ds → (length ds < fuel)%nat →
  llist_foreach fuel (Some l) 0 code acc h = Ret (fold_until code ds.*1 acc, h).
Proof.
  intros (ns & H & ->) Hf. rewrite length_fmap in Hf.
  change 0 with (Z.of_nat 0). rewrite (llist_foreach_ns code h l ns) by (done || lia).
  by rewrite drop_0.
Qed.

(** [llist_get_index] returns the node of the element at that index, and
    NULL past the end of a list that is not empty. *)
Theorem llist_get_index_refines h l ns i :
  is_llist_at h l ns → 0 ≤ i → (i ≠ 0 → ns ≠ []) →
  llist_get_index (Some l) i h = Ret (fst <$> ns !! Z.to_nat i, h).
Proof. apply llist_get_index_ns. Qed.

(** [llist_clear] ends, leaves an empty list, frees each node and each
    owned object once and changes nothing else. *)
Theorem llist_clear_refines h l ns fuel :
  is_llist_at h l ns →
  NoDup (l :: ns.*1 ++ owned ns.*2) →
  (∀ d, d ∈ owned ns.*2 → is_Some (h !! d)) → (length ns ≤ fuel)%nat →
  ∃ h', llist_clear fuel (Some l) h = Ret ((), h') ∧ is_llist h' l [] ∧
    ∀ x, x ≠ l →
      h' !! x = if decide (x ∈ ns.*1 ++ owned ns.*2) then None else h !! x.
Proof.
  intros [(p & Hl & Hc) _] Hnd Hown Hf. apply NoDup_cons in Hnd as [Hln Hnd].
  destruct (clear_loop_spec ns fuel p h) as (h' & Hrun & Hh'); try done.
  assert (Hl' : h' !! l = h !! l) by by rewrite Hh', decide_False.
  exists (<[l := CList (List_ None None)]> h'). split_and!.
  - unfold llist_clear, mbind, prog_bind, load_list. rewrite Hl. simpl.
    rewrite Hrun. unfold store. by rewrite Hl', Hl.
  - exists []. split; [|done]. split; [|apply NoDup_singleton].
    exists None. by rewrite lookup_insert_eq.
  - intros x Hx. by rewrite lookup_insert_ne.
Qed.

(** ** Witnesses: a list of two elements that owns the first *)
Definition sample_nodes : list (loc * (loc * bool)) :=
  [(2%positive, (10%positive, true)); (3%positive, (11%positive, false))].

Definition sample_list_heap : heap :=
  <[1%positive := CList (List_ (Some 2%positive) (Some 3%positive))]>
  (<[2%positive := CNode (Node 10 (Some 3%positive) true)]>
  (<[3%positive := CNode (Node 11 None false)]>
  (<[10%positive := CData]> {[11%positive := CData]}))).

Lemma sample_is_llist : is_llist_at sample_list_heap 1 sample_nodes.
Proof.
  split; [|by apply (bool_decide_unpack _)].
  exists (Some 2%positive). split; [done|]. split; [done|]. eexists. split; [done|].
  split; [done|]. by eexists.
Qed.

Lemma llist_append_refines_witness : ∃ h', llist_append (Some 1%positive) (Some 11%positive) false sample_list_heap
    = Ret (0, h') ∧ is_llist h' 1 [(10%positive, true); (11%positive, false); (11%positive, false)].
Proof.
  destruct (llist_append_refines sample_list_heap 1 sample_nodes 11 false sample_is_llist)
    as (n & h' & H & Hl & _).
  exists h'. split; [exact H | exact Hl].
Defined.

Lemma llist_foreach_refines_witness :
  llist_foreach 3 (Some 1%positive) 0 (λ d acc, (false, acc ++ [d])) [] sample_list_heap =
  Ret ([10%positive; 11%positive], sample_list_heap).
Proof.
  rewrite (llist_foreach_refines (λ d acc, (false, acc ++ [d])) sample_list_heap 1 (sample_nodes.*2) 3 []).
  - vm_compute. reflexivity.
  - exists sample_nodes. split; [exact sample_is_llist | reflexivity].
  - simpl. lia.
Defined.

Lemma llist_get_index_refines_witness :
  llist_get_index (Some 1%positive) 1 sample_list_heap = Ret (Some 3%positive, sample_list_heap) ∧
  llist_get_index (Some 1%positive) 2 sample_list_heap = Ret (None, sample_list_heap).
Proof.
  split; [apply (llist_get_index_refines sample_list_heap 1 sample_nodes 1)
        | apply (llist_get_index_refines sample_list_heap 1 sample_nodes 2)];
    try exact sample_is_llist; first [lia | discriminate].
Defined.

Lemma llist_clear_refines_witness : ∃ h',
  llist_clear 2 (Some 1%positive) sample_list_heap = Ret ((), h') ∧ is_llist h' 1 [] ∧
  h' !! 10%positive = None.
Proof.
  destruct (llist_clear_refines sample_list_heap 1 sample_nodes 2 sample_is_llist) as (h' & H & Hl & Hx).
  - apply (bool_decide_unpack _). vm_compute. exact I.
  - intros d Hd. apply list_elem_of_singleton in Hd as ->. by eexists.
  - simpl. lia.
  - exists h'. split; [exact H|]. split; [exact Hl|]. rewrite Hx by discriminate. reflexivity.
Defined.
