(* ===== verification/Xtoy.v ===== *)
(** Addresses as text, [utils/xtoy.c]: the [%u] and [%02x] conversions of
    [snprintf] and [sscanf] the file uses, and the conversions built on them. *)
From S2P Require Import Prelude Bytes.
From Stdlib Require Import Ascii String.
Local Open Scope string_scope.
Local Open Scope Z_scope.

(** ** Characters *)

(** The ranges of [isdigit], [toupper] and [tolower] in the C locale. *)
Definition code (c : ascii) : Z := Z.of_N (N_of_ascii c).
Definition isdigit (c : ascii) : bool := (48 <=? code c) && (code c <=? 57).
Definition toupper (c : ascii) : Z :=
  if (97 <=? code c) && (code c <=? 122) then code c - 32 else code c.
Definition tolower (c : ascii) : ascii :=
  if (65 <=? code c) && (code c <=? 90) then ascii_of_N (Z.to_N (code c + 32)) else c.

Fixpoint all_chars (p : ascii → bool) (s : string) : bool :=
  match s with
  | EmptyString => true
  | String c s => p c && all_chars p s
  end.

Fixpoint map_chars (f : ascii → ascii) (s : string) : string :=
  match s with
  | EmptyString => EmptyString
  | String c s => String (f c) (map_chars f s)
  end.

(** ** Character arrays *)
Definition byte_char (b : Z) : ascii := ascii_of_N (Z.to_N b).

Definition bytes_string (bs : list Z) : string :=
  string_of_list_ascii (byte_char <$> bs).

(** The string an array holds: the characters up to the terminating zero. *)
Fixpoint c_string (bs : list Z) : result string :=
  match bs with
  | [] => Undef OutOfBounds
  | b :: bs => if b =? 0 then Ret EmptyString
               else s ← c_string bs; mret (String (byte_char b) s)
  end.

(** ** [%u] *)
Definition digit (d : Z) : ascii := ascii_of_N (Z.to_N (48 + d)).

(** The decimal digits of [n] before [acc]; 10 digits are enough for 32 bits. *)
Fixpoint dec_digits (fuel : nat) (n : Z) (acc : string) : string :=
  match fuel with
  | O => acc
  | S f => let acc' := String (digit (n mod 10)) acc in
           if n <? 10 then acc' else dec_digits f (n / 10) acc'
  end.

Definition print_u (n : Z) : string := dec_digits 10 n "".

Definition is_space (c : ascii) : bool :=
  let n := N_of_ascii c in ((9 <=? n) && (n <=? 13) || (n =? 32))%N.

Definition digit_val (c : ascii) : option Z :=
  let n := Z.of_N (N_of_ascii c) in
  if (48 <=? n) && (n <=? 57) then Some (n - 48) else None.

Fixpoint skip_space (s : string) : string :=
  match s with
  | String c s' => if is_space c then skip_space s' else s
  | EmptyString => s
  end.

Fixpoint scan_digits (s : string) (acc : Z) : Z * string :=
  match s with
  | String c s' => match digit_val c with
                   | Some d => scan_digits s' (10 * acc + d)
                   | None => (acc, s)
                   end
  | EmptyString => (acc, s)
  end.

Definition scan_sign (s : string) : bool * string :=
  match s with
  | String c s' => if Ascii.eqb c "-" then (true, s')
                   else if Ascii.eqb c "+" then (false, s') else (false, s)
  | EmptyString => (false, s)
  end.

(** What [sscanf] stores for [%u]: the value of [strtoul], which stays at
    [ULONG_MAX] when it overflows and is negated after a minus sign. *)
Definition scan_u (s : string) : option (Z * string) :=
  let '(neg, s1) := scan_sign (skip_space s) in
  match s1 with
  | String c _ =>
      match digit_val c with
      | Some _ =>
          let '(v, rest) := scan_digits s1 0 in
          let v := Z.min v (2 ^ 64 - 1) in
          Some (u32 (if (neg : bool) then - v else v), rest)
      | None => None
      end
  | EmptyString => None
  end.

(** A literal character of the format. *)
Definition scan_char (c : ascii) (s : string) : option string :=
  match s with
  | String c' s' => if Ascii.eqb c c' then Some s' else None
  | EmptyString => None
  end.

(** ** IPv4 addresses *)
Definition uint32_to_ipv4_address (a : Z) : string :=
  print_u (Z.land (Z.shiftr a 24) 255) ++ "." ++
  print_u (Z.land (Z.shiftr a 16) 255) ++ "." ++
  print_u (Z.land (Z.shiftr a 8) 255) ++ "." ++
  print_u (Z.land a 255).

Definition scan_ipv4 (s : string) : option (Z * Z * Z * Z) :=
  '(a, s) ← scan_u s; s ← scan_char "." s;
  '(b, s) ← scan_u s; s ← scan_char "." s;
  '(c, s) ← scan_u s; s ← scan_char "." s;
  '(d, _) ← scan_u s;
  Some (a, b, c, d).

Definition ipv4_address_to_uint32 (s : string) : Z :=
  match scan_ipv4 s with
  | Some (a, b, c, d) =>
      Z.lor (Z.lor (Z.lor (u32 (Z.shiftl a 24)) (u32 (Z.shiftl b 16))) (u32 (Z.shiftl c 8))) d
  | None => 0
  end.

(** ** MAC addresses *)
Definition hex_digit (d : Z) : ascii :=
  if d <? 10 then ascii_of_N (Z.to_N (48 + d)) else ascii_of_N (Z.to_N (87 + d)).

(** [%02x] of a byte *)
Definition print_02x (b : Z) : string :=
  String (hex_digit (b / 16)) (String (hex_digit (b mod 16)) "").

(** [%08lx] and, below 2^32, [%08x]: at least 8 digits; 16 are enough for 64
    bits. *)
Fixpoint hex_digits (fuel : nat) (n : Z) (acc : string) : string :=
  match fuel with
  | O => acc
  | S f => let acc' := String (hex_digit (n mod 16)) acc in
           if n <? 16 then acc' else hex_digits f (n / 16) acc'
  end.

Fixpoint zero_pad (n : nat) (s : string) : string :=
  match n with O => s | S n => String "0" (zero_pad n s) end.

Definition print_08x (n : Z) : string :=
  let s := hex_digits 16 n "" in zero_pad (8 - String.length s) s.

Definition uint8_array_to_mac (mac : list Z) : result string :=
  m0 ← rd mac 0; m1 ← rd mac 1; m2 ← rd mac 2;
  m3 ← rd mac 3; m4 ← rd mac 4; m5 ← rd mac 5;
  mret (print_02x m0 ++ ":" ++ print_02x m1 ++ ":" ++ print_02x m2 ++ ":" ++
        print_02x m3 ++ ":" ++ print_02x m4 ++ ":" ++ print_02x m5).

Definition hex_val (c : ascii) : option Z :=
  let n := Z.of_N (N_of_ascii c) in
  if (48 <=? n) && (n <=? 57) then Some (n - 48)
  else if (97 <=? n) && (n <=? 102) then Some (n - 87)
  else if (65 <=? n) && (n <=? 70) then Some (n - 55)
  else None.

Definition is_x (c : ascii) : bool := Ascii.eqb c "x" || Ascii.eqb c "X".

(** [%02x] of [sscanf]: two characters at most, a sign among them; "0x" with
    no digit after it does not match. *)
Definition scan_02x (s : string) : option (Z * string) :=
  match skip_space s with
  | String c s1 =>
      match hex_val c with
      | Some v =>
          match s1 with
          | String d s2 =>
              match hex_val d with
              | Some w => Some (16 * v + w, s2)
              | None => if (v =? 0) && is_x d then None else Some (v, s1)
              end
          | EmptyString => Some (v, s1)
          end
      | None =>
          if Ascii.eqb c "-" || Ascii.eqb c "+" then
            match s1 with
            | String d s2 =>
                match hex_val d with
                | Some w => Some (u32 (if Ascii.eqb c "-" then - w else w), s2)
                | None => None
                end
            | EmptyString => None
            end
          else None
      end
  | EmptyString => None
  end.

(** The conversions of "%02x:%02x:...": the values stored before the first
    one that fails; [n] conversions are left. *)
Fixpoint scan_mac (n : nat) (s : string) : list Z :=
  match n with
  | O => []
  | S n' =>
      match scan_02x s with
      | Some (v, s') =>
          v :: match n' with
               | O => []
               | _ => match scan_char ":" s' with Some s'' => scan_mac n' s'' | None => [] end
               end
      | None => []
      end
  end.

(** [array] keeps the bytes that no conversion stored. *)
Definition mac_to_uint8_array (mac : string) (array : list Z) : result (list Z) :=
  blit array 0 (u8 <$> scan_mac 6 mac).

Example print_addr : uint32_to_ipv4_address 3232235876 = "192.168.1.100".
Proof. reflexivity. Qed.
Example scan_addr : ipv4_address_to_uint32 "192.168.1.100/24" = 3232235876.
Proof. reflexivity. Qed.
Example scan_bad : ipv4_address_to_uint32 "192.168.1" = 0.
Proof. reflexivity. Qed.

(** ** Printing then scanning *)

(** Case analysis on a decimal digit. *)
Ltac digit_cases d :=
  let Hc := fresh in
  assert (d = 0 ∨ d = 1 ∨ d = 2 ∨ d = 3 ∨ d = 4 ∨ d = 5 ∨ d = 6 ∨ d = 7 ∨ d = 8 ∨ d = 9)
    as Hc by lia;
  repeat destruct Hc as [->|Hc]; subst; try reflexivity.

Lemma digit_val_digit d : 0 ≤ d < 10 → digit_val (digit d) = Some d.
Proof.
  intros Hd. digit_cases d.
Qed.

Lemma digit_no_space d : 0 ≤ d < 10 → is_space (digit d) = false.
Proof.
  intros Hd. digit_cases d.
Qed.

(** A byte is printed with at most three digits. *)
Lemma print_byte n : is_u8 n → ∃ d0 d, 0 ≤ d0 < 10 ∧
  (print_u n = String (digit d0) "" ∧ n = d0 ∨
   (∃ d1, 0 ≤ d1 < 10 ∧ print_u n = String (digit d0) (String (digit d1) "") ∧ n = 10 * d0 + d1) ∨
   (∃ d1, 0 ≤ d1 < 10 ∧ 0 ≤ d < 10 ∧
      print_u n = String (digit d0) (String (digit d1) (String (digit d) "")) ∧
      n = 10 * (10 * d0 + d1) + d)).
Proof.
  unfold is_u8. change (2 ^ 8) with 256. intros Hn.
  unfold print_u. cbn [dec_digits].
  destruct (Z.ltb_spec n 10).
  { exists (n mod 10), 0. rewrite Z.mod_small by lia. split; [lia|]. by left. }
  destruct (Z.ltb_spec (n / 10) 10) as [H1|H1].
  { exists ((n / 10) mod 10), 0. split; [apply Z.mod_pos_bound; lia|]. right. left.
    exists (n mod 10). split; [apply Z.mod_pos_bound; lia|]. split; [done|].
    Z.div_mod_to_equations. lia. }
  destruct (Z.ltb_spec (n / 10 / 10) 10) as [H2|H2]; [|Z.div_mod_to_equations; lia].
  exists ((n / 10 / 10) mod 10), (n mod 10). split; [apply Z.mod_pos_bound; lia|].
  right. right. exists ((n / 10) mod 10).
  split_and!; try (apply Z.mod_pos_bound; lia); [done|]. Z.div_mod_to_equations. lia.
Qed.

Definition stops (s : string) : Prop :=
  match s with String c _ => digit_val c = None | EmptyString => True end.

Lemma scan_digits_stop s acc : stops s → scan_digits s acc = (acc, s).
Proof. destruct s as [|c s]; simpl; [done|]. by intros ->. Qed.

Lemma digit_no_sign d s : 0 ≤ d < 10 →
  scan_sign (String (digit d) s) = (false, String (digit d) s).
Proof.
  intros Hd. digit_cases d.
Qed.

Lemma scan_u_digits d0 s v rest :
  0 ≤ d0 < 10 → scan_digits s d0 = (v, rest) → 0 ≤ v < 2 ^ 32 →
  scan_u (String (digit d0) s) = Some (v, rest).
Proof.
  intros Hd Hs Hv. unfold scan_u. cbn [skip_space]. rewrite digit_no_space by done.
  rewrite digit_no_sign by done.
  rewrite digit_val_digit by done. cbn [scan_digits]. rewrite digit_val_digit by done.
  replace (10 * 0 + d0) with d0 by lia. rewrite Hs.
  rewrite Z.min_l by lia. by rewrite u32_small.
Qed.

Lemma scan_u_print n s : is_u8 n → stops s → scan_u (print_u n ++ s) = Some (n, s).
Proof.
  intros Hn Hs. destruct (print_byte n Hn) as (d0 & d & H0 & Hc).
  unfold is_u8 in Hn. change (2 ^ 8) with 256 in Hn.
  destruct Hc as [[-> ->]|[(d1 & H1 & -> & ->)|(d1 & H1 & H2 & -> & ->)]]; simpl.
  - apply scan_u_digits; [done | by apply scan_digits_stop | lia].
  - apply scan_u_digits; [done | | lia]. simpl. rewrite digit_val_digit by done.
    by apply scan_digits_stop.
  - apply scan_u_digits; [done | | lia]. simpl. rewrite !digit_val_digit by done.
    by apply scan_digits_stop.
Qed.

Lemma land_255_u8 z : is_u8 (Z.land z 255).
Proof. rewrite land_255. unfold is_u8. change (2 ^ 8) with 256. apply Z.mod_pos_bound. lia. Qed.

Lemma string_app_assoc (a b c : string) : a ++ (b ++ c) = (a ++ b) ++ c.
Proof. induction a as [|x a IH]; [done|]. exact (f_equal (String x) IH). Qed.

Lemma string_app_nil (a : string) : a ++ "" = a.
Proof. induction a as [|c a IH]; [done|].
  change (String c (a ++ "") = String c a). by rewrite IH.
Qed.

Lemma string_length_app (a b : string) :
  String.length (a ++ b) = (String.length a + String.length b)%nat.
Proof. induction a as [|c a IH]; [done|]. simpl. by rewrite IH. Qed.

Lemma print_byte_length n : is_u8 n → (String.length (print_u n) ≤ 3)%nat.
Proof.
  intros Hn. destruct (print_byte n Hn) as (d0 & d & _ & [[-> _]|[(d1 & _ & -> & _)|(d1 & _ & _ & -> & _)]]);
    simpl; lia.
Qed.

Lemma ipv4_text_length a : (String.length (uint32_to_ipv4_address a) ≤ 15)%nat.
Proof.
  unfold uint32_to_ipv4_address. rewrite !string_length_app. cbn [String.length].
  assert (H : ∀ z, (String.length (print_u (Z.land z 255)) ≤ 3)%nat)
    by (intros z; apply print_byte_length, land_255_u8).
  pose proof (H (Z.shiftr a 24)). pose proof (H (Z.shiftr a 16)). pose proof (H (Z.shiftr a 8)).
  pose proof (H a). lia.
Qed.

Lemma c_string_length bs s : c_string bs = Ret s → (String.length s < Datatypes.length bs)%nat.
Proof.
  revert s. induction bs as [|b bs IH]; intros s; cbn [c_string]; [done|].
  destruct (b =? 0); [intros [= <-]; simpl; lia|].
  intros (s' & Hs & [= <-])%bind_Ret. apply IH in Hs. simpl. lia.
Qed.

Lemma scan_char_app s : scan_char "." ("." ++ s) = Some s.
Proof. reflexivity. Qed.

Lemma scan_ipv4_print a b c d :
  is_u8 a → is_u8 b → is_u8 c → is_u8 d →
  scan_ipv4 (print_u a ++ "." ++ print_u b ++ "." ++ print_u c ++ "." ++ print_u d) =
    Some (a, b, c, d).
Proof.
  intros. unfold scan_ipv4.
  rewrite <-(string_app_nil (print_u d)).
  repeat (rewrite scan_u_print by done; cbn [mbind option_bind];
          rewrite ?scan_char_app; cbn [mbind option_bind]).
  done.
Qed.

Lemma shiftl_octet a k : is_u8 a → 0 ≤ k ≤ 24 → u32 (Z.shiftl a k) = Z.shiftl a k.
Proof.
  intros Ha Hk. apply u32_small. unfold is_u8, is_u32 in *. rewrite Z.shiftl_mul_pow2 by lia.
  assert (2 ^ k ≤ 2 ^ 24) by (apply Z.pow_le_mono_r; lia).
  assert (0 < 2 ^ k) by (apply Z.pow_pos_nonneg; lia). nia.
Qed.

Lemma ipv4_print_scan a :
  is_u32 a → ipv4_address_to_uint32 (uint32_to_ipv4_address a) = a.
Proof.
  intros Ha. unfold ipv4_address_to_uint32, uint32_to_ipv4_address.
  rewrite scan_ipv4_print by apply land_255_u8.
  rewrite !shiftl_octet by (apply land_255_u8 || lia).
  rewrite octets_combine by apply land_255_u8. by apply octets_split.
Qed.

(** Converting an address to text and back gives the same address. *)
Theorem ipv4_roundtrip a :
  is_u32 a → ipv4_address_to_uint32 (uint32_to_ipv4_address a) = a.
Proof. apply ipv4_print_scan. Qed.

Lemma ipv4_roundtrip_witness :
  ipv4_address_to_uint32 (uint32_to_ipv4_address 3232235876) = 3232235876.
Proof. apply ipv4_roundtrip. by_decision. Defined.

(** ** MAC addresses *)
Lemma scan_print_02x b s : is_u8 b → scan_02x (print_02x b ++ s) = Some (b, s).
Proof.
  unfold is_u8. intros Hb.
  assert (Hall : Forall (λ b, ∀ s, scan_02x (print_02x b ++ s) = Some (b, s)) (seqZ 0 256)).
  { cbn [seqZ seq fmap list_fmap]. cbv [seqZ]. simpl. repeat constructor. }
  rewrite Forall_forall in Hall. apply Hall. apply elem_of_seqZ. lia.
Qed.

Lemma scan_colon_app s : scan_char ":" (":" ++ s) = Some s.
Proof. reflexivity. Qed.

Lemma scan_mac_print m0 m1 m2 m3 m4 m5 rest :
  Forall is_u8 [m0; m1; m2; m3; m4; m5] →
  ∃ s, uint8_array_to_mac (m0 :: m1 :: m2 :: m3 :: m4 :: m5 :: rest) = Ret s ∧
    scan_mac 6 s = [m0; m1; m2; m3; m4; m5].
Proof.
  intros H. repeat (apply Forall_cons in H as [? H]). eexists. split; [reflexivity|].
  rewrite <-(string_app_nil (print_02x m5)).
  cbn [scan_mac]. repeat (rewrite scan_print_02x by done; rewrite ?scan_colon_app). done.
Qed.

(** Distinct hardware addresses have distinct texts. *)
Lemma uint8_array_to_mac_inj a b s :
  is_bytes a → is_bytes b → uint8_array_to_mac a = Ret s → uint8_array_to_mac b = Ret s →
  take 6 a = take 6 b.
Proof.
  intros Ha Hb Hsa Hsb.
  assert (Hshape : ∀ l, uint8_array_to_mac l = Ret s → is_bytes l → take 6 l = scan_mac 6 s).
  { intros l Hl Hbl. destruct l as [|m0 [|m1 [|m2 [|m3 [|m4 [|m5 rest]]]]]]; try discriminate.
    destruct (scan_mac_print m0 m1 m2 m3 m4 m5 rest) as (s' & Hs' & Hscan).
    { exact (Forall_take _ 6 _ Hbl). }
    rewrite Hl in Hs'. injection Hs' as <-. by rewrite Hscan. }
  by rewrite (Hshape a), (Hshape b).
Qed.

(** Converting a hardware address to text and back gives the same six
    bytes. *)
Theorem mac_roundtrip m0 m1 m2 m3 m4 m5 rest array :
  Forall is_u8 [m0; m1; m2; m3; m4; m5] → zlen array = 6 →
  ∃ s, uint8_array_to_mac (m0 :: m1 :: m2 :: m3 :: m4 :: m5 :: rest) = Ret s ∧
    mac_to_uint8_array s array = Ret [m0; m1; m2; m3; m4; m5].
Proof.
  intros H Hl. destruct (scan_mac_print m0 m1 m2 m3 m4 m5 rest H) as (s & Hs & Hscan).
  exists s. split; [exact Hs|]. unfold mac_to_uint8_array. rewrite Hscan.
  repeat (apply Forall_cons in H as [? H]). cbn [fmap list_fmap]. rewrite !u8_small by done.
  rewrite blit_in by (unfold zlen in *; simpl; lia). unfold splice, zlen in *. simpl.
  by rewrite drop_ge by lia.
Qed.

Lemma mac_roundtrip_witness : ∃ s,
  uint8_array_to_mac [2; 66; 172; 17; 0; 2] = Ret s ∧
  mac_to_uint8_array s (replicate 6 0) = Ret [2; 66; 172; 17; 0; 2].
Proof. apply (mac_roundtrip 2 66 172 17 0 2 [] (replicate 6 0)); [by_decision | reflexivity]. Defined.

(** ** Ranges *)
Lemma scan_u_u32 s v rest : scan_u s = Some (v, rest) → is_u32 v.
Proof.
  unfold scan_u. destruct (scan_sign _) as [neg s1]. destruct s1 as [|c s1]; [done|].
  destruct (digit_val c); [|done]. destruct (scan_digits _ 0) as [w r]. intros [= <- _]. apply u32_range.
Qed.
Lemma ipv4_u32 s : is_u32 (ipv4_address_to_uint32 s).
Proof.
  unfold ipv4_address_to_uint32. destruct (scan_ipv4 s) as [[[[a b] c] d]|] eqn:E; [|done].
  unfold scan_ipv4 in E.
  apply bind_Some in E as ([? s1] & _ & E). apply bind_Some in E as (s2 & _ & E).
  apply bind_Some in E as ([? s3] & _ & E). apply bind_Some in E as (s4 & _ & E).
  apply bind_Some in E as ([? s5] & _ & E). apply bind_Some in E as (s6 & _ & E).
  apply bind_Some in E as ([d' s7] & Hd & [= _ _ _ <-]).
  apply is_u32_lor; [|by eapply scan_u_u32]. repeat apply is_u32_lor; apply u32_range.
Qed.

Lemma length_list_ascii s : List.length (list_ascii_of_string s) = String.length s.
Proof. induction s as [|c s IH]; [done|]. cbn. by rewrite IH. Qed.
