(* ===== verification/Scanf.v ===== *)
(** The hexadecimal conversions of [sscanf] that the packet database and the
    viewer apply to file names and to the headers of stored packets.  A buffer is
    scanned as it is: the NUL that ends the string in it matches no conversion. *)
From Stdlib Require Import Ascii String.
From S2P Require Import Prelude Bytes Xtoy.
Local Open Scope string_scope.
Local Open Scope Z_scope.

(** ** Conversions *)

(** At most [w] hexadecimal digits after the value [acc]. *)
Fixpoint scan_hex_digits (w : nat) (s : string) (acc : Z) : Z * string :=
  match w, s with
  | S w', String c s' =>
      match hex_val c with
      | Some v => scan_hex_digits w' s' (acc * 16 + v)
      | None => (acc, s)
      end
  | _, _ => (acc, s)
  end.

Definition starts_hex (s : string) : bool :=
  match s with String c _ => match hex_val c with Some _ => true | None => false end | _ => false end.

(** The digits of a number in [w] characters; "0x" may come first. *)
Definition scan_hex (w : nat) (s : string) : option (Z * string) :=
  let prefixed := match s with
                  | String c (String d s') =>
                      if Ascii.eqb c "0" && is_x d && (2 <=? Z.of_nat w) then Some s' else None
                  | _ => None
                  end in
  match prefixed with
  | Some s' =>
      if starts_hex s' && (2 <? Z.of_nat w) then Some (scan_hex_digits (w - 2) s' 0) else None
  | None => if starts_hex s && (0 <? Z.of_nat w) then Some (scan_hex_digits w s 0) else None
  end.

(** [%08lx]: 8 characters at most, a sign among them; the value is that of
    [strtoul]. *)
Definition scan_08lx (s : string) : option (Z * string) :=
  let s := skip_space s in
  match s with
  | String c s' =>
      if Ascii.eqb c "-" then '(v, r) ← scan_hex 7 s'; Some ((- v) mod 2 ^ 64, r)
      else if Ascii.eqb c "+" then scan_hex 7 s'
      else scan_hex 8 s
  | EmptyString => None
  end.

(** [%08x], into a [uint32_t] *)
Definition scan_08x (s : string) : option (Z * string) :=
  '(v, r) ← scan_08lx s; Some (u32 v, r).

(** [n] times [%2hhx]: the bytes stored before the first conversion that
    fails. *)
Fixpoint scan_pairs (n : nat) (s : string) : list Z :=
  match n with
  | O => []
  | S n => match scan_02x s with Some (v, s') => u8 v :: scan_pairs n s' | None => [] end
  end.

(** [%[a-f0-9]]: the run of lower case hexadecimal digits. *)
Definition is_lower_hex (c : ascii) : bool :=
  isdigit c || ((97 <=? code c) && (code c <=? 102)).
Fixpoint scan_lower_hex (s : string) : string :=
  match s with
  | String c s => if is_lower_hex c then String c (scan_lower_hex s) else ""
  | EmptyString => ""
  end.

(** Six times [%02x], and so on. *)
Fixpoint print_hex (bs : list Z) : string :=
  match bs with
  | [] => ""
  | b :: bs => print_02x b ++ print_hex bs
  end.

(** ** What is printed is read back *)

(** The last [k] hexadecimal digits of [n] and a text after them. *)
Fixpoint hex_text (k : nat) (n : Z) (s : string) : string :=
  match k with
  | O => s
  | S k => hex_text k (n / 16) (String (hex_digit (n mod 16)) s)
  end.

Ltac nibble_cases d :=
  let H := fresh in
  assert (d ∈ seqZ 0 16) as H by (apply elem_of_seqZ; lia);
  cbn in H; repeat (apply elem_of_cons in H as [->|H]); [reflexivity..|by apply not_elem_of_nil in H].

Lemma hex_val_digit d : 0 ≤ d < 16 → hex_val (hex_digit d) = Some d.
Proof. intros Hd. nibble_cases d. Qed.

Lemma hex_digit_plain d : 0 ≤ d < 16 →
  is_space (hex_digit d) = false ∧ Ascii.eqb (hex_digit d) "-" = false ∧
  Ascii.eqb (hex_digit d) "+" = false ∧ is_x (hex_digit d) = false ∧
  Ascii.eqb (hex_digit d) zero = false ∧ is_lower_hex (hex_digit d) = true.
Proof.
  intros Hd.
  assert (d ∈ seqZ 0 16) as H by (apply elem_of_seqZ; lia). cbn in H.
  repeat (apply elem_of_cons in H as [->|H]); [by split_and!..|by apply not_elem_of_nil in H].
Qed.

Lemma hex_text_app k : ∀ n s t, (hex_text k n s ++ t) = hex_text k n (s ++ t).
Proof. induction k as [|k IH]; intros n s t; [done|]. cbn [hex_text]. by rewrite IH. Qed.

Lemma hex_text_0 k s : hex_text k 0 s = zero_pad k s.
Proof.
  revert s. induction k as [|k IH]; intros s; [done|]. cbn [hex_text].
  change (0 / 16) with 0. rewrite IH. clear IH. change (hex_digit (0 mod 16)) with "0"%char.
  induction k as [|k IH]; [done|]. cbn [zero_pad] in *. by rewrite IH.
Qed.

Lemma scan_hex_text k : ∀ w n s acc, 0 ≤ n < 16 ^ Z.of_nat k →
  scan_hex_digits (k + w) (hex_text k n s) acc = scan_hex_digits w s (acc * 16 ^ Z.of_nat k + n).
Proof.
  induction k as [|k IH]; intros w n s acc Hn.
  - change (16 ^ Z.of_nat 0) with 1 in *. cbn [hex_text Nat.add]. f_equal. lia.
  - rewrite Nat2Z.inj_succ, Z.pow_succ_r in * by lia. cbn [hex_text].
    replace (S k + w)%nat with (k + S w)%nat by lia.
    rewrite IH by (split; [apply Z.div_pos; lia | apply Z.div_lt_upper_bound; lia]).
    cbn [scan_hex_digits]. rewrite hex_val_digit by (apply Z.mod_pos_bound; lia). f_equal.
    rewrite (Z.div_mod n 16) at 3 by lia. lia.
Qed.

(** Two digits at least start with two digits. *)
Lemma hex_text_start k : ∀ n s, ∃ a b t,
  hex_text (S (S k)) n s = String (hex_digit a) (String (hex_digit b) t) ∧
  0 ≤ a < 16 ∧ 0 ≤ b < 16.
Proof.
  induction k as [|k IH]; intros n s.
  - do 3 eexists. split; [reflexivity|]. split; apply Z.mod_pos_bound; lia.
  - apply IH.
Qed.

Lemma hex_digits_text k : ∀ fuel n acc, (k < fuel)%nat → 0 ≤ n < 16 ^ Z.of_nat (S k) →
  ∃ j, (j ≤ k)%nat ∧ hex_digits fuel n acc = hex_text (S j) n acc ∧ n < 16 ^ Z.of_nat (S j) ∧
    String.length (hex_digits fuel n acc) = (S j + String.length acc)%nat.
Proof.
  induction k as [|k IH]; intros fuel n acc Hf Hn; (destruct fuel as [|fuel]; [lia|]);
    cbn [hex_digits]; destruct (Z.ltb_spec n 16) as [Hs|Hs].
  1,3: exists 0%nat; split_and!; [lia | reflexivity | done | reflexivity].
  - change (16 ^ Z.of_nat 1) with 16 in Hn. lia.
  - assert (Hn' : 0 ≤ n / 16 < 16 ^ Z.of_nat (S k)).
    { rewrite Nat2Z.inj_succ, Z.pow_succ_r in Hn by lia.
      split; [apply Z.div_pos; lia | apply Z.div_lt_upper_bound; lia]. }
    destruct (IH fuel (n / 16) (String (hex_digit (n mod 16)) acc)) as (j & Hj & Ht & Hl & Hlen);
      [lia | done |].
    exists (S j). split_and!; [lia | exact Ht | | rewrite Hlen; simpl; lia].
    rewrite Nat2Z.inj_succ, Z.pow_succ_r by lia. pose proof (Z.mod_pos_bound n 16).
    rewrite (Z.div_mod n 16) by lia. lia.
Qed.

Lemma hex_text_pad k : ∀ j n s, 0 ≤ n < 16 ^ Z.of_nat j →
  zero_pad k (hex_text j n s) = hex_text (k + j) n s.
Proof.
  intros j. revert k. induction j as [|j IH]; intros k n s Hn.
  - change (16 ^ Z.of_nat 0) with 1 in Hn. replace n with 0 by lia. rewrite Nat.add_0_r.
    cbn [hex_text]. symmetry. apply hex_text_0.
  - rewrite Nat.add_succ_r. cbn [hex_text]. apply IH.
    rewrite Nat2Z.inj_succ, Z.pow_succ_r in Hn by lia.
    split; [apply Z.div_pos; lia | apply Z.div_lt_upper_bound; lia].
Qed.

(** Eight digits for 32 bits. *)
Lemma print_08x_text n : is_u32 n → print_08x n = hex_text 8 n "".
Proof.
  intros Hn. unfold print_08x.
  destruct (hex_digits_text 7 16 n "") as (j & Hj & Ht & Hl & Hlen);
    [lia | unfold is_u32 in Hn; simpl; lia |].
  cbv zeta. rewrite Hlen, Ht. cbn [String.length]. unfold is_u32 in Hn.
  rewrite hex_text_pad by lia. f_equal. lia.
Qed.

Lemma scan_print_08lx n s : is_u32 n → scan_08lx (print_08x n ++ s) = Some (n, s).
Proof.
  intros Hn. rewrite print_08x_text, hex_text_app by done. change ("" ++ s) with s.
  assert (Hscan : scan_hex 8 (hex_text 8 n s) = Some (n, s)).
  { pose proof (scan_hex_text 8 0 n s 0) as H. rewrite Z.mul_0_l, Z.add_0_l in H.
    change (8 + 0)%nat with 8%nat in H.
    assert (E : scan_hex_digits 0 s n = (n, s)) by (by destruct s). rewrite E in H.
    unfold is_u32 in Hn. specialize (H ltac:(simpl; lia)).
    destruct (hex_text_start 6 n s) as (a & b & t & Et & Ha & Hb).
    unfold scan_hex. rewrite Et in *. destruct (hex_digit_plain b Hb) as (_ & _ & _ & -> & _).
    rewrite andb_false_r. cbn [andb starts_hex]. rewrite hex_val_digit by done.
    cbn [andb]. change (0 <? Z.of_nat 8) with true. cbv iota. by rewrite H. }
  destruct (hex_text_start 6 n s) as (a & b & t & Et & Ha & Hb).
  destruct (hex_digit_plain a Ha) as (Hsp & Hm & Hp & _).
  unfold scan_08lx. rewrite Et in *. cbn [skip_space]. rewrite Hsp. cbv zeta. by rewrite Hm, Hp.
Qed.

Lemma scan_print_08x n s : is_u32 n → scan_08x (print_08x n ++ s) = Some (n, s).
Proof.
  intros Hn. unfold scan_08x. rewrite scan_print_08lx by done. cbn. by rewrite u32_small.
Qed.

(** ** Hardware addresses *)
Lemma string_app_cons c s t : (String c s ++ t) = String c (s ++ t).
Proof. reflexivity. Qed.

Lemma scan_print_pairs bs : is_bytes bs → ∀ s, scan_pairs (length bs) (print_hex bs ++ s) = bs.
Proof.
  induction bs as [|b bs IH]; intros Hb s; [done|]. apply Forall_cons in Hb as [Hb Hbs].
  cbn [length scan_pairs print_hex]. rewrite <-string_app_assoc, scan_print_02x by done.
  by rewrite u8_small, IH.
Qed.

Lemma scan_lower_hex_print bs s : is_bytes bs → (∀ c t, s = String c t → is_lower_hex c = false) →
  scan_lower_hex (print_hex bs ++ s) = print_hex bs.
Proof.
  intros Hb Hs. induction bs as [|b bs IH]; cbn [print_hex].
  - destruct s as [|c t]; [done|].
    change ("" ++ String c t) with (String c t). cbn [scan_lower_hex]. by rewrite (Hs c t eq_refl).
  - apply Forall_cons in Hb as [Hb Hbs]. unfold is_u8 in Hb. change (2 ^ 8) with 256 in Hb.
    rewrite <-string_app_assoc. unfold print_02x. rewrite !string_app_cons. cbn [scan_lower_hex].
    destruct (hex_digit_plain (b / 16)) as (_ & _ & _ & _ & _ & ->);
      [split; [apply Z.div_pos; lia | apply Z.div_lt_upper_bound; lia]|].
    destruct (hex_digit_plain (b mod 16)) as (_ & _ & _ & _ & _ & ->);
      [apply Z.mod_pos_bound; lia|].
    change ("" ++ (print_hex bs ++ s)) with (print_hex bs ++ s). by rewrite IH.
Qed.

Lemma print_hex_length bs : String.length (print_hex bs) = (2 * length bs)%nat.
Proof. induction bs as [|b bs IH]; [done|]. cbn [print_hex].
  rewrite string_length_app, IH. simpl. lia. Qed.
