(* ===== verification/Json.v ===== *)
(** cJSON, the JSON library the server keeps its configuration and its leases
    in.  It is outside the repository: its operations on trees are the
    interface [Cjson], with the laws the code relies on, and [TreeJson] is an
    instance to run the model with. *)
From Stdlib Require Import Ascii String.
From S2P Require Import Prelude Bytes Xtoy.
Local Open Scope Z_scope.

(** ** cJSON *)
Definition lower (s : string) : string := map_chars tolower s.

(** A tree is a value: [cJSON_AddItemToObject] and the like, which change the
    tree in place, return the changed tree.  [cJSON_update_member] is the
    object after the item that [cJSON_GetObjectItem] found in it was changed,
    [cJSON_update_element] the array after one of its items was.
    [cJSON_GetNumberValue] is the integer part, [None] for NaN. *)
Class Cjson := {
  json : Type;
  cJSON_CreateObject : json;
  cJSON_CreateArray : json;
  cJSON_CreateString : string → json;
  cJSON_CreateNumber : Z → json;
  cJSON_CreateBool : bool → json;
  cJSON_AddItemToObject : json → string → json → json;
  cJSON_AddItemToArray : json → json → json;
  cJSON_DetachItemFromArray : json → nat → json;
  cJSON_update_member : json → string → json → json;
  cJSON_update_element : json → nat → json → json;
  cJSON_GetObjectItem : json → string → option json;
  cJSON_children : json → list json;
  cJSON_GetStringValue : json → option string;
  cJSON_GetNumberValue : json → option Z;
  cJSON_IsString : json → bool;
  cJSON_IsNumber : json → bool;
  cJSON_IsBool : json → bool;
  cJSON_IsTrue : json → bool;
  cJSON_IsArray : json → bool;
  cJSON_Print : json → string;
  cJSON_PrintUnformatted : json → string;
  cJSON_Parse : string → option json;
  get_string_spec s : cJSON_GetStringValue (cJSON_CreateString s) = Some s;
  get_number_spec n : is_u32 n → cJSON_GetNumberValue (cJSON_CreateNumber n) = Some n;
  is_string_spec j s : cJSON_GetStringValue j = Some s → cJSON_IsString j = true;
  is_number_spec j n : cJSON_GetNumberValue j = Some n → cJSON_IsNumber j = true;
  is_true_spec j : cJSON_IsTrue j = true → cJSON_IsBool j = true;
  is_true_bool_spec b : cJSON_IsTrue (cJSON_CreateBool b) = b;
  is_bool_spec b : cJSON_IsBool (cJSON_CreateBool b) = true;
  get_number_bool_spec b : cJSON_GetNumberValue (cJSON_CreateBool b) = None;
  is_array_spec : cJSON_IsArray cJSON_CreateArray = true;
  is_array_add_spec a x : cJSON_IsArray a = true → cJSON_IsArray (cJSON_AddItemToArray a x) = true;
  is_array_detach_spec a i : cJSON_IsArray a = true → cJSON_IsArray (cJSON_DetachItemFromArray a i) = true;
  get_empty_spec k : cJSON_GetObjectItem cJSON_CreateObject k = None;
  (* keys are compared without regard to case *)
  get_added_spec o k v k' :
    cJSON_GetObjectItem o k = None →
    cJSON_GetObjectItem (cJSON_AddItemToObject o k v) k' =
      if decide (lower k = lower k') then Some v else cJSON_GetObjectItem o k';
  get_updated_spec o k v w :
    cJSON_GetObjectItem o k = Some w →
    cJSON_GetObjectItem (cJSON_update_member o k v) k = Some v;
  get_updated_other_spec o k v k' :
    lower k ≠ lower k' →
    cJSON_GetObjectItem (cJSON_update_member o k v) k' = cJSON_GetObjectItem o k';
  children_empty_spec : cJSON_children cJSON_CreateArray = [];
  children_add_spec a x : cJSON_children (cJSON_AddItemToArray a x) = cJSON_children a ++ [x];
  children_detach_spec a i :
    (i < length (cJSON_children a))%nat →
    cJSON_children (cJSON_DetachItemFromArray a i) = delete i (cJSON_children a);
  (* what follows the text of an object is not read *)
  parse_print_spec j k v rest :
    cJSON_GetObjectItem j k = Some v → cJSON_Parse (cJSON_Print j ++ rest) = Some j;
  parse_unformatted_spec j :
    cJSON_IsArray j = true ∨ (∃ k v, cJSON_GetObjectItem j k = Some v) →
    cJSON_Parse (cJSON_PrintUnformatted j) = Some j;
  parse_empty_spec : cJSON_Parse "" = None;
  (* control characters are escaped *)
  unformatted_text_spec j : Forall (λ c, c ≠ zero) (list_ascii_of_string (cJSON_PrintUnformatted j));
  children_update_spec a i v :
    (i < length (cJSON_children a))%nat →
    cJSON_children (cJSON_update_element a i v) = <[i := v]> (cJSON_children a);
}.

(** ** A cJSON to run the model with

    Trees of strings and numbers: node 0 is an array, node 1 an object whose
    members are nodes 2, node 3 a truth value.  The text of a tree is its code in binary, ended by
    a full stop. *)
Module TreeJson.
Definition tree : Type := gen_tree (string + Z).

Fixpoint bits (p : positive) : string :=
  match p with
  | xH => "."
  | xO p => String "0" (bits p)
  | xI p => String "1" (bits p)
  end.

Fixpoint unbits (s : string) : option positive :=
  match s with
  | EmptyString => None
  | String c s =>
      if Ascii.eqb c "." then Some xH
      else if Ascii.eqb c "0" then p ← unbits s; Some (xO p)
      else p ← unbits s; Some (xI p)
  end.

Definition print (j : tree) : string := bits (countable.encode j).
Definition parse (s : string) : option tree := p ← unbits s; countable.decode p.

Definition member (k : string) (v : tree) : tree := GenNode 2 [GenLeaf (inl k); v].
Definition members (j : tree) : list tree := match j with GenNode 1 ms => ms | _ => [] end.
Definition elements (j : tree) : list tree := match j with GenNode 0 xs => xs | _ => [] end.

Definition is_member (k : string) (m : tree) : option tree :=
  match m with
  | GenNode 2 [GenLeaf (inl k'); v] => if decide (lower k' = lower k) then Some v else None
  | _ => None
  end.

Fixpoint find_member (ms : list tree) (k : string) : option tree :=
  match ms with
  | [] => None
  | m :: ms => match is_member k m with Some v => Some v | None => find_member ms k end
  end.

Fixpoint replace_member (ms : list tree) (k : string) (v : tree) : list tree :=
  match ms with
  | [] => []
  | m :: ms => match is_member k m with
               | Some _ => member k v :: ms
               | None => m :: replace_member ms k v
               end
  end.

Definition leaf_string (j : tree) : option string :=
  match j with GenLeaf (inl s) => Some s | _ => None end.
Definition leaf_number (j : tree) : option Z :=
  match j with GenLeaf (inr n) => Some n | _ => None end.

Lemma unbits_bits p rest : unbits (bits p ++ rest) = Some p.
Proof.
  induction p as [p IH|p IH|]; [| |done]; simpl; by rewrite IH.
Qed.

Lemma parse_print j rest : parse (print j ++ rest) = Some j.
Proof. unfold parse, print. rewrite unbits_bits. simpl. apply countable.decode_encode. Qed.

Lemma print_text j : Forall (λ c, c ≠ zero) (list_ascii_of_string (print j)).
Proof. unfold print. induction (countable.encode j) as [p IH|p IH|]; constructor; done. Qed.

Lemma is_member_member k v k' : is_member k' (member k v) = if decide (lower k = lower k') then Some v else None.
Proof. reflexivity. Qed.

Lemma is_member_lower m k k' : lower k = lower k' → is_member k m = is_member k' m.
Proof.
  intros Hk. destruct m as [|n ms]; [done|]. do 3 (destruct n as [|n]; try done).
  destruct ms as [|[[k0|z]|? ?] [|v [|]]]; try done. cbn. by rewrite Hk.
Qed.

Lemma find_member_app ms k v k' : find_member ms k = None →
  find_member (ms ++ [member k v]) k' = if decide (lower k = lower k') then Some v else find_member ms k'.
Proof.
  induction ms as [|m ms IH]; intros Hn; cbn [find_member app] in *.
  - rewrite is_member_member. by destruct (decide (lower k = lower k')).
  - destruct (is_member k m) eqn:E; [done|]. rewrite IH by done.
    destruct (is_member k' m) eqn:E'; [|done].
    destruct (decide (lower k = lower k')) as [Hk|]; [|done].
    by rewrite (is_member_lower m k k' Hk), E' in E.
Qed.

Lemma find_replace ms k v w : find_member ms k = Some w →
  find_member (replace_member ms k v) k = Some v.
Proof.
  induction ms as [|m ms IH]; cbn [find_member replace_member]; [done|].
  destruct (is_member k m) eqn:E; cbn [find_member].
  - intros _. by rewrite is_member_member, decide_True.
  - rewrite E. apply IH.
Qed.

Lemma find_replace_other ms k v k' : lower k ≠ lower k' →
  find_member (replace_member ms k v) k' = find_member ms k'.
Proof.
  intros Hne. induction ms as [|m ms IH]; cbn [find_member replace_member]; [done|].
  destruct (is_member k m) eqn:E; cbn [find_member]; [|by rewrite IH].
  rewrite is_member_member, decide_False by done.
  destruct m as [|n [|[[k0|z]|? ?] [|w [|? ?]]]]; try done;
    repeat (destruct n as [|n]; try done). cbn in E |- *.
  destruct (decide (lower k0 = lower k)) as [E0|]; [|done]. by rewrite decide_False by congruence.
Qed.

#[export] Instance tree_json : Cjson.
Proof.
  refine {|
    json := tree;
    cJSON_CreateObject := GenNode 1 [];
    cJSON_CreateArray := GenNode 0 [];
    cJSON_CreateString s := GenLeaf (inl s);
    cJSON_CreateNumber n := GenLeaf (inr n);
    cJSON_CreateBool b := GenNode 3 [GenLeaf (inr (if b then 1 else 0))];
    cJSON_AddItemToObject o k v := GenNode 1 (members o ++ [member k v]);
    cJSON_AddItemToArray a x := GenNode 0 (elements a ++ [x]);
    cJSON_DetachItemFromArray a i := GenNode 0 (delete i (elements a));
    cJSON_update_member o k v := GenNode 1 (replace_member (members o) k v);
    cJSON_update_element a i v := GenNode 0 (<[i := v]> (elements a));
    cJSON_GetObjectItem o k := find_member (members o) k;
    cJSON_children := elements;
    cJSON_GetStringValue := leaf_string;
    cJSON_GetNumberValue := leaf_number;
    cJSON_IsString j := match leaf_string j with Some _ => true | None => false end;
    cJSON_IsNumber j := match leaf_number j with Some _ => true | None => false end;
    cJSON_IsBool j := bool_decide (j = GenNode 3 [GenLeaf (inr 0)] ∨ j = GenNode 3 [GenLeaf (inr 1)]);
    cJSON_IsTrue j := bool_decide (j = GenNode 3 [GenLeaf (inr 1)]);
    cJSON_IsArray j := match j with GenNode 0 _ => true | _ => false end;
    cJSON_Print := print;
    cJSON_PrintUnformatted := print;
    cJSON_Parse := parse;
  |}; try done.
  - intros j s. by intros ->.
  - intros j n. by intros ->.
  - intros j Hj. apply bool_decide_eq_true. apply bool_decide_eq_true in Hj. by right.
  - intros []; by vm_compute.
  - intros []; by vm_compute.
  - intros o k v k' Hn. by apply find_member_app.
  - intros o k v w Hw. by eapply find_replace.
  - intros o k v k' Hne. destruct o as [|[|[|n]] ms]; try done. by apply find_replace_other.
  - intros. apply parse_print.
  - intros j _. rewrite <-(string_app_nil (print j)). apply parse_print.
  - apply print_text.
Defined.
End TreeJson.
