(* ===== verification/Files.v ===== *)
(** The file system the server reads and writes: a map from paths to contents.
    Each system call may fail, as a schedule of faults decides, and otherwise
    transfers all its bytes. *)
From Stdlib Require Import Ascii String.
From S2P Require Import Prelude Bytes Xtoy.
Local Open Scope Z_scope.

(** ** The file system *)
Record env := Env {
  e_files : gmap string string;
  e_faults : list bool;
}.

(** Does the next system call fail? *)
Definition fails : prog env bool := λ e,
  match e_faults e with
  | [] => Ret (false, e)
  | b :: bs => Ret (b, Env (e_files e) bs)
  end.

Inductive open_result := Opened (path : string) (pos : nat) | NoEntry | OpenError.

Fixpoint str_take (n : nat) (s : string) : string :=
  match n, s with
  | S n, String c s => String c (str_take n s)
  | _, _ => EmptyString
  end.

Fixpoint str_drop (n : nat) (s : string) : string :=
  match n, s with
  | O, _ => s
  | S n, String _ s => str_drop n s
  | S _, EmptyString => EmptyString
  end.

Definition str_zeros (n : nat) : string := string_of_list_ascii (replicate n zero).

(** The contents after a write at a position. *)
Definition write_at (pos : nat) (data old : string) : string :=
  (str_take pos old ++ str_zeros (pos - String.length old) ++ data ++
   str_drop (pos + String.length data) old)%string.

Definition contents (e : env) (path : string) : string := default EmptyString (e_files e !! path).

(** [open(path, O_RDWR)], with [errno] *)
Definition sys_open (path : string) : prog env open_result :=
  f ← fails;
  if (f : bool) then mret OpenError
  else e ← get_state; mret (if e_files e !! path then Opened path 0 else NoEntry).

(** [open(path, O_CREAT | O_RDWR, 0644)] *)
Definition sys_create (path : string) : prog env open_result :=
  f ← fails;
  if (f : bool) then mret OpenError
  else
    e ← get_state;
    _ ← match e_files e !! path with
        | Some _ => mret ()
        | None => put_state (Env (<[path := EmptyString]> (e_files e)) (e_faults e))
        end;
    mret (Opened path 0).

(** [stat(path, &st)] *)
Definition sys_stat (path : string) : prog env Z :=
  f ← fails;
  e ← get_state;
  mret (if (f : bool) then -1 else match e_files e !! path with Some _ => 0 | None => -1 end).

(** [read] of the rest of a file. *)
Definition sys_read (path : string) (pos : nat) : prog env (option string) :=
  f ← fails;
  e ← get_state;
  mret (if (f : bool) then None else Some (str_drop pos (contents e path))).

(** [stat], [open(path, O_RDONLY)] and [read] of a whole file, as the loaders
    of the configuration file begin. *)
Definition read_file (path : string) : prog env (option string) :=
  st ← sys_stat path;
  if st <? 0 then mret None
  else
    fd ← sys_open path;
    match fd with
    | Opened path pos => sys_read path pos
    | _ => mret None
    end.

(** [write] of all the bytes; the position moves on. *)
Definition sys_write (path : string) (pos : nat) (data : string) : prog env Z :=
  f ← fails;
  if (f : bool) then mret (-1)
  else
    e ← get_state;
    _ ← put_state (Env (<[path := write_at pos data (contents e path)]> (e_files e)) (e_faults e));
    mret (Z.of_nat (String.length data)).

(** [write] to a descriptor opened with [O_APPEND] *)
Definition sys_append (path : string) (data : string) : prog env Z :=
  f ← fails;
  if (f : bool) then mret (-1)
  else
    e ← get_state;
    _ ← put_state (Env (<[path := (contents e path ++ data)%string]> (e_files e)) (e_faults e));
    mret (Z.of_nat (String.length data)).

(** [lseek(fd, 0, SEEK_SET)] *)
Definition sys_lseek : prog env Z := f ← fails; mret (if (f : bool) then -1 else 0).

(** [ftruncate(fd, 0)] *)
Definition sys_ftruncate (path : string) : prog env Z :=
  f ← fails;
  if (f : bool) then mret (-1)
  else
    e ← get_state;
    _ ← put_state (Env (<[path := EmptyString]> (e_files e)) (e_faults e));
    mret 0.


(** ** Lemmas *)
(** One call of the schedule of faults. *)
Definition hd_fault (fs : list bool) : bool := match fs with b :: _ => b | [] => false end.

Lemma fails_eq files fs : fails (Env files fs) = Ret (hd_fault fs, Env files (tail fs)).
Proof. by destruct fs. Qed.

Lemma read_file_run files path text : files !! path = Some text →
  read_file path (Env files []) = Ret (Some text, Env files []).
Proof.
  intros Hf. unfold read_file, sys_stat, sys_open, sys_read, contents, mbind, prog_bind, get_state.
  cbn. rewrite Hf. cbn. rewrite Hf. cbn. by rewrite Hf.
Qed.

Lemma write_at_0 data old : write_at 0 data old = (data ++ str_drop (String.length data) old)%string.
Proof. reflexivity. Qed.

Lemma string_app_empty (s : string) : (s ++ "")%string = s.
Proof. apply string_app_nil. Qed.

Lemma str_drop_nil n : str_drop n "" = ""%string.
Proof. by destruct n. Qed.
