(* ===== verification/Rfc.v ===== *)
(** Constants of the DHCP standards as the server declares them:
    [RFC/RFC-2131.h], [RFC/RFC-2131.c], [RFC/RFC-2132.h], [RFC/RFC-1700.h]. *)
From S2P Require Import Prelude.

(** ** RFC-2131 *)
Definition MAGIC_COOKIE : Z := 0x63825363.

(** [enum dhcp_message_type].  The type of a received message is an
    arbitrary number taken from option 53, so it is kept as an integer. *)
Definition DHCP_DISCOVER : Z := 1.
Definition DHCP_OFFER : Z := 2.
Definition DHCP_REQUEST : Z := 3.
Definition DHCP_DECLINE : Z := 4.
Definition DHCP_ACK : Z := 5.
Definition DHCP_NAK : Z := 6.
Definition DHCP_RELEASE : Z := 7.
Definition DHCP_INFORM : Z := 8.

Definition BOOTREQUEST : Z := 1.
Definition BOOTREPLY : Z := 2.

Definition rfc2131_dhcp_message_type_to_str (t : Z) : string :=
  if t =? DHCP_DISCOVER then "DHCP_DISCOVER"
  else if t =? DHCP_OFFER then "DHCP_OFFER"
  else if t =? DHCP_REQUEST then "DHCP_REQUEST"
  else if t =? DHCP_DECLINE then "DHCP_DECLINE"
  else if t =? DHCP_ACK then "DHCP_ACK"
  else if t =? DHCP_NAK then "DHCP_NAK"
  else if t =? DHCP_RELEASE then "DHCP_RELEASE"
  else if t =? DHCP_INFORM then "DHCP_INFORM"
  else "Unknown DHCP Message Type".

(** ** RFC-2132 *)
Definition DHCP_OPTION_MAX_LENGHT : Z := 253.
Definition DHCP_PACKET_OPTIONS_SIZE : Z := 312.

Definition DHCP_OPTION_PAD : Z := 0.
Definition DHCP_OPTION_SUBNET_MASK : Z := 1.
Definition DHCP_OPTION_TIME_OFFSET : Z := 2.
Definition DHCP_OPTION_ROUTER : Z := 3.
Definition DHCP_OPTION_TIME_SERVERS : Z := 4.
Definition DHCP_OPTION_NAME_SERVERS : Z := 5.
Definition DHCP_OPTION_DOMAIN_NAME_SERVERS : Z := 6.
Definition DHCP_OPTION_LOG_SERVERS : Z := 7.
Definition DHCP_OPTION_COOKIE_SERVERS : Z := 8.
Definition DHCP_OPTION_LPR_SERVERS : Z := 9.
Definition DHCP_OPTION_IMPRESS_SERVERS : Z := 10.
Definition DHCP_OPTION_RESOURCE_LOCATION_SERVERS : Z := 11.
Definition DHCP_OPTION_HOST_NAME : Z := 12.
Definition DHCP_OPTION_BOOT_FILE_SIZE : Z := 13.
Definition DHCP_OPTION_MERIT_DUMP : Z := 14.
Definition DHCP_OPTION_DOMAIN_NAME : Z := 15.
Definition DHCP_OPTION_SWAP_SERVER : Z := 16.
Definition DHCP_OPTION_ROOT_PATH : Z := 17.
Definition DHCP_OPTION_EXTENSIONS_PATH : Z := 18.
Definition DHCP_OPTION_IP_FORWARDING_ENABLE_DISABLE : Z := 19.
Definition DHCP_OPTION_NON_LOCAL_SOURCE_ROUTING_ENABLE_DISABLE : Z := 20.
Definition DHCP_OPTION_POLICY_FILTER : Z := 21.
Definition DHCP_OPTION_MAX_DGRAM_REASSEMBLY_SIZE : Z := 22.
Definition DHCP_OPTION_DEFAULT_IP_TTL : Z := 23.
Definition DHCP_OPTION_PATH_MTU_AGING_TIMEOUT : Z := 24.
Definition DHCP_OPTION_PATH_MTU_PLATEAU_TABLE : Z := 25.
Definition DHCP_OPTION_INTERFACE_MTU : Z := 26.
Definition DHCP_OPTION_ALL_SUBNETS_LOCAL : Z := 27.
Definition DHCP_OPTION_BROADCAST_ADDRESS : Z := 28.
Definition DHCP_OPTION_PERFORM_MASK_DISCOVERY : Z := 29.
Definition DHCP_OPTION_MASK_SUPPLIER : Z := 30.
Definition DHCP_OPTION_ROUTER_DISCOVERY : Z := 31.
Definition DHCP_OPTION_ROUTER_SOLICITATION_ADDRESS : Z := 32.
Definition DHCP_OPTION_STATIC_ROUTE : Z := 33.
Definition DHCP_OPTION_TRAILER_ENCAPSULATION : Z := 34.
Definition DHCP_OPTION_ARP_CACHE_TIMEOUT : Z := 35.
Definition DHCP_OPTION_IEEE802_3_ENCAPSULATION : Z := 36.
Definition DHCP_OPTION_DEFAULT_TCP_TTL : Z := 37.
Definition DHCP_OPTION_TCP_KEEPALIVE_INTERVAL : Z := 38.
Definition DHCP_OPTION_TCP_KEEPALIVE_GARBAGE : Z := 39.
Definition DHCP_OPTION_NIS_DOMAIN : Z := 40.
Definition DHCP_OPTION_NIS_SERVERS : Z := 41.
Definition DHCP_OPTION_NTP_SERVERS : Z := 42.
Definition DHCP_OPTION_VENDOR_SPECIFIC_INFO : Z := 43.
Definition DHCP_OPTION_NETBIOS_NAME_SERVERS : Z := 44.
Definition DHCP_OPTION_NETBIOS_DD_SERVER : Z := 45.
Definition DHCP_OPTION_NETBIOS_NODE_TYPE : Z := 46.
Definition DHCP_OPTION_NETBIOS_SCOPE : Z := 47.
Definition DHCP_OPTION_X_WINDOW_FONT_SERVER : Z := 48.
Definition DHCP_OPTION_X_WINDOW_DISPLAY_MANAGER : Z := 49.
Definition DHCP_OPTION_REQUESTED_IP_ADDRESS : Z := 50.
Definition DHCP_OPTION_IP_ADDRESS_LEASE_TIME : Z := 51.
Definition DHCP_OPTION_OVERLOAD : Z := 52.
Definition DHCP_OPTION_DHCP_MESSAGE_TYPE : Z := 53.
Definition DHCP_OPTION_SERVER_IDENTIFIER : Z := 54.
Definition DHCP_OPTION_PARAMETER_REQUEST_LIST : Z := 55.
Definition DHCP_OPTION_MESSAGE : Z := 56.
Definition DHCP_OPTION_MAX_DHCP_MESSAGE_SIZE : Z := 57.
Definition DHCP_OPTION_RENEWAL_TIME_VALUE : Z := 58.
Definition DHCP_OPTION_REBINDING_TIME_VALUE : Z := 59.
Definition DHCP_OPTION_VENDOR_CLASS_IDENTIFIER : Z := 60.
Definition DHCP_OPTION_CLIENT_IDENTIFIER : Z := 61.
Definition DHCP_OPTION_NWIP_DOMAIN_NAME : Z := 62.
Definition DHCP_OPTION_NWIP_SUBOPTIONS : Z := 63.
Definition DHCP_OPTION_USER_CLASS : Z := 77.
Definition DHCP_OPTION_FQDN : Z := 81.
Definition DHCP_OPTION_DHCP_AGENT_OPTIONS : Z := 82.
Definition DHCP_OPTION_END : Z := 255.

(** ** RFC-1700 *)
Definition ETHERNET : Z := 1.
Definition EXPERIMENTAL_ETHERNET : Z := 2.
Definition AMATEUR_RADIO_AX_24 : Z := 3.
Definition PROTEON_PRONET_TOKEN_RING : Z := 4.
Definition CHAOS : Z := 5.
Definition IEEE_802 : Z := 6.
Definition ARCNET : Z := 7.
Definition HYPERCHANNEL : Z := 8.
Definition LANSTAR : Z := 9.
Definition AUTONET_SHORT_ADDRESS : Z := 10.
Definition LOCALTALK : Z := 11.
Definition LOCALNET : Z := 12.
Definition ULTRA_LINK : Z := 13.
Definition SMDS : Z := 14.
Definition FRAME_DELAY : Z := 15.
Definition ASYNC_TRANSMITION_MODE : Z := 16.
Definition HDLC : Z := 17.
Definition FIBRE_CHANNEL : Z := 18.
Definition ASYNC_TRANSMITION_MODE_2 : Z := 19.
Definition SERIAL_LINE : Z := 20.
Definition ASYNC_TRANSMITION_MODE_3 : Z := 21.
