(* ===== verification/Options.v ===== *)
(** DHCP options, [dhcp_options.c]: the option record and its value union, the
    parser and the serializer of the option area of a packet, lookup and
    insertion in option lists, and the construction of the option list of a
    reply from the configured, required, requested and forbidden options.

    A list of options ([llist_t*]) is the sequence of its options, by the
    refinement theorems of [Llist]; the options of a list belong to that list
    alone ([dhcp_option_copy] copies), so they are kept by value. *)
From S2P Require Import Prelude Bytes Rfc.

(** ** Data *)
Inductive dhcp_option_type :=
  | DHCP_OPTION_NUMERIC
  | DHCP_OPTION_STRING
  | DHCP_OPTION_IP
  | DHCP_OPTION_BOOL
  | DHCP_OPTION_BIN.

#[export] Instance dhcp_option_type_eq_dec : EqDecision dhcp_option_type.
Proof. solve_decision. Defined.

(** [struct dhcp_option].  The union [value] is its memory: 253 bytes rounded
    up to the alignment of its [uint32_t] members. *)
Definition VALUE_SIZE : nat := 256.
Record dhcp_option := Option_ {
  o_type : dhcp_option_type;
  o_tag : Z;
  o_lenght : Z;
  o_value : list Z;
}.

#[export] Instance dhcp_option_eq_dec : EqDecision dhcp_option.
Proof. solve_decision. Defined.

(** The members [number], [ip] and [boolean] of the union. *)
Definition value_number (o : dhcp_option) : Z := le_val (take 4 (o_value o)).
Definition value_ip (o : dhcp_option) : Z := le_val (take 4 (o_value o)).
Definition value_boolean (o : dhcp_option) : result Z := rd (o_value o) 0.

Definition with_value (o : dhcp_option) (v : list Z) : dhcp_option :=
  Option_ (o_type o) (o_tag o) (o_lenght o) v.
Definition set_value_number (o : dhcp_option) (n : Z) : dhcp_option :=
  with_value o (splice 0 (le_bytes 4 n) (o_value o)).
Definition set_value_ip (o : dhcp_option) (n : Z) : dhcp_option :=
  with_value o (splice 0 (le_bytes 4 n) (o_value o)).
Definition set_value_boolean (o : dhcp_option) (b : Z) : dhcp_option :=
  with_value o (<[0%nat := b]> (o_value o)).

(** ** The type of a tag *)
Definition bool_tags : list Z :=
  [DHCP_OPTION_IP_FORWARDING_ENABLE_DISABLE;
   DHCP_OPTION_NON_LOCAL_SOURCE_ROUTING_ENABLE_DISABLE;
   DHCP_OPTION_ROUTER_DISCOVERY; DHCP_OPTION_ALL_SUBNETS_LOCAL;
   DHCP_OPTION_MASK_SUPPLIER; DHCP_OPTION_TRAILER_ENCAPSULATION;
   DHCP_OPTION_PERFORM_MASK_DISCOVERY; DHCP_OPTION_IEEE802_3_ENCAPSULATION;
   DHCP_OPTION_TCP_KEEPALIVE_GARBAGE].

Definition ip_tags : list Z :=
  [DHCP_OPTION_SUBNET_MASK; DHCP_OPTION_ROUTER; DHCP_OPTION_REQUESTED_IP_ADDRESS;
   DHCP_OPTION_SERVER_IDENTIFIER; DHCP_OPTION_TIME_SERVERS; DHCP_OPTION_NAME_SERVERS;
   DHCP_OPTION_DOMAIN_NAME_SERVERS; DHCP_OPTION_LOG_SERVERS; DHCP_OPTION_COOKIE_SERVERS;
   DHCP_OPTION_LPR_SERVERS; DHCP_OPTION_IMPRESS_SERVERS;
   DHCP_OPTION_RESOURCE_LOCATION_SERVERS; DHCP_OPTION_SWAP_SERVER;
   DHCP_OPTION_BROADCAST_ADDRESS; DHCP_OPTION_ROUTER_SOLICITATION_ADDRESS;
   DHCP_OPTION_STATIC_ROUTE; DHCP_OPTION_NIS_SERVERS; DHCP_OPTION_NTP_SERVERS;
   DHCP_OPTION_NETBIOS_NAME_SERVERS; DHCP_OPTION_NETBIOS_DD_SERVER;
   DHCP_OPTION_X_WINDOW_FONT_SERVER; DHCP_OPTION_X_WINDOW_DISPLAY_MANAGER].

Definition numeric_tags : list Z :=
  [DHCP_OPTION_DHCP_MESSAGE_TYPE; DHCP_OPTION_TIME_OFFSET; DHCP_OPTION_BOOT_FILE_SIZE;
   DHCP_OPTION_MERIT_DUMP; DHCP_OPTION_MAX_DGRAM_REASSEMBLY_SIZE;
   DHCP_OPTION_IP_ADDRESS_LEASE_TIME; DHCP_OPTION_DEFAULT_IP_TTL;
   DHCP_OPTION_PATH_MTU_AGING_TIMEOUT; DHCP_OPTION_INTERFACE_MTU;
   DHCP_OPTION_DEFAULT_TCP_TTL; DHCP_OPTION_TCP_KEEPALIVE_INTERVAL;
   DHCP_OPTION_NETBIOS_NODE_TYPE; DHCP_OPTION_RENEWAL_TIME_VALUE;
   DHCP_OPTION_REBINDING_TIME_VALUE; DHCP_OPTION_ARP_CACHE_TIMEOUT; DHCP_OPTION_OVERLOAD].

Definition string_tags : list Z :=
  [DHCP_OPTION_HOST_NAME; DHCP_OPTION_DOMAIN_NAME; DHCP_OPTION_POLICY_FILTER;
   DHCP_OPTION_NIS_DOMAIN; DHCP_OPTION_USER_CLASS; DHCP_OPTION_FQDN;
   DHCP_OPTION_ROOT_PATH; DHCP_OPTION_EXTENSIONS_PATH; DHCP_OPTION_NETBIOS_SCOPE].

Definition case_of (tag : Z) (cases : list Z) : bool := existsb (Z.eqb tag) cases.

Definition dhcp_option_tag_to_type (tag : Z) : dhcp_option_type :=
  if case_of tag bool_tags then DHCP_OPTION_BOOL
  else if case_of tag ip_tags then DHCP_OPTION_IP
  else if case_of tag numeric_tags then DHCP_OPTION_NUMERIC
  else if case_of tag string_tags then DHCP_OPTION_STRING
  else DHCP_OPTION_BIN.

(** ** Creation, lookup, insertion *)
Definition zeros (n : nat) : list Z := replicate n 0.

(** [calloc]: every byte of the record is 0. *)
Definition dhcp_option_new : dhcp_option :=
  Option_ DHCP_OPTION_NUMERIC 0 0 (zeros VALUE_SIZE).

(** [value] is the object the source pointer designates. *)
Definition dhcp_option_new_values (tag lenght : Z) (value : list Z) : result dhcp_option :=
  let o := dhcp_option_new in
  let o := Option_ (o_type o) (u8 tag) (u8 lenght) (o_value o) in
  bs ← slice value 0 lenght;
  v ← blit (o_value o) 0 bs;
  mret (Option_ (dhcp_option_tag_to_type tag) (o_tag o) (o_lenght o) v).

Definition dhcp_option_copy (original : option dhcp_option) : result (option dhcp_option) :=
  match original with
  | Some o =>
      c ← dhcp_option_new_values (o_tag o) (o_lenght o) (o_value o);
      mret (Some c)
  | None => mret None
  end.

Fixpoint dhcp_option_retrieve (options : list dhcp_option) (tag : Z) : option dhcp_option :=
  match options with
  | [] => None
  | o :: options' => if o_tag o =? tag then Some o else dhcp_option_retrieve options' tag
  end.

(** The return value and the list it leaves. *)
Definition dhcp_option_add (dest : list dhcp_option) (option : option dhcp_option)
    : Z * list dhcp_option :=
  match option with
  | None => (-1, dest)
  | Some o =>
      match dhcp_option_retrieve dest (o_tag o) with
      | Some _ => (0, dest)
      | None => (0, dest ++ [o])
      end
  end.

(** ** Parsing *)

(** [acc = (acc << 8) | v[i]] for [n] indices from [i]. *)
Fixpoint shift_in (v : list Z) (i : Z) (n : nat) (acc : Z) : result Z :=
  match n with
  | O => mret acc
  | S n' => b ← rd v i; shift_in v (i + 1) n' (Z.lor (u32 (Z.shiftl acc 8)) b)
  end.

Definition parse_option_value_numeric (o : dhcp_option) (v : list Z) : result dhcp_option :=
  n ← shift_in v 0 (Z.to_nat (o_lenght o)) 0; mret (set_value_number o n).
Definition parse_option_value_ip (o : dhcp_option) (v : list Z) : result dhcp_option :=
  n ← shift_in v 0 (Z.to_nat (o_lenght o)) 0; mret (set_value_ip o n).
Definition parse_option_value_bool (o : dhcp_option) (v : list Z) : result dhcp_option :=
  b ← rd v 0; mret (set_value_boolean o (if b =? 0 then 0 else 1)).

Definition parse_option_value (o : dhcp_option) (v : list Z) : result (Z * dhcp_option) :=
  match o_type o with
  | DHCP_OPTION_NUMERIC => o' ← parse_option_value_numeric o v; mret (0, o')
  | DHCP_OPTION_IP => o' ← parse_option_value_ip o v; mret (0, o')
  | DHCP_OPTION_BOOL => o' ← parse_option_value_bool o v; mret (0, o')
  | DHCP_OPTION_STRING | DHCP_OPTION_BIN =>
      m ← blit (o_value o) 0 (zeros (Z.to_nat DHCP_OPTION_MAX_LENGHT));
      bs ← slice v 0 (o_lenght o);
      m ← blit m 0 bs;
      mret (0, with_value o m)
  end.

Section Options.
Context `{CC : !Cclog}.

(** The loop of [dhcp_option_parse] from index [i]; [fuel] bounds its
    iterations. *)
Fixpoint parse_loop (fuel : nat) (raw : list Z) (i : Z) (dest : list dhcp_option)
    : result (Z * list dhcp_option) :=
  match fuel with
  | O => NoFuel
  | S fuel' =>
      if i <? DHCP_PACKET_OPTIONS_SIZE then
        b ← rd raw i;
        if b =? DHCP_OPTION_PAD then parse_loop fuel' raw i dest
        else if b =? DHCP_OPTION_END then mret (0, dest)
        else
          t ← rd raw i;
          l ← rd raw (i + 1);
          let o := Option_ (dhcp_option_tag_to_type t) t l (o_value dhcp_option_new) in
          bs ← slice raw (i + 2) l;
          value_buf ← blit (zeros (Z.to_nat DHCP_OPTION_MAX_LENGHT)) 0 bs;
          '(rv, o) ← parse_option_value o value_buf;
          if if_failed rv then mret (-1, dest)
          else
            let '(rv, dest) := dhcp_option_add dest (Some o) in
            if if_failed rv then mret (-1, dest)
            else parse_loop fuel' raw (i + 2 + l) dest
      else mret (0, dest)
  end.

(** One option takes two bytes at least, so 157 iterations are enough for the
    312 bytes when no PAD tag is met, and with one no number is
    ([dhcp_option_parse_outcome]). *)
Definition parse_fuel : nat := 157.

Definition dhcp_option_parse (dest : list dhcp_option) (raw_options : list Z)
    : result (Z * list dhcp_option) :=
  parse_loop parse_fuel raw_options 0 dest.

(** ** Serializing *)

(** [raw[off + len - i - 1] = (x >> (8*i)) & 0xff] for [n] values of [i]. *)
Fixpoint shift_out (x : Z) (len i : Z) (n : nat) (raw : list Z) (off : Z) : result (list Z) :=
  match n with
  | O => mret raw
  | S n' =>
      y ← shr32 x (8 * i);
      raw ← wr raw (off + (len - i - 1)) (Z.land y 255);
      shift_out x len (i + 1) n' raw off
  end.

Definition serialize_option_numeric (o : dhcp_option) (raw : list Z) (off : Z) : result (list Z) :=
  shift_out (value_number o) (o_lenght o) 0 (Z.to_nat (o_lenght o)) raw off.
Definition serialize_option_ip (o : dhcp_option) (raw : list Z) (off : Z) : result (list Z) :=
  shift_out (value_ip o) (o_lenght o) 0 (Z.to_nat (o_lenght o)) raw off.

(** [raw] and [off] are the array and the position of the pointer. *)
Definition serialize_option_value (o : dhcp_option) (raw : list Z) (off : Z)
    : result (Z * list Z) :=
  match o_type o with
  | DHCP_OPTION_NUMERIC => raw ← serialize_option_numeric o raw off; mret (0, raw)
  | DHCP_OPTION_IP => raw ← serialize_option_ip o raw off; mret (0, raw)
  | DHCP_OPTION_BIN | DHCP_OPTION_BOOL | DHCP_OPTION_STRING =>
      bs ← slice (o_value o) 0 (o_lenght o);
      raw ← blit raw off bs;
      mret (0, raw)
  end.

Fixpoint serialize_loop (options : list dhcp_option) (bytes : Z) (raw : list Z)
    : result (Z * list Z) :=
  match options with
  | [] =>
      raw ← wr raw bytes 255;
      mret (0, raw)
  | o :: options' =>
      if DHCP_PACKET_OPTIONS_SIZE <? bytes + 2 + o_lenght o then
        raw ← wr raw bytes 255;
        mret (-1, raw)
      else
        raw ← wr raw bytes (o_tag o);
        raw ← wr raw (bytes + 1) (o_lenght o);
        '(rv, raw) ← serialize_option_value o raw (bytes + 2);
        if if_failed rv then mret (-1, raw)
        else serialize_loop options' (bytes + 2 + o_lenght o) raw
  end.

Definition dhcp_options_serialize (options : list dhcp_option) (raw_options : list Z)
    : result (Z * list Z) :=
  serialize_loop options 0 raw_options.

(** ** The options of a reply *)

(** The scan of a 0-terminated array. *)
Fixpoint is_option_blacklisted (tag : Z) (blacklist : list Z) : result bool :=
  match blacklist with
  | [] => Undef OutOfBounds
  | b :: blacklist' =>
      if b =? 0 then mret false
      else if b =? tag then mret true
      else is_option_blacklisted tag blacklist'
  end.

(** The configured option of a tag: the one of the pool goes first. *)
Definition configured_option (global_options pool_options : list dhcp_option) (tag : Z)
    : option dhcp_option :=
  match dhcp_option_retrieve pool_options tag with
  | Some o => Some o
  | None => dhcp_option_retrieve global_options tag
  end.

(** The loop over the mandatory options; [required] is what is left of the
    0-terminated array. *)
Fixpoint add_required (dest : list dhcp_option) (required blacklisted : list Z)
    (global_options pool_options : list dhcp_option) : result (Z * list dhcp_option) :=
  match required with
  | [] => Undef OutOfBounds
  | tag :: required' =>
      if tag =? 0 then mret (0, dest)
      else
        black ← is_option_blacklisted tag blacklisted;
        if (black : bool) then add_required dest required' blacklisted global_options pool_options
        else
          match configured_option global_options pool_options tag with
          | None => mret (-1, dest)
          | Some option =>
              copy ← dhcp_option_copy (Some option);
              let '(rv, dest) := dhcp_option_add dest copy in
              if if_failed rv then mret (-1, dest)
              else add_required dest required' blacklisted global_options pool_options
          end
  end.

(** The loop over the requested options, which logs the ones that are not
    configured and goes on. *)
Fixpoint add_requested (dest : list dhcp_option) (requested blacklisted : list Z)
    (global_options pool_options : list dhcp_option) : result (list dhcp_option) :=
  match requested with
  | [] => Undef OutOfBounds
  | tag :: requested' =>
      if tag =? 0 then mret dest
      else
        black ← is_option_blacklisted tag blacklisted;
        if (black : bool) then add_requested dest requested' blacklisted global_options pool_options
        else
          copy ← dhcp_option_copy (configured_option global_options pool_options tag);
          let '(_, dest) := dhcp_option_add dest copy in
          add_requested dest requested' blacklisted global_options pool_options
  end.

Definition dhcp_option_build_required_options (dest : list dhcp_option)
    (requested_options required_options blacklisted_options : list Z)
    (global_options pool_options : list dhcp_option) (type : Z)
    : result (Z * list dhcp_option) :=
  o53 ← dhcp_option_new_values DHCP_OPTION_DHCP_MESSAGE_TYPE 1 [u8 type];
  let '(rv, dest) := dhcp_option_add dest (Some o53) in
  if if_failed rv then mret (-1, dest) else
  '(rv, dest) ← add_required dest required_options blacklisted_options global_options pool_options;
  if rv =? 0 then
    dest ← add_requested dest requested_options blacklisted_options global_options pool_options;
    mret (0, dest)
  else mret (-1, dest).

(** ** Well-formed options *)

(** The fields of an option hold bytes and the type agrees with the tag. *)
Definition option_wf (o : dhcp_option) : Prop :=
  is_u8 (o_tag o) ∧ is_u8 (o_lenght o) ∧
  o_type o = dhcp_option_tag_to_type (o_tag o) ∧
  length (o_value o) = VALUE_SIZE ∧ is_bytes (o_value o).

(** An option that can be sent: an integer is not longer than four bytes. *)
Definition option_ok (o : dhcp_option) : Prop :=
  option_wf o ∧
  (o_type o = DHCP_OPTION_NUMERIC ∨ o_type o = DHCP_OPTION_IP → o_lenght o ≤ 4).

(** The bytes an option is sent as. *)
Definition encode_value (o : dhcp_option) : list Z :=
  match o_type o with
  | DHCP_OPTION_NUMERIC => be_bytes (Z.to_nat (o_lenght o)) (value_number o)
  | DHCP_OPTION_IP => be_bytes (Z.to_nat (o_lenght o)) (value_ip o)
  | _ => take (Z.to_nat (o_lenght o)) (o_value o)
  end.
Definition encode (o : dhcp_option) : list Z := o_tag o :: o_lenght o :: encode_value o.
Definition encode_all (os : list dhcp_option) : list Z := concat (encode <$> os).

(** The memory of an option that was parsed from its encoding: the part of the
    union the value does not occupy is 0, and the value fits the length. *)
Definition option_canonical (o : dhcp_option) : Prop :=
  o_tag o ≠ DHCP_OPTION_PAD ∧ o_tag o ≠ DHCP_OPTION_END ∧
  o_lenght o ≤ DHCP_OPTION_MAX_LENGHT ∧
  match o_type o with
  | DHCP_OPTION_NUMERIC | DHCP_OPTION_IP =>
      ∃ n, 0 ≤ n < 256 ^ o_lenght o ∧
           o_value o = le_bytes 4 n ++ zeros (VALUE_SIZE - 4)
  | DHCP_OPTION_BOOL =>
      ∃ b, (b = 0 ∨ b = 1 ∧ 1 ≤ o_lenght o) ∧ o_value o = b :: zeros (VALUE_SIZE - 1)
  | DHCP_OPTION_STRING | DHCP_OPTION_BIN =>
      ∃ bs, zlen bs = o_lenght o ∧ o_value o = bs ++ zeros (VALUE_SIZE - length bs)
  end.

(** ** Serialization *)
Lemma wr_middle {A} (a b : list A) x v : wr (a ++ x :: b) (zlen a) v = Ret (a ++ v :: b).
Proof.
  rewrite wr_in by (rewrite zlen_app, zlen_cons; pose proof (zlen_nonneg a);
                    pose proof (zlen_nonneg b); lia).
  unfold zlen. rewrite Nat2Z.id.
  replace (length a) with (length a + 0)%nat by lia. by rewrite insert_app_r.
Qed.

Lemma shift_out_spec x len n : ∀ i pre mid post,
  len ≤ 4 → 0 ≤ i → i + Z.of_nat n = len → length mid = n →
  shift_out x len i n (pre ++ mid ++ post) (zlen pre) =
    Ret (pre ++ be_bytes n (Z.shiftr x (8 * i)) ++ post).
Proof.
  induction n as [|n IH]; intros i pre mid post Hlen Hi Hn Hm.
  { by destruct mid. }
  destruct mid as [|m mid _] using rev_ind; [done|].
  rewrite length_app in Hm. simpl in Hm.
  cbn [shift_out]. unfold shr32.
  destruct ((0 <=? 8 * i) && (8 * i <? 32)) eqn:E; [|bool_to_prop; lia].
  cbn [mbind result_bind].
  replace (zlen pre + (len - i - 1)) with (zlen (pre ++ mid))
    by (rewrite zlen_app; unfold zlen; lia).
  replace (pre ++ (mid ++ [m]) ++ post) with ((pre ++ mid) ++ m :: post)
    by by rewrite <-!app_assoc.
  rewrite wr_middle. cbn [mbind result_bind]. rewrite <-app_assoc.
  rewrite IH by lia. rewrite be_bytes_S, <-app_assoc, Z.shiftr_shiftr by lia.
  by replace (8 * i + 8) with (8 * (i + 1)) by lia.
Qed.

Lemma length_encode_value o : option_ok o → zlen (encode_value o) = o_lenght o.
Proof.
  intros [(_ & Hl & _ & Hv & _) _]. unfold is_u8 in Hl. unfold encode_value, zlen.
  destruct (o_type o); rewrite ?length_be_bytes, ?length_take, ?Hv; unfold VALUE_SIZE; lia.
Qed.

Lemma serialize_value_spec o pre mid post :
  option_ok o → zlen mid = o_lenght o →
  serialize_option_value o (pre ++ mid ++ post) (zlen pre) =
    Ret (0, pre ++ encode_value o ++ post).
Proof.
  intros Ho Hm. pose proof (length_encode_value o Ho) as Hlen.
  destruct Ho as [(_ & Hl & _ & Hv & _) H4]. unfold is_u8 in Hl.
  unfold serialize_option_value, encode_value in *.
  destruct (o_type o) eqn:Ht;
    unfold serialize_option_numeric, serialize_option_ip;
    [rewrite shift_out_spec; [by rewrite Z.mul_0_r, Z.shiftr_0_r | auto | lia.. | unfold zlen in Hm; lia]
    | | rewrite shift_out_spec; [by rewrite Z.mul_0_r, Z.shiftr_0_r | auto | lia.. | unfold zlen in Hm; lia] | | ];
    (rewrite slice_prefix by (unfold zlen, VALUE_SIZE in *; lia); cbn [mbind result_bind];
     rewrite blit_middle; [done | unfold zlen in *; lia]).
Qed.

Lemma split_mid (post : list Z) n : 0 ≤ n → n ≤ zlen post →
  ∃ mid rest, post = mid ++ rest ∧ zlen mid = n.
Proof.
  intros H0 Hn. exists (take (Z.to_nat n) post), (drop (Z.to_nat n) post).
  split; [by rewrite take_drop|]. unfold zlen in *. rewrite length_take. lia.
Qed.

(** One option that fits. *)
Lemma serialize_loop_step o os pre post :
  option_ok o → zlen pre + 2 + o_lenght o ≤ DHCP_PACKET_OPTIONS_SIZE →
  DHCP_PACKET_OPTIONS_SIZE < zlen (pre ++ post) →
  ∃ rest, length (pre ++ post) = length ((pre ++ encode o) ++ rest) ∧
    rest = drop (length (encode o)) post ∧
    serialize_loop (o :: os) (zlen pre) (pre ++ post) =
    serialize_loop os (zlen (pre ++ encode o)) ((pre ++ encode o) ++ rest).
Proof.
  intros Ho Hfit Hlen. pose proof (length_encode_value o Ho) as Hev.
  assert (Hl : is_u8 (o_lenght o)) by apply Ho. unfold is_u8 in Hl.
  rewrite zlen_app in Hlen.
  destruct post as [|x [|y post]]; try (unfold zlen in *; simpl in *; lia).
  destruct (split_mid post (o_lenght o)) as (mid & rest & -> & Hmid);
    [lia | rewrite !zlen_cons in Hlen; lia |].
  exists rest. split_and!.
  { unfold encode. rewrite <-!app_assoc. simpl. rewrite !length_app. simpl.
    rewrite !length_app. unfold zlen in *. lia. }
  { unfold encode. cbn [length drop]. symmetry.
    replace (length (encode_value o)) with (length mid) by (unfold zlen in *; lia).
    apply drop_app_length. }
  cbn [serialize_loop].
  destruct (DHCP_PACKET_OPTIONS_SIZE <? zlen pre + 2 + o_lenght o) eqn:E;
    [bool_to_prop; lia|].
  rewrite wr_middle. cbn [mbind result_bind].
  replace (zlen pre + 1) with (zlen (pre ++ [o_tag o])) by (rewrite zlen_app; done).
  replace (pre ++ o_tag o :: y :: mid ++ rest) with ((pre ++ [o_tag o]) ++ y :: mid ++ rest)
    by by rewrite <-app_assoc.
  rewrite wr_middle. cbn [mbind result_bind].
  replace (zlen pre + 2) with (zlen (pre ++ [o_tag o; o_lenght o]))
    by (rewrite zlen_app; done).
  replace ((pre ++ [o_tag o]) ++ o_lenght o :: mid ++ rest)
    with ((pre ++ [o_tag o; o_lenght o]) ++ mid ++ rest) by by rewrite <-!app_assoc.
  rewrite serialize_value_spec by done. cbn [mbind result_bind].
  rewrite if_failed_spec. cbn [Z.eqb negb].
  f_equal; [|by rewrite <-!app_assoc].
  unfold encode. rewrite !zlen_app, !zlen_cons, Hev. unfold zlen. simpl. lia.
Qed.

(** The options that are sent: as many from the front as fit. *)
Fixpoint fitting (bytes : Z) (os : list dhcp_option) : list dhcp_option :=
  match os with
  | [] => []
  | o :: os' =>
      if DHCP_PACKET_OPTIONS_SIZE <? bytes + 2 + o_lenght o then []
      else o :: fitting (bytes + 2 + o_lenght o) os'
  end.

Lemma zlen_encode o : option_ok o → zlen (encode o) = 2 + o_lenght o.
Proof. intros Ho. unfold encode. rewrite !zlen_cons, length_encode_value by done. lia. Qed.

Lemma serialize_loop_spec os : ∀ pre post,
  Forall option_ok os → zlen pre ≤ DHCP_PACKET_OPTIONS_SIZE →
  DHCP_PACKET_OPTIONS_SIZE < zlen (pre ++ post) →
  let sent := fitting (zlen pre) os in
  serialize_loop os (zlen pre) (pre ++ post) =
    Ret (if decide (length sent = length os) then 0 else -1,
         pre ++ encode_all sent ++ 255 :: drop (S (length (encode_all sent))) post).
Proof.
  induction os as [|o os IH]; intros pre post Hok Hfit Hlen.
  - destruct post as [|x post].
    { rewrite app_nil_r in Hlen. unfold zlen in *; simpl in *. lia. }
    cbn [serialize_loop fitting]. by rewrite wr_middle.
  - apply Forall_cons in Hok as [Ho Hok].
    cbn [fitting]. destruct (DHCP_PACKET_OPTIONS_SIZE <? zlen pre + 2 + o_lenght o) eqn:E.
    { cbn [serialize_loop]. rewrite E. destruct post as [|x post].
      { rewrite app_nil_r in Hlen. unfold zlen in *; simpl in *. lia. }
      by rewrite wr_middle. }
    bool_to_prop.
    destruct (serialize_loop_step o os pre post) as (rest & Hl & -> & ->); [done|lia|done|].
    assert (Hz : zlen (pre ++ encode o) = zlen pre + 2 + o_lenght o)
      by (rewrite zlen_app, zlen_encode by done; lia).
    rewrite IH; [|done|lia|unfold zlen in *; lia].
    rewrite Hz. set (sent := fitting _ os).
    change (encode_all (o :: sent)) with (encode o ++ encode_all sent).
    rewrite <-!app_assoc, drop_drop, length_app, Nat.add_succ_r. f_equal. f_equal.
    simpl. destruct (decide (length sent = length os)), (decide (S (length sent) = S (length os)));
      congruence.
Qed.

Lemma fitting_bound os : ∀ bytes,
  Forall option_ok os → bytes ≤ DHCP_PACKET_OPTIONS_SIZE →
  bytes + zlen (encode_all (fitting bytes os)) ≤ DHCP_PACKET_OPTIONS_SIZE.
Proof.
  induction os as [|o os IH]; intros bytes Hok Hb; simpl.
  { unfold zlen. simpl. lia. }
  apply Forall_cons in Hok as [Ho Hok].
  destruct (DHCP_PACKET_OPTIONS_SIZE <? bytes + 2 + o_lenght o) eqn:E; bool_to_prop.
  { unfold zlen. simpl. lia. }
  change (encode_all (o :: ?x)) with (encode o ++ encode_all x).
  rewrite zlen_app, zlen_encode by done. specialize (IH (bytes + 2 + o_lenght o) Hok). lia.
Qed.

Lemma fitting_all os : ∀ bytes,
  Forall option_ok os → bytes + zlen (encode_all os) ≤ DHCP_PACKET_OPTIONS_SIZE →
  fitting bytes os = os.
Proof.
  induction os as [|o os IH]; intros bytes Hok Hb; [done|]. simpl.
  apply Forall_cons in Hok as [Ho Hok].
  change (encode_all (o :: os)) with (encode o ++ encode_all os) in Hb.
  rewrite zlen_app, zlen_encode in Hb by done. pose proof (zlen_nonneg (encode_all os)).
  destruct (DHCP_PACKET_OPTIONS_SIZE <? bytes + 2 + o_lenght o) eqn:E; bool_to_prop; [lia|].
  by rewrite IH by (done || lia).
Qed.

Lemma fitting_prefix bytes os : fitting bytes os `prefix_of` os.
Proof.
  revert bytes. induction os as [|o os IH]; intros bytes; simpl; [done|].
  destruct (_ <? _); [apply prefix_nil | by apply prefix_cons].
Qed.

(** ** Parsing *)
Lemma u32_shl8_lor acc b :
  is_u8 b → Z.lor (u32 (Z.shiftl acc 8)) b = u32 (acc * 256 + b).
Proof.
  unfold is_u8, u32. intros Hb. rewrite Z.shiftl_mul_pow2 by lia.
  change (2 ^ 32) with (2 ^ 24 * 2 ^ 8). rewrite Z.mul_mod_distr_r by lia.
  rewrite <-Z.shiftl_mul_pow2, lor_shiftl_add by lia.
  change (2 ^ 8) with 256 in *. change (2 ^ 24) with 16777216.
  Z.div_mod_to_equations. lia.
Qed.

Lemma shift_in_spec mid : ∀ pre post acc,
  is_bytes mid → is_u32 acc →
  shift_in (pre ++ mid ++ post) (zlen pre) (length mid) acc =
    Ret (u32 (acc * 256 ^ zlen mid + be_val mid)).
Proof.
  induction mid as [|b mid IH]; intros pre post acc Hb Ha.
  - simpl. rewrite Z.mul_1_r, Z.add_0_r. by rewrite u32_small.
  - apply Forall_cons in Hb as [Hb Hbs].
    cbn [length shift_in app]. rewrite rd_middle. cbn [mbind result_bind].
    replace (zlen pre + 1) with (zlen (pre ++ [b])) by (rewrite zlen_app; done).
    replace (pre ++ b :: mid ++ post) with ((pre ++ [b]) ++ mid ++ post)
      by by rewrite <-app_assoc.
    rewrite u32_shl8_lor by done. rewrite IH by auto with dhcp. f_equal.
    rewrite be_val_cons. unfold zlen. cbn [length].
    rewrite Nat2Z.inj_succ, Z.pow_succ_r by lia. unfold u32.
    rewrite <-Zplus_mod_idemp_l, Zmult_mod_idemp_l, Zplus_mod_idemp_l. f_equal. ring.
Qed.

Lemma zeros_app n m : zeros (n + m) = zeros n ++ zeros m.
Proof. apply replicate_add. Qed.
Lemma length_zeros n : length (zeros n) = n.
Proof. apply length_replicate. Qed.
Lemma zeros_split n m : (n ≤ m)%nat → zeros m = zeros n ++ zeros (m - n).
Proof. intros. rewrite <-zeros_app. f_equal. lia. Qed.
Lemma zeros_bytes n : is_bytes (zeros n).
Proof. apply Forall_replicate. unfold is_u8. lia. Qed.

(** A copy to the start of a zeroed buffer. *)
Lemma blit_zeros n bs :
  (length bs ≤ n)%nat → blit (zeros n) 0 bs = Ret (bs ++ zeros (n - length bs)).
Proof.
  intros Hn. rewrite (zeros_split (length bs)) by done.
  apply (blit_middle [] (zeros (length bs)) (zeros (n - length bs)) bs).
  by rewrite length_zeros.
Qed.

Lemma value_number_le n rest : 0 ≤ n < 2 ^ 32 → le_val (take 4 (le_bytes 4 n ++ rest)) = n.
Proof.
  intros Hn. rewrite take_app_length' by by rewrite length_le_bytes.
  rewrite le_val_bytes. apply Z.mod_small. exact Hn.
Qed.

Lemma pow256_le4 l : 0 ≤ l ≤ 4 → 256 ^ l ≤ 2 ^ 32.
Proof. intros. change (2 ^ 32) with (256 ^ 4). apply Z.pow_le_mono_r; lia. Qed.

(** The three shapes of a value, parsed from its encoding. *)
Lemma parse_integer l v :
  0 ≤ l ≤ 4 → (∃ n, 0 ≤ n < 256 ^ l ∧ v = le_bytes 4 n ++ zeros (VALUE_SIZE - 4)) →
  shift_in (be_bytes (Z.to_nat l) (le_val (take 4 v)) ++
            zeros (Z.to_nat DHCP_OPTION_MAX_LENGHT - Z.to_nat l)) 0 (Z.to_nat l) 0 =
    Ret (le_val (take 4 v)) ∧
  splice 0 (le_bytes 4 (le_val (take 4 v))) (zeros VALUE_SIZE) = v.
Proof.
  intros Hl (n & Hn & ->). pose proof (pow256_le4 l Hl).
  rewrite value_number_le by lia. split; [|done].
  pose proof (shift_in_spec (be_bytes (Z.to_nat l) n) []
    (zeros (Z.to_nat DHCP_OPTION_MAX_LENGHT - Z.to_nat l)) 0) as Hs.
  rewrite length_be_bytes in Hs. simpl in Hs. change (zlen []) with 0 in Hs.
  rewrite Hs; [|apply Forall_rev, le_bytes_is_bytes | unfold is_u32; lia].
  rewrite be_val_bytes, Z2Nat.id, Z.mod_small by lia.
  f_equal. apply u32_small. unfold is_u32. lia.
Qed.

Lemma parse_octets o bs :
  o_type o = DHCP_OPTION_STRING ∨ o_type o = DHCP_OPTION_BIN →
  zlen bs = o_lenght o → o_lenght o ≤ DHCP_OPTION_MAX_LENGHT →
  o_value o = zeros VALUE_SIZE →
  parse_option_value o (bs ++ zeros (Z.to_nat DHCP_OPTION_MAX_LENGHT - length bs)) =
    Ret (0, with_value o (bs ++ zeros (VALUE_SIZE - length bs))).
Proof.
  intros Hty Hbs Hmax Hv.
  assert (E : ∀ A (x y : A), match o_type o with
    | DHCP_OPTION_STRING | DHCP_OPTION_BIN => x | _ => y end = x) by
    (intros; destruct Hty as [-> | ->]; done).
  unfold parse_option_value. unfold zlen, VALUE_SIZE, DHCP_OPTION_MAX_LENGHT in *.
  rewrite Hv, blit_zeros by (rewrite length_zeros; lia). cbn [mbind result_bind].
  rewrite <-zeros_app, length_zeros.
  rewrite slice_prefix by (unfold zlen; rewrite length_app; lia). cbn [mbind result_bind].
  rewrite take_app_length' by lia. rewrite blit_zeros by lia. cbn [mbind result_bind].
  replace (Z.to_nat 253 + (256 - Z.to_nat 253) - length bs)%nat with (256 - length bs)%nat by lia.
  destruct Hty as [-> | ->]; done.
Qed.

Lemma parse_boolean l b : 0 ≤ l →
  (b = 0 ∨ b = 1 ∧ 1 ≤ l) →
  ∃ c, rd (take (Z.to_nat l) (b :: zeros (VALUE_SIZE - 1)) ++
           zeros (Z.to_nat DHCP_OPTION_MAX_LENGHT - Z.to_nat l)) 0 = Ret c ∧
       (if c =? 0 then 0 else 1) = b.
Proof.
  intros Hl Hb. destruct (decide (l = 0)) as [->|Hl0].
  - exists 0. destruct Hb as [->|[-> ?]]; [done | lia].
  - exists b. replace (Z.to_nat l) with (S (Z.to_nat l - 1)) by lia. cbn [take app].
    split; [done|]. by destruct Hb as [->|[-> ?]].
Qed.

(** Parsing the encoding of an option gives the option back. *)
Lemma parse_encoded_value o :
  option_ok o → option_canonical o →
  parse_option_value (Option_ (o_type o) (o_tag o) (o_lenght o) (o_value dhcp_option_new))
    (encode_value o ++ zeros (Z.to_nat DHCP_OPTION_MAX_LENGHT - length (encode_value o)))
  = Ret (0, o).
Proof.
  intros Ho (_ & _ & Hmax & Hc). pose proof (length_encode_value o Ho) as Hlen.
  destruct Ho as [(Ht & Hl & Hty & Hv & Hb) H4]. unfold is_u8 in Hl.
  destruct o as [ty tag l v]; unfold encode_value in *; cbn [o_type o_tag o_lenght o_value] in *.
  destruct ty.
  - unfold value_number in *; simpl in *. rewrite length_be_bytes in *.
    unfold parse_option_value, parse_option_value_numeric; cbn [o_type o_lenght].
    destruct (parse_integer l v) as [-> E]; [split; [lia | by apply H4; auto] | done |].
    cbn [mbind result_bind]. unfold set_value_number, with_value.
    cbn [o_type o_tag o_lenght o_value dhcp_option_new]. by rewrite E.
  - destruct Hc as (bs & Hbs & ->). rewrite take_app_length' by (unfold zlen in Hbs; lia).
    by apply parse_octets; auto.
  - unfold value_ip in *; simpl in *. rewrite length_be_bytes in *.
    unfold parse_option_value, parse_option_value_ip; cbn [o_type o_lenght].
    destruct (parse_integer l v) as [-> E]; [split; [lia | by apply H4; auto] | done |].
    cbn [mbind result_bind]. unfold set_value_ip, with_value.
    cbn [o_type o_tag o_lenght o_value dhcp_option_new]. by rewrite E.
  - destruct Hc as (b & Hbl & ->). unfold parse_option_value, parse_option_value_bool.
    cbn [o_type].
    replace (length (take (Z.to_nat l) (b :: zeros (VALUE_SIZE - 1)))) with (Z.to_nat l)
      by (unfold zlen in Hlen; lia).
    destruct (parse_boolean l b) as (c & -> & E); [lia | done |].
    cbn [mbind result_bind]. rewrite E. done.
  - destruct Hc as (bs & Hbs & ->). rewrite take_app_length' by (unfold zlen in Hbs; lia).
    by apply parse_octets; auto.
Qed.

(** *** The loop over encoded options *)
Lemma retrieve_None os t : dhcp_option_retrieve os t = None ↔ t ∉ o_tag <$> os.
Proof.
  induction os as [|o os IH]; simpl; [split; [intros _; apply not_elem_of_nil | done]|].
  destruct (Z.eqb_spec (o_tag o) t) as [->|Hne].
  - split; [done|]. intros Hn. destruct Hn. left.
  - rewrite IH, not_elem_of_cons. naive_solver.
Qed.

Lemma retrieve_Some os t o :
  dhcp_option_retrieve os t = Some o → o ∈ os ∧ o_tag o = t.
Proof.
  induction os as [|x os IH]; simpl; [done|].
  destruct (Z.eqb_spec (o_tag x) t).
  - intros [= <-]. split; [left | done].
  - intros [??]%IH. split; [by right | done].
Qed.

(** The reads of one iteration. *)
Lemma encode_reads o pre rest :
  option_ok o → let raw := pre ++ encode o ++ rest in
  rd raw (zlen pre) = Ret (o_tag o) ∧ rd raw (zlen pre + 1) = Ret (o_lenght o) ∧
  slice raw (zlen pre + 2) (o_lenght o) = Ret (encode_value o).
Proof.
  intros Ho raw. unfold encode in raw. subst raw. cbn [app]. split_and!.
  - apply rd_middle.
  - replace (zlen pre + 1) with (zlen (pre ++ [o_tag o])) by (rewrite zlen_app; done).
    replace (pre ++ o_tag o :: o_lenght o :: encode_value o ++ rest)
      with ((pre ++ [o_tag o]) ++ o_lenght o :: encode_value o ++ rest) by by rewrite <-app_assoc.
    apply rd_middle.
  - replace (zlen pre + 2) with (zlen (pre ++ [o_tag o; o_lenght o])) by (rewrite zlen_app; done).
    replace (pre ++ o_tag o :: o_lenght o :: encode_value o ++ rest)
      with ((pre ++ [o_tag o; o_lenght o]) ++ encode_value o ++ rest) by by rewrite <-app_assoc.
    rewrite <-(slice_middle (pre ++ [o_tag o; o_lenght o]) (encode_value o) rest).
    by rewrite length_encode_value.
Qed.

Lemma parse_loop_step fuel o pre rest dest :
  option_ok o → option_canonical o → zlen pre < DHCP_PACKET_OPTIONS_SIZE →
  o_tag o ∉ o_tag <$> dest →
  parse_loop (S fuel) (pre ++ encode o ++ rest) (zlen pre) dest =
  parse_loop fuel (pre ++ encode o ++ rest) (zlen (pre ++ encode o)) (dest ++ [o]).
Proof.
  intros Ho Hc Hpre Hd. pose proof (length_encode_value o Ho) as Hev.
  pose proof (parse_encoded_value o Ho Hc) as Hparse.
  destruct Hc as (Hpad & Hend & Hmax & _). assert (Hty := Ho).
  destruct Hty as [(_ & Hl & Hty & _) _]. unfold is_u8 in Hl.
  cbn [parse_loop]. destruct (zlen pre <? DHCP_PACKET_OPTIONS_SIZE) eqn:E; [|bool_to_prop; lia].
  destruct (encode_reads o pre rest Ho) as (H1 & H2 & H3).
  set (raw := pre ++ encode o ++ rest) in *.
  rewrite H1. cbn [mbind result_bind].
  destruct (Z.eqb_spec (o_tag o) DHCP_OPTION_PAD); [done|].
  destruct (Z.eqb_spec (o_tag o) DHCP_OPTION_END); [done|].
  rewrite H2. cbn [mbind result_bind]. rewrite H3. cbn [mbind result_bind].
  unfold zlen, DHCP_OPTION_MAX_LENGHT in Hev, Hmax.
  rewrite blit_zeros by (unfold DHCP_OPTION_MAX_LENGHT; lia). cbn [mbind result_bind].
  rewrite <-Hty, Hparse. cbn [mbind result_bind].
  rewrite if_failed_spec. cbn [Z.eqb negb dhcp_option_add].
  apply retrieve_None in Hd. rewrite Hd. rewrite if_failed_spec. cbn [Z.eqb negb].
  f_equal. rewrite zlen_app, zlen_encode by done. lia.
Qed.

Lemma parse_loop_encoded os : ∀ fuel pre rest dest,
  Forall option_ok os → Forall option_canonical os →
  NoDup (o_tag <$> (dest ++ os)) →
  zlen pre + zlen (encode_all os) ≤ DHCP_PACKET_OPTIONS_SIZE → (length os < fuel)%nat →
  parse_loop fuel (pre ++ encode_all os ++ 255 :: rest) (zlen pre) dest = Ret (0, dest ++ os).
Proof.
  induction os as [|o os IH]; intros fuel pre rest dest Hok Hc Hnd Hfit Hf;
    (destruct fuel as [|fuel]; [simpl in Hf; lia|]).
  - cbn [parse_loop encode_all fmap list_fmap concat app].
    destruct (_ <? _); [|by rewrite app_nil_r]. rewrite rd_middle. cbn. by rewrite app_nil_r.
  - apply Forall_cons in Hok as [Ho Hok]. apply Forall_cons in Hc as [Hco Hc].
    change (encode_all (o :: os)) with (encode o ++ encode_all os) in *.
    rewrite zlen_app, zlen_encode in Hfit by done.
    pose proof (zlen_nonneg (encode_all os)).
    assert (0 ≤ o_lenght o) by apply Ho.
    rewrite <-app_assoc. rewrite parse_loop_step; [|done|done|lia|].
    + rewrite app_assoc. rewrite (IH fuel (pre ++ encode o) rest (dest ++ [o])); try done.
      * by rewrite <-app_assoc.
      * by rewrite <-app_assoc.
      * rewrite zlen_app, zlen_encode by done. lia.
      * simpl in Hf. lia.
    + rewrite fmap_app in Hnd. apply NoDup_app in Hnd as (_ & Hd & _).
      intros Hin. apply (Hd _ Hin). left.
Qed.

Lemma encode_all_count os : Forall option_ok os → 2 * zlen os ≤ zlen (encode_all os).
Proof.
  induction 1 as [|o os Ho Hos IH]; [done|].
  change (encode_all (o :: os)) with (encode o ++ encode_all os).
  rewrite zlen_app, zlen_encode, zlen_cons by done. assert (0 ≤ o_lenght o) by apply Ho. lia.
Qed.

(** *** Fuel *)
Lemma parse_loop_mono raw : ∀ f f' i dest r,
  parse_loop f raw i dest = r → r ≠ NoFuel → (f ≤ f')%nat →
  parse_loop f' raw i dest = r.
Proof.
  induction f as [|f IH]; intros f' i dest r Hr Hn Hf; [by subst|].
  destruct f' as [|f']; [lia|]. cbn [parse_loop] in *.
  destruct (i <? _); [|done].
  destruct (rd raw i) as [b| |]; [cbn [mbind result_bind] in *|done..].
  destruct (b =? _); [apply IH; by (done || lia)|]. destruct (b =? _); [done|].
  destruct (rd raw (i + 1)) as [l| |]; [cbn [mbind result_bind] in *|done..].
  destruct (slice _ _ _); [cbn [mbind result_bind] in *|done..].
  destruct (blit _ _ _); [cbn [mbind result_bind] in *|done..].
  destruct (parse_option_value _ _) as [[rv o]| |]; [cbn [mbind result_bind] in *|done..].
  destruct (if_failed rv); [done|]. destruct (dhcp_option_add _ _) as [rv' d'].
  destruct (if_failed rv'); [done|]. apply IH; by (done || lia).
Qed.

(** A pad byte at the position of a tag. *)
Lemma parse_loop_pad raw i dest fuel :
  i < DHCP_PACKET_OPTIONS_SIZE → rd raw i = Ret DHCP_OPTION_PAD →
  parse_loop fuel raw i dest = NoFuel.
Proof.
  intros Hi Hb. induction fuel as [|fuel IH]; [done|]. cbn [parse_loop].
  destruct (i <? _) eqn:E; [|bool_to_prop; lia]. rewrite Hb. done.
Qed.

(** *** How the parser ends *)

(** The ways over an option area from an offset: the options end at an END tag or
    behind the last byte the parser looks at; the parser stays at a PAD tag; an
    option is longer than the buffer for values or than the area. *)
Inductive ending := Ends | Hangs | Overruns.

Inductive walks (raw : list Z) : Z → ending → Prop :=
  | walks_past i : DHCP_PACKET_OPTIONS_SIZE ≤ i → walks raw i Ends
  | walks_end i : i < DHCP_PACKET_OPTIONS_SIZE → rd raw i = Ret DHCP_OPTION_END → walks raw i Ends
  | walks_pad i : i < DHCP_PACKET_OPTIONS_SIZE → rd raw i = Ret DHCP_OPTION_PAD → walks raw i Hangs
  | walks_long i t l : i < DHCP_PACKET_OPTIONS_SIZE → rd raw i = Ret t →
      t ∉ [DHCP_OPTION_PAD; DHCP_OPTION_END] → rd raw (i + 1) = Ret l →
      DHCP_OPTION_MAX_LENGHT < l ∨ zlen raw < i + 2 + l → walks raw i Overruns
  | walks_option i t l e : i < DHCP_PACKET_OPTIONS_SIZE → rd raw i = Ret t →
      t ∉ [DHCP_OPTION_PAD; DHCP_OPTION_END] → rd raw (i + 1) = Ret l →
      l ≤ DHCP_OPTION_MAX_LENGHT → i + 2 + l ≤ zlen raw → walks raw (i + 2 + l) e → walks raw i e.

Lemma shift_in_total v n : ∀ i acc, 0 ≤ i → i + Z.of_nat n ≤ zlen v → ∃ m, shift_in v i n acc = Ret m.
Proof.
  induction n as [|n IH]; intros i acc Hi Hn; [by exists acc|]. cbn [shift_in].
  destruct (rd_in v i) as [b ->]; [lia|]. apply IH; lia.
Qed.

Lemma parse_option_value_total o v : o_value o = zeros VALUE_SIZE →
  0 ≤ o_lenght o ≤ DHCP_OPTION_MAX_LENGHT → zlen v = DHCP_OPTION_MAX_LENGHT →
  ∃ o', parse_option_value o v = Ret (0, o').
Proof.
  intros Ho Hl Hv. unfold parse_option_value.
  destruct (shift_in_total v (Z.to_nat (o_lenght o)) 0 0) as [m Hm]; [lia..|].
  destruct (o_type o).
  1, 3: unfold parse_option_value_numeric, parse_option_value_ip; rewrite Hm; by eexists.
  2: { unfold parse_option_value_bool. destruct (rd_in v 0) as [b ->]; [unfold DHCP_OPTION_MAX_LENGHT in *; lia|].
       by eexists. }
  all: rewrite Ho, blit_zeros, ret_bind by (vm_compute; lia).
  all: rewrite slice_prefix, ret_bind by lia.
  all: rewrite blit_in; [by eexists | lia|].
  all: assert (E : zlen (take (Z.to_nat (o_lenght o)) v) ≤ DHCP_OPTION_MAX_LENGHT)
    by (unfold zlen in *; rewrite length_take; lia).
  all: rewrite Z.add_0_l; etransitivity; [exact E | vm_compute; discriminate].
Qed.

Lemma rd_u8 raw i b : is_bytes raw → rd raw i = Ret b → is_u8 b.
Proof. intros Hr [_ E]%rd_Ret. by eapply Forall_lookup_1 in E. Qed.

Lemma parse_loop_option raw i t l dest : 0 ≤ i < DHCP_PACKET_OPTIONS_SIZE → is_bytes raw →
  rd raw i = Ret t → t ∉ [DHCP_OPTION_PAD; DHCP_OPTION_END] → rd raw (i + 1) = Ret l →
  l ≤ DHCP_OPTION_MAX_LENGHT → i + 2 + l ≤ zlen raw →
  ∃ dest', ∀ f, parse_loop (S f) raw i dest = parse_loop f raw (i + 2 + l) dest'.
Proof.
  intros Hi Hraw Ht Hne Hl Hmax Hlen. apply rd_Ret in Hl as Hl'. destruct Hl' as [_ Hl'].
  eapply Forall_lookup_1 in Hl'; [|exact Hraw]. unfold is_u8 in Hl'.
  apply not_elem_of_cons in Hne as [Hpad [Hend _]%not_elem_of_cons].
  set (o := Option_ (dhcp_option_tag_to_type t) t l (o_value dhcp_option_new)).
  set (bs := take (Z.to_nat l) (drop (Z.to_nat (i + 2)) raw)).
  assert (Hbs : length bs = Z.to_nat l)
    by (subst bs; rewrite length_take, length_drop; unfold zlen in Hlen; lia).
  set (v := bs ++ zeros (Z.to_nat DHCP_OPTION_MAX_LENGHT - length bs)).
  destruct (parse_option_value_total o v) as [o' Ho'].
  { done. } { cbn. lia. }
  { subst v. unfold zlen, zeros. rewrite length_app, length_replicate, Hbs.
    unfold DHCP_OPTION_MAX_LENGHT in *. lia. }
  exists (snd (dhcp_option_add dest (Some o'))). intros f. cbn [parse_loop].
  rewrite (proj2 (Z.ltb_lt _ _)) by lia. rewrite Ht. cbn [mbind result_bind].
  rewrite !(proj2 (Z.eqb_neq _ _)) by done. rewrite Hl. cbn [mbind result_bind].
  rewrite slice_in by lia. cbn [mbind result_bind]. fold bs.
  rewrite blit_zeros by (rewrite Hbs; unfold DHCP_OPTION_MAX_LENGHT in *; lia).
  cbn [mbind result_bind]. fold v o. rewrite Ho'. cbn [mbind result_bind].
  rewrite if_failed_spec. cbn [Z.eqb negb]. unfold dhcp_option_add.
  destruct (dhcp_option_retrieve dest (o_tag o')); rewrite if_failed_spec; done.
Qed.

Lemma parse_loop_overrun raw i t l dest f : 0 ≤ i < DHCP_PACKET_OPTIONS_SIZE → is_bytes raw →
  rd raw i = Ret t → t ∉ [DHCP_OPTION_PAD; DHCP_OPTION_END] → rd raw (i + 1) = Ret l →
  DHCP_OPTION_MAX_LENGHT < l ∨ zlen raw < i + 2 + l →
  parse_loop (S f) raw i dest = Undef OutOfBounds.
Proof.
  intros Hi Hraw Ht Hne Hl Hlong. apply rd_Ret in Hl as Hl'. destruct Hl' as [_ Hl'].
  eapply Forall_lookup_1 in Hl'; [|exact Hraw]. unfold is_u8 in Hl'.
  apply not_elem_of_cons in Hne as [Hpad [Hend _]%not_elem_of_cons]. cbn [parse_loop].
  rewrite (proj2 (Z.ltb_lt _ _)) by lia. rewrite Ht. cbn [mbind result_bind].
  rewrite !(proj2 (Z.eqb_neq _ _)) by done. rewrite Hl. cbn [mbind result_bind].
  unfold slice. case_if E; [|done]. cbn [mbind result_bind]. unfold blit. case_if E2; [|done].
  exfalso. unfold zlen, DHCP_OPTION_MAX_LENGHT in *.
  rewrite ?length_zeros, length_take, length_drop in *. lia.
Qed.

Lemma walks_unique raw i e : walks raw i e → ∀ e', walks raw i e' → e' = e.
Proof.
  induction 1 as [i Hi|i Hi Ht|i Hi Ht|i t l Hi Ht Hn Hl Hlong|i t l e Hi Ht Hn Hl Hm Hfit Hw IH];
    intros e' He; destruct He as [j Hj|j Hj Ht'|j Hj Ht'|j t' l' Hj Ht' Hn' Hl' Hlong'|
      j t' l' e' Hj Ht' Hn' Hl' Hm' Hfit' Hw']; try lia; try done;
    rewrite Ht in Ht'; injection Ht' as Ht'; try done; try subst t';
    try (destruct Hn; rewrite !elem_of_cons; by auto);
    try (destruct Hn'; rewrite !elem_of_cons; by auto);
    rewrite Hl in Hl'; injection Hl' as Hl'; subst l'; [lia|lia|by apply IH].
Qed.

Lemma parse_loop_ends raw : is_bytes raw → DHCP_PACKET_OPTIONS_SIZE < zlen raw → ∀ f i dest,
  0 ≤ i → (0 < f)%nat → DHCP_PACKET_OPTIONS_SIZE - i ≤ 2 * (Z.of_nat f - 1) →
  ∃ e, walks raw i e ∧
    match e with
    | Ends => ∃ os, parse_loop f raw i dest = Ret (0, os)
    | Hangs => ∀ f', parse_loop f' raw i dest = NoFuel
    | Overruns => parse_loop f raw i dest = Undef OutOfBounds
    end.
Proof.
  intros Hraw Hlen. induction f as [|f IH]; intros i dest Hi Hf Hb; [lia|].
  destruct (Z.ltb_spec i DHCP_PACKET_OPTIONS_SIZE) as [Hlt|Hge].
  2:{ exists Ends. split; [by apply walks_past|]. exists dest. cbn [parse_loop].
      by rewrite (proj2 (Z.ltb_ge _ _)) by done. }
  destruct (rd_in raw i) as [t Ht]; [lia|]. destruct (rd_in raw (i + 1)) as [l Hl]; [lia|].
  destruct (decide (t = DHCP_OPTION_PAD)) as [->|Hpad].
  { exists Hangs. split; [by apply walks_pad|]. intros f'. by apply parse_loop_pad. }
  destruct (decide (t = DHCP_OPTION_END)) as [->|Hend].
  { exists Ends. split; [by apply walks_end|]. exists dest. cbn [parse_loop].
    rewrite (proj2 (Z.ltb_lt _ _)) by done. by rewrite Ht. }
  assert (Hne : t ∉ [DHCP_OPTION_PAD; DHCP_OPTION_END]) by (rewrite !not_elem_of_cons; auto using not_elem_of_nil).
  pose proof (rd_u8 raw (i + 1) l Hraw Hl) as Hl8. unfold is_u8 in Hl8.
  destruct (decide (DHCP_OPTION_MAX_LENGHT < l ∨ zlen raw < i + 2 + l)) as [Hlong|Hfit].
  { exists Overruns. split; [by eapply walks_long|]. by eapply parse_loop_overrun. }
  destruct (parse_loop_option raw i t l dest) as [dest' Hstep]; [lia | done | done | done | done | lia | lia |].
  destruct (IH (i + 2 + l) dest') as (e & Hw & He); [lia | | lia |].
  { destruct f; [|lia]. lia. }
  exists e. split; [by eapply walks_option; [..|exact Hw]; try done; lia|]. rewrite Hstep. destruct e; [done| |done].
  intros [|f']; [done|]. by rewrite Hstep.
Qed.

(** *** What the parser builds *)
Lemma shift_in_u32 v n : ∀ i acc m,
  is_bytes v → is_u32 acc → shift_in v i n acc = Ret m → is_u32 m.
Proof.
  induction n as [|n IH]; intros i acc m Hv Ha H; cbn [shift_in] in H; [by inv_run|].
  destruct (rd v i) as [b| |] eqn:E; [|done..]. cbn [mbind result_bind] in H.
  apply rd_Ret in E as [_ E]. eapply Forall_lookup_1 in E; [|exact Hv].
  eapply IH; [done | | exact H]. rewrite u32_shl8_lor by done. auto with dhcp.
Qed.

Lemma splice_bytes off bs buf : is_bytes bs → is_bytes buf → is_bytes (splice off bs buf).
Proof.
  intros. unfold splice. apply Forall_app. split; [by apply Forall_take|].
  apply Forall_app. split; [done | by apply Forall_drop].
Qed.

Lemma blit_Ret buf off bs buf' :
  blit buf off bs = Ret buf' →
  length buf' = length buf ∧ (is_bytes buf → is_bytes bs → is_bytes buf').
Proof.
  unfold blit. destruct (_ && _) eqn:E; [|done]. bool_to_prop. intros [= <-].
  split; [apply length_splice; unfold zlen in *; lia | intros; by apply splice_bytes].
Qed.

Lemma octets_wf v w l m bs m' :
  length v = VALUE_SIZE → is_bytes v → is_bytes w →
  blit v 0 (zeros (Z.to_nat DHCP_OPTION_MAX_LENGHT)) = Ret m →
  slice w 0 l = Ret bs → blit m 0 bs = Ret m' →
  length m' = VALUE_SIZE ∧ is_bytes m'.
Proof.
  intros Hv Hb Hw [L1 B1]%blit_Ret H2 [L3 B3]%blit_Ret.
  apply slice_bytes in H2; [|done]. split; [congruence|].
  apply B3; [|done]. apply B1; [done | apply zeros_bytes].
Qed.

Lemma parse_option_value_wf o v rv o' :
  option_wf o → is_bytes v → parse_option_value o v = Ret (rv, o') →
  rv = 0 ∧ option_wf o' ∧ o_tag o' = o_tag o ∧ o_lenght o' = o_lenght o.
Proof.
  intros (Ht & Hl & Hty & Hv & Hb) Hbv H. unfold parse_option_value in H.
  assert (Hw : ∀ w, length w = VALUE_SIZE → is_bytes w →
    option_wf (with_value o w) ∧ o_tag (with_value o w) = o_tag o ∧
    o_lenght (with_value o w) = o_lenght o) by done.
  assert (Hn : ∀ n, is_u32 n →
    length (splice 0 (le_bytes 4 n) (o_value o)) = VALUE_SIZE ∧
    is_bytes (splice 0 (le_bytes 4 n) (o_value o))).
  { intros n _. split; [rewrite length_splice; rewrite ?length_le_bytes, ?Hv; unfold VALUE_SIZE; lia|].
    by apply splice_bytes; [apply le_bytes_is_bytes|]. }
  destruct (o_type o); inv_run.
  - open_run parse_option_value_numeric.
    split; [done|]. apply Hw; apply Hn; eapply shift_in_u32; eauto; unfold is_u32; lia.
  - split; [done|]. by eapply Hw; eapply octets_wf.
  - open_run parse_option_value_ip.
    split; [done|]. apply Hw; apply Hn; eapply shift_in_u32; eauto; unfold is_u32; lia.
  - open_run parse_option_value_bool.
    split; [done|]. apply Hw; [by rewrite length_insert|].
    apply Forall_insert; [done|]. destruct (_ =? 0); unfold is_u8; lia.
  - split; [done|]. by eapply Hw; eapply octets_wf.
Qed.

Definition list_wf (os : list dhcp_option) : Prop :=
  Forall option_wf os ∧ NoDup (o_tag <$> os).

Lemma dhcp_option_add_spec dest o :
  option_wf o → list_wf dest →
  let '(rv, dest') := dhcp_option_add dest (Some o) in rv = 0 ∧ list_wf dest'.
Proof.
  intros Ho [Hd Hnd]. simpl. destruct (dhcp_option_retrieve dest (o_tag o)) eqn:E; [done|].
  split; [done|]. split; [by apply Forall_app; auto|].
  rewrite fmap_app. apply NoDup_app. split_and!; [done | | apply NoDup_singleton].
  apply retrieve_None in E. intros x Hx ->%list_elem_of_singleton. done.
Qed.

Lemma parse_loop_wf raw : is_bytes raw → ∀ f i dest rv dest',
  list_wf dest → parse_loop f raw i dest = Ret (rv, dest') → rv = 0 ∧ list_wf dest'.
Proof.
  intros Hraw. induction f as [|f IH]; intros i dest rv dest' Hd H; [done|].
  cbn [parse_loop] in H. destruct (i <? _); [|by inv_run].
  destruct (rd raw i) as [b| |] eqn:Eb; [cbn [mbind result_bind] in H|done..].
  destruct (b =? _); [eauto|]. destruct (b =? _); [by inv_run|].
  destruct (rd raw (i + 1)) as [l| |] eqn:El; [cbn [mbind result_bind] in H|done..].
  destruct (slice _ _ _) as [bs| |] eqn:Es; [cbn [mbind result_bind] in H|done..].
  destruct (blit _ _ _) as [vb| |] eqn:Ev; [cbn [mbind result_bind] in H|done..].
  destruct (parse_option_value _ _) as [[rv1 o]| |] eqn:Eo; [cbn [mbind result_bind] in H|done..].
  apply rd_u8 in Eb; [|done]. apply rd_u8 in El; [|done].
  apply slice_bytes in Es; [|done]. apply blit_Ret in Ev as [_ Ev].
  apply parse_option_value_wf in Eo as (-> & Ho & _); cycle 1.
  { split_and!; try done. apply (zeros_bytes VALUE_SIZE). }
  { by apply Ev; [apply zeros_bytes|]. }
  rewrite if_failed_spec in H. cbn [Z.eqb negb] in H.
  pose proof (dhcp_option_add_spec dest o Ho Hd) as Ha.
  destruct (dhcp_option_add dest (Some o)) as [rv2 d2]. destruct Ha as [-> Hd2].
  rewrite if_failed_spec in H. cbn [Z.eqb negb] in H. eauto.
Qed.

(** *** The options of a reply *)
Lemma retrieve_add dest o t :
  dhcp_option_retrieve (dhcp_option_add dest (Some o)).2 t =
  match dhcp_option_retrieve dest t with
  | Some x => Some x
  | None => if o_tag o =? t then Some o else None
  end.
Proof.
  simpl. destruct (dhcp_option_retrieve dest (o_tag o)) eqn:E; simpl.
  - destruct (dhcp_option_retrieve dest t) eqn:E2; [done|].
    destruct (Z.eqb_spec (o_tag o) t); [congruence|done].
  - clear E. induction dest as [|x dest IH]; simpl; [done|].
    by destruct (o_tag x =? t).
Qed.

(** [a] is the array of the tags [l], which are not 0, and a terminating 0. *)
Definition terminated (l a : list Z) : Prop :=
  0 ∉ l ∧ ∃ rest, a = l ++ 0 :: rest.

Lemma is_option_blacklisted_spec t l a :
  terminated l a → is_option_blacklisted t a = Ret (bool_decide (t ∈ l)).
Proof.
  intros (H0 & rest & ->). induction l as [|b l IH]; simpl; [done|].
  apply not_elem_of_cons in H0 as [H0 Hl].
  destruct (Z.eqb_spec b 0); [congruence|].
  destruct (Z.eqb_spec b t) as [->|Hne].
  - rewrite bool_decide_eq_true_2; [done | left].
  - rewrite IH by done. f_equal. apply bool_decide_ext. rewrite elem_of_cons. naive_solver.
Qed.

(** A copy of a canonical option is that option. *)
Lemma canonical_padded o :
  option_ok o → option_canonical o →
  take (Z.to_nat (o_lenght o)) (o_value o) ++ zeros (VALUE_SIZE - Z.to_nat (o_lenght o)) = o_value o.
Proof.
  intros [(_ & Hl & Hty & Hv & _) H4] (_ & _ & Hmax & Hc).
  unfold is_u8, DHCP_OPTION_MAX_LENGHT in *.
  assert (Hz : ∀ bs, (length bs ≤ Z.to_nat (o_lenght o))%nat →
    o_value o = bs ++ zeros (VALUE_SIZE - length bs) →
    take (Z.to_nat (o_lenght o)) (o_value o) ++
      zeros (VALUE_SIZE - Z.to_nat (o_lenght o)) = o_value o).
  { intros bs Hb ->. rewrite take_app_ge by done. unfold zeros.
    rewrite take_replicate, <-app_assoc, <-replicate_add. do 2 f_equal. unfold VALUE_SIZE. lia. }
  assert (Hn : o_lenght o ≤ 4 → (∃ n, 0 ≤ n < 256 ^ o_lenght o ∧
      o_value o = le_bytes 4 n ++ zeros (VALUE_SIZE - 4)) →
    take (Z.to_nat (o_lenght o)) (o_value o) ++
      zeros (VALUE_SIZE - Z.to_nat (o_lenght o)) = o_value o).
  { intros H4' (n & Hn & E). apply (Hz (le_bytes (Z.to_nat (o_lenght o)) n));
      [by rewrite length_le_bytes|].
    rewrite E, length_le_bytes.
    replace 4%nat with (Z.to_nat (o_lenght o) + (4 - Z.to_nat (o_lenght o)))%nat at 1 by lia.
    rewrite le_bytes_pad by (rewrite Z2Nat.id by lia; done).
    rewrite <-app_assoc. f_equal. unfold zeros. rewrite <-replicate_add. f_equal.
    unfold VALUE_SIZE. lia. }
  destruct (o_type o); auto.
  - destruct Hc as (bs & Hbs & E). apply (Hz bs); [unfold zlen in Hbs; lia | done].
  - destruct Hc as (b & [->|[-> Hl1]] & E).
    + apply (Hz []); [simpl; lia | exact E].
    + apply (Hz [1]); [simpl; lia | exact E].
  - destruct Hc as (bs & Hbs & E). apply (Hz bs); [unfold zlen in Hbs; lia | done].
Qed.

Lemma new_values_pad tag len v :
  0 ≤ len ≤ Z.of_nat VALUE_SIZE → len ≤ zlen v →
  dhcp_option_new_values tag len v =
    Ret (Option_ (dhcp_option_tag_to_type tag) (u8 tag) (u8 len)
           (take (Z.to_nat len) v ++ zeros (VALUE_SIZE - Z.to_nat len))).
Proof.
  intros Hl Hv. unfold dhcp_option_new_values. rewrite slice_prefix by lia.
  cbn [mbind result_bind o_value dhcp_option_new]. unfold zlen in Hv.
  rewrite blit_zeros by (rewrite length_take; lia). cbn [mbind result_bind].
  rewrite length_take. by replace (Z.to_nat len `min` length v)%nat with (Z.to_nat len) by lia.
Qed.

Lemma dhcp_option_copy_canonical o :
  option_ok o → option_canonical o → dhcp_option_copy (Some o) = Ret (Some o).
Proof.
  intros Ho Hc. pose proof (canonical_padded o Ho Hc) as Hp.
  destruct Ho as [(Ht & Hl & Hty & Hv & _) _]. destruct Hc as (_ & _ & Hmax & _).
  unfold dhcp_option_copy. unfold is_u8, DHCP_OPTION_MAX_LENGHT in *.
  rewrite new_values_pad by (unfold zlen; rewrite ?Hv; unfold VALUE_SIZE; lia).
  cbn [mbind result_bind]. rewrite Hp, <-Hty, !u8_small by done. by destruct o.
Qed.

(** A configuration whose options can be sent as they are. *)
Definition sendable (os : list dhcp_option) : Prop :=
  Forall (λ o, option_ok o ∧ option_canonical o) os.

Lemma configured_sendable g p t o :
  sendable g → sendable p → configured_option g p t = Some o →
  dhcp_option_copy (Some o) = Ret (Some o) ∧ o_tag o = t.
Proof.
  unfold configured_option. intros Hg Hp H.
  assert (Hin : (o ∈ p ∨ o ∈ g) ∧ o_tag o = t).
  { destruct (dhcp_option_retrieve p t) eqn:E.
    - injection H as <-. apply retrieve_Some in E as [??]. auto.
    - apply retrieve_Some in H as [??]. auto. }
  destruct Hin as [Hin Ht]. split; [|done].
  assert (option_ok o ∧ option_canonical o) as [??].
  { destruct Hin as [Hin|Hin]; [eapply Forall_forall in Hp | eapply Forall_forall in Hg]; eauto. }
  by apply dhcp_option_copy_canonical.
Qed.

(** What a list of replies holds for a tag once the tags [ts] were added. *)
Definition with_tags (dest g p : list dhcp_option) (ts black : list Z) (t : Z)
    : option dhcp_option :=
  match dhcp_option_retrieve dest t with
  | Some o => Some o
  | None => if decide (t ∈ ts ∧ t ∉ black) then configured_option g p t else None
  end.

Lemma with_tags_cons dest g p tag ts black t o :
  tag ∉ black → configured_option g p tag = Some o → o_tag o = tag →
  with_tags (dhcp_option_add dest (Some o)).2 g p ts black t =
  with_tags dest g p (tag :: ts) black t.
Proof.
  intros Hb Hc Ho. unfold with_tags. rewrite retrieve_add, Ho.
  destruct (dhcp_option_retrieve dest t) eqn:E; [done|].
  destruct (Z.eqb_spec tag t) as [->|Hne].
  - rewrite decide_True; [done | by split; [left|]].
  - apply decide_ext. rewrite elem_of_cons. naive_solver.
Qed.

Lemma with_tags_skip dest g p tag ts black t :
  tag ∈ black ∨ configured_option g p tag = None →
  with_tags dest g p ts black t = with_tags dest g p (tag :: ts) black t.
Proof.
  intros Hb. unfold with_tags. destruct (dhcp_option_retrieve dest t); [done|].
  destruct (decide (t = tag)) as [->|Hne].
  - destruct Hb as [Hb| ->]; [|by repeat case_decide].
    rewrite !decide_False by (intros [_ Hn]; done). done.
  - apply decide_ext. rewrite elem_of_cons. naive_solver.
Qed.

Lemma add_required_spec g p black bl : sendable g → sendable p → terminated black bl →
  ∀ ts a dest, terminated ts a →
  ∃ dest', add_required dest a bl g p =
    Ret (if decide (Exists (λ t, t ∉ black ∧ configured_option g p t = None) ts) then -1 else 0,
         dest') ∧
    (¬ Exists (λ t, t ∉ black ∧ configured_option g p t = None) ts →
     ∀ t, dhcp_option_retrieve dest' t = with_tags dest g p ts black t).
Proof.
  intros Hg Hp Hbl. induction ts as [|tag ts IH]; intros a dest [H0 (rest & ->)]; cbn [app add_required].
  - exists dest. split; [by destruct (decide _) as [Hx%Exists_nil|]|].
    intros _ t. unfold with_tags. destruct (dhcp_option_retrieve dest t); [done|].
    rewrite decide_False; [done|]. intros [?%not_elem_of_nil _]; done.
  - apply not_elem_of_cons in H0 as [H0 Hts].
    destruct (Z.eqb_spec tag 0); [congruence|].
    rewrite (is_option_blacklisted_spec _ _ _ Hbl). cbn [mbind result_bind].
    assert (Ht : terminated ts (ts ++ 0 :: rest)) by (split; eauto).
    destruct (bool_decide_reflect (tag ∈ black)) as [Hb|Hb].
    { destruct (IH _ dest Ht) as (d & -> & Hd). exists d. split.
      - do 2 f_equal. apply decide_ext. rewrite Exists_cons. naive_solver.
      - rewrite Exists_cons. intros Hn t. rewrite <-with_tags_skip by auto.
        apply Hd. intros Hx. apply Hn. by right. }
    destruct (configured_option g p tag) as [o|] eqn:Hc; cycle 1.
    { exists dest. rewrite decide_True by (left; auto). split; [done|].
      rewrite Exists_cons. intros Hn. destruct Hn. by left. }
    destruct (configured_sendable g p tag o) as [-> Ho]; [done..|]. cbn [mbind result_bind].
    pose proof (with_tags_cons dest g p tag ts black) as Hw.
    destruct (dhcp_option_add dest (Some o)) as [rv d] eqn:Ea.
    assert (rv = 0) as ->.
    { simpl in Ea. by destruct (dhcp_option_retrieve dest (o_tag o)); injection Ea. }
    rewrite if_failed_spec. cbn [Z.eqb negb].
    destruct (IH _ d Ht) as (d' & -> & Hd'). exists d'. split.
    + do 2 f_equal. apply decide_ext. rewrite Exists_cons, Hc. naive_solver.
    + rewrite Exists_cons. intros Hn t. rewrite Hd' by (intros Hx; apply Hn; by right).
      rewrite <-(Hw t o) by done. by rewrite Ea.
Qed.

Lemma add_requested_spec g p black bl : sendable g → sendable p → terminated black bl →
  ∀ ts a dest, terminated ts a →
  ∃ dest', add_requested dest a bl g p = Ret dest' ∧
    ∀ t, dhcp_option_retrieve dest' t = with_tags dest g p ts black t.
Proof.
  intros Hg Hp Hbl. induction ts as [|tag ts IH]; intros a dest [H0 (rest & ->)]; cbn [app add_requested].
  - exists dest. split; [done|].
    intros t. unfold with_tags. destruct (dhcp_option_retrieve dest t); [done|].
    rewrite decide_False; [done|]. intros [?%not_elem_of_nil _]; done.
  - apply not_elem_of_cons in H0 as [H0 Hts].
    destruct (Z.eqb_spec tag 0); [congruence|].
    rewrite (is_option_blacklisted_spec _ _ _ Hbl). cbn [mbind result_bind].
    assert (Ht : terminated ts (ts ++ 0 :: rest)) by (split; eauto).
    destruct (bool_decide_reflect (tag ∈ black)) as [Hb|Hb].
    { destruct (IH _ dest Ht) as (d & -> & Hd). exists d. split; [done|].
      intros t. rewrite <-with_tags_skip by auto. apply Hd. }
    destruct (configured_option g p tag) as [o|] eqn:Hc; cycle 1.
    { cbn [dhcp_option_copy mret result_ret mbind result_bind dhcp_option_add].
      destruct (IH _ dest Ht) as (d & -> & Hd). exists d. split; [done|].
      intros t. rewrite <-with_tags_skip by auto. apply Hd. }
    destruct (configured_sendable g p tag o) as [-> Ho]; [done..|]. cbn [mbind result_bind].
    pose proof (with_tags_cons dest g p tag ts black) as Hw.
    destruct (dhcp_option_add dest (Some o)) as [rv d] eqn:Ea.
    destruct (IH _ d Ht) as (d' & -> & Hd'). exists d'. split; [done|].
    intros t. rewrite Hd', <-(Hw t o) by done. by rewrite Ea.
Qed.

Definition message_type_option (type : Z) : dhcp_option :=
  Option_ DHCP_OPTION_NUMERIC DHCP_OPTION_DHCP_MESSAGE_TYPE 1 (u8 type :: zeros (VALUE_SIZE - 1)).

Lemma new_message_type_option type :
  dhcp_option_new_values DHCP_OPTION_DHCP_MESSAGE_TYPE 1 [u8 type] = Ret (message_type_option type).
Proof. rewrite new_values_pad; done. Qed.

Lemma parse_loop_long f dest t l rest :
  t ≠ DHCP_OPTION_PAD → t ≠ DHCP_OPTION_END → DHCP_OPTION_MAX_LENGHT < l →
  parse_loop (S f) (t :: l :: rest) 0 dest = Undef OutOfBounds.
Proof.
  intros Hp He Hl. cbn [parse_loop].
  assert (R0 : rd (t :: l :: rest) 0 = Ret t) by done.
  assert (R1 : rd (t :: l :: rest) (0 + 1) = Ret l) by done.
  change (0 <? DHCP_PACKET_OPTIONS_SIZE) with true. cbn match.
  rewrite R0, R1. cbn [mbind result_bind].
  destruct (Z.eqb_spec t DHCP_OPTION_PAD); [done|].
  destruct (Z.eqb_spec t DHCP_OPTION_END); [done|].
  destruct (slice _ _ _) as [bs|e|] eqn:Es; cbn [mbind result_bind].
  - assert (blit (zeros (Z.to_nat DHCP_OPTION_MAX_LENGHT)) 0 bs = Undef OutOfBounds) as ->; [|done].
    apply slice_length in Es. unfold blit. destruct (_ && _) eqn:E; [|done]. bool_to_prop.
    change (zlen (zeros (Z.to_nat DHCP_OPTION_MAX_LENGHT))) with 253 in *.
    unfold DHCP_OPTION_MAX_LENGHT in *. lia.
  - unfold slice in Es. destruct (_ && _); congruence.
  - unfold slice in Es. destruct (_ && _); congruence.
Qed.

Lemma dhcp_option_parse_eq dest raw :
  dhcp_option_parse dest raw = parse_loop parse_fuel raw 0 dest.
Proof. reflexivity. Qed.

Lemma serialize_correct os raw :
  Forall option_ok os → DHCP_PACKET_OPTIONS_SIZE < zlen raw →
  let sent := fitting 0 os in
  dhcp_options_serialize os raw =
    Ret (if decide (length sent = length os) then 0 else -1,
         encode_all sent ++ DHCP_OPTION_END :: drop (S (length (encode_all sent))) raw) ∧
  sent `prefix_of` os ∧ zlen (encode_all sent) ≤ DHCP_PACKET_OPTIONS_SIZE.
Proof.
  intros Hok Hlen sent. split_and!.
  - apply (serialize_loop_spec os [] raw); [done | done | exact Hlen].
  - apply fitting_prefix.
  - apply (fitting_bound os 0); [done | done].
Qed.

Lemma parse_encoded os rest :
  Forall option_ok os → Forall option_canonical os → NoDup (o_tag <$> os) →
  zlen (encode_all os) ≤ DHCP_PACKET_OPTIONS_SIZE →
  dhcp_option_parse [] (encode_all os ++ DHCP_OPTION_END :: rest) = Ret (0, os).
Proof.
  intros Hok Hc Hnd Hfit. unfold dhcp_option_parse, parse_fuel.
  apply (parse_loop_encoded os 157 [] rest []); try done.
  pose proof (encode_all_count os Hok). unfold zlen, DHCP_PACKET_OPTIONS_SIZE in *. lia.
Qed.

Lemma roundtrip_correct os raw raw' :
  Forall option_ok os → Forall option_canonical os → NoDup (o_tag <$> os) →
  DHCP_PACKET_OPTIONS_SIZE < zlen raw →
  dhcp_options_serialize os raw = Ret (0, raw') →
  dhcp_option_parse [] raw' = Ret (0, os).
Proof.
  intros Hok Hc Hnd Hlen Hs.
  unfold dhcp_options_serialize in Hs. change 0 with (zlen (@nil Z)) in Hs at 1.
  change raw with ([] ++ raw) in Hs.
  rewrite serialize_loop_spec in Hs by done. cbn [app] in Hs.
  destruct (decide (length _ = length os)) as [E|]; [|discriminate]. injection Hs as <-.
  pose proof (fitting_bound os (zlen (@nil Z)) Hok ltac:(done)) as Hb.
  rewrite (prefix_length_eq _ _ (fitting_prefix (zlen (@nil Z)) os)) in * by lia.
  by apply parse_encoded.
Qed.

(** ** Theorems *)
Lemma encode_all_bytes os : Forall option_ok os → is_bytes (encode_all os).
Proof.
  induction 1 as [|o os [(Ht & Hl & Hty & Hlen & Hv) _] _ IH]; [constructor|].
  change (encode_all (o :: os)) with ((o_tag o :: o_lenght o :: encode_value o) ++ encode_all os).
  apply Forall_app. split; [|done]. apply Forall_cons. split; [done|]. apply Forall_cons.
  split; [done|]. unfold encode_value, be_bytes.
  destruct (o_type o); try (by apply Forall_take); apply Forall_rev, le_bytes_is_bytes.
Qed.


(** C16. [dhcp_options_serialize] on a list of options that can be sent always
    returns: it writes the encodings of the longest prefix of the list that
    fits 312 bytes and the END tag, leaves the rest of the array alone, and
    returns 0 exactly when every option was written and -1 otherwise. *)
Theorem dhcp_options_serialize_spec os raw :
  Forall option_ok os → DHCP_PACKET_OPTIONS_SIZE < zlen raw →
  let sent := fitting 0 os in
  dhcp_options_serialize os raw =
    Ret (if decide (length sent = length os) then 0 else -1,
         encode_all sent ++ DHCP_OPTION_END :: drop (S (length (encode_all sent))) raw) ∧
  sent `prefix_of` os ∧ zlen (encode_all sent) ≤ DHCP_PACKET_OPTIONS_SIZE.
Proof. apply serialize_correct. Qed.

(** Round trip: when the serializer accepts a list of canonical options
    with distinct tags, parsing the option area it wrote gives that list. *)
Theorem dhcp_options_roundtrip os raw raw' :
  Forall option_ok os → Forall option_canonical os → NoDup (o_tag <$> os) →
  DHCP_PACKET_OPTIONS_SIZE < zlen raw →
  dhcp_options_serialize os raw = Ret (0, raw') →
  dhcp_option_parse [] raw' = Ret (0, os).
Proof. apply roundtrip_correct. Qed.

(** C38. The parser on an option area of any bytes: the area has exactly one of
    three ways over it ([walks]), and the parser returns a list when the options
    end, does not return after any number of iterations of its loop when a PAD
    tag is at the place of a tag, and runs over an array when an option is
    longer than 253 bytes or than what is left of the area. *)
Theorem dhcp_option_parse_outcome dest raw :
  is_bytes raw → DHCP_PACKET_OPTIONS_SIZE < zlen raw →
  ∃ e, walks raw 0 e ∧ (∀ e', walks raw 0 e' → e' = e) ∧
    match e with
    | Ends => ∃ os, dhcp_option_parse dest raw = Ret (0, os)
    | Hangs => ∀ iterations, parse_loop iterations raw 0 dest = NoFuel
    | Overruns => dhcp_option_parse dest raw = Undef OutOfBounds
    end.
Proof.
  intros Hraw Hlen. rewrite dhcp_option_parse_eq.
  destruct (parse_loop_ends raw Hraw Hlen parse_fuel 0 dest) as (e & Hw & He);
    [lia | unfold parse_fuel; lia | unfold parse_fuel, DHCP_PACKET_OPTIONS_SIZE; lia |].
  exists e. split; [done|]. split; [by apply walks_unique|done].
Qed.

(** A PAD option after any sequence of options stops the parser from ever
    returning: the loop tests the same byte again. *)
Theorem dhcp_option_parse_pad_hangs os rest fuel :
  Forall option_ok os → Forall option_canonical os → NoDup (o_tag <$> os) →
  zlen (encode_all os) < DHCP_PACKET_OPTIONS_SIZE →
  parse_loop fuel (encode_all os ++ DHCP_OPTION_PAD :: rest) 0 [] = NoFuel.
Proof.
  intros Hok Hc Hnd Hlen.
  enough (H : ∀ os pre dest f, Forall option_ok os → Forall option_canonical os →
    NoDup (o_tag <$> (dest ++ os)) → zlen pre + zlen (encode_all os) < DHCP_PACKET_OPTIONS_SIZE →
    parse_loop f (pre ++ encode_all os ++ DHCP_OPTION_PAD :: rest) (zlen pre) dest = NoFuel).
  { by apply (H os [] [] fuel). }
  clear. induction os as [|o os IH]; intros pre dest f Hok Hc Hnd Hfit.
  - apply parse_loop_pad; [simpl in Hfit; unfold zlen in *; simpl in Hfit; lia|]. apply rd_middle.
  - destruct f as [|f]; [done|].
    apply Forall_cons in Hok as [Ho Hok]. apply Forall_cons in Hc as [Hco Hc].
    change (encode_all (o :: os)) with (encode o ++ encode_all os) in *.
    rewrite zlen_app, zlen_encode in Hfit by done. pose proof (zlen_nonneg (encode_all os)).
    assert (0 ≤ o_lenght o) by apply Ho.
    rewrite <-app_assoc, parse_loop_step; [|done|done|lia|].
    + rewrite app_assoc. apply IH; [done | done | by rewrite <-app_assoc |].
      rewrite zlen_app, zlen_encode by done. lia.
    + rewrite fmap_app in Hnd. apply NoDup_app in Hnd as (_ & Hd & _).
      intros Hin. apply (Hd _ Hin). left.
Qed.

(** An option longer than the 253 bytes of the parser's buffer makes the
    parser write past the buffer or read past the option area. *)
Theorem dhcp_option_parse_long_option dest t l rest :
  t ≠ DHCP_OPTION_PAD → t ≠ DHCP_OPTION_END → DHCP_OPTION_MAX_LENGHT < l →
  dhcp_option_parse dest (t :: l :: rest) = Undef OutOfBounds.
Proof.
  intros. rewrite dhcp_option_parse_eq. change parse_fuel with (S 156).
  by apply parse_loop_long.
Qed.

(** Whatever bytes were received, when [dhcp_option_parse] returns it
    returns 0 and the list keeps options with distinct tags whose fields are
    bytes and whose type is the type of their tag. *)
Theorem dhcp_option_parse_wf dest raw rv dest' :
  is_bytes raw → list_wf dest → dhcp_option_parse dest raw = Ret (rv, dest') →
  rv = 0 ∧ list_wf dest'.
Proof.
  intros Hraw Hd H. rewrite dhcp_option_parse_eq in H.
  exact (parse_loop_wf raw Hraw _ _ _ _ _ Hd H).
Qed.

Lemma build_options_correct dest requested required black ra qa ba g p type :
  sendable g → sendable p →
  terminated requested ra → terminated required qa → terminated black ba →
  ∃ dest',
    dhcp_option_build_required_options dest ra qa ba g p type =
      Ret (if decide (Exists (λ t, t ∉ black ∧ configured_option g p t = None) required)
           then -1 else 0, dest') ∧
    (¬ Exists (λ t, t ∉ black ∧ configured_option g p t = None) required →
     ∀ t, dhcp_option_retrieve dest' t =
       match dhcp_option_retrieve dest t with
       | Some o => Some o
       | None =>
           if t =? DHCP_OPTION_DHCP_MESSAGE_TYPE then Some (message_type_option type)
           else if decide ((t ∈ required ∨ t ∈ requested) ∧ t ∉ black)
           then configured_option g p t else None
       end).
Proof.
  intros Hg Hp Hra Hqa Hba. unfold dhcp_option_build_required_options.
  rewrite new_message_type_option. cbn [mbind result_bind].
  pose proof (retrieve_add dest (message_type_option type)) as Hadd.
  destruct (dhcp_option_add dest (Some (message_type_option type))) as [rv d] eqn:Ea.
  assert (rv = 0) as ->.
  { cbn [dhcp_option_add] in Ea. by destruct (dhcp_option_retrieve dest _); injection Ea. }
  rewrite if_failed_spec. cbn [Z.eqb negb].
  destruct (add_required_spec g p black ba Hg Hp Hba required qa d Hqa) as (d1 & -> & H1).
  cbn [mbind result_bind].
  destruct (decide (Exists _ required)) as [Hx|Hx]; cbn [Z.eqb Z.opp].
  { exists d1. by split. }
  destruct (add_requested_spec g p black ba Hg Hp Hba requested ra d1 Hra) as (d2 & -> & H2).
  exists d2. split; [done|]. intros _ t. rewrite H2. unfold with_tags at 1. rewrite H1 by done.
  unfold with_tags. cbn [snd] in Hadd. rewrite (Hadd t). cbn [o_tag message_type_option].
  destruct (dhcp_option_retrieve dest t); [done|].
  rewrite Z.eqb_sym. destruct (t =? DHCP_OPTION_DHCP_MESSAGE_TYPE); [done|].
  destruct (decide (t ∈ required ∧ t ∉ black)) as [[Hr Hb]|Hr].
  - rewrite (decide_True (P := (t ∈ required ∨ t ∈ requested) ∧ t ∉ black)) by auto.
    destruct (configured_option g p t) eqn:Hc; [done|].
    by case_decide.
  - apply decide_ext. naive_solver.
Qed.
(** ** Lists of options that can be sent *)
Definition good_options (os : list dhcp_option) : Prop := sendable os ∧ NoDup (o_tag <$> os).

Lemma good_add dest o rv dest' : good_options dest → option_ok o → option_canonical o →
  dhcp_option_add dest (Some o) = (rv, dest') → rv = 0 ∧ good_options dest'.
Proof.
  intros [Hs Hn] Ho Hc. cbn [dhcp_option_add].
  destruct (dhcp_option_retrieve dest (o_tag o)) eqn:E; intros [= <- <-]; [done|].
  split; [done|]. split; [apply Forall_app; split; [done | by constructor]|].
  rewrite fmap_app, NoDup_app. split; [done|]. split; [|apply NoDup_singleton].
  apply retrieve_None in E. intros x Hx ->%list_elem_of_singleton. done.
Qed.

Lemma configured_ok g p t o : sendable g → sendable p → configured_option g p t = Some o →
  option_ok o ∧ option_canonical o.
Proof.
  unfold configured_option. intros Hg Hp H. unfold sendable in *. rewrite Forall_forall in Hg, Hp.
  destruct (dhcp_option_retrieve p t) eqn:E.
  - injection H as <-. apply retrieve_Some in E as [??]. auto.
  - apply retrieve_Some in H as [??]. auto.
Qed.

Lemma message_type_canonical type : option_canonical (message_type_option type).
Proof.
  split_and!; [done..|]. exists (u8 type). split.
  - change (256 ^ 1) with (2 ^ 8). apply u8_range.
  - cbn [message_type_option o_value]. pose proof (u8_range type) as Hr.
    pose proof (le_bytes_pad 1 3 (u8 type) Hr) as E. change (1 + 3)%nat with 4%nat in E.
    rewrite E. cbn [le_bytes app]. rewrite land_255, Z.mod_small by exact Hr. done.
Qed.

Lemma message_type_ok type : option_ok (message_type_option type) ∧
  option_canonical (message_type_option type).
Proof.
  split.
  - split; [|intros _; vm_compute; discriminate]. unfold option_wf, message_type_option.
    cbn [o_tag o_lenght o_type o_value]. split_and?; try by_decision.
    apply Forall_cons. split; [exact (u8_range type) | apply zeros_bytes].
  - apply message_type_canonical.
Qed.

(** An invariant that adding a configured option keeps is kept by both loops. *)
Section BuildInvariant.
Context (I : list dhcp_option → Prop) (g p : list dhcp_option).
Context (Hg : sendable g) (Hp : sendable p).
Context (Hstep : ∀ dest t o, I dest → configured_option g p t = Some o →
  I (dhcp_option_add dest (Some o)).2).

Lemma add_required_inv bl : ∀ a dest rv dest',
  I dest → add_required dest a bl g p = Ret (rv, dest') → I dest'.
Proof using All.
  induction a as [|tag a IH]; intros dest rv dest' Hd H; cbn [add_required] in H; [done|].
  destruct (tag =? 0); [by injection H as <- <-|].
  apply bind_Ret in H as ([] & _ & H); [by eapply IH|].
  destruct (configured_option g p tag) as [o|] eqn:Hc; [|by injection H as <- <-].
  destruct (configured_sendable g p tag o Hg Hp Hc) as [Hcopy _]. rewrite Hcopy, ret_bind in H.
  pose proof (Hstep dest tag o Hd Hc) as Hd1.
  destruct (dhcp_option_add dest (Some o)) as [rv1 d1].
  destruct (if_failed rv1); [by injection H as <- <- | by eapply IH].
Qed.

Lemma add_requested_inv bl : ∀ a dest dest',
  I dest → add_requested dest a bl g p = Ret dest' → I dest'.
Proof using All.
  induction a as [|tag a IH]; intros dest dest' Hd H; cbn [add_requested] in H; [done|].
  destruct (tag =? 0); [by injection H as <-|].
  apply bind_Ret in H as ([] & _ & H); [by eapply IH|].
  destruct (configured_option g p tag) as [o|] eqn:Hc; [|cbn in H; by eapply IH].
  destruct (configured_sendable g p tag o Hg Hp Hc) as [Hcopy _]. rewrite Hcopy, ret_bind in H.
  pose proof (Hstep dest tag o Hd Hc) as Hd1.
  destruct (dhcp_option_add dest (Some o)) as [rv1 d1]. by eapply IH.
Qed.

Lemma build_inv dest ra qa ba type rv dest' :
  I (dhcp_option_add dest (Some (message_type_option type))).2 → I dest →
  dhcp_option_build_required_options dest ra qa ba g p type = Ret (rv, dest') → I dest'.
Proof using All.
  intros H1 Hd H. unfold dhcp_option_build_required_options in H.
  rewrite new_message_type_option, ret_bind in H.
  destruct (dhcp_option_add dest (Some (message_type_option type))) as [rv1 d1].
  destruct (if_failed rv1); [by injection H as <- <-|].
  apply bind_Ret in H as ([rv2 d2] & Hq & H).
  assert (Hd2 : I d2) by exact (add_required_inv ba qa d1 rv2 d2 H1 Hq).
  destruct (rv2 =? 0); [|by injection H as <- <-].
  apply bind_Ret in H as (d3 & Hr & H). injection H as <- <-.
  exact (add_requested_inv ba ra d2 d3 Hd2 Hr).
Qed.
End BuildInvariant.

Lemma build_good dest ra qa ba g p type rv dest' : sendable g → sendable p → good_options dest →
  dhcp_option_build_required_options dest ra qa ba g p type = Ret (rv, dest') → good_options dest'.
Proof.
  intros Hg Hp Hd. apply (build_inv good_options g p Hg Hp); [| |done].
  - intros d t o Hgood Hc. destruct (configured_ok g p t o Hg Hp Hc) as [Ho Hcan].
    destruct (dhcp_option_add d (Some o)) as [rv1 d1] eqn:Ea. by eapply good_add.
  - destruct (message_type_ok type) as [Ho Hc].
    destruct (dhcp_option_add dest (Some (message_type_option type))) as [rv1 d1] eqn:Ea.
    by eapply good_add.
Qed.

(** The options come from the configuration. *)
Lemma build_members dest ra qa ba g p type rv dest' : sendable g → sendable p →
  dhcp_option_build_required_options dest ra qa ba g p type = Ret (rv, dest') →
  ∀ o, o ∈ dest' → o ∈ dest ++ message_type_option type :: g ++ p.
Proof.
  intros Hg Hp H. set (l := dest ++ message_type_option type :: g ++ p).
  assert (Hadd : ∀ d o, (∀ x, x ∈ d → x ∈ l) → o ∈ l →
    ∀ x, x ∈ (dhcp_option_add d (Some o)).2 → x ∈ l).
  { intros d o Hd Ho x. cbn [dhcp_option_add].
    destruct (dhcp_option_retrieve d (o_tag o)); cbn [snd]; [apply Hd|].
    intros [Hx|Hx%list_elem_of_singleton]%elem_of_app; [by apply Hd | by subst]. }
  eapply (build_inv (λ d, ∀ x, x ∈ d → x ∈ l) g p Hg Hp); [| | |exact H].
  - intros d t o Hd Hc. apply Hadd; [done|]. unfold configured_option in Hc. subst l.
    destruct (dhcp_option_retrieve p t) eqn:E.
    + injection Hc as <-. apply retrieve_Some in E as [? _]. set_solver.
    + apply retrieve_Some in Hc as [? _]. set_solver.
  - apply Hadd; set_solver.
  - set_solver.
Qed.

Lemma encode_all_submseteq os l : NoDup (o_tag <$> os) → (∀ o, o ∈ os → o ∈ l) →
  zlen (encode_all os) ≤ zlen (encode_all l).
Proof.
  intros Hn%NoDup_fmap_1 Hin. pose proof (NoDup_submseteq os l Hn Hin) as Hs.
  unfold encode_all, zlen. clear Hn Hin. apply inj_le.
  induction Hs; cbn [fmap list_fmap concat]; rewrite ?length_app; lia.
Qed.

(** [dhcp_option_build_required_options] succeeds exactly when every
    required tag that is not blacklisted is configured.  The list then holds,
    for each tag: the option that was already there, else the message type for
    tag 53, else for a required or requested tag that is not blacklisted the
    configured option (the one of the pool before the global one), and
    nothing for any other tag. *)
Theorem dhcp_option_build_required_options_spec dest requested required black ra qa ba g p type :
  sendable g → sendable p →
  terminated requested ra → terminated required qa → terminated black ba →
  ∃ dest',
    dhcp_option_build_required_options dest ra qa ba g p type =
      Ret (if decide (Exists (λ t, t ∉ black ∧ configured_option g p t = None) required)
           then -1 else 0, dest') ∧
    (¬ Exists (λ t, t ∉ black ∧ configured_option g p t = None) required →
     ∀ t, dhcp_option_retrieve dest' t =
       match dhcp_option_retrieve dest t with
       | Some o => Some o
       | None =>
           if t =? DHCP_OPTION_DHCP_MESSAGE_TYPE then Some (message_type_option type)
           else if decide ((t ∈ required ∨ t ∈ requested) ∧ t ∉ black)
           then configured_option g p t else None
       end).
Proof. apply build_options_correct. Qed.
End Options.

(** ** Decision procedures *)
#[export] Instance option_wf_dec o : Decision (option_wf o).
Proof. unfold option_wf. apply _. Defined.
#[export] Instance option_ok_dec o : Decision (option_ok o).
Proof. unfold option_ok. apply _. Defined.

(** ** Witnesses *)
Definition numeric_option (tag lenght n : Z) : dhcp_option :=
  Option_ (dhcp_option_tag_to_type tag) tag lenght (le_bytes 4 n ++ zeros (VALUE_SIZE - 4)).
Definition bytes_option (tag : Z) (bs : list Z) : dhcp_option :=
  Option_ (dhcp_option_tag_to_type tag) tag (zlen bs) (bs ++ zeros (VALUE_SIZE - length bs)).

(** A DHCPDISCOVER that asks for 192.168.1.5 and the parameters 1, 3 and 51. *)
Definition sample_options : list dhcp_option :=
  [message_type_option DHCP_DISCOVER; numeric_option DHCP_OPTION_REQUESTED_IP_ADDRESS 4 3232235781;
   bytes_option DHCP_OPTION_HOST_NAME [104; 111; 115; 116];
   bytes_option DHCP_OPTION_PARAMETER_REQUEST_LIST [1; 3; 51]].

Lemma numeric_canonical tag lenght n :
  tag ≠ DHCP_OPTION_PAD → tag ≠ DHCP_OPTION_END → lenght ≤ DHCP_OPTION_MAX_LENGHT →
  dhcp_option_tag_to_type tag = DHCP_OPTION_NUMERIC ∨ dhcp_option_tag_to_type tag = DHCP_OPTION_IP →
  0 ≤ n < 256 ^ lenght → option_canonical (numeric_option tag lenght n).
Proof.
  intros ??? Hty Hn. unfold option_canonical. simpl. split_and!; try done.
  destruct Hty as [-> | ->]; eauto.
Qed.

Lemma bytes_canonical tag bs :
  tag ≠ DHCP_OPTION_PAD → tag ≠ DHCP_OPTION_END → zlen bs ≤ DHCP_OPTION_MAX_LENGHT →
  dhcp_option_tag_to_type tag = DHCP_OPTION_STRING ∨ dhcp_option_tag_to_type tag = DHCP_OPTION_BIN →
  option_canonical (bytes_option tag bs).
Proof.
  intros ??? Hty. unfold option_canonical. simpl. split_and!; try done.
  destruct Hty as [-> | ->]; eauto.
Qed.

Lemma sample_ok : Forall option_ok sample_options.
Proof. by_decision. Qed.

Lemma sample_canonical : Forall option_canonical sample_options.
Proof.
  unfold sample_options. repeat apply Forall_cons_2; [apply message_type_canonical |
    apply numeric_canonical | apply bytes_canonical | apply bytes_canonical | apply Forall_nil_2];
    solve [done | by left | by right].
Qed.

Definition sample_area : list Z :=
  match @dhcp_options_serialize cclog_run sample_options (zeros 336) with
  | Ret (_, raw) => raw | _ => [] end.

Lemma dhcp_options_serialize_witness :
  @dhcp_options_serialize cclog_run sample_options (zeros 336) = Ret (0, sample_area) ∧
  take 8 sample_area = [53; 1; 1; 50; 4; 192; 168; 1].
Proof.
  destruct (@dhcp_options_serialize_spec cclog_run sample_options (zeros 336)) as [H _];
    [exact sample_ok | vm_compute; reflexivity |].
  split; [vm_compute; reflexivity | vm_compute; reflexivity].
Defined.

Lemma dhcp_options_roundtrip_witness :
  @dhcp_option_parse cclog_run [] sample_area = Ret (0, sample_options).
Proof.
  apply (@dhcp_options_roundtrip cclog_run sample_options (zeros 336) sample_area).
  - exact sample_ok.
  - exact sample_canonical.
  - by_decision.
  - vm_compute. reflexivity.
  - vm_compute. reflexivity.
Defined.

(** A lease time and then an option of 254 bytes. *)
Lemma dhcp_option_parse_outcome_witness :
  ∃ e, walks ([51; 4; 0; 0; 1; 44; 12; 254] ++ zeros 328) 0 e ∧
    (∀ e', walks ([51; 4; 0; 0; 1; 44; 12; 254] ++ zeros 328) 0 e' → e' = e) ∧
    match e with
    | Ends => ∃ os, @dhcp_option_parse cclog_run [] ([51; 4; 0; 0; 1; 44; 12; 254] ++ zeros 328) = Ret (0, os)
    | Hangs => ∀ n, @parse_loop cclog_run n ([51; 4; 0; 0; 1; 44; 12; 254] ++ zeros 328) 0 [] = NoFuel
    | Overruns => @dhcp_option_parse cclog_run [] ([51; 4; 0; 0; 1; 44; 12; 254] ++ zeros 328) = Undef OutOfBounds
    end.
Proof.
  apply (@dhcp_option_parse_outcome cclog_run); [by_decision | vm_compute; reflexivity].
Defined.

Lemma dhcp_option_parse_pad_hangs_witness :
  @parse_loop cclog_run (Z.to_nat 1000000) (encode_all sample_options ++ DHCP_OPTION_PAD :: zeros 300) 0 [] = NoFuel.
Proof.
  apply (@dhcp_option_parse_pad_hangs cclog_run).
  - exact sample_ok.
  - exact sample_canonical.
  - by_decision.
  - vm_compute. reflexivity.
Defined.

Lemma dhcp_option_parse_long_option_witness :
  @dhcp_option_parse cclog_run [] (61 :: 254 :: zeros 400) = Undef OutOfBounds.
Proof.
  apply (@dhcp_option_parse_long_option cclog_run); [discriminate | discriminate | reflexivity].
Defined.

Lemma dhcp_option_parse_wf_witness : list_wf sample_options.
Proof.
  apply (@dhcp_option_parse_wf cclog_run [] sample_area 0 sample_options).
  - by_decision.
  - split; [constructor | constructor].
  - vm_compute. reflexivity.
Defined.

(** A server with a lease time, its identifier and a router, a pool with its mask. *)
Definition sample_global : list dhcp_option :=
  [numeric_option DHCP_OPTION_IP_ADDRESS_LEASE_TIME 4 43200;
   numeric_option DHCP_OPTION_SERVER_IDENTIFIER 4 3232235777;
   numeric_option DHCP_OPTION_ROUTER 4 3232235777].
Definition sample_pool_options : list dhcp_option :=
  [numeric_option DHCP_OPTION_SUBNET_MASK 4 4294967040].

Lemma sample_global_sendable : sendable sample_global.
Proof.
  repeat apply Forall_cons_2; try apply Forall_nil_2;
    (split; [by_decision | apply numeric_canonical; solve [done | by left | by right]]).
Qed.
Lemma sample_pool_sendable : sendable sample_pool_options.
Proof.
  repeat apply Forall_cons_2; try apply Forall_nil_2;
    (split; [by_decision | apply numeric_canonical; solve [done | by left | by right]]).
Qed.

Lemma terminated_intro l rest : 0 ∉ l → terminated l (l ++ 0 :: rest).
Proof. intros. split; [done | eauto]. Qed.

Lemma dhcp_option_build_required_options_witness :
  ∃ dest', @dhcp_option_build_required_options cclog_run [] [1; 3; 51; 0] [51; 54; 0]
             [50; 55; 61; 57; 0] sample_global sample_pool_options DHCP_OFFER = Ret (0, dest') ∧
    o_tag <$> dest' = [53; 51; 54; 1; 3].
Proof.
  destruct (@dhcp_option_build_required_options_spec cclog_run [] [1; 3; 51] [51; 54]
    [50; 55; 61; 57] [1; 3; 51; 0] [51; 54; 0] [50; 55; 61; 57; 0]
    sample_global sample_pool_options DHCP_OFFER) as (dest' & H & _).
  - exact sample_global_sendable.
  - exact sample_pool_sendable.
  - apply (terminated_intro [1; 3; 51] []). by_decision.
  - apply (terminated_intro [51; 54] []). by_decision.
  - apply (terminated_intro [50; 55; 61; 57] []). by_decision.
  - eexists. split; [vm_compute; reflexivity | vm_compute; reflexivity].
Defined.
