(* ===== verification/AddressPool.v ===== *)
(** Address pools, [address_pool.c]: creation with the checks of the range
    against the subnet, and the allocation bitmap with its get, set and clear
    actions.  The abstraction [leased] is the set of addresses in use; the
    theorems show that the bitmap and the counter of available addresses
    implement it. *)
From S2P Require Import Prelude Bytes Xtoy Rfc Options.

(** ** Data: [struct pool] *)
Record address_pool := Pool {
  p_name : string;
  p_start_address : Z;
  p_end_address : Z;
  p_mask : Z;
  p_leases_bm : list Z;
  p_available_addresses : Z;
  p_dhcp_option_override : list dhcp_option;
}.

Definition with_bm (p : address_pool) (bm : list Z) (available : Z) : address_pool :=
  Pool (p_name p) (p_start_address p) (p_end_address p) (p_mask p) bm available
    (p_dhcp_option_override p).

(** ** Creation *)
Definition pool_range (start_addr end_addr : Z) : Z := (end_addr -32 start_addr +32 8) / 8.

Definition can_range_be_on_subnet (start end_ mask : Z) : bool :=
  let subnet_start := Z.land start mask in
  let subnet_end := subnet_start +32 not32 mask in
  (subnet_start +32 1 <=? start) && (end_ <=? subnet_end -32 1).

Section AddressPool.
Context `{CC : !Cclog}.

(** The option 1 (subnet mask) every pool starts with. *)
Definition subnet_mask_option (mask : Z) : dhcp_option :=
  set_value_ip (Option_ DHCP_OPTION_IP DHCP_OPTION_SUBNET_MASK 4 (o_value dhcp_option_new)) mask.

Definition address_pool_new (name : option string) (start_address end_address subnet_mask : Z)
    : option address_pool :=
  match name with
  | None => None
  | Some name =>
      if negb (can_range_be_on_subnet start_address end_address subnet_mask) then None
      else if negb (start_address <? end_address) then None
      else
        let '(rv, options) := dhcp_option_add [] (Some (subnet_mask_option subnet_mask)) in
        if if_failed rv then None
        else Some (Pool name start_address end_address subnet_mask
                     (zeros (Z.to_nat (pool_range start_address end_address)))
                     (end_address -32 start_address +32 1) options)
  end.

Definition address_pool_new_str (name : option string) (start_address end_address subnet_mask : string)
    : option address_pool :=
  address_pool_new name (ipv4_address_to_uint32 start_address)
    (ipv4_address_to_uint32 end_address) (ipv4_address_to_uint32 subnet_mask).

(** ** The bitmap *)
Definition address_belongs_to_pool (pool : address_pool) (address : Z) : bool :=
  (p_start_address pool <=? address) && (address <=? p_end_address pool).

Definition address_belongs_to_pool_str (pool : address_pool) (address : string) : bool :=
  address_belongs_to_pool pool (ipv4_address_to_uint32 address).

(** The characters that name the actions. *)
Definition ACTION_SET : Z := 115.    (* 's' *)
Definition ACTION_CLEAR : Z := 99.   (* 'c' *)
Definition ACTION_GET : Z := 103.    (* 'g' *)

Definition address_pool_address_allocation_ctl (pool : address_pool) (address action : Z)
    : result (Z * address_pool) :=
  if negb (address_belongs_to_pool pool address) then mret (-1, pool) else
  let address_number := address -32 p_start_address pool in
  let index := address_number / 8 in
  let bit := u8 (address_number mod 8) in
  byte ← rd (p_leases_bm pool) index;
  let address_bit := negb (Z.land byte (u8 (Z.shiftl 1 bit)) =? 0) in
  if action =? ACTION_SET then
    if address_bit then mret (-1, pool) else
    bm ← wr (p_leases_bm pool) index (Z.lor byte (u8 (Z.shiftl 1 bit)));
    mret (0, with_bm pool bm (p_available_addresses pool -32 1))
  else if action =? ACTION_CLEAR then
    if negb address_bit then mret (-1, pool) else
    bm ← wr (p_leases_bm pool) index (u8 (byte - u8 (Z.shiftl 1 bit)));
    mret (0, with_bm pool bm (p_available_addresses pool +32 1))
  else if action =? ACTION_GET then mret (if address_bit then 1 else 0, pool)
  else mret (-1, pool).

Definition address_pool_set_address_allocation (pool : address_pool) (address : Z) :=
  address_pool_address_allocation_ctl pool address ACTION_SET.
Definition address_pool_set_address_allocation_str (pool : address_pool) (address : string) :=
  address_pool_address_allocation_ctl pool (ipv4_address_to_uint32 address) ACTION_SET.
Definition address_pool_get_address_allocation (pool : address_pool) (address : Z) :=
  address_pool_address_allocation_ctl pool address ACTION_GET.
Definition address_pool_get_address_allocation_str (pool : address_pool) (address : string) :=
  address_pool_address_allocation_ctl pool (ipv4_address_to_uint32 address) ACTION_GET.
Definition address_pool_clear_address_allocation (pool : address_pool) (address : Z) :=
  address_pool_address_allocation_ctl pool address ACTION_CLEAR.
Definition address_pool_clear_address_allocation_str (pool : address_pool) (address : string) :=
  address_pool_address_allocation_ctl pool (ipv4_address_to_uint32 address) ACTION_CLEAR.

(** ** Specification *)

(** The bit of the [n]-th address. *)
Definition bm_bit (bm : list Z) (n : Z) : bool :=
  match bm !! Z.to_nat (n / 8) with Some b => Z.testbit b (n mod 8) | None => false end.

Definition addresses (p : address_pool) : list Z :=
  seqZ (p_start_address p) (p_end_address p - p_start_address p + 1).

(** The addresses of the pool in use. *)
Definition leased (p : address_pool) : gset Z :=
  list_to_set (filter (λ a, bm_bit (p_leases_bm p) (a - p_start_address p) = true) (addresses p)).

(** The range is a range of addresses, the bitmap has a bit for each address
    and the counter counts the addresses that are free. *)
Definition pool_wf (p : address_pool) : Prop :=
  0 < p_start_address p < p_end_address p ∧ p_end_address p < 2 ^ 32 - 1 ∧
  zlen (p_leases_bm p) = (p_end_address p - p_start_address p) / 8 + 1 ∧
  is_bytes (p_leases_bm p) ∧
  p_available_addresses p =
    p_end_address p - p_start_address p + 1 - Z.of_nat (size (leased p)).

(** ** Bits *)
Lemma shiftl_1 k : 0 ≤ k < 8 → u8 (Z.shiftl 1 k) = 2 ^ k.
Proof.
  intros Hk. rewrite Z.shiftl_1_l. apply u8_small. split; [apply Z.pow_nonneg; lia|].
  apply Z.pow_lt_mono_r; lia.
Qed.

Lemma land_pow2 b k : 0 ≤ k → negb (Z.land b (2 ^ k) =? 0) = Z.testbit b k.
Proof.
  intros Hk. destruct (Z.testbit b k) eqn:E.
  - apply negb_true_iff, Z.eqb_neq. intros H0.
    assert (Ht : Z.testbit (Z.land b (2 ^ k)) k = true)
      by (rewrite Z.land_spec, E, Z.pow2_bits_true; done).
    by rewrite H0, Z.bits_0 in Ht.
  - apply negb_false_iff, Z.eqb_eq. apply Z.bits_inj'. intros n Hn.
    rewrite Z.land_spec, Z.pow2_bits_eqb, Z.bits_0 by done.
    destruct (Z.eqb_spec k n) as [<-|]; [by rewrite E | by rewrite andb_false_r].
Qed.

Lemma lor_pow2_u8 b k : is_u8 b → 0 ≤ k < 8 → is_u8 (Z.lor b (2 ^ k)).
Proof.
  unfold is_u8. intros Hb Hk. split.
  - apply Z.lor_nonneg. split; [lia | apply Z.pow_nonneg; lia].
  - assert (0 < 2 ^ k) by (apply Z.pow_pos_nonneg; lia).
    apply Z.log2_lt_cancel. rewrite Z.log2_lor by lia.
    rewrite !Z.log2_pow2 by lia. apply Z.max_lub_lt; [|lia].
    destruct (decide (b = 0)) as [->|]; [simpl; lia|]. apply Z.log2_lt_pow2; lia.
Qed.

Lemma testbit_lor_pow2 b k j : 0 ≤ k → 
  Z.testbit (Z.lor b (2 ^ k)) j = Z.testbit b j || (k =? j).
Proof. intros. by rewrite Z.lor_spec, Z.pow2_bits_eqb. Qed.

Lemma sub_pow2 b k : 0 ≤ k → Z.testbit b k = true → b - 2 ^ k = Z.clearbit b k.
Proof.
  intros Hk Hb. unfold Z.clearbit. rewrite Z.shiftl_1_l. apply Z.sub_nocarry_ldiff.
  apply Z.bits_inj'. intros n Hn. rewrite Z.ldiff_spec, Z.pow2_bits_eqb, Z.bits_0 by done.
  destruct (Z.eqb_spec k n) as [<-|]; [by rewrite Hb | done].
Qed.

Lemma sub_pow2_u8 b k : is_u8 b → 0 ≤ k → Z.testbit b k = true → is_u8 (b - 2 ^ k).
Proof.
  unfold is_u8. intros Hb Hk Ht. assert (0 < 2 ^ k) by (apply Z.pow_pos_nonneg; lia).
  split; [|lia]. rewrite sub_pow2 by done. unfold Z.clearbit. apply Z.ldiff_nonneg. lia.
Qed.

Lemma testbit_sub_pow2 b k j : 0 ≤ k → Z.testbit b k = true →
  Z.testbit (b - 2 ^ k) j = Z.testbit b j && negb (k =? j).
Proof.
  intros Hk Hb. rewrite sub_pow2 by done. apply Z.clearbit_eqb. 
Qed.

Lemma bm_bit_update bm n m b :
  0 ≤ n → 0 ≤ m → n / 8 < zlen bm →
  bm_bit (<[Z.to_nat (n / 8) := b]> bm) m =
  if n / 8 =? m / 8 then Z.testbit b (m mod 8) else bm_bit bm m.
Proof.
  intros Hn Hm Hl. unfold bm_bit.
  assert (0 ≤ n / 8) by (apply Z.div_pos; lia). assert (0 ≤ m / 8) by (apply Z.div_pos; lia).
  destruct (Z.eqb_spec (n / 8) (m / 8)) as [<-|Hne].
  - rewrite list_lookup_insert_eq by (unfold zlen in Hl; lia). done.
  - rewrite list_lookup_insert_ne by lia. done.
Qed.

Lemma same_bit n m : n / 8 = m / 8 → (n mod 8 =? m mod 8) = (n =? m).
Proof. intros. apply Bool.eq_iff_eq_true. rewrite !Z.eqb_eq. Z.div_mod_to_equations. lia. Qed.

(** ** The set of leased addresses *)
Lemma elem_of_leased p a :
  a ∈ leased p ↔ p_start_address p ≤ a ≤ p_end_address p ∧
                 bm_bit (p_leases_bm p) (a - p_start_address p) = true.
Proof.
  unfold leased, addresses. rewrite elem_of_list_to_set, list_elem_of_filter, elem_of_seqZ.
  split; intros; split_and!; try tauto; lia.
Qed.

Lemma address_belongs_to_pool_spec p a :
  address_belongs_to_pool p a = true ↔ p_start_address p ≤ a ≤ p_end_address p.
Proof. unfold address_belongs_to_pool. rewrite andb_true_iff, !Z.leb_le. done. Qed.

Lemma leased_size p : p_start_address p ≤ p_end_address p + 1 →
  Z.of_nat (size (leased p)) ≤ p_end_address p - p_start_address p + 1.
Proof.
  intros Hr. assert (Hs : leased p ⊆ list_to_set (addresses p)).
  { intros a. unfold leased. rewrite !elem_of_list_to_set, list_elem_of_filter. tauto. }
  apply subseteq_size in Hs. rewrite size_list_to_set in Hs by apply NoDup_seqZ.
  unfold addresses in Hs. rewrite length_seqZ in Hs. lia.
Qed.

(** The fields an allocation does not change. *)
Definition same_pool (p p' : address_pool) : Prop :=
  p_name p' = p_name p ∧ p_start_address p' = p_start_address p ∧
  p_end_address p' = p_end_address p ∧ p_mask p' = p_mask p ∧
  p_dhcp_option_override p' = p_dhcp_option_override p.

(** What the allocation control promises on the set of leased addresses. *)
Definition ctl_spec (inside : bool) (S : gset Z) (address action : Z) : Z * gset Z :=
  if negb inside then (-1, S)
  else if action =? ACTION_SET then
    if decide (address ∈ S) then (-1, S) else (0, {[address]} ∪ S)
  else if action =? ACTION_CLEAR then
    if decide (address ∈ S) then (0, S ∖ {[address]}) else (-1, S)
  else if action =? ACTION_GET then (if decide (address ∈ S) then 1 else 0, S)
  else (-1, S).

(** Writing one byte of the bitmap. *)
Lemma leased_update p a byte' av :
  pool_wf p → p_start_address p ≤ a ≤ p_end_address p →
  let n := a - p_start_address p in
  let p' := with_bm p (<[Z.to_nat (n / 8) := byte']> (p_leases_bm p)) av in
  ∀ x, x ∈ leased p' ↔ p_start_address p ≤ x ≤ p_end_address p ∧
    (if n / 8 =? (x - p_start_address p) / 8
     then Z.testbit byte' ((x - p_start_address p) mod 8)
     else bm_bit (p_leases_bm p) (x - p_start_address p)) = true.
Proof.
  intros (Hr & He & Hl & _) Ha n p' x. rewrite elem_of_leased. subst p'. simpl.
  assert (Hn : n / 8 < zlen (p_leases_bm p)) by (rewrite Hl; subst n; Z.div_mod_to_equations; lia).
  split; (intros [Hx Hbit]; split; [done|]); [rewrite bm_bit_update in Hbit by (done || lia)
    | rewrite bm_bit_update by (done || lia)]; done.
Qed.

(** The byte and the bit of an address of the pool. *)
Lemma pool_byte p a :
  pool_wf p → p_start_address p ≤ a ≤ p_end_address p →
  let n := a - p_start_address p in
  ∃ byte, p_leases_bm p !! Z.to_nat (n / 8) = Some byte ∧ is_u8 byte ∧
    0 ≤ n mod 8 < 8 ∧ 0 ≤ n / 8 < zlen (p_leases_bm p) ∧
    (a -32 p_start_address p)%C = n ∧
    (Z.testbit byte (n mod 8) = true ↔ a ∈ leased p).
Proof.
  intros (Hr & He & Hl & Hb & _) Ha n.
  assert (Hn : 0 ≤ n / 8 < zlen (p_leases_bm p)).
  { rewrite Hl. subst n. Z.div_mod_to_equations. lia. }
  destruct (lookup_lt_is_Some_2 (p_leases_bm p) (Z.to_nat (n / 8))) as [byte Hby];
    [unfold zlen in Hn; lia|].
  exists byte. split; [done|]. split; [by eapply Forall_lookup_1 in Hby|].
  split; [subst n; Z.div_mod_to_equations; lia|]. split; [done|]. split.
  - subst n. apply u32_small. unfold is_u32. lia.
  - rewrite elem_of_leased. fold n. unfold bm_bit. rewrite Hby. tauto.
Qed.

Lemma set_leased p a byte av :
  pool_wf p → p_start_address p ≤ a ≤ p_end_address p →
  let n := a - p_start_address p in
  p_leases_bm p !! Z.to_nat (n / 8) = Some byte →
  leased (with_bm p (<[Z.to_nat (n / 8) := Z.lor byte (2 ^ (n mod 8))]> (p_leases_bm p)) av) =
  {[a]} ∪ leased p.
Proof.
  intros Hwf Ha n Hby. apply set_eq. intros x.
  etrans; [by apply leased_update|]. fold n. rewrite elem_of_union, elem_of_singleton, elem_of_leased.
  set (m := x - p_start_address p). rewrite testbit_lor_pow2 by (subst n; Z.div_mod_to_equations; lia).
  destruct (Z.eqb_spec (n / 8) (m / 8)) as [E|E].
  - rewrite (same_bit n m E), orb_true_iff, Z.eqb_eq. unfold bm_bit. rewrite <-E, Hby.
    subst n m. split; [intros (? & [?|?]); [auto | left; lia] | intros [->|[??]]; auto with lia].
  - split; [auto|]. intros [->|?]; [done|done].
Qed.

Lemma clear_leased p a byte av :
  pool_wf p → p_start_address p ≤ a ≤ p_end_address p →
  let n := a - p_start_address p in
  p_leases_bm p !! Z.to_nat (n / 8) = Some byte → Z.testbit byte (n mod 8) = true →
  leased (with_bm p (<[Z.to_nat (n / 8) := byte - 2 ^ (n mod 8)]> (p_leases_bm p)) av) =
  leased p ∖ {[a]}.
Proof.
  intros Hwf Ha n Hby Hbit. apply set_eq. intros x.
  etrans; [by apply leased_update|]. fold n.
  rewrite elem_of_difference, elem_of_singleton, elem_of_leased.
  set (m := x - p_start_address p).
  rewrite testbit_sub_pow2; [|subst n; Z.div_mod_to_equations; lia|done].
  destruct (Z.eqb_spec (n / 8) (m / 8)) as [E|E].
  - rewrite (same_bit n m E), andb_true_iff, negb_true_iff, Z.eqb_neq. unfold bm_bit.
    rewrite <-E, Hby. subst n m. split; [intros (?&?&?) | intros ((?&?)&?)]; split_and!; auto; lia.
  - split; [|tauto]. intros [? ?]. split; [done|]. intros ->. done.
Qed.

(** The two actions that change the pool. *)
Lemma ctl_set p a byte :
  pool_wf p → p_start_address p ≤ a ≤ p_end_address p →
  let n := a - p_start_address p in
  p_leases_bm p !! Z.to_nat (n / 8) = Some byte → is_u8 byte → a ∉ leased p →
  let p' := with_bm p (<[Z.to_nat (n / 8) := Z.lor byte (2 ^ (n mod 8))]> (p_leases_bm p))
                    (p_available_addresses p -32 1) in
  leased p' = {[a]} ∪ leased p ∧ pool_wf p'.
Proof.
  intros Hwf Ha n Hby Hu Hni p'.
  assert (Hs : leased p' = {[a]} ∪ leased p) by by apply set_leased.
  split; [done|]. destruct Hwf as (Hr & He & Hl & Hb & Hav).
  pose proof (leased_size p' ltac:(simpl; lia)) as Hsz.
  rewrite Hs, size_union, size_singleton in Hsz by set_solver. simpl in Hsz.
  split; [exact Hr|]. split; [exact He|]. split; [|split].
  - simpl. unfold zlen. rewrite length_insert. exact Hl.
  - apply Forall_insert; [done | apply lor_pow2_u8; [done | subst n; Z.div_mod_to_equations; lia]].
  - rewrite Hs, size_union, size_singleton by set_solver. simpl.
    rewrite u32_small by (unfold is_u32; lia). lia.
Qed.

Lemma ctl_clear p a byte :
  pool_wf p → p_start_address p ≤ a ≤ p_end_address p →
  let n := a - p_start_address p in
  p_leases_bm p !! Z.to_nat (n / 8) = Some byte → is_u8 byte →
  Z.testbit byte (n mod 8) = true → a ∈ leased p →
  let p' := with_bm p (<[Z.to_nat (n / 8) := byte - 2 ^ (n mod 8)]> (p_leases_bm p))
                    (p_available_addresses p +32 1) in
  leased p' = leased p ∖ {[a]} ∧ pool_wf p'.
Proof.
  intros Hwf Ha n Hby Hu Ht Hi p'.
  assert (Hs : leased p' = leased p ∖ {[a]}) by by apply clear_leased.
  split; [done|]. destruct Hwf as (Hr & He & Hl & Hb & Hav).
  assert (Hpos : (size (leased p) ≠ 0)%nat) by (apply size_non_empty_iff; set_solver).
  pose proof (leased_size p ltac:(lia)) as Hsz.
  split; [exact Hr|]. split; [exact He|]. split; [|split].
  - simpl. unfold zlen. rewrite length_insert. exact Hl.
  - apply Forall_insert; [done | apply sub_pow2_u8; [done | | done]].
    subst n; Z.div_mod_to_equations; lia.
  - rewrite Hs, size_difference, size_singleton by set_solver. simpl.
    rewrite u32_small by (unfold is_u32; lia). lia.
Qed.

(** The control on a well-formed pool, action by action. *)
Lemma ctl_correct p address action :
  pool_wf p →
  ∃ rv p', address_pool_address_allocation_ctl p address action = Ret (rv, p') ∧
    (rv, leased p') = ctl_spec (address_belongs_to_pool p address) (leased p) address action ∧
    pool_wf p' ∧ same_pool p p' ∧ (rv ≠ 0 → p' = p).
Proof.
  intros Hwf. unfold address_pool_address_allocation_ctl, ctl_spec.
  destruct (address_belongs_to_pool p address) eqn:Hin; cbn [negb];
    [|exists (-1), p; by split_and!].
  apply address_belongs_to_pool_spec in Hin.
  destruct (pool_byte p address Hwf Hin) as (byte & Hby & Hu & Hbit & Hidx & -> & Hleased).
  set (n := address - p_start_address p) in *.
  assert (rd (p_leases_bm p) (n / 8) = Ret byte) as -> by (apply rd_Ret; split; [lia | done]).
  cbn [mbind result_bind]. rewrite (u8_small (n mod 8)) by (unfold is_u8; lia).
  rewrite shiftl_1, land_pow2 by lia.
  assert (Hsame : ∀ bm av, same_pool p (with_bm p bm av)) by done.
  destruct (action =? ACTION_SET).
  { destruct (Z.testbit byte (n mod 8)) eqn:Ht.
    - rewrite decide_True by (by apply Hleased). exists (-1), p. by split_and!.
    - assert (Hni : address ∉ leased p) by (rewrite <-Hleased; congruence).
      rewrite decide_False by done. rewrite wr_in by lia. cbn [mbind result_bind].
      destruct (ctl_set p address byte) as [Hs Hw]; try done. fold n in Hs, Hw.
      eexists _, _. split; [done|]. by rewrite Hs. }
  destruct (action =? ACTION_CLEAR).
  { destruct (Z.testbit byte (n mod 8)) eqn:Ht; cbn [negb].
    - assert (Hi : address ∈ leased p) by by apply Hleased.
      rewrite decide_True by done. rewrite wr_in by lia. cbn [mbind result_bind].
      rewrite (u8_small (byte - _)) by (apply sub_pow2_u8; [done | lia | done]).
      destruct (ctl_clear p address byte) as [Hs Hw]; try done. fold n in Hs, Hw.
      eexists _, _. split; [done|]. by rewrite Hs.
    - rewrite decide_False by (rewrite <-Hleased; congruence). exists (-1), p. by split_and!. }
  destruct (action =? ACTION_GET); [|exists (-1), p; by split_and!].
  eexists _, p. split; [done|]. split_and!; try done.
  destruct (Z.testbit byte (n mod 8)) eqn:Ht.
  - by rewrite decide_True by (by apply Hleased).
  - by rewrite decide_False by (rewrite <-Hleased; congruence).
Qed.

(** The wrappers on an address of the pool. *)
Lemma get_correct p a : pool_wf p →
  address_pool_get_address_allocation p a =
  Ret (if address_belongs_to_pool p a then (if decide (a ∈ leased p) then 1 else 0) else -1, p).
Proof.
  intros Hwf. destruct (ctl_correct p a ACTION_GET Hwf) as (rv & p' & H & Hs & _).
  unfold address_pool_get_address_allocation. revert H.
  unfold address_pool_address_allocation_ctl, ctl_spec in *.
  destruct (address_belongs_to_pool p a); cbn [negb] in *; [|by intros [= <- <-]].
  change (ACTION_GET =? ACTION_SET) with false in *. change (ACTION_GET =? ACTION_CLEAR) with false in *.
  change (ACTION_GET =? ACTION_GET) with true in *. cbv iota in *.
  destruct (rd _ _); cbn [mbind result_bind]; try done.
  intros [= <- <-]. injection Hs as ->. done.
Qed.

Lemma set_correct p a : pool_wf p → address_belongs_to_pool p a = true → a ∉ leased p →
  ∃ p', address_pool_set_address_allocation p a = Ret (0, p') ∧
    leased p' = {[a]} ∪ leased p ∧ pool_wf p' ∧ same_pool p p'.
Proof.
  intros Hwf Hin Hni. destruct (ctl_correct p a ACTION_SET Hwf) as (rv & p' & H & Hs & Hw & Hp & _).
  exists p'. unfold ctl_spec in Hs. rewrite Hin in Hs. cbn [negb] in Hs.
  change (ACTION_SET =? ACTION_SET) with true in Hs. cbv iota in Hs.
  rewrite decide_False in Hs by done. injection Hs as -> Hs. done.
Qed.

Lemma clear_correct p a : pool_wf p → address_belongs_to_pool p a = true → a ∈ leased p →
  ∃ p', address_pool_clear_address_allocation p a = Ret (0, p') ∧
    leased p' = leased p ∖ {[a]} ∧ pool_wf p' ∧ same_pool p p'.
Proof.
  intros Hwf Hin Hi. destruct (ctl_correct p a ACTION_CLEAR Hwf) as (rv & p' & H & Hs & Hw & Hp & _).
  exists p'. unfold ctl_spec in Hs. rewrite Hin in Hs. cbn [negb] in Hs.
  change (ACTION_CLEAR =? ACTION_SET) with false in Hs.
  change (ACTION_CLEAR =? ACTION_CLEAR) with true in Hs. cbv iota in Hs.
  rewrite decide_True in Hs by done. injection Hs as -> Hs. done.
Qed.

(** C17. [address_pool_address_allocation_ctl] implements the control of a set
    of leased addresses: it never leaves the bitmap, its return value and the
    set it leaves are those of the specification for every action, the other
    fields are kept and the counter still counts the free addresses. *)
Theorem address_allocation_ctl_refines p address action :
  pool_wf p →
  ∃ rv p', address_pool_address_allocation_ctl p address action = Ret (rv, p') ∧
    (rv, leased p') = ctl_spec (address_belongs_to_pool p address) (leased p) address action ∧
    pool_wf p' ∧ same_pool p p' ∧ (rv ≠ 0 → p' = p).
Proof. apply ctl_correct. Qed.

(** ** Creation *)
Lemma land_le a b : 0 ≤ a → 0 ≤ b → 0 ≤ Z.land a b ≤ b.
Proof.
  intros Ha Hb. split; [apply Z.land_nonneg; auto|].
  assert (b - Z.land a b = Z.ldiff b a) as E.
  { rewrite Z.sub_nocarry_ldiff; apply Z.bits_inj'; intros n Hn;
      rewrite !Z.ldiff_spec, Z.land_spec, ?Z.bits_0;
      by destruct (Z.testbit b n), (Z.testbit a n). }
  assert (0 ≤ Z.ldiff b a) by (apply Z.ldiff_nonneg; auto). lia.
Qed.

(** The range lies strictly between the network address and the broadcast
    address of its subnet. *)
Definition range_on_subnet (s e mask : Z) : Prop :=
  Z.land s mask < s ∧ s < e ∧ e < Z.land s mask + (2 ^ 32 - 1 - mask).

#[export] Instance range_on_subnet_dec s e mask : Decision (range_on_subnet s e mask).
Proof. unfold range_on_subnet. apply _. Defined.

Lemma can_range_spec s e mask : is_u32 s → is_u32 e → is_u32 mask → s < e →
  can_range_be_on_subnet s e mask = bool_decide (range_on_subnet s e mask).
Proof.
  unfold is_u32. intros Hs He Hm Hlt.
  pose proof (land_le s mask ltac:(lia) ltac:(lia)) as Hmask.
  pose proof (land_le mask s ltac:(lia) ltac:(lia)) as Hle. rewrite Z.land_comm in Hle.
  unfold can_range_be_on_subnet, range_on_subnet. rewrite not32_eq by done.
  rewrite (u32_small (Z.land s mask + (2 ^ 32 - 1 - mask))) by (unfold is_u32; lia).
  rewrite (u32_small (Z.land s mask + 1)) by (unfold is_u32; lia).
  set (b := Z.land s mask + (2 ^ 32 - 1 - mask)).
  apply Bool.eq_iff_eq_true. rewrite bool_decide_eq_true, andb_true_iff, !Z.leb_le.
  destruct (decide (b = 0)) as [Hb|Hb].
  - assert (Hones : mask = Z.ones 32) by (subst b; change (Z.ones 32) with (2 ^ 32 - 1); lia).
    assert (Hland : Z.land s mask = s) by (rewrite Hones, Z.land_ones, Z.mod_small; lia).
    subst b. lia.
  - rewrite (u32_small (b - 1)) by (unfold is_u32; subst b; lia). lia.
Qed.

Lemma bm_bit_zeros n k : bm_bit (zeros n) k = false.
Proof.
  unfold bm_bit. destruct (zeros n !! _) as [b|] eqn:E; [|done].
  apply lookup_replicate in E as [-> _]. apply Z.testbit_0_l.
Qed.

Lemma pool_new_correct name s e mask :
  is_u32 s → is_u32 e → is_u32 mask →
  match address_pool_new (Some name) s e mask with
  | Some p =>
      range_on_subnet s e mask ∧ p_name p = name ∧ p_start_address p = s ∧
      p_end_address p = e ∧ p_mask p = mask ∧
      p_dhcp_option_override p = [subnet_mask_option mask] ∧
      leased p = ∅ ∧ (e - s + 8 < 2 ^ 32 → pool_wf p)
  | None => ¬ range_on_subnet s e mask
  end.
Proof.
  intros Hs He Hm. unfold address_pool_new.
  destruct (Z.ltb_spec s e) as [Hlt|Hlt]; cbn [negb]; cycle 1.
  { destruct (negb (can_range_be_on_subnet s e mask)); unfold range_on_subnet; lia. }
  rewrite can_range_spec by done.
  destruct (bool_decide_reflect (range_on_subnet s e mask)) as [Hr|Hr]; cbn [negb]; [|done].
  cbn [dhcp_option_add dhcp_option_retrieve]. rewrite if_failed_spec. cbn [Z.eqb negb app].
  set (p := Pool _ _ _ _ _ _ _).
  assert (Hl : leased p = ∅).
  { apply set_eq. intros x. rewrite elem_of_leased. subst p. simpl.
    rewrite bm_bit_zeros. set_solver. }
  split_and!; try done. intros Hsz.
  pose proof (land_le s mask ltac:(apply Hs) ltac:(apply Hm)) as Hmask.
  unfold range_on_subnet, is_u32 in *.
  split; [simpl; pose proof (land_le mask s ltac:(lia) ltac:(lia)); lia|].
  split; [simpl; lia|]. split; [|split; [apply zeros_bytes|]].
  - simpl. unfold zlen. rewrite length_zeros. unfold pool_range.
    rewrite !u32_small; unfold is_u32; try rewrite u32_small; unfold is_u32; try lia.
    rewrite Z2Nat.id by (apply Z.div_pos; lia).
    replace (e - s + 8) with (e - s + 1 * 8) by lia. by rewrite Z.div_add.
  - rewrite Hl, size_empty. simpl. rewrite !u32_small; unfold is_u32; try rewrite u32_small; unfold is_u32; lia.
Qed.

(** [address_pool_new] makes a pool exactly when the range lies strictly
    inside its subnet with the start before the end.  The new pool has every
    address free and carries the subnet mask as its option; it is well formed
    unless the range has 2^32 - 8 addresses or more. *)
Theorem address_pool_new_spec name s e mask :
  is_u32 s → is_u32 e → is_u32 mask →
  match address_pool_new (Some name) s e mask with
  | Some p =>
      range_on_subnet s e mask ∧ p_name p = name ∧ p_start_address p = s ∧
      p_end_address p = e ∧ p_mask p = mask ∧
      p_dhcp_option_override p = [subnet_mask_option mask] ∧
      leased p = ∅ ∧ (e - s + 8 < 2 ^ 32 → pool_wf p)
  | None => ¬ range_on_subnet s e mask
  end.
Proof. apply pool_new_correct. Qed.

(** A range of 2^32 - 8 addresses or more overflows the computation of the
    size of the bitmap: the pool has no bitmap at all, and any request for one
    of its addresses accesses memory outside it. *)
Theorem address_pool_range_overflow p name s e mask address action :
  is_u32 s → is_u32 e → 2 ^ 32 ≤ e - s + 8 →
  address_pool_new (Some name) s e mask = Some p → address_belongs_to_pool p address = true →
  address_pool_address_allocation_ctl p address action = Undef OutOfBounds.
Proof.
  unfold is_u32. intros Hs He Hov Hp Ha. unfold address_pool_new in Hp.
  destruct (negb (can_range_be_on_subnet s e mask)); [done|].
  destruct (negb (s <? e)); [done|].
  destruct (dhcp_option_add _ _) as [rv os]. destruct (if_failed rv); [done|].
  injection Hp as <-. unfold address_pool_address_allocation_ctl. rewrite Ha. cbn [negb].
  cbn [p_leases_bm]. assert (pool_range s e = 0) as ->.
  { unfold pool_range. rewrite (u32_small (e - s)) by (unfold is_u32; lia).
    unfold u32. replace (e - s + 8) with (e - s + 8 - 2 ^ 32 + 1 * 2 ^ 32) by lia.
    rewrite Z.mod_add, Z.mod_small by lia. apply Z.div_small. lia. }
  rewrite rd_out; [done|]. unfold zlen. simpl. lia.
Qed.
End AddressPool.

(** ** Witnesses: 192.168.1.1 to 192.168.1.100 on 255.255.255.0 *)
Definition sample_pool : address_pool :=
  match @address_pool_new cclog_run (Some "Pool"%string) 3232235777 3232235876 4294967040 with
  | Some p => p
  | None => Pool "" 0 0 0 [] 0 []
  end.

Lemma sample_pool_ok :
  pool_wf sample_pool ∧ leased sample_pool = ∅ ∧ p_available_addresses sample_pool = 100.
Proof.
  pose proof (@pool_new_correct cclog_run "Pool" 3232235777 3232235876 4294967040
    ltac:(by_decision) ltac:(by_decision) ltac:(by_decision)) as H.
  change (@address_pool_new cclog_run (Some "Pool"%string) 3232235777 3232235876 4294967040)
    with (Some sample_pool) in H.
  destruct H as (_ & _ & _ & _ & _ & _ & Hl & Hw).
  split; [apply Hw; reflexivity | split; [exact Hl | vm_compute; reflexivity]].
Qed.

Lemma address_pool_new_witness :
  pool_wf sample_pool ∧ leased sample_pool = ∅ ∧ p_available_addresses sample_pool = 100.
Proof.
  pose proof (@address_pool_new_spec cclog_run "Pool" 3232235777 3232235876 4294967040
    ltac:(by_decision) ltac:(by_decision) ltac:(by_decision)) as H.
  change (@address_pool_new cclog_run (Some "Pool"%string) 3232235777 3232235876 4294967040)
    with (Some sample_pool) in H.
  destruct H as (_ & _ & _ & _ & _ & _ & Hl & Hw).
  split; [apply Hw; reflexivity | split; [exact Hl | vm_compute; reflexivity]].
Defined.

Lemma address_allocation_ctl_witness : ∃ p',
  address_pool_address_allocation_ctl sample_pool 3232235780 ACTION_SET = Ret (0, p') ∧
  leased p' = {[3232235780]} ∪ leased sample_pool ∧ pool_wf p'.
Proof.
  destruct (address_allocation_ctl_refines sample_pool 3232235780 ACTION_SET)
    as (rv & p' & H & Hs & Hw & _); [exact (proj1 sample_pool_ok)|].
  exists p'.
  assert (Hrv : ∃ q, address_pool_address_allocation_ctl sample_pool 3232235780 ACTION_SET = Ret (0, q))
    by (eexists; vm_compute; reflexivity).
  destruct Hrv as [q Hq]. rewrite Hq in H. injection H as <- <-.
  split; [exact Hq|]. split; [|exact Hw].
  rewrite (proj1 (proj2 sample_pool_ok)) in *.
  change (address_belongs_to_pool sample_pool 3232235780) with true in Hs.
  unfold ctl_spec in Hs. cbn [negb] in Hs. change (ACTION_SET =? ACTION_SET) with true in Hs.
  cbn match in Hs. rewrite decide_False in Hs by set_solver. by injection Hs.
Defined.

Lemma address_pool_range_overflow_witness : ∃ p,
  @address_pool_new cclog_run (Some "all"%string) 1 4294967294 0 = Some p ∧
  address_pool_address_allocation_ctl p 1 ACTION_SET = Undef OutOfBounds.
Proof.
  eexists. split; [vm_compute; reflexivity|].
  eapply (@address_pool_range_overflow cclog_run _ "all" 1 4294967294 0);
    [by_decision | by_decision | done | vm_compute; reflexivity | reflexivity].
Defined.
