(* ===== verification/Allocator.v ===== *)
(** The address allocator, [allocator.c]: a list of pools and the default
    options, with the requests for any address, for an address of a pool and
    for one particular address, and the release of an address.  The
    abstraction [in_use] is the set of addresses in use over all pools. *)
From S2P Require Import Prelude Bytes Xtoy Rfc Options AddressPool.

(** ** Data: [enum allocator_status] and [struct allocator] *)
Definition ALLOCATOR_OK : Z := 0.
Definition ALLOCATOR_ERROR : Z := -1.
Definition ALLOCATOR_ADDR_RESERVED : Z := -2.
Definition ALLOCATOR_ADDR_IN_USE : Z := -3.
Definition ALLOCATOR_ADDR_NOT_IN_USE : Z := -4.
Definition ALLOCATOR_POOL_DUPLICITE : Z := -5.
Definition ALLOCATOR_OPTION_DUPLICITE : Z := -6.
Definition ALLOCATOR_OPTION_INVALID : Z := -7.
Definition ALLOCATOR_POOL_DEPLETED : Z := -8.
Definition ALLOCATOR_CANNOT_CREATE_LEASE : Z := -9.

Record address_allocator := Allocator {
  default_options : list dhcp_option;
  address_pools : list address_pool;
}.

Definition allocator_strerror (s : Z) : string :=
  if s =? ALLOCATOR_OK then "OK"
  else if s =? ALLOCATOR_ERROR then "Error"
  else if s =? ALLOCATOR_POOL_DUPLICITE then "Pool already exists"
  else if s =? ALLOCATOR_OPTION_DUPLICITE then "Option already exists"
  else if s =? ALLOCATOR_ADDR_IN_USE then "Address in use"
  else if s =? ALLOCATOR_ADDR_NOT_IN_USE then "Address not in use"
  else if s =? ALLOCATOR_ADDR_RESERVED then "Address reserved"
  else if s =? ALLOCATOR_OPTION_INVALID then "Option invalid"
  else if s =? ALLOCATOR_CANNOT_CREATE_LEASE then "Cannot create lease"
  else "Uknown error code".

Definition address_allocator_new : address_allocator := Allocator [] [].

Definition with_pools (al : address_allocator) (ps : list address_pool) : address_allocator :=
  Allocator (default_options al) ps.

(** ** Lookup of a pool; the pointer returned is the position in the list *)
Definition allocator_get_pool_by_address (al : address_allocator) (addr : Z)
    : option (nat * address_pool) :=
  list_find (λ p, address_belongs_to_pool p addr = true) (address_pools al).

Definition allocator_get_pool_by_name (al : address_allocator) (name : option string)
    : option (nat * address_pool) :=
  match name with
  | None => None
  | Some name => list_find (λ p, p_name p = name) (address_pools al)
  end.

Definition allocator_add_pool (al : address_allocator) (pool : option address_pool)
    : Z * address_allocator :=
  match pool with
  | None => (ALLOCATOR_ERROR, al)
  | Some pool =>
      match allocator_get_pool_by_name al (Some (p_name pool)) with
      | Some _ => (ALLOCATOR_POOL_DUPLICITE, al)
      | None => (ALLOCATOR_OK, with_pools al (address_pools al ++ [pool]))
      end
  end.

(** ** Requests

    The output parameter [addr_buf] is part of the result: [None] is a buffer
    that was not written. *)

(** The loop of [allocator_assign_first_from_pool] from address [a]. *)
Fixpoint assign_loop (fuel : nat) (pool : address_pool) (a : Z)
    : result (Z * address_pool * option Z) :=
  match fuel with
  | O => NoFuel
  | S fuel' =>
      if a <=? p_end_address pool then
        '(taken, pool) ← address_pool_get_address_allocation pool a;
        if taken =? 0 then
          '(_, pool) ← address_pool_set_address_allocation pool a;
          mret (ALLOCATOR_OK, pool, Some a)
        else assign_loop fuel' pool (a +32 1)
      else mret (ALLOCATOR_POOL_DEPLETED, pool, None)
  end.

(** One iteration for each address and the last test. *)
Definition assign_fuel (pool : address_pool) : nat :=
  S (Z.to_nat (p_end_address pool - p_start_address pool + 1)).

Definition allocator_assign_first_from_pool (pool : address_pool)
    : result (Z * address_pool * option Z) :=
  assign_loop (assign_fuel pool) pool (p_start_address pool).

(** The loop of [allocator_request_any_address] over the pools that are left;
    the status is the one [rv] has when the loop ends. *)
Fixpoint request_any_loop (pools : list address_pool)
    : result (Z * list address_pool * option Z) :=
  match pools with
  | [] => mret (ALLOCATOR_ERROR, [], None)
  | pool :: rest =>
      if p_available_addresses pool =? 0 then
        match rest with
        | [] => mret (ALLOCATOR_POOL_DEPLETED, [pool], None)
        | _ => '(rv, rest, buf) ← request_any_loop rest; mret (rv, pool :: rest, buf)
        end
      else
        '(st, pool, buf) ← allocator_assign_first_from_pool pool;
        if st =? 0 then mret (ALLOCATOR_ERROR, pool :: rest, buf)
        else '(rv, rest, buf) ← request_any_loop rest; mret (rv, pool :: rest, buf)
  end.

(** The statement [rv = ALLOCATOR_OK] follows the loop on every path. *)
Definition allocator_request_any_address (al : address_allocator)
    : result (Z * address_allocator * option Z) :=
  '(rv, pools, buf) ← request_any_loop (address_pools al);
  let rv := ALLOCATOR_OK in
  mret (rv, with_pools al pools, buf).

Definition allocator_request_address_from_pool (al : address_allocator) (pool_name : option string)
    : result (Z * address_allocator * option Z) :=
  match pool_name with
  | None => mret (ALLOCATOR_ERROR, al, None)
  | Some _ =>
      match allocator_get_pool_by_name al pool_name with
      | None => mret (ALLOCATOR_ERROR, al, None)
      | Some (i, p) =>
          '(rv, p, buf) ← allocator_assign_first_from_pool p;
          mret (rv, with_pools al (<[i := p]> (address_pools al)), buf)
      end
  end.

Section Allocator.
Context `{CC : !Cclog}.

Definition allocator_request_this_address (al : address_allocator) (requested_addres : Z)
    : result (Z * address_allocator * option Z) :=
  match allocator_get_pool_by_address al requested_addres with
  | None => mret (ALLOCATOR_CANNOT_CREATE_LEASE, al, None)
  | Some (i, p) =>
      '(taken, p) ← address_pool_get_address_allocation p requested_addres;
      if taken =? 1 then mret (ALLOCATOR_ADDR_IN_USE, al, None)
      else
        '(rv, p) ← address_pool_set_address_allocation p requested_addres;
        let al := with_pools al (<[i := p]> (address_pools al)) in
        if if_failed rv then mret (ALLOCATOR_ERROR, al, None)
        else mret (ALLOCATOR_OK, al, Some requested_addres)
  end.

Definition allocator_request_this_address_str (al : address_allocator) (requested_addres : string) :=
  allocator_request_this_address al (ipv4_address_to_uint32 requested_addres).

Definition allocator_release_address (al : address_allocator) (address : Z)
    : result (Z * address_allocator) :=
  match allocator_get_pool_by_address al address with
  | None => mret (ALLOCATOR_ERROR, al)
  | Some (i, p) =>
      '(taken, p) ← address_pool_get_address_allocation p address;
      if taken =? 0 then mret (ALLOCATOR_ADDR_NOT_IN_USE, al)
      else
        '(rv, p) ← address_pool_clear_address_allocation p address;
        let al := with_pools al (<[i := p]> (address_pools al)) in
        if if_failed rv then mret (ALLOCATOR_ERROR, al) else mret (ALLOCATOR_OK, al)
  end.

Definition allocator_release_address_str (al : address_allocator) (address : string) :=
  allocator_release_address al (ipv4_address_to_uint32 address).

Definition allocator_add_dhcp_option (al : address_allocator) (option : option dhcp_option)
    : Z * address_allocator :=
  match option with
  | None => (ALLOCATOR_ERROR, al)
  | Some o =>
      match dhcp_option_retrieve (default_options al) (o_tag o) with
      | Some _ => (ALLOCATOR_OPTION_DUPLICITE, al)
      | None => (ALLOCATOR_OK, Allocator (default_options al ++ [o]) (address_pools al))
      end
  end.

(** The option found is changed in place: the first one with the tag. *)
Definition allocator_change_dhcp_option (al : address_allocator) (tag : Z)
    (new_value : option (list Z)) (new_length : Z) : result (Z * address_allocator) :=
  match new_value with
  | None => mret (ALLOCATOR_ERROR, al)
  | Some new_value =>
      match list_find (λ o, o_tag o = u8 tag) (default_options al) with
      | None => mret (ALLOCATOR_OPTION_INVALID, al)
      | Some (i, o) =>
          bs ← slice new_value 0 new_length;
          v ← blit (o_value o) 0 bs;
          mret (ALLOCATOR_OK,
            Allocator (<[i := Option_ (o_type o) (o_tag o) new_length v]> (default_options al))
              (address_pools al))
      end
  end.

Definition allocator_is_address_available (al : address_allocator) (address : Z) : result bool :=
  match allocator_get_pool_by_address al address with
  | None => mret false
  | Some (i, p) =>
      '(res, _) ← address_pool_get_address_allocation p address;
      mret (res =? 0)
  end.

Definition allocator_is_address_available_str (al : address_allocator) (address : string) :=
  allocator_is_address_available al (ipv4_address_to_uint32 address).
End Allocator.

(** ** Specification *)

(** An address of one of the pools. *)
Definition covered (al : address_allocator) (a : Z) : Prop :=
  ∃ p, p ∈ address_pools al ∧ address_belongs_to_pool p a = true.

(** The addresses in use. *)
Definition in_use (al : address_allocator) : gset Z := ⋃ (leased <$> address_pools al).

(** No address belongs to two pools of the list. *)
Definition disjoint_pools (ps : list address_pool) : Prop :=
  ∀ i j p q a, ps !! i = Some p → ps !! j = Some q →
    address_belongs_to_pool p a = true → address_belongs_to_pool q a = true → i = j.

Definition allocator_wf (al : address_allocator) : Prop :=
  Forall pool_wf (address_pools al) ∧ disjoint_pools (address_pools al) ∧
  NoDup (p_name <$> address_pools al).

#[export] Instance covered_dec al a : Decision (covered al a).
Proof.
  refine (cast_if (decide (Exists (λ p, address_belongs_to_pool p a = true) (address_pools al))));
    unfold covered; rewrite <-Exists_exists; done.
Defined.

(** The configured options an operation on addresses keeps. *)
Definition same_configuration (al al' : address_allocator) : Prop :=
  default_options al' = default_options al ∧ Forall2 same_pool (address_pools al) (address_pools al').

#[export] Instance same_pool_preorder : PreOrder same_pool.
Proof. split; [done|]. unfold same_pool. intros p q r. intuition congruence. Qed.

#[export] Instance same_configuration_preorder : PreOrder same_configuration.
Proof.
  split; [intros al; by split|].
  intros al al1 al2 [H1 H2] [H3 H4]. split; [by rewrite H3, H1 | by etrans].
Qed.

(** The first address of a pool that is not leased. *)
Definition first_free (p : address_pool) (a : Z) : Prop :=
  address_belongs_to_pool p a = true ∧ a ∉ leased p ∧
  ∀ b, p_start_address p ≤ b < a → b ∈ leased p.

(** ** Pools by address *)
Lemma elem_of_in_use al a :
  a ∈ in_use al ↔ ∃ i p, address_pools al !! i = Some p ∧ a ∈ leased p.
Proof.
  unfold in_use. rewrite elem_of_union_list. split.
  - intros (S & HS & Ha). apply list_elem_of_fmap in HS as (p & -> & Hp).
    apply list_elem_of_lookup in Hp as [i Hi]. eauto.
  - intros (i & p & Hi & Ha). exists (leased p). split; [|done].
    apply list_elem_of_fmap. exists p. split; [done|]. by eapply list_elem_of_lookup_2.
Qed.

Lemma leased_belongs p a : a ∈ leased p → address_belongs_to_pool p a = true.
Proof. intros Ha. apply address_belongs_to_pool_spec. by apply elem_of_leased in Ha as [? _]. Qed.

Lemma by_address_Some al a i p : allocator_get_pool_by_address al a = Some (i, p) →
  address_pools al !! i = Some p ∧ address_belongs_to_pool p a = true.
Proof. intros H. apply list_find_Some in H as (? & ? & _). done. Qed.

Lemma by_address_None al a : allocator_get_pool_by_address al a = None → ¬ covered al a.
Proof.
  intros H (p & Hp & Ha). apply list_find_None in H. rewrite Forall_forall in H.
  by eapply H.
Qed.

Lemma in_use_pool al a i p : allocator_wf al → address_pools al !! i = Some p →
  address_belongs_to_pool p a = true → a ∈ in_use al ↔ a ∈ leased p.
Proof.
  intros (_ & Hd & _) Hi Ha. rewrite elem_of_in_use. split; [|eauto].
  intros (j & q & Hj & Hq). assert (j = i) as -> by (eapply Hd; eauto using leased_belongs).
  congruence.
Qed.

Lemma covered_pool al a i p : address_pools al !! i = Some p →
  address_belongs_to_pool p a = true → covered al a.
Proof. intros Hi Ha. exists p. split; [by eapply list_elem_of_lookup_2 | done]. Qed.

Lemma same_pool_belongs p p' a : same_pool p p' →
  address_belongs_to_pool p' a = address_belongs_to_pool p a.
Proof. intros (_ & Hs & He & _). unfold address_belongs_to_pool. by rewrite Hs, He. Qed.

(** Replacing a pool by one on the same range. *)
Lemma replace_pool_wf al i p p' : allocator_wf al → address_pools al !! i = Some p →
  pool_wf p' → same_pool p p' →
  allocator_wf (with_pools al (<[i := p']> (address_pools al))).
Proof.
  intros (Hw & Hd & Hn) Hi Hp' Hs. pose proof (lookup_lt_Some _ _ _ Hi) as Hlt.
  split; [by apply Forall_insert|]. split.
  - intros j k q r a Hj Hk. simpl in Hj, Hk.
    apply list_lookup_insert_Some in Hj as [(<- & <- & _)|[_ Hj]],
      Hk as [(<- & <- & _)|[_ Hk]]; rewrite ?(same_pool_belongs p p') by done; by eapply Hd.
  - simpl. rewrite list_fmap_insert, list_insert_id; [done|].
    rewrite list_lookup_fmap, Hi. simpl. f_equal. by destruct Hs as [-> _].
Qed.

Lemma same_configuration_options al al' : same_configuration al al' →
  p_dhcp_option_override <$> address_pools al' = p_dhcp_option_override <$> address_pools al.
Proof.
  intros [_ H]. induction H as [|p p' ps ps' (_ & _ & _ & _ & Ho) _ IH]; [done|].
  cbn [fmap list_fmap]. by rewrite Ho, IH.
Qed.

Lemma same_configuration_covered al al' a : same_configuration al al' → covered al a ↔ covered al' a.
Proof.
  intros [_ H]. unfold covered. split; intros (p & Hp & Ha).
  - apply list_elem_of_lookup in Hp as [i Hi].
    destruct (Forall2_lookup_l _ _ _ _ _ H Hi) as (p' & Hi' & Hs). exists p'.
    split; [by eapply list_elem_of_lookup_2 | by rewrite (same_pool_belongs p p')].
  - apply list_elem_of_lookup in Hp as [i Hi].
    destruct (Forall2_lookup_r _ _ _ _ _ H Hi) as (p' & Hi' & Hs). exists p'.
    split; [by eapply list_elem_of_lookup_2 | by rewrite <-(same_pool_belongs p' p)].
Qed.

Lemma replace_same_configuration al i p p' : address_pools al !! i = Some p → same_pool p p' →
  same_configuration al (with_pools al (<[i := p']> (address_pools al))).
Proof.
  intros Hi Hs. split; [done|]. cbn [address_pools with_pools].
  rewrite <-(list_insert_id _ _ _ Hi) at 1. apply Forall2_insert; [|done].
  reflexivity.
Qed.

Lemma replace_in_use al i p p' a : address_pools al !! i = Some p →
  a ∈ in_use (with_pools al (<[i := p']> (address_pools al))) ↔
  a ∈ leased p' ∨ ∃ j q, j ≠ i ∧ address_pools al !! j = Some q ∧ a ∈ leased q.
Proof.
  intros Hi. pose proof (lookup_lt_Some _ _ _ Hi) as Hlt. rewrite elem_of_in_use. simpl. split.
  - intros (j & q & Hj & Hq).
    apply list_lookup_insert_Some in Hj as [(<- & <- & _)|[Hne Hj]]; eauto 10.
  - intros [Ha|(j & q & Hne & Hj & Hq)].
    + exists i, p'. by rewrite list_lookup_insert_eq.
    + exists j, q. by rewrite list_lookup_insert_ne by done.
Qed.

Lemma replace_set al i p p' a : address_pools al !! i = Some p →
  leased p' = {[a]} ∪ leased p →
  in_use (with_pools al (<[i := p']> (address_pools al))) = {[a]} ∪ in_use al.
Proof.
  intros Hi Hl. apply set_eq. intros x. rewrite (replace_in_use _ _ p) by done.
  rewrite Hl, !elem_of_union, elem_of_singleton, elem_of_in_use. split.
  - intros [[?|?]|(j & q & _ & ? & ?)]; eauto.
  - intros [?|(j & q & ? & ?)]; [auto|]. destruct (decide (j = i)) as [->|]; [|eauto 10].
    simplify_eq. auto.
Qed.

Lemma replace_clear al i p p' a : allocator_wf al → address_pools al !! i = Some p →
  address_belongs_to_pool p a = true → leased p' = leased p ∖ {[a]} →
  in_use (with_pools al (<[i := p']> (address_pools al))) = in_use al ∖ {[a]}.
Proof.
  intros (_ & Hd & _) Hi Ha Hl. apply set_eq. intros x. rewrite (replace_in_use _ _ p) by done.
  rewrite Hl, !elem_of_difference, elem_of_singleton, elem_of_in_use. split.
  - intros [[? ?]|(j & q & ? & ? & ?)]; [eauto|]. split; [eauto|]. intros ->.
    eauto using leased_belongs.
  - intros [(j & q & ? & ?) ?]. destruct (decide (j = i)) as [->|]; [|eauto 10].
    simplify_eq. auto.
Qed.

(** ** The first free address of a pool *)
Definition depleted (p : address_pool) : Prop :=
  ∀ a, address_belongs_to_pool p a = true → a ∈ leased p.

Lemma assign_loop_correct p : pool_wf p → ∀ fuel a,
  p_start_address p ≤ a ≤ p_end_address p + 1 →
  (∀ b, p_start_address p ≤ b < a → b ∈ leased p) →
  p_end_address p + 1 - a < Z.of_nat fuel →
  (depleted p ∧ assign_loop fuel p a = Ret (ALLOCATOR_POOL_DEPLETED, p, None)) ∨
  ∃ f p', assign_loop fuel p a = Ret (ALLOCATOR_OK, p', Some f) ∧ first_free p f ∧
    leased p' = {[f]} ∪ leased p ∧ pool_wf p' ∧ same_pool p p'.
Proof.
  intros Hwf. induction fuel as [|fuel IH]; intros a Ha Hb Hf; [lia|].
  cbn [assign_loop]. destruct (Z.leb_spec a (p_end_address p)) as [Hle|Hgt].
  - assert (Hin : address_belongs_to_pool p a = true) by (apply address_belongs_to_pool_spec; lia).
    rewrite get_correct, Hin by done. cbn [mbind result_bind].
    destruct (decide (a ∈ leased p)) as [Hl|Hl]; cbn [Z.eqb].
    + destruct Hwf as (Hr & He & ?). rewrite u32_small by (unfold is_u32; lia).
      apply IH; [lia | | lia]. intros b ?. destruct (decide (b = a)) as [->|]; [done|].
      apply Hb. lia.
    + destruct (set_correct p a) as (p' & -> & ?); try done. cbn [mbind result_bind].
      right. exists a, p'. split; [done|]. split; [by split; [|split] | tauto].
  - left. split; [|done]. intros x Hx. apply Hb. apply address_belongs_to_pool_spec in Hx. lia.
Qed.

Lemma assign_first_correct p : pool_wf p →
  (depleted p ∧
   allocator_assign_first_from_pool p = Ret (ALLOCATOR_POOL_DEPLETED, p, None)) ∨
  ∃ f p', allocator_assign_first_from_pool p = Ret (ALLOCATOR_OK, p', Some f) ∧
    first_free p f ∧ leased p' = {[f]} ∪ leased p ∧ pool_wf p' ∧ same_pool p p'.
Proof.
  intros Hwf. pose proof Hwf as (Hr & _). apply assign_loop_correct; [done | lia | intros; lia|].
  unfold assign_fuel. lia.
Qed.

(** The counter of a depleted pool is 0, and only then. *)
Lemma available_depleted p : pool_wf p → p_available_addresses p = 0 ↔ depleted p.
Proof.
  intros (Hr & He & Hl & Hb & ->).
  assert (Hsub : leased p ⊆ list_to_set (addresses p)).
  { intros x Hx. unfold leased in Hx.
    rewrite elem_of_list_to_set, list_elem_of_filter in *. tauto. }
  assert (Hsz : Z.of_nat (size (list_to_set (addresses p) : gset Z)) =
                p_end_address p - p_start_address p + 1).
  { rewrite size_list_to_set by apply NoDup_seqZ. unfold addresses. rewrite length_seqZ. lia. }
  assert (Hin : ∀ a, a ∈ (list_to_set (addresses p) : gset Z) ↔ address_belongs_to_pool p a = true).
  { intros a. rewrite elem_of_list_to_set, address_belongs_to_pool_spec. unfold addresses.
    rewrite elem_of_seqZ. lia. }
  split.
  - intros H0 a Ha. apply Hin in Ha. enough (leased p = list_to_set (addresses p)) as ->; [done|].
    apply set_subseteq_size_eq; [done | lia].
  - intros Hd. assert (leased p = list_to_set (addresses p)) as ->; [|lia].
    apply set_eq. intros a. rewrite Hin. split; [apply leased_belongs | apply Hd].
Qed.

(** The pools before position [i] are depleted. *)
Definition depleted_before (ps : list address_pool) (i : nat) : Prop :=
  ∀ j q, (j < i)%nat → ps !! j = Some q → depleted q.

Lemma request_any_loop_correct ps : Forall pool_wf ps →
  (Forall depleted ps ∧ ∃ rv, request_any_loop ps = Ret (rv, ps, None)) ∨
  ∃ i p f p' rv, ps !! i = Some p ∧ depleted_before ps i ∧ first_free p f ∧
    request_any_loop ps = Ret (rv, <[i := p']> ps, Some f) ∧
    leased p' = {[f]} ∪ leased p ∧ pool_wf p' ∧ same_pool p p'.
Proof.
  induction 1 as [|p ps Hp Hps IH]; [left; split; [constructor | by eexists]|].
  assert (Hskip : depleted p → ∀ r, r = request_any_loop ps →
    let run := '(rv, rest, buf) ← r; mret (rv, p :: rest, buf) in
    (Forall depleted (p :: ps) ∧ ∃ rv, run = Ret (rv, p :: ps, None)) ∨
    ∃ i q f p' rv, (p :: ps) !! i = Some q ∧ depleted_before (p :: ps) i ∧ first_free q f ∧
      run = Ret (rv, <[i := p']> (p :: ps), Some f) ∧
      leased p' = {[f]} ∪ leased q ∧ pool_wf p' ∧ same_pool q p').
  { intros Hd r ->. destruct IH as [(Hds & rv & ->)|(i & q & f & p' & rv & Hi & Hb & Hf & -> & Hr)].
    - left. split; [by constructor|]. by eexists.
    - right. exists (S i), q, f, p', rv. split_and?; try done; try apply Hr.
      intros [|j] q' Hlt Hj; simpl in Hj; [by simplify_eq|]. eapply Hb; [|done]. lia. }
  cbn [request_any_loop]. destruct (Z.eqb_spec (p_available_addresses p) 0) as [H0|H0].
  - apply available_depleted in H0; [|done].
    destruct ps; [left; split; [by constructor | by eexists] | by apply Hskip].
  - rewrite available_depleted in H0 by done.
    destruct (assign_first_correct p Hp) as [[Hd _]|(f & p' & -> & Hf & Hr)]; [done|].
    right. cbn [mbind result_bind]. exists 0%nat, p, f, p'. eexists.
    split_and?; try done; try apply Hr. intros j q ?. lia.
Qed.

(** ** The operations *)
Lemma request_any_correct al : allocator_wf al →
  ∃ al' buf, allocator_request_any_address al = Ret (ALLOCATOR_OK, al', buf) ∧
    allocator_wf al' ∧ same_configuration al al' ∧
    match buf with
    | Some f => in_use al' = {[f]} ∪ in_use al ∧ f ∉ in_use al ∧
        ∃ i p, address_pools al !! i = Some p ∧ depleted_before (address_pools al) i ∧ first_free p f
    | None => al' = al ∧ ∀ a, covered al a → a ∈ in_use al
    end.
Proof.
  intros Hwf. unfold allocator_request_any_address.
  destruct (request_any_loop_correct (address_pools al)) as
    [(Hd & rv & ->)|(i & p & f & p' & rv & Hi & Hb & Hf & -> & Hl & Hp' & Hs)]; [apply Hwf| |].
  - exists al, None. split; [by destruct al|]. split_and?; try done.
    intros a (p & Hp & Ha). apply list_elem_of_lookup in Hp as [i Hi].
    apply elem_of_in_use. exists i, p. split; [done|].
    by eapply (proj1 (Forall_lookup _ _) Hd i p).
  - eexists _, (Some f). split; [done|]. split; [by eapply replace_pool_wf|].
      split; [by eapply replace_same_configuration|].
    split; [by eapply replace_set|]. split; [|eauto].
    destruct Hf as (Hin & Hni & _). by rewrite (in_use_pool _ _ i p).
Qed.

Lemma request_from_pool_correct al name : allocator_wf al →
  ∃ rv al' buf, allocator_request_address_from_pool al (Some name) = Ret (rv, al', buf) ∧
    allocator_wf al' ∧ same_configuration al al' ∧
    match buf with
    | Some f => rv = ALLOCATOR_OK ∧ in_use al' = {[f]} ∪ in_use al ∧ f ∉ in_use al ∧
        ∃ p, p ∈ address_pools al ∧ p_name p = name ∧ first_free p f
    | None => al' = al ∧
        (if decide (name ∈ p_name <$> address_pools al)
         then rv = ALLOCATOR_POOL_DEPLETED ∧
              ∀ p, p ∈ address_pools al → p_name p = name → depleted p
         else rv = ALLOCATOR_ERROR)
    end.
Proof.
  intros Hwf. unfold allocator_request_address_from_pool, allocator_get_pool_by_name.
  destruct (list_find _ (address_pools al)) as [[i p]|] eqn:E.
  - apply list_find_Some in E as (Hi & Hn & _).
    pose proof (list_elem_of_lookup_2 _ _ _ Hi) as Hp.
    assert (Hw : pool_wf p) by (by eapply (proj1 (Forall_lookup _ _) (proj1 Hwf))).
    destruct (assign_first_correct p Hw) as [[Hd ->]|(f & p' & -> & Hf & Hl & Hp' & Hs)].
    + eexists _, al, None. split; [cbn; rewrite list_insert_id by done; by destruct al|].
      split; [done|]. split; [done|]. split; [done|].
      rewrite decide_True by (rewrite <-Hn; by apply list_elem_of_fmap_2). split; [done|].
      intros q Hq Hqn. apply list_elem_of_lookup in Hq as [j Hj].
      enough (j = i) as -> by (simplify_eq; done).
      destruct Hwf as (_ & _ & Hnd). eapply NoDup_lookup; [done| |];
        rewrite list_lookup_fmap, ?Hi, ?Hj; simpl; by rewrite ?Hn, ?Hqn.
    + eexists _, _, (Some f). split; [done|]. split; [by eapply replace_pool_wf|].
      split; [by eapply replace_same_configuration|].
      split; [done|]. split; [by eapply replace_set|]. split; [|eauto].
      destruct Hf as (Hin & Hni & _). by rewrite (in_use_pool _ _ i p).
  - exists ALLOCATOR_ERROR, al, None. split_and?; try done.
    rewrite decide_False; [done|]. intros (p & -> & Hp)%list_elem_of_fmap.
    apply list_find_None in E. rewrite Forall_forall in E. by eapply E.
Qed.

Section AllocatorProofs.
Context `{CC : !Cclog}.

(** What a request for one address promises on the set of addresses in use:
    status, set and buffer. *)
Definition request_spec (is_covered : bool) (S : gset Z) (a : Z) : Z * gset Z * option Z :=
  if negb is_covered then (ALLOCATOR_CANNOT_CREATE_LEASE, S, None)
  else if decide (a ∈ S) then (ALLOCATOR_ADDR_IN_USE, S, None)
  else (ALLOCATOR_OK, {[a]} ∪ S, Some a).

Definition release_spec (is_covered : bool) (S : gset Z) (a : Z) : Z * gset Z :=
  if negb is_covered then (ALLOCATOR_ERROR, S)
  else if decide (a ∈ S) then (ALLOCATOR_OK, S ∖ {[a]})
  else (ALLOCATOR_ADDR_NOT_IN_USE, S).

Lemma request_this_correct al a : allocator_wf al →
  ∃ rv al' buf, allocator_request_this_address al a = Ret (rv, al', buf) ∧
    (rv, in_use al', buf) = request_spec (bool_decide (covered al a)) (in_use al) a ∧
    allocator_wf al' ∧ same_configuration al al' ∧ (buf = None → al' = al).
Proof.
  intros Hwf. unfold allocator_request_this_address, request_spec.
  destruct (allocator_get_pool_by_address al a) as [[i p]|] eqn:E.
  - apply by_address_Some in E as [Hi Ha].
    rewrite bool_decide_true by (by eapply covered_pool). cbn [negb].
    assert (Hw : pool_wf p) by (by eapply (proj1 (Forall_lookup _ _) (proj1 Hwf))).
    rewrite get_correct, Ha by done. cbn [mbind result_bind].
    destruct (decide (a ∈ leased p)) as [Hl|Hl]; cbn [Z.eqb Pos.eqb].
    + rewrite decide_True by (by rewrite (in_use_pool _ _ i p)). by eexists _, al, _.
    + rewrite decide_False by (by rewrite (in_use_pool _ _ i p)).
      destruct (set_correct p a) as (p' & -> & Hs & Hp' & Hsame); try done.
      cbn [mbind result_bind]. rewrite if_failed_spec. cbn [Z.eqb negb].
      eexists _, _, _. split; [done|]. split; [by erewrite replace_set|].
      split; [by eapply replace_pool_wf|].
      split; [by eapply replace_same_configuration | done].
  - apply by_address_None in E. rewrite bool_decide_false by done. by eexists _, al, _.
Qed.

Lemma release_correct al a : allocator_wf al →
  ∃ rv al', allocator_release_address al a = Ret (rv, al') ∧
    (rv, in_use al') = release_spec (bool_decide (covered al a)) (in_use al) a ∧
    allocator_wf al' ∧ same_configuration al al'.
Proof.
  intros Hwf. unfold allocator_release_address, release_spec.
  destruct (allocator_get_pool_by_address al a) as [[i p]|] eqn:E.
  - apply by_address_Some in E as [Hi Ha].
    rewrite bool_decide_true by (by eapply covered_pool). cbn [negb].
    assert (Hw : pool_wf p) by (by eapply (proj1 (Forall_lookup _ _) (proj1 Hwf))).
    rewrite get_correct, Ha by done. cbn [mbind result_bind].
    destruct (decide (a ∈ leased p)) as [Hl|Hl]; cbn [Z.eqb].
    + rewrite decide_True by (by rewrite (in_use_pool _ _ i p)).
      destruct (clear_correct p a) as (p' & -> & Hs & Hp' & Hsame); try done.
      cbn [mbind result_bind]. rewrite if_failed_spec. cbn [Z.eqb negb].
      eexists _, _. split; [done|]. split; [by erewrite replace_clear|].
      split; [by eapply replace_pool_wf | by eapply replace_same_configuration].
    + rewrite decide_False by (by rewrite (in_use_pool _ _ i p)). by eexists _, al.
  - apply by_address_None in E. rewrite bool_decide_false by done. by eexists _, al.
Qed.

Lemma is_available_correct al a : allocator_wf al →
  allocator_is_address_available al a = Ret (bool_decide (covered al a ∧ a ∉ in_use al)).
Proof.
  intros Hwf. unfold allocator_is_address_available.
  destruct (allocator_get_pool_by_address al a) as [[i p]|] eqn:E.
  - apply by_address_Some in E as [Hi Ha].
    assert (Hw : pool_wf p) by (by eapply (proj1 (Forall_lookup _ _) (proj1 Hwf))).
    rewrite get_correct, Ha by done. cbn [mbind result_bind]. unfold mret, result_ret. f_equal.
    pose proof (covered_pool al a i p Hi Ha). apply Bool.eq_iff_eq_true.
    rewrite bool_decide_eq_true, (in_use_pool al a i p), Z.eqb_eq by done.
    destruct (decide (a ∈ leased p)); split; try tauto; try lia.
  - apply by_address_None in E. by rewrite bool_decide_false by tauto.
Qed.
End AllocatorProofs.

(** ** Sequences of operations *)
Inductive allocator_op :=
  | RequestAny
  | RequestFrom (pool_name : string)
  | RequestThis (a : Z)
  | Release (a : Z).

(** One call, and the address it hands out or takes back. *)
Inductive movement := Granted (a : Z) | Returned (a : Z) | Nothing.

Definition run_op `{CC : !Cclog} (al : address_allocator) (op : allocator_op)
    : result (movement * address_allocator) :=
  match op with
  | RequestAny =>
      '(rv, al, buf) ← allocator_request_any_address al;
      mret (match buf with Some a => Granted a | None => Nothing end, al)
  | RequestFrom name =>
      '(rv, al, buf) ← allocator_request_address_from_pool al (Some name);
      mret (match buf with Some a => Granted a | None => Nothing end, al)
  | RequestThis a =>
      '(rv, al, buf) ← allocator_request_this_address al a;
      mret (match buf with Some a => Granted a | None => Nothing end, al)
  | Release a =>
      '(rv, al) ← allocator_release_address al a;
      mret (if rv =? ALLOCATOR_OK then Returned a else Nothing, al)
  end.

(** The addresses that are out after a movement, each as often as it was
    handed out. *)
Definition move (out : list Z) (m : movement) : list Z :=
  match m with
  | Granted a => a :: out
  | Returned a => filter (λ x, x ≠ a) out
  | Nothing => out
  end.

Fixpoint run_ops `{CC : !Cclog} (al : address_allocator) (ops : list allocator_op) (out : list Z)
    : result (list Z * address_allocator) :=
  match ops with
  | [] => mret (out, al)
  | op :: ops => '(m, al) ← run_op al op; run_ops al ops (move out m)
  end.

Section AllocatorTheorems.
Context `{CC : !Cclog}.

Lemma run_op_step al op out : allocator_wf al → NoDup out → list_to_set out = in_use al →
  ∃ m al', run_op al op = Ret (m, al') ∧ allocator_wf al' ∧ NoDup (move out m) ∧
    list_to_set (move out m) = in_use al'.
Proof.
  intros Hwf Hn Ho.
  assert (Hg : ∀ f al', in_use al' = {[f]} ∪ in_use al → f ∉ in_use al →
    NoDup (f :: out) ∧ list_to_set (f :: out) = in_use al').
  { intros f al' Hu Hf. rewrite <-Ho, elem_of_list_to_set in Hf. split; [by constructor|].
    by rewrite Hu, <-Ho. }
  destruct op as [|name|a|a]; cbn [run_op].
  - destruct (request_any_correct al Hwf) as (al' & buf & -> & Hw & _ & Hb).
    exists (match buf with Some f => Granted f | None => Nothing end), al'. split; [done|].
    split; [done|]. destruct buf as [f|]; [apply Hg; tauto | by destruct Hb as [-> _]].
  - destruct (request_from_pool_correct al name Hwf) as (rv & al' & buf & -> & Hw & _ & Hb).
    exists (match buf with Some f => Granted f | None => Nothing end), al'. split; [done|].
    split; [done|]. destruct buf as [f|]; [apply Hg; tauto | by destruct Hb as [-> _]].
  - destruct (request_this_correct al a Hwf) as (rv & al' & buf & -> & Hb & Hw & _).
    exists (match buf with Some f => Granted f | None => Nothing end), al'. split; [done|].
    split; [done|]. unfold request_spec in Hb.
    destruct (negb _); [by injection Hb as -> -> ->|].
    destruct (decide (a ∈ in_use al)); injection Hb as -> Hu ->; [by rewrite Hu | by apply Hg].
  - destruct (release_correct al a Hwf) as (rv & al' & -> & Hb & Hw & _).
    exists (if rv =? ALLOCATOR_OK then Returned a else Nothing), al'. split; [done|].
    split; [done|]. unfold release_spec in Hb. destruct (negb _); [by injection Hb as -> ->|].
    destruct (decide (a ∈ in_use al)); injection Hb as -> Hu; rewrite Hu; [|done].
    split; [by apply NoDup_filter|]. rewrite <-Ho. apply set_eq. intros x. cbn.
    rewrite elem_of_list_to_set, list_elem_of_filter, elem_of_difference, elem_of_list_to_set,
      elem_of_singleton. tauto.
Qed.

(** C1. No address is handed out twice: after any sequence of requests and
    releases on pools that do not overlap, the addresses handed out and not
    taken back are distinct and are the addresses in use, and no call reaches
    undefined behaviour or fails to return. *)
Theorem allocator_no_double_lease ops : ∀ al out,
  allocator_wf al → NoDup out → list_to_set out = in_use al →
  ∃ out' al', run_ops al ops out = Ret (out', al') ∧ allocator_wf al' ∧ NoDup out' ∧
    list_to_set out' = in_use al'.
Proof.
  induction ops as [|op ops IH]; intros al out Hwf Hn Ho; [by exists out, al|].
  cbn [run_ops]. destruct (run_op_step al op out) as (m & al' & -> & Hw & Hm & Hs); try done.
  cbn [mbind result_bind]. by apply IH.
Qed.

(** [allocator_request_any_address] hands out the lowest free address of
    the first pool that has one.  It returns ALLOCATOR_OK in every case: when
    every address is in use it returns it too, without writing the address. *)
Theorem allocator_request_any_address_spec al : allocator_wf al →
  ∃ al' buf, allocator_request_any_address al = Ret (ALLOCATOR_OK, al', buf) ∧
    allocator_wf al' ∧
    match buf with
    | Some f => in_use al' = {[f]} ∪ in_use al ∧ f ∉ in_use al ∧
        ∃ i p, address_pools al !! i = Some p ∧ depleted_before (address_pools al) i ∧ first_free p f
    | None => al' = al ∧ ∀ a, covered al a → a ∈ in_use al
    end.
Proof.
  intros Hwf. destruct (request_any_correct al Hwf) as (al' & buf & H & Hw & _ & Hb).
  by exists al', buf.
Qed.

(** [allocator_request_this_address] implements the request of one
    address on the set of addresses in use, for an address outside all pools,
    an address in use and a free one; a granted address is no longer available,
    and releasing it gives the original set back. *)
Theorem allocator_request_release al a : allocator_wf al →
  ∃ rv al1 buf, allocator_request_this_address al a = Ret (rv, al1, buf) ∧
    (rv, in_use al1, buf) = request_spec (bool_decide (covered al a)) (in_use al) a ∧
    allocator_wf al1 ∧ allocator_is_address_available al1 a = Ret false ∧
    ∃ rv' al2, allocator_release_address al1 a = Ret (rv', al2) ∧ allocator_wf al2 ∧
      (rv', in_use al2) = release_spec (bool_decide (covered al1 a)) (in_use al1) a ∧
      (rv = ALLOCATOR_OK → rv' = ALLOCATOR_OK ∧ in_use al2 = in_use al).
Proof.
  intros Hwf. destruct (request_this_correct al a Hwf) as (rv & al1 & buf & H & Hs & Hw & _).
  exists rv, al1, buf. split; [done|]. split; [done|]. split; [done|].
  assert (Hcov : covered al1 a → a ∈ in_use al1).
  { intros (p & Hp & Ha). revert Hs. unfold request_spec.
    destruct (bool_decide_reflect (covered al a)) as [Hc|Hc]; cbn [negb]; cycle 1.
    - intros [= -> Hu ->]. destruct Hc. unfold allocator_request_this_address in H.
      destruct (allocator_get_pool_by_address al a) as [[i q]|] eqn:E.
      + apply by_address_Some in E as [Hi Hin]. by eapply covered_pool.
      + injection H as <-. by exists p.
    - destruct (decide (a ∈ in_use al)); intros [= -> -> ->]; set_solver. }
  split.
  { rewrite is_available_correct by done. unfold mret, result_ret. f_equal.
    apply bool_decide_eq_false. tauto. }
  destruct (release_correct al1 a Hw) as (rv' & al2 & H' & Hs' & Hw' & _).
  exists rv', al2. split_and?; try done. intros ->. unfold request_spec in Hs.
  destruct (bool_decide_reflect (covered al a)) as [Hc|Hc]; [|done]. cbn [negb] in Hs.
  destruct (decide (a ∈ in_use al)) as [Hi|Hi]; [done|]. injection Hs as Hu Hbuf.
  assert (covered al1 a) as Hc1.
  { assert (a ∈ in_use al1) as (i & p & Hp & Hl)%elem_of_in_use by set_solver.
    by eapply covered_pool, leased_belongs. }
  rewrite bool_decide_true in Hs' by done. unfold release_spec in Hs'. cbn [negb] in Hs'.
  rewrite decide_True in Hs' by set_solver. injection Hs' as -> ->. split; [done|].
  rewrite Hu. set_solver.
Qed.

(** [allocator_add_pool] keeps the names of the pools distinct and the
    allocator well formed when the new pool overlaps none, starts it with the
    new pool's leases, and leaves it unchanged when the name is taken. *)
Theorem allocator_add_pool_spec al p : allocator_wf al → pool_wf p →
  (∀ a, address_belongs_to_pool p a = true → ¬ covered al a) →
  let '(rv, al') := allocator_add_pool al (Some p) in
  allocator_wf al' ∧
  if decide (p_name p ∈ p_name <$> address_pools al)
  then rv = ALLOCATOR_POOL_DUPLICITE ∧ al' = al
  else rv = ALLOCATOR_OK ∧ in_use al' = in_use al ∪ leased p ∧
       allocator_get_pool_by_name al' (Some (p_name p)) = Some (length (address_pools al), p).
Proof.
  intros Hwf Hp Hov. unfold allocator_add_pool. cbn [allocator_get_pool_by_name].
  destruct (list_find _ (address_pools al)) as [[i q]|] eqn:E.
  - split; [done|]. apply list_find_Some in E as (Hi & Hn & _).
    rewrite decide_True; [done|]. rewrite <-Hn. apply list_elem_of_fmap_2.
    by eapply list_elem_of_lookup_2.
  - assert (Hni : p_name p ∉ p_name <$> address_pools al).
    { intros (q & Hq & Hin)%list_elem_of_fmap. apply list_find_None in E.
      rewrite Forall_forall in E. by eapply E. }
    rewrite decide_False by done. destruct Hwf as (Hw & Hd & Hn). split; [split; [|split]|].
    + simpl. apply Forall_app. auto.
    + assert (Hc : ∀ j q a, address_pools al !! j = Some q → address_belongs_to_pool q a = true →
        address_belongs_to_pool p a = true → False) 
        by (intros j q a Hj Hq Ha; exact (Hov a Ha (covered_pool al a j q Hj Hq))).
      intros j k q r a Hj Hk Hqa Hra. simpl in Hj, Hk.
      apply lookup_app_Some in Hj as [Hj|[Hlj Hj]], Hk as [Hk|[Hlk Hk]];
        [by eapply Hd | | |]; try apply list_lookup_singleton_Some in Hj as [Hj <-];
        try apply list_lookup_singleton_Some in Hk as [Hk <-]; [by destruct (Hc j q a) | | lia].
      by destruct (Hc k r a).
    + simpl. rewrite fmap_app, NoDup_app. split; [done|]. split; [|apply NoDup_singleton].
      simpl. set_solver.
    + split; [done|]. split.
      * unfold in_use. simpl. rewrite fmap_app, union_list_app_L. simpl. by rewrite (right_id_L ∅ (∪)).
      * simpl. rewrite list_find_app_r by done. cbn [list_find].
        rewrite decide_True by done. cbn. by do 2 f_equal.
Qed.
End AllocatorTheorems.

(** ** Witnesses: an allocator with the sample pool *)
Definition sample_allocator : address_allocator := Allocator [] [sample_pool].

Lemma sample_allocator_ok :
  allocator_wf sample_allocator ∧ in_use sample_allocator = ∅ ∧ covered sample_allocator 3232235780.
Proof.
  destruct sample_pool_ok as (Hw & Hl & _). split_and?.
  - split; [by constructor|]. split; [|apply NoDup_singleton].
    intros i j p q a Hi Hj. apply list_lookup_singleton_Some in Hi as [-> _], Hj as [-> _]. done.
  - unfold in_use. simpl. rewrite Hl. set_solver.
  - exists sample_pool. split; [by constructor | reflexivity].
Qed.

Lemma allocator_no_double_lease_witness :
  ∃ out' al', @run_ops cclog_run sample_allocator
      [RequestAny; RequestThis 3232235780; RequestAny; Release 3232235777; RequestAny] []
      = Ret (out', al') ∧ NoDup out'.
Proof.
  destruct (@allocator_no_double_lease cclog_run
    [RequestAny; RequestThis 3232235780; RequestAny; Release 3232235777; RequestAny]
    sample_allocator []) as (out' & al' & H & _ & Hn & _).
  - apply sample_allocator_ok.
  - constructor.
  - symmetry. apply sample_allocator_ok.
  - exists out', al'. split; [exact H | exact Hn].
Defined.

Lemma allocator_request_any_address_spec_witness : ∃ al',
  allocator_request_any_address sample_allocator = Ret (ALLOCATOR_OK, al', Some 3232235777) ∧
  allocator_wf al'.
Proof.
  destruct (allocator_request_any_address_spec sample_allocator) as (al' & buf & H & Hw & _);
    [apply sample_allocator_ok|].
  exists al'. split; [|exact Hw]. rewrite H. do 2 f_equal.
  vm_compute in H. by injection H.
Defined.

Lemma allocator_request_release_witness : ∃ al1,
  @allocator_request_this_address cclog_run sample_allocator 3232235780 =
    Ret (ALLOCATOR_OK, al1, Some 3232235780) ∧
  ∃ al2, @allocator_release_address cclog_run al1 3232235780 = Ret (ALLOCATOR_OK, al2) ∧
    in_use al2 = ∅.
Proof.
  destruct (@allocator_request_release cclog_run sample_allocator 3232235780)
    as (rv & al1 & buf & H & Hs & _ & _ & rv' & al2 & H' & _ & _ & Hok); [apply sample_allocator_ok|].
  destruct sample_allocator_ok as (_ & Hu & Hc).
  rewrite bool_decide_true, Hu in Hs by exact Hc. unfold request_spec in Hs. cbn [negb] in Hs.
  rewrite decide_False in Hs by set_solver. injection Hs as -> Hu1 ->.
  destruct (Hok eq_refl) as [-> Hback]. exists al1. split; [exact H|]. exists al2.
  split; [exact H' | by rewrite Hback].
Defined.

Definition other_pool : address_pool :=
  match @address_pool_new cclog_run (Some "Other"%string) 167772161 167772170 4294967040 with
  | Some p => p
  | None => Pool "" 0 0 0 [] 0 []
  end.

Lemma add_other_pool : allocator_add_pool sample_allocator (Some other_pool) =
  (ALLOCATOR_OK, Allocator [] [sample_pool; other_pool]).
Proof. vm_compute. reflexivity. Qed.

Lemma allocator_add_pool_witness : ∃ al',
  allocator_add_pool sample_allocator (Some other_pool) = (ALLOCATOR_OK, al') ∧ allocator_wf al'.
Proof.
  pose proof (allocator_add_pool_spec sample_allocator other_pool) as H.
  assert (Hw : pool_wf other_pool).
  { pose proof (@pool_new_correct cclog_run "Other" 167772161 167772170 4294967040
      ltac:(by_decision) ltac:(by_decision) ltac:(by_decision)) as Hn.
    change (@address_pool_new cclog_run (Some "Other"%string) 167772161 167772170 4294967040)
      with (Some other_pool) in Hn.
    destruct Hn as (_ & _ & _ & _ & _ & _ & _ & Hw). apply Hw. reflexivity. }
  specialize (H (proj1 sample_allocator_ok) Hw).
  rewrite add_other_pool in H. eexists. split; [exact add_other_pool|].
  destruct H as [Hwf _]; [|exact Hwf].
  intros a Ha (p & Hp & Hpa). apply list_elem_of_singleton in Hp. subst p.
  apply address_belongs_to_pool_spec in Ha, Hpa.
  change (p_end_address other_pool) with 167772170 in Ha.
  change (p_start_address sample_pool) with 3232235777 in Hpa. lia.
Defined.

(** Pools that overlap hand out the same address twice: nothing in
    [allocator_add_pool] compares the ranges. *)
Definition overlapping : address_allocator :=
  snd (allocator_add_pool sample_allocator
    (@address_pool_new cclog_run (Some "Overlap"%string) 3232235777 3232235780 4294967040)).

Example overlapping_pools_share :
  ('(st1, al1, a1) ← allocator_request_address_from_pool overlapping (Some "Pool"%string);
   '(st2, al2, a2) ← allocator_request_address_from_pool al1 (Some "Overlap"%string);
   mret (st1, a1, st2, a2)) =
  Ret (ALLOCATOR_OK, Some 3232235777, ALLOCATOR_OK, Some 3232235777).
Proof. vm_compute. reflexivity. Qed.

(** A pool without a free address: the status is ALLOCATOR_OK all the same. *)
Example request_any_depleted :
  let p := Pool "p" 1 2 0 [3] 0 [] in
  allocator_request_any_address (Allocator [] [p]) = Ret (ALLOCATOR_OK, Allocator [] [p], None).
Proof. reflexivity. Qed.
