(* ===== verification/Timer.v ===== *)
(** Timers, [timer.c]: a counter of seconds that is brought up to date with
    the clock and calls a function when it runs out.

    [time(NULL)] is the argument [now] of each operation: the clock counts
    seconds, and the reads of one operation are given the same value. *)
From stdpp Require Import sorting.
From S2P Require Import Prelude Bytes.

(** ** Data *)
Definition TIMER_NOCB : Z := -2147483648.
Definition TIMER_ERROR : Z := TIMER_NOCB + 1.
Definition TIMER_STOPPED : Z := TIMER_NOCB + 2.

Inductive timer_type := TIMER_ONCE | TIMER_REPEAT.

(** The functions the program gives to its timers. *)
Inductive timer_cb := trans_timer_cb_clear_ptr | check_lease_expirations_ptr
  | cb_turn_off_scanning_ptr.

Record timer := Timer {
  ti_type : timer_type;
  ti_dtime : Z;
  ti_rtime : Z;
  ti_is_running : bool;
  ti_ltime : Z;
  ti_cb : option timer_cb;
}.

#[export] Instance timer_type_eq_dec : EqDecision timer_type.
Proof. solve_decision. Defined.
#[export] Instance timer_cb_eq_dec : EqDecision timer_cb.
Proof. solve_decision. Defined.
#[export] Instance timer_eq_dec : EqDecision timer.
Proof. solve_decision. Defined.

(** ** Operations *)
Definition timer_new (now : Z) (type : timer_type) (dtime : Z) (is_running : bool)
    (cb : option timer_cb) : timer :=
  Timer type dtime dtime is_running (u32 now) cb.

Definition timer_start (now : Z) (t : timer) : timer :=
  Timer (ti_type t) (ti_dtime t) (ti_rtime t) true (u32 now) (ti_cb t).

Definition timer_stop (t : timer) : timer :=
  Timer (ti_type t) (ti_dtime t) (ti_rtime t) false (ti_ltime t) (ti_cb t).

Definition timer_reset (now : Z) (t : timer) : timer :=
  Timer (ti_type t) (ti_dtime t) (ti_dtime t) true (u32 now) (ti_cb t).

Section Update.
Context {S : Type}.

(** [t] is the timer as it is, [put] writes it back, [call] calls a function
    through its pointer: the callback runs after the timer was written. *)
Definition timer_update (now : Z) (t : timer) (put : timer → prog S ())
    (call : timer_cb → Z → prog S Z) : prog S Z :=
  if negb (ti_is_running t) then mret TIMER_STOPPED else
  let current_time := u32 now in
  let time_difference := current_time -32 ti_ltime t in
  if time_difference =? 0 then mret TIMER_NOCB else
  if ti_rtime t <=? time_difference then
    _ ← put (Timer (ti_type t) (ti_dtime t) (ti_dtime t)
               (match ti_type t with TIMER_REPEAT => true | TIMER_ONCE => false end)
               current_time (ti_cb t));
    match ti_cb t with
    | None => mret TIMER_ERROR
    | Some cb => call cb current_time
    end
  else
    _ ← put (Timer (ti_type t) (ti_dtime t) (ti_rtime t -32 time_difference)
               (ti_is_running t) current_time (ti_cb t));
    mret TIMER_NOCB.
End Update.

(** ** Specification *)
Definition timer_wf (t : timer) : Prop :=
  is_u32 (ti_dtime t) ∧ is_u32 (ti_rtime t) ∧ is_u32 (ti_ltime t).

(** A timer alone, with the log of the calls its callback received. *)
Definition timer_put (t : timer) : prog (timer * list Z) () :=
  λ '(_, calls), Ret ((), (t, calls)).
Definition timer_log (cb : timer_cb) (at_ : Z) : prog (timer * list Z) Z :=
  λ '(t, calls), Ret (0, (t, calls ++ [at_])).

(** Updates at the times of a list. *)
Fixpoint timer_run (times : list Z) : prog (timer * list Z) () :=
  match times with
  | [] => mret ()
  | now :: times =>
      t ← gets fst;
      _ ← timer_update now t timer_put timer_log;
      timer_run times
  end.

(** The timer after [elapsed] seconds that do not exhaust it. *)
Definition ticked (t : timer) (now : Z) : timer :=
  Timer (ti_type t) (ti_dtime t) (ti_rtime t - (now - ti_ltime t)) (ti_is_running t) now (ti_cb t).

(** The timer when it runs out. *)
Definition expired (t : timer) (now : Z) : timer :=
  Timer (ti_type t) (ti_dtime t) (ti_dtime t) (bool_decide (ti_type t = TIMER_REPEAT)) now (ti_cb t).

(** ** Updates *)
Lemma timer_update_running {S} now t put (call : timer_cb → Z → prog S Z) s :
  timer_wf t → is_u32 now → ti_is_running t = true → ti_ltime t ≤ now →
  timer_update now t put call s =
    (if decide (now = ti_ltime t) then mret TIMER_NOCB
     else if decide (ti_rtime t ≤ now - ti_ltime t) then
       _ ← put (expired t now);
       match ti_cb t with Some cb => call cb now | None => mret TIMER_ERROR end
     else _ ← put (ticked t now); mret TIMER_NOCB) s.
Proof.
  intros (Hd & Hr & Hl) Hn Hrun Hle. unfold timer_update. rewrite Hrun. cbn [negb].
  rewrite (u32_small now), (u32_small (now - _)) by (unfold is_u32 in *; lia).
  destruct (decide (now = ti_ltime t)) as [E|E].
  - by rewrite E, Z.sub_diag.
  - destruct (Z.eqb_spec (now - ti_ltime t) 0); [lia|].
    destruct (Z.leb_spec (ti_rtime t) (now - ti_ltime t)).
    + rewrite decide_True by done. unfold expired. by destruct (ti_type t).
    + rewrite decide_False by lia. unfold ticked.
      by rewrite u32_small, Hrun by (unfold is_u32 in *; lia).
Qed.

Lemma ticked_wf t now : timer_wf t → is_u32 now → ti_ltime t ≤ now →
  now - ti_ltime t < ti_rtime t → timer_wf (ticked t now).
Proof. unfold timer_wf, is_u32, ticked. simpl. lia. Qed.

Lemma ticked_id t : ticked t (ti_ltime t) = t.
Proof. destruct t. unfold ticked. simpl. f_equal. lia. Qed.

Lemma ticked_twice t n m : ticked (ticked t n) m = ticked t m.
Proof. unfold ticked. simpl. f_equal. lia. Qed.

(** Updates before the timer runs out call nothing. *)
Lemma timer_run_ticks times : ∀ t calls,
  timer_wf t → ti_is_running t = true →
  Sorted Z.le (ti_ltime t :: times) →
  Forall (λ u, u < 2 ^ 32 ∧ u - ti_ltime t < ti_rtime t) times →
  timer_run times (t, calls) = Ret ((), (ticked t (default (ti_ltime t) (last times)), calls)).
Proof.
  induction times as [|now times IH]; intros t calls Hwf Hrun Hs Hb.
  - simpl. by rewrite ticked_id.
  - apply Sorted_inv in Hs as [Hs Hle]. apply HdRel_inv in Hle.
    apply Forall_cons in Hb as [[Hn Hb] Hbs].
    assert (is_u32 now) by (destruct Hwf as (_ & _ & [? ?]); unfold is_u32; lia).
    cbn [timer_run]. rewrite bind_gets, prog_bind_eq. cbn [fst].
    rewrite timer_update_running by done.
    assert (Hlast : ∀ d, default d (last (now :: times)) = default now (last times)).
    { intros d. rewrite last_cons. by destruct (last times). }
    rewrite Hlast. destruct (decide (now = ti_ltime t)) as [->|Hne].
    + cbn. by apply IH.
    + rewrite decide_False by lia.
      change (timer_run times (ticked t now, calls) =
              Ret ((), (ticked t (default now (last times)), calls))).
      rewrite IH; [by rewrite ticked_twice | by apply ticked_wf | done | done |].
      eapply Forall_impl; [exact Hbs|]. unfold ticked. simpl. lia.
Qed.

Lemma timer_run_app xs ys s : timer_run (xs ++ ys) s =
  match timer_run xs s with Ret (_, s') => timer_run ys s' | Undef f => Undef f | NoFuel => NoFuel end.
Proof.
  revert s. induction xs as [|x xs IH]; intros s; [done|].
  cbn [timer_run app]. rewrite !bind_gets, !prog_bind_eq.
  destruct (timer_update x (fst s) timer_put timer_log s) as [[? s']| |]; [apply IH | done | done].
Qed.

(** ** Theorems *)

(** C39. A running timer with a function calls it at the first update by which its
    remaining time has passed, once, and at none of the updates before, for a
    clock that does not go back; a TIMER_ONCE timer then stands still, a
    TIMER_REPEAT timer starts another period, both with the default time to go.
    (The comment of [timer_update] in timer.h says that the remaining time of a
    TIMER_ONCE timer is not set to the default time; the code sets it.) *)
Theorem timer_fires_on_time t times now calls cb :
  timer_wf t → ti_is_running t = true → ti_cb t = Some cb →
  Sorted Z.le (ti_ltime t :: times ++ [now]) → now < 2 ^ 32 →
  Forall (λ u, u - ti_ltime t < ti_rtime t) times →
  ti_rtime t ≤ now - ti_ltime t → ti_ltime t < now →
  timer_run (times ++ [now]) (t, calls) = Ret ((), (expired t now, calls ++ [now])).
Proof.
  intros Hwf Hrun Hcb Hs Hn Hb Hr Hlt.
  assert (Hs' : StronglySorted Z.le (ti_ltime t :: times ++ [now]))
    by (apply Sorted_StronglySorted; [intros ???; lia | done]).
  assert (Hbefore : Forall (λ u, ti_ltime t ≤ u ≤ now) times).
  { apply StronglySorted_inv in Hs' as [Hs' Hh]. apply Forall_app in Hh as [Hh _].
    apply Forall_forall. intros u Hu. split; [by eapply Forall_forall in Hh|].
    eapply (StronglySorted_app_1_elem_of _ times [now]); [done | done | by constructor]. }
  rewrite timer_run_app, timer_run_ticks; [|done|done| |].
  - set (l := default (ti_ltime t) (last times)).
    assert (Hl : ti_ltime t ≤ l ≤ now ∧ l - ti_ltime t < Z.max 1 (ti_rtime t)).
    { subst l. destruct (last times) as [u|] eqn:E; simpl; [|lia].
      apply last_Some_elem_of in E. pose proof (proj1 (Forall_forall _ _) Hb u E).
      pose proof (proj1 (Forall_forall _ _) Hbefore u E). simpl in *. lia. }
    assert (Hw : timer_wf (ticked t l)).
    { destruct (decide (l = ti_ltime t)) as [->|Hne]; [by rewrite ticked_id|].
      destruct Hwf as (? & ? & ?). unfold timer_wf, ticked, is_u32 in *. simpl. lia. }
    assert (Hu : is_u32 now) by (destruct Hwf as (_ & _ & ?); unfold is_u32 in *; lia).
    assert (Hne : now ≠ l).
    { intros ->. subst l. destruct (last times) as [u|] eqn:E; simpl in *; [|lia].
      apply last_Some_elem_of in E. pose proof (proj1 (Forall_forall _ _) Hb u E).
      simpl in *. lia. }
    cbn [timer_run]. rewrite bind_gets, prog_bind_eq. cbn [fst].
    rewrite timer_update_running; [|done|done|done|simpl; lia].
    rewrite decide_False by done. rewrite decide_True by (simpl; lia).
    cbn. rewrite Hcb. done.
  - apply StronglySorted_Sorted. rewrite app_comm_cons in Hs'.
    by eapply StronglySorted_app_1_l.
  - apply Forall_and. split; [|done]. eapply Forall_impl; [exact Hbefore|]. simpl. lia.
Qed.

Lemma timer_fires_on_time_witness :
  timer_run [1000; 1002; 1009] (timer_new 1000 TIMER_ONCE 5 true (Some trans_timer_cb_clear_ptr), []) =
  Ret ((), (Timer TIMER_ONCE 5 5 false 1009 (Some trans_timer_cb_clear_ptr), [1009])).
Proof.
  apply (timer_fires_on_time
    (timer_new 1000 TIMER_ONCE 5 true (Some trans_timer_cb_clear_ptr)) [1000; 1002] 1009 []
    trans_timer_cb_clear_ptr).
  - repeat split; vm_compute; congruence.
  - reflexivity.
  - reflexivity.
  - change (ti_ltime _) with 1000. repeat constructor; lia.
  - lia.
  - change (ti_ltime _) with 1000. repeat constructor; simpl; lia.
  - change (ti_ltime _) with 1000. simpl. lia.
  - change (ti_ltime _) with 1000. lia.
Defined.
