(* ===== verification/Packet.v ===== *)
(** DHCP messages, [dhcp_packet.c]: the packet as it is on the wire, the
    message with its fields in host byte order, the parser and the builder.

    A message refers to its option list by a pointer, and copies of a message
    (the transaction cache makes them with [memcpy]) share the list, so the
    option lists live in a heap. *)
From S2P Require Import Prelude Bytes Rfc Options.

(** ** Data *)

(** [struct dhcp_packet]: every integer is in network byte order. *)
Record dhcp_packet := Packet {
  pk_opcode : Z; pk_htype : Z; pk_hlen : Z; pk_hops : Z;
  pk_xid : Z;
  pk_secs : Z; pk_flags : Z;
  pk_ciaddr : Z; pk_yiaddr : Z; pk_siaddr : Z; pk_giaddr : Z;
  pk_chaddr : list Z;
  pk_sname : list Z;
  pk_filename : list Z;
  pk_cookie : Z;
  pk_options : list Z;
}.

Definition SNAME_LEN : nat := 64.
Definition FILENAME_LEN : nat := 128.
Definition OPTIONS_LEN : nat := 336.
Definition PACKET_CHADDR_LEN : nat := 16.
Definition CHADDR_LEN : nat := 18.

(** [struct dhcp_message].  [m_dhcp_options] is a pointer into the heap of
    option lists, [None] is NULL. *)
Record dhcp_message := Message {
  m_packet : dhcp_packet;
  m_type : Z;
  m_opcode : Z; m_htype : Z; m_hlen : Z; m_hops : Z;
  m_xid : Z;
  m_secs : Z; m_flags : Z;
  m_ciaddr : Z; m_yiaddr : Z; m_siaddr : Z; m_giaddr : Z;
  m_chaddr : list Z;
  m_sname : list Z;
  m_filename : list Z;
  m_cookie : Z;
  m_dhcp_options : option positive;
  m_time : Z;
}.

(** The lists that were allocated; [None] is a list that was freed. *)
Notation option_heap := (gmap positive (option (list dhcp_option))).

(** A list through a pointer. *)
Definition load_options (h : option_heap) (p : positive) : result (list dhcp_option) :=
  match h !! p with Some (Some os) => Ret os | _ => Undef UseAfterFree end.

Definition store_options (h : option_heap) (p : positive) (os : list dhcp_option) : option_heap :=
  <[p := Some os]> h.

(** [llist_new]: no address is given out twice. *)
Definition new_options (h : option_heap) : positive * option_heap :=
  let p := fresh (dom h) in (p, <[p := Some []]> h).

(** [dhcp_option_destroy_list(&p)] *)
Definition destroy_options (h : option_heap) (p : positive) : result option_heap :=
  _ ← load_options h p; mret (<[p := None]> h).

(** [dhcp_option_retrieve] through the pointer of a message. *)
Definition retrieve_option (h : option_heap) (p : option positive) (tag : Z)
    : result (option dhcp_option) :=
  match p with
  | None => mret None
  | Some p => os ← load_options h p; mret (dhcp_option_retrieve os (u8 tag))
  end.

(** ** The memory of a packet: what [recv] fills and [sendto] sends *)
Definition packet_encode (p : dhcp_packet) : list Z :=
  [pk_opcode p; pk_htype p; pk_hlen p; pk_hops p] ++ le_bytes 4 (pk_xid p) ++
  le_bytes 2 (pk_secs p) ++ le_bytes 2 (pk_flags p) ++
  le_bytes 4 (pk_ciaddr p) ++ le_bytes 4 (pk_yiaddr p) ++
  le_bytes 4 (pk_siaddr p) ++ le_bytes 4 (pk_giaddr p) ++
  pk_chaddr p ++ pk_sname p ++ pk_filename p ++ le_bytes 4 (pk_cookie p) ++ pk_options p.

(** The bytes at an offset. *)
Definition field (bs : list Z) (off len : nat) : list Z := take len (drop off bs).

Definition packet_decode (bs : list Z) : dhcp_packet :=
  Packet (le_val (field bs 0 1)) (le_val (field bs 1 1)) (le_val (field bs 2 1))
    (le_val (field bs 3 1)) (le_val (field bs 4 4)) (le_val (field bs 8 2))
    (le_val (field bs 10 2)) (le_val (field bs 12 4)) (le_val (field bs 16 4))
    (le_val (field bs 20 4)) (le_val (field bs 24 4)) (field bs 28 16) (field bs 44 64)
    (field bs 108 128) (le_val (field bs 236 4)) (field bs 240 336).

(** [calloc] *)
Definition packet_zero : dhcp_packet :=
  Packet 0 0 0 0 0 0 0 0 0 0 0 (zeros PACKET_CHADDR_LEN) (zeros SNAME_LEN) (zeros FILENAME_LEN)
    0 (zeros OPTIONS_LEN).

Definition dhcp_message_new (h : option_heap) : dhcp_message * option_heap :=
  let '(p, h) := new_options h in
  (Message packet_zero 0 0 0 0 0 0 0 0 0 0 0 0 (zeros CHADDR_LEN) (zeros SNAME_LEN)
     (zeros FILENAME_LEN) 0 (Some p) 0, h).

Definition dhcp_message_destroy (h : option_heap) (m : dhcp_message) : result option_heap :=
  match m_dhcp_options m with
  | Some p => destroy_options h p
  | None => mret h
  end.

(** The assignments to single fields the functions below make. *)
Definition with_type (m : dhcp_message) (t : Z) : dhcp_message :=
  Message (m_packet m) t (m_opcode m) (m_htype m) (m_hlen m) (m_hops m) (m_xid m) (m_secs m)
    (m_flags m) (m_ciaddr m) (m_yiaddr m) (m_siaddr m) (m_giaddr m) (m_chaddr m) (m_sname m)
    (m_filename m) (m_cookie m) (m_dhcp_options m) (m_time m).
Definition with_options (m : dhcp_message) (p : option positive) : dhcp_message :=
  Message (m_packet m) (m_type m) (m_opcode m) (m_htype m) (m_hlen m) (m_hops m) (m_xid m)
    (m_secs m) (m_flags m) (m_ciaddr m) (m_yiaddr m) (m_siaddr m) (m_giaddr m) (m_chaddr m)
    (m_sname m) (m_filename m) (m_cookie m) p (m_time m).
Definition with_time (m : dhcp_message) (t : Z) : dhcp_message :=
  Message (m_packet m) (m_type m) (m_opcode m) (m_htype m) (m_hlen m) (m_hops m) (m_xid m)
    (m_secs m) (m_flags m) (m_ciaddr m) (m_yiaddr m) (m_siaddr m) (m_giaddr m) (m_chaddr m)
    (m_sname m) (m_filename m) (m_cookie m) (m_dhcp_options m) t.
Definition with_packet (m : dhcp_message) (p : dhcp_packet) : dhcp_message :=
  Message p (m_type m) (m_opcode m) (m_htype m) (m_hlen m) (m_hops m) (m_xid m)
    (m_secs m) (m_flags m) (m_ciaddr m) (m_yiaddr m) (m_siaddr m) (m_giaddr m) (m_chaddr m)
    (m_sname m) (m_filename m) (m_cookie m) (m_dhcp_options m) (m_time m).

Section Packet.
Context `{CC : !Cclog}.

(** ** Parsing *)

(** The header: the fields up to the cookie. *)
Definition parse_header (m : dhcp_message) : dhcp_message :=
  let p := m_packet m in
  Message p (m_type m) (pk_opcode p) (pk_htype p) (pk_hlen p) (pk_hops p) (ntohl (pk_xid p))
    (ntohs (pk_secs p)) (ntohs (pk_flags p)) (ntohl (pk_ciaddr p)) (ntohl (pk_yiaddr p))
    (ntohl (pk_siaddr p)) (ntohl (pk_giaddr p))
    (splice 0 (pk_chaddr p) (m_chaddr m)) (pk_sname p) (pk_filename p) (ntohl (pk_cookie p))
    (m_dhcp_options m) (m_time m).

(** The list of the previous packet is freed and a new one takes its place. *)
Definition renew_options (h : option_heap) (p : option positive)
    : result (option positive * option_heap) :=
  match p with
  | None => mret (None, h)
  | Some p =>
      h ← destroy_options h p;
      let '(p, h) := new_options h in
      mret (Some p, h)
  end.

Definition dhcp_packet_parse (h : option_heap) (m : dhcp_message)
    : result (Z * dhcp_message * option_heap) :=
  let m := parse_header m in
  if negb (m_cookie m =? MAGIC_COOKIE) then mret (-1, m, h)
  else
    '(p, h) ← renew_options h (m_dhcp_options m);
    let m := with_options m p in
    match p with
    | None => mret (-1, m, h)
    | Some p =>
        os ← load_options h p;
        '(rv, os) ← dhcp_option_parse os (pk_options (m_packet m));
        let h := store_options h p os in
        if if_failed rv then mret (-1, m, h)
        else
          match dhcp_option_retrieve os DHCP_OPTION_DHCP_MESSAGE_TYPE with
          | None => mret (-1, m, h)
          | Some o => mret (0, with_type m (value_number o), h)
          end
    end.

(** ** Building *)
Definition build_header (m : dhcp_message) : dhcp_packet :=
  let p := m_packet m in
  Packet (m_opcode m) (m_htype m) (m_hlen m) (m_hops m) (htonl (m_xid m)) (htons (m_secs m))
    (htons (m_flags m)) (htonl (m_ciaddr m)) (htonl (m_yiaddr m)) (htonl (m_siaddr m))
    (htonl (m_giaddr m)) (take PACKET_CHADDR_LEN (m_chaddr m)) (m_sname m) (m_filename m)
    (pk_cookie p) (pk_options p).

Definition with_cookie (p : dhcp_packet) (cookie : Z) (options : list Z) : dhcp_packet :=
  Packet (pk_opcode p) (pk_htype p) (pk_hlen p) (pk_hops p) (pk_xid p) (pk_secs p) (pk_flags p)
    (pk_ciaddr p) (pk_yiaddr p) (pk_siaddr p) (pk_giaddr p) (pk_chaddr p) (pk_sname p)
    (pk_filename p) cookie options.

Definition dhcp_packet_build (h : option_heap) (m : dhcp_message)
    : result (Z * dhcp_message) :=
  let p := build_header m in
  if negb (m_cookie m =? MAGIC_COOKIE) then mret (-1, with_packet m p)
  else
    let cookie := htonl (m_cookie m) in
    match m_dhcp_options m with
    | None => mret (-1, with_packet m (with_cookie p cookie (pk_options p)))
    | Some q =>
        os ← load_options h q;
        '(rv, raw) ← dhcp_options_serialize os (pk_options p);
        let m := with_packet m (with_cookie p cookie raw) in
        if if_failed rv then mret (-1, m) else mret (0, m)
    end.
End Packet.

(** ** Specification *)
Definition packet_wf (p : dhcp_packet) : Prop :=
  Forall is_u8 [pk_opcode p; pk_htype p; pk_hlen p; pk_hops p] ∧
  is_u16 (pk_secs p) ∧ is_u16 (pk_flags p) ∧
  Forall is_u32 [pk_xid p; pk_ciaddr p; pk_yiaddr p; pk_siaddr p; pk_giaddr p; pk_cookie p] ∧
  length (pk_chaddr p) = PACKET_CHADDR_LEN ∧ length (pk_sname p) = SNAME_LEN ∧
  length (pk_filename p) = FILENAME_LEN ∧ length (pk_options p) = OPTIONS_LEN ∧
  is_bytes (pk_chaddr p ++ pk_sname p ++ pk_filename p ++ pk_options p).

Definition message_wf (m : dhcp_message) : Prop :=
  Forall is_u8 [m_opcode m; m_htype m; m_hlen m; m_hops m] ∧
  is_u16 (m_secs m) ∧ is_u16 (m_flags m) ∧
  Forall is_u32 [m_xid m; m_ciaddr m; m_yiaddr m; m_siaddr m; m_giaddr m; m_cookie m] ∧
  length (m_chaddr m) = CHADDR_LEN ∧ length (m_sname m) = SNAME_LEN ∧
  length (m_filename m) = FILENAME_LEN ∧
  is_bytes (m_chaddr m ++ m_sname m ++ m_filename m) ∧
  length (pk_options (m_packet m)) = OPTIONS_LEN ∧ is_bytes (pk_options (m_packet m)).

(** The layout of RFC 2131, figure 1: every integer with its most significant
    byte first. *)
Definition wire_format (m : dhcp_message) (options : list Z) : list Z :=
  [m_opcode m; m_htype m; m_hlen m; m_hops m] ++ be_bytes 4 (m_xid m) ++
  be_bytes 2 (m_secs m) ++ be_bytes 2 (m_flags m) ++
  be_bytes 4 (m_ciaddr m) ++ be_bytes 4 (m_yiaddr m) ++
  be_bytes 4 (m_siaddr m) ++ be_bytes 4 (m_giaddr m) ++
  take PACKET_CHADDR_LEN (m_chaddr m) ++ m_sname m ++ m_filename m ++
  be_bytes 4 (m_cookie m) ++ options.

(** The bytes of a message with its options, as they are sent. *)
Definition datagram_of (m : dhcp_message) (os : list dhcp_option) (bytes : list Z) : Prop :=
  message_wf m ∧ m_cookie m = MAGIC_COOKIE ∧ good_options os ∧
  zlen (encode_all os) ≤ DHCP_PACKET_OPTIONS_SIZE ∧
  ∃ rest, is_bytes rest ∧ length (encode_all os ++ DHCP_OPTION_END :: rest) = OPTIONS_LEN ∧
    bytes = wire_format m (encode_all os ++ DHCP_OPTION_END :: rest).

(** ** The memory of a packet *)
Lemma field_concat ps i x off len : ps !! i = Some x →
  off = length (concat (take i ps)) → len = length x → field (concat ps) off len = x.
Proof.
  intros Hi -> ->. unfold field.
  assert (concat ps = concat (take i ps) ++ x ++ concat (drop (S i) ps)) as E.
  { change (x ++ concat (drop (S i) ps)) with (concat (x :: drop (S i) ps)).
    by rewrite <-concat_app, take_drop_middle. }
  by rewrite E, drop_app_length, take_app_length.
Qed.

Definition packet_pieces (p : dhcp_packet) : list (list Z) :=
  [[pk_opcode p]; [pk_htype p]; [pk_hlen p]; [pk_hops p]; le_bytes 4 (pk_xid p);
   le_bytes 2 (pk_secs p); le_bytes 2 (pk_flags p);
   le_bytes 4 (pk_ciaddr p); le_bytes 4 (pk_yiaddr p);
   le_bytes 4 (pk_siaddr p); le_bytes 4 (pk_giaddr p);
   pk_chaddr p; pk_sname p; pk_filename p; le_bytes 4 (pk_cookie p); pk_options p].

Lemma packet_encode_pieces p : packet_encode p = concat (packet_pieces p).
Proof. unfold packet_encode, packet_pieces. cbn [concat]. by rewrite app_nil_r. Qed.

Ltac field_piece i :=
  rewrite (field_concat (packet_pieces _) i _ _ _ eq_refl) by
    (cbn [take packet_pieces concat]; rewrite ?length_app, ?length_le_bytes; cbn [length];
     unfold packet_pieces; lia).

Lemma packet_decode_encode p : packet_wf p → packet_decode (packet_encode p) = p.
Proof.
  intros (H8 & Hs & Hf & H32 & Hc & Hn & Hfn & Ho & _).
  unfold PACKET_CHADDR_LEN, SNAME_LEN, FILENAME_LEN, OPTIONS_LEN in *.
  repeat (apply Forall_cons in H8 as [? H8]). repeat (apply Forall_cons in H32 as [? H32]).
  unfold packet_decode. rewrite packet_encode_pieces.
  field_piece 0%nat. field_piece 1%nat. field_piece 2%nat. field_piece 3%nat. field_piece 4%nat.
  field_piece 5%nat. field_piece 6%nat. field_piece 7%nat. field_piece 8%nat. field_piece 9%nat.
  field_piece 10%nat. field_piece 11%nat. field_piece 12%nat. field_piece 13%nat.
  field_piece 14%nat. field_piece 15%nat.
  rewrite !le_val_bytes. unfold is_u16, is_u32 in *.
  rewrite !Z.mod_small by (simpl; lia). cbn [le_val]. rewrite !Z.mul_0_r, !Z.add_0_r.
  by destruct p.
Qed.

Lemma length_packet_encode p : packet_wf p → length (packet_encode p) = 576%nat.
Proof.
  intros (_ & _ & _ & _ & Hc & Hn & Hf & Ho & _). unfold packet_encode.
  rewrite !length_app, !length_le_bytes, Hc, Hn, Hf, Ho. done.
Qed.

Lemma le_bytes_htonl z : le_bytes 4 (htonl z) = be_bytes 4 z.
Proof.
  unfold htonl. rewrite <-(length_be_bytes 4 z) at 1. apply le_bytes_val.
  apply Forall_rev, le_bytes_is_bytes.
Qed.
Lemma le_bytes_htons z : le_bytes 2 (htons z) = be_bytes 2 z.
Proof.
  unfold htons. rewrite <-(length_be_bytes 2 z) at 1. apply le_bytes_val.
  apply Forall_rev, le_bytes_is_bytes.
Qed.

(** ** Theorems *)
Section PacketTheorems.
Context `{CC : !Cclog}.
#[local] Opaque dhcp_option_parse dhcp_options_serialize.

Lemma with_cookie_wf m area : message_wf m → length area = OPTIONS_LEN → is_bytes area →
  packet_wf (with_cookie (build_header m) (htonl (m_cookie m)) area).
Proof.
  intros (H8 & Hs & Hf & H32 & Hc & Hn & Hfn & Hb & _) Hl Ha.
  unfold packet_wf, PACKET_CHADDR_LEN. simpl. split; [done|].
  split; [apply htons_range|]. split; [apply htons_range|].
  split; [repeat constructor; apply htonl_range|].
  apply Forall_app in Hb as [Hb1 Hb2].
  split; [rewrite length_take, Hc; done|]. split; [done|]. split; [done|]. split; [done|].
  rewrite !app_assoc, <-(app_assoc _ (m_sname m)). apply Forall_app. split; [|done].
  apply Forall_app. split; [by apply Forall_take | done].
Qed.

Lemma packet_build_correct h m q os :
  message_wf m → m_cookie m = MAGIC_COOKIE → m_dhcp_options m = Some q →
  load_options h q = Ret os → Forall option_ok os →
  zlen (encode_all os) ≤ DHCP_PACKET_OPTIONS_SIZE →
  let options := encode_all os ++
        DHCP_OPTION_END :: drop (S (length (encode_all os))) (pk_options (m_packet m)) in
  let p := with_cookie (build_header m) (htonl (m_cookie m)) options in
  dhcp_packet_build h m = Ret (0, with_packet m p) ∧
  dhcp_options_serialize os (pk_options (m_packet m)) = Ret (0, options) ∧ packet_wf p.
Proof.
  intros (H8 & Hs & Hf & H32 & Hc & Hn & Hfn & Hb & Hol & Hob) Hck Hq Hl Hok Hfit options p.
  assert (Hlen : DHCP_PACKET_OPTIONS_SIZE < zlen (pk_options (m_packet m)))
    by (unfold zlen; rewrite Hol; done).
  assert (Hser : dhcp_options_serialize os (pk_options (m_packet m)) = Ret (0, options)).
  { destruct (serialize_correct os (pk_options (m_packet m)) Hok Hlen) as (-> & _).
    rewrite (fitting_all os 0) by (done || lia). by rewrite decide_True. }
  split; [|split; [done|]].
  - unfold dhcp_packet_build. rewrite Hck, Z.eqb_refl. cbn [negb]. rewrite Hq, Hl.
    cbn [mbind result_bind]. change (pk_options (build_header m)) with (pk_options (m_packet m)).
    rewrite Hser. cbn [mbind result_bind]. rewrite if_failed_spec. cbn [Z.eqb negb].
    subst p. by rewrite Hck.
  - apply with_cookie_wf; [done | |].
    + unfold zlen, DHCP_PACKET_OPTIONS_SIZE in Hfit. subst options.
      rewrite length_app. cbn [length]. rewrite length_drop, Hol. unfold OPTIONS_LEN. lia.
    + apply Forall_app. split; [apply encode_all_bytes; done|].
      apply Forall_cons. split; [done | by apply Forall_drop].
Qed.

Lemma build_wire m raw :
  packet_encode (with_cookie (build_header m) (htonl (m_cookie m)) raw) = wire_format m raw.
Proof.
  unfold packet_encode, wire_format, with_cookie, build_header.
  cbn [pk_opcode pk_htype pk_hlen pk_hops pk_xid pk_secs pk_flags pk_ciaddr pk_yiaddr pk_siaddr
    pk_giaddr pk_chaddr pk_sname pk_filename pk_cookie pk_options].
  by rewrite !le_bytes_htonl, !le_bytes_htons.
Qed.

(** What [dhcp_packet_build] builds is the datagram of the message. *)
Lemma built_datagram h m q os :
  message_wf m → m_cookie m = MAGIC_COOKIE → m_dhcp_options m = Some q →
  load_options h q = Ret os → good_options os →
  zlen (encode_all os) ≤ DHCP_PACKET_OPTIONS_SIZE →
  ∃ pk, dhcp_packet_build h m = Ret (0, with_packet m pk) ∧ datagram_of m os (packet_encode pk).
Proof.
  intros Hwf Hc Hq Hl Hg Hfit. pose proof Hg as [Hs _].
  assert (Hok : Forall option_ok os) by (eapply Forall_impl; [exact Hs | by intros ? [? _]]).
  destruct (packet_build_correct h m q os) as (H & _ & Hp); try done.
  eexists. split; [exact H|]. split_and!; try done. eexists. split; [|split; [|apply build_wire]].
  - destruct Hwf as (_ & _ & _ & _ & _ & _ & _ & _ & _ & Hob). by apply Forall_drop.
  - by destruct Hp as (_ & _ & _ & _ & _ & _ & _ & Hlen & _).
Qed.

(** C15. [dhcp_packet_build] puts a message on the wire in the format of
    RFC 2131: when its options can be sent and fit the option area it returns
    0, and the memory it hands to [sendto] is the 576 bytes of the fields in
    network byte order, the cookie, the encoded options and the END tag. *)
Theorem dhcp_packet_build_wire h m q os :
  message_wf m → m_cookie m = MAGIC_COOKIE → m_dhcp_options m = Some q →
  load_options h q = Ret os → Forall option_ok os →
  zlen (encode_all os) ≤ DHCP_PACKET_OPTIONS_SIZE →
  ∃ m' rest, dhcp_packet_build h m = Ret (0, m') ∧
    packet_encode (m_packet m') = wire_format m (encode_all os ++ DHCP_OPTION_END :: rest) ∧
    length (packet_encode (m_packet m')) = 576%nat.
Proof.
  intros Hwf Hc Hq Hl Hok Hfit. destruct (packet_build_correct h m q os) as (H & _ & Hp); try done.
  eexists _, _. split; [exact H|]. split; [|by apply length_packet_encode].
  cbn [m_packet with_packet]. apply build_wire.
Qed.

(** What a packet that is parsed tells about the sender's message. *)
Definition same_header (m r : dhcp_message) : Prop :=
  m_opcode r = m_opcode m ∧ m_htype r = m_htype m ∧ m_hlen r = m_hlen m ∧ m_hops r = m_hops m ∧
  m_xid r = m_xid m ∧ m_secs r = m_secs m ∧ m_flags r = m_flags m ∧ m_ciaddr r = m_ciaddr m ∧
  m_yiaddr r = m_yiaddr m ∧ m_siaddr r = m_siaddr m ∧ m_giaddr r = m_giaddr m ∧
  take PACKET_CHADDR_LEN (m_chaddr r) = take PACKET_CHADDR_LEN (m_chaddr m) ∧
  m_sname r = m_sname m ∧ m_filename r = m_filename m ∧ m_cookie r = m_cookie m.

Lemma same_header_options m r p t :
  same_header m r → same_header m (with_type (with_options r p) t).
Proof. done. Qed.

Lemma header_roundtrip m r raw : message_wf m → length (m_chaddr r) = CHADDR_LEN →
  let p := with_cookie (build_header m) (htonl (m_cookie m)) raw in
  same_header m (parse_header (with_packet r p)).
Proof.
  intros (H8 & Hs & Hf & H32 & Hc & Hn & Hfn & _) Hr p.
  repeat (apply Forall_cons in H32 as [? H32]).
  unfold same_header, parse_header, p, with_packet, with_cookie, build_header.
  cbn [m_packet m_type m_opcode m_htype m_hlen m_hops m_xid m_secs m_flags m_ciaddr m_yiaddr m_siaddr
    m_giaddr m_chaddr m_sname m_filename m_cookie pk_opcode pk_htype pk_hlen pk_hops pk_xid pk_secs
    pk_flags pk_ciaddr pk_yiaddr pk_siaddr pk_giaddr pk_chaddr pk_sname pk_filename pk_cookie].
  rewrite !ntohl_htonl, !ntohs_htons by done. split_and?; try done.
  unfold splice. change (take 0 (m_chaddr r)) with (@nil Z). rewrite length_take, Hc.
  change (_ `min` _)%nat with 16%nat. unfold PACKET_CHADDR_LEN.
  rewrite app_nil_l. rewrite take_app_le by (rewrite length_take, Hc; unfold CHADDR_LEN; lia).
  by rewrite take_take.
Qed.

Lemma renew_spec h p os : load_options h p = Ret os →
  ∃ p', renew_options h (Some p) = Ret (Some p', <[p' := Some []]> (<[p := None]> h)) ∧
    p' ≠ p ∧ h !! p' = None.
Proof.
  intros Hl. unfold renew_options, destroy_options. rewrite Hl. cbn [mbind result_bind].
  assert (Hf : (<[p := None]> h : option_heap) !! fresh (dom (<[p := None]> h : option_heap)) = None)
    by apply not_elem_of_dom, is_fresh.
  unfold new_options, mret, result_ret. cbn [mbind result_bind]. cbv zeta.
  generalize dependent (fresh (dom (<[p := None]> h : option_heap))). intros p' Hf.
  exists p'. split; [done|]. destruct (decide (p' = p)) as [->|Hne].
  - exfalso. by rewrite lookup_insert_eq in Hf.
  - split; [done|]. by rewrite lookup_insert_ne in Hf by done.
Qed.

Lemma parsed_cookie r : m_cookie (parse_header r) = ntohl (pk_cookie (m_packet r)).
Proof. reflexivity. Qed.
Lemma parsed_list r : m_dhcp_options (parse_header r) = m_dhcp_options r.
Proof. reflexivity. Qed.
Lemma parsed_area r p :
  pk_options (m_packet (with_options (parse_header r) p)) = pk_options (m_packet r).
Proof. reflexivity. Qed.

(** The parser once the cookie was accepted and the old list freed. *)
Definition parse_rest (h : option_heap) (r : dhcp_message) (p' : positive)
    : result (Z * dhcp_message * option_heap) :=
  '(rv, os) ← dhcp_option_parse [] (pk_options (m_packet r));
  let h := store_options h p' os in
  let m := with_options (parse_header r) (Some p') in
  if if_failed rv then mret (-1, m, h)
  else
    match dhcp_option_retrieve os DHCP_OPTION_DHCP_MESSAGE_TYPE with
    | None => mret (-1, m, h)
    | Some o => mret (0, with_type m (value_number o), h)
    end.

Lemma parse_eq h r p os0 :
  ntohl (pk_cookie (m_packet r)) = MAGIC_COOKIE → m_dhcp_options r = Some p →
  load_options h p = Ret os0 →
  ∃ p', h !! p' = None ∧ p' ≠ p ∧
    dhcp_packet_parse h r = parse_rest (<[p' := Some []]> (<[p := None]> h)) r p'.
Proof.
  intros Hc Hp Hl. destruct (renew_spec h p os0 Hl) as (p' & Hr & Hne & Hf).
  exists p'. split; [done|]. split; [done|].
  unfold dhcp_packet_parse. cbv zeta. rewrite parsed_cookie, parsed_list.
  rewrite Hc, Z.eqb_refl, Hp, Hr. cbv beta iota delta [negb]. rewrite ret_bind. cbv beta iota.
  unfold load_options at 1. rewrite lookup_insert_eq, ret_bind, parsed_area. reflexivity.
Qed.

Lemma parse_stuck h r p :
  ntohl (pk_cookie (m_packet r)) = MAGIC_COOKIE → m_dhcp_options r = Some p →
  ¬ returns (load_options h p) → ¬ returns (dhcp_packet_parse h r).
Proof.
  intros Hc Hp Hl [x Hx]. unfold dhcp_packet_parse in Hx. cbv zeta in Hx.
  rewrite parsed_cookie, parsed_list, Hc, Z.eqb_refl, Hp in Hx. cbv beta iota delta [negb] in Hx.
  apply bind_Ret in Hx as (y & Hy & _). unfold renew_options, destroy_options in Hy.
  apply bind_Ret in Hy as (h1 & Hy & _). apply bind_Ret in Hy as (os & Hy & _).
  apply Hl. by exists os.
Qed.

Lemma parse_rest_store h r p' rv m' h' : parse_rest h r p' = Ret (rv, m', h') →
  ∃ rv1 os, dhcp_option_parse [] (pk_options (m_packet r)) = Ret (rv1, os) ∧
    h' = store_options h p' os ∧ m_dhcp_options m' = Some p' ∧
    (rv1 = 0 → match dhcp_option_retrieve os DHCP_OPTION_DHCP_MESSAGE_TYPE with
               | Some o => rv = 0 ∧ m_type m' = value_number o
               | None => rv = -1
               end).
Proof.
  unfold parse_rest. intros ([rv1 os] & Ho & H)%bind_Ret. exists rv1, os. split; [done|].
  rewrite if_failed_spec in H. destruct (Z.eqb_spec rv1 0) as [->|Hne]; cbn [negb] in H.
  - destruct (dhcp_option_retrieve os _) as [o|]; injection H as <- <- <-; by split_and?.
  - injection H as <- <- <-. split_and?; done.
Qed.

(** A datagram in memory, whatever follows it there. *)
Lemma field_app bs x off len : (off + len ≤ length bs)%nat → field (bs ++ x) off len = field bs off len.
Proof.
  intros H. unfold field. rewrite drop_app_le by lia. apply take_app_le. rewrite length_drop. lia.
Qed.

Lemma packet_decode_app bs x : length bs = 576%nat → packet_decode (bs ++ x) = packet_decode bs.
Proof. intros H. unfold packet_decode. by rewrite !field_app by lia. Qed.

Lemma datagram_packet m os bytes : datagram_of m os bytes → ∃ rest,
  let area := encode_all os ++ DHCP_OPTION_END :: rest in
  let pk := with_cookie (build_header m) (htonl (m_cookie m)) area in
  packet_decode bytes = pk ∧ packet_wf pk ∧ length bytes = 576%nat.
Proof.
  intros (Hwf & Hc & [Hs _] & Hfit & rest & Hr & Hl & ->). exists rest.
  assert (Hok : Forall option_ok os) by (eapply Forall_impl; [exact Hs | by intros ? [? _]]).
  assert (Hp : packet_wf (with_cookie (build_header m) (htonl (m_cookie m))
    (encode_all os ++ DHCP_OPTION_END :: rest))).
  { apply with_cookie_wf; [done | done|]. apply Forall_app. split; [by apply encode_all_bytes|].
    by apply Forall_cons. }
  rewrite <-build_wire. split; [by apply packet_decode_encode|]. split; [done|].
  by apply length_packet_encode.
Qed.

(** The header read from a packet, in a message whose last bytes of the hardware
    address are those of the previous one. *)
Lemma parse_header_wf r : packet_wf (m_packet r) → length (m_chaddr r) = CHADDR_LEN →
  is_bytes (m_chaddr r) → message_wf (parse_header r).
Proof.
  intros (H8 & Hs & Hf & H32 & Hc & Hn & Hfn & Hol & Hb) Hrl Hrb.
  apply Forall_app in Hb as [B1 Hb]. apply Forall_app in Hb as [B2 Hb]. apply Forall_app in Hb as [B3 B4].
  unfold message_wf, parse_header. cbn [m_opcode m_htype m_hlen m_hops m_xid m_secs m_flags m_ciaddr
    m_yiaddr m_siaddr m_giaddr m_chaddr m_sname m_filename m_cookie m_packet].
  split; [done|]. split; [apply (swap_range 2)|]. split; [apply (swap_range 2)|].
  split; [repeat constructor; apply (swap_range 4)|].
  assert (Hlen : length (splice 0 (pk_chaddr (m_packet r)) (m_chaddr r)) = CHADDR_LEN).
  { unfold splice. rewrite !length_app, length_take, length_drop, Hc, Hrl. done. }
  split_and!; try done. apply Forall_app. split; [|by apply Forall_app]. unfold splice.
  apply Forall_app. split; [by apply Forall_take|]. apply Forall_app. split; [done|].
  by apply Forall_drop.
Qed.

(** A datagram is parsed into its message, by any receiver. *)
Lemma datagram_parsed h r p0 os0 m os bytes type :
  datagram_of m os bytes → dhcp_option_retrieve os DHCP_OPTION_DHCP_MESSAGE_TYPE = Some type →
  length (m_chaddr r) = CHADDR_LEN → m_dhcp_options r = Some p0 → load_options h p0 = Ret os0 →
  ∃ r' h' p, dhcp_packet_parse h (with_packet r (packet_decode bytes)) = Ret (0, r', h') ∧
    same_header m r' ∧ m_dhcp_options r' = Some p ∧ load_options h' p = Ret os ∧
    m_type r' = value_number type ∧ (is_bytes (m_chaddr r) → message_wf r').
Proof.
  intros Hd Ht Hrc Hp0 Hl0. pose proof Hd as (Hwf & Hc & [Hs Hnd] & Hfit & _).
  destruct (datagram_packet m os bytes Hd) as (rest & Hdec & Hpw & _). cbv zeta in Hdec, Hpw.
  rewrite Hdec. set (pk := with_cookie _ _ _) in *. set (r0 := with_packet r pk).
  assert (Hck : ntohl (pk_cookie (m_packet r0)) = MAGIC_COOKIE).
  { subst r0 pk. cbn [m_packet with_packet pk_cookie with_cookie]. rewrite Hc. by rewrite ntohl_htonl. }
  pose proof (header_roundtrip m r (encode_all os ++ DHCP_OPTION_END :: rest) Hwf Hrc) as Hh.
  destruct (parse_eq h r0 p0 os0 Hck Hp0 Hl0) as (p' & _ & _ & Hrun).
  assert (Hparse : dhcp_option_parse [] (pk_options (m_packet r0)) = Ret (0, os)).
  { apply parse_encoded; try done; (eapply Forall_impl; [exact Hs | by intros ? [? ?]]). }
  eexists _, _, p'. rewrite Hrun. unfold parse_rest. rewrite Hparse, ret_bind.
  cbv beta iota zeta. rewrite if_failed_spec. cbv beta iota delta [negb Z.eqb]. rewrite Ht.
  split; [reflexivity|]. split; [apply same_header_options; exact Hh|]. split; [done|].
  split; [unfold load_options, store_options; by rewrite lookup_insert_eq|]. split; [done|].
  exact (parse_header_wf r0 Hpw Hrc).
Qed.

(** C14. Round trip over the wire: a receiver that parses the 576 bytes of a
    message that was built recovers every field of the header, the hardware
    address, the options in order and the type of the message. *)
Theorem dhcp_packet_roundtrip h m q os type hr r p0 os0 :
  message_wf m → m_cookie m = MAGIC_COOKIE → m_dhcp_options m = Some q →
  load_options h q = Ret os → Forall option_ok os → Forall option_canonical os →
  NoDup (o_tag <$> os) → zlen (encode_all os) ≤ DHCP_PACKET_OPTIONS_SIZE →
  dhcp_option_retrieve os DHCP_OPTION_DHCP_MESSAGE_TYPE = Some type →
  length (m_chaddr r) = CHADDR_LEN → m_dhcp_options r = Some p0 → load_options hr p0 = Ret os0 →
  ∃ m', dhcp_packet_build h m = Ret (0, m') ∧
  ∃ r' hr' p, dhcp_packet_parse hr (with_packet r (packet_decode (packet_encode (m_packet m')))) =
    Ret (0, r', hr') ∧ same_header m r' ∧ m_dhcp_options r' = Some p ∧
    load_options hr' p = Ret os ∧ m_type r' = value_number type.
Proof.
  intros Hwf Hc Hq Hl Hok Hcan Hnd Hfit Ht Hrc Hp0 Hl0.
  assert (Hg : good_options os) by (split; [by apply Forall_and | done]).
  destruct (built_datagram h m q os) as (pk & Hb & Hd); try done.
  exists (with_packet m pk). split; [exact Hb|].
  destruct (datagram_parsed hr r p0 os0 m os _ type Hd Ht Hrc Hp0 Hl0)
    as (r' & hr' & p & Hr & Hh & Hp & Hlp & Hty & _).
  by exists r', hr', p.
Qed.

(** Whatever was received, when [dhcp_packet_parse] returns it accepts
    only a packet with the magic cookie whose options name its type: the
    message then has that type and a list of well-formed options with distinct
    tags of its own.  With another cookie the options are left alone. *)
Theorem dhcp_packet_parse_spec h m p rv m' h' :
  m_dhcp_options m = Some p → is_bytes (pk_options (m_packet m)) →
  dhcp_packet_parse h m = Ret (rv, m', h') →
  (ntohl (pk_cookie (m_packet m)) ≠ MAGIC_COOKIE → rv = -1 ∧ h' = h ∧ m_type m' = m_type m) ∧
  (ntohl (pk_cookie (m_packet m)) = MAGIC_COOKIE → ∃ p' os,
     m_dhcp_options m' = Some p' ∧ h !! p' = None ∧ load_options h' p' = Ret os ∧ list_wf os ∧
     match dhcp_option_retrieve os DHCP_OPTION_DHCP_MESSAGE_TYPE with
     | Some o => rv = 0 ∧ m_type m' = value_number o
     | None => rv = -1
     end).
Proof.
  intros Hp Hb H. destruct (decide (ntohl (pk_cookie (m_packet m)) = MAGIC_COOKIE)) as [Hc|Hc].
  - split; [done|]. intros _. destruct (load_options h p) as [os0| |] eqn:El;
      [|exfalso; eapply parse_stuck; [exact Hc | exact Hp | rewrite El; by intros [? ?] | by eexists]..].
    destruct (parse_eq h m p os0 Hc Hp El) as (p' & Hf & _ & Hrun). rewrite Hrun in H.
    apply parse_rest_store in H as (rv1 & os & Ho & -> & Hm' & Hrv).
    rewrite dhcp_option_parse_eq in Ho.
    apply parse_loop_wf in Ho as [-> Hw]; [|exact Hb | by repeat constructor].
    exists p', os. split; [done|]. split; [done|]. split; [|split; [done | by apply Hrv]].
    unfold load_options, store_options. by rewrite lookup_insert_eq.
  - split; [|done]. intros _. unfold dhcp_packet_parse in H. cbv zeta in H.
    rewrite parsed_cookie in H. rewrite (proj2 (Z.eqb_neq _ _) Hc) in H.
    cbv beta iota delta [negb] in H. by injection H as <- <- <-.
Qed.

(** A packet that is accepted frees the list of the previous one. *)
Lemma parse_frees h m p m' h' : m_dhcp_options m = Some p →
  dhcp_packet_parse h m = Ret (0, m', h') → load_options h' p = Undef UseAfterFree.
Proof.
  intros Hp H. assert (Hc : ntohl (pk_cookie (m_packet m)) = MAGIC_COOKIE).
  { destruct (decide (ntohl (pk_cookie (m_packet m)) = MAGIC_COOKIE)) as [|Hc]; [done|]. exfalso.
    unfold dhcp_packet_parse in H. cbv zeta in H. rewrite parsed_cookie in H.
    by rewrite (proj2 (Z.eqb_neq _ _) Hc) in H. }
  destruct (load_options h p) as [os0| |] eqn:El;
    [|exfalso; eapply parse_stuck; [exact Hc | exact Hp | rewrite El; by intros [? ?] | by eexists]..].
  destruct (parse_eq h m p os0 Hc Hp El) as (p' & _ & Hne & Hrun). rewrite Hrun in H.
  apply parse_rest_store in H as (rv1 & os & _ & -> & _ & _).
  unfold load_options, store_options. by rewrite !lookup_insert_ne, lookup_insert_eq by done.
Qed.

(** Parsing the next packet into a message frees the option list of the
    previous one: a copy of the message made before keeps a pointer to the
    freed list, and looking up an option through it is a use after free. *)
Theorem dhcp_packet_parse_dangles h m p rv m' h' tag :
  m_dhcp_options m = Some p → ntohl (pk_cookie (m_packet m)) = MAGIC_COOKIE →
  dhcp_packet_parse h m = Ret (rv, m', h') →
  retrieve_option h' (m_dhcp_options m) tag = Undef UseAfterFree.
Proof.
  intros Hp Hc H. destruct (load_options h p) as [os0| |] eqn:El;
    [|exfalso; eapply parse_stuck; [exact Hc | exact Hp | rewrite El; by intros [? ?] | by eexists]..].
  destruct (parse_eq h m p os0 Hc Hp El) as (p' & _ & Hne & Hrun). rewrite Hrun in H.
  apply parse_rest_store in H as (rv1 & os & _ & -> & _ & _). rewrite Hp.
  unfold retrieve_option, load_options, store_options.
  by rewrite !lookup_insert_ne, lookup_insert_eq by done.
Qed.
End PacketTheorems.

(** ** Witnesses: a DHCPDISCOVER with the sample options *)
Definition sample_heap : option_heap := {[1%positive := Some sample_options]}.
Definition sample_message : dhcp_message :=
  Message packet_zero DHCP_DISCOVER BOOTREQUEST ETHERNET 6 0 3735928559 0 32768 0 0 0 0
    ([2; 66; 172; 17; 0; 2] ++ zeros 12) (zeros SNAME_LEN) (zeros FILENAME_LEN) MAGIC_COOKIE
    (Some 1%positive) 0.
(** The receive buffer of the server before the first packet. *)
Definition receiver : dhcp_message := fst (dhcp_message_new ∅).
Definition receiver_heap : option_heap := snd (dhcp_message_new ∅).

#[export] Instance message_wf_dec m : Decision (message_wf m).
Proof. unfold message_wf, is_bytes. apply _. Defined.

Lemma sample_message_wf : message_wf sample_message.
Proof. by_decision. Qed.

Lemma dhcp_packet_build_wire_witness : ∃ m' rest,
  @dhcp_packet_build cclog_run sample_heap sample_message = Ret (0, m') ∧
  packet_encode (m_packet m') =
    wire_format sample_message (encode_all sample_options ++ DHCP_OPTION_END :: rest).
Proof.
  destruct (@dhcp_packet_build_wire cclog_run sample_heap sample_message 1 sample_options)
    as (m' & rest & H & Hw & _); [exact sample_message_wf | reflexivity | reflexivity | reflexivity |
      exact sample_ok | by vm_compute |].
  exists m', rest. split; [exact H | exact Hw].
Defined.

Lemma dhcp_packet_roundtrip_witness : ∃ m',
  @dhcp_packet_build cclog_run sample_heap sample_message = Ret (0, m') ∧
  ∃ r' hr', @dhcp_packet_parse cclog_run receiver_heap
    (with_packet receiver (packet_decode (packet_encode (m_packet m')))) = Ret (0, r', hr') ∧
  m_xid r' = 3735928559 ∧ m_type r' = DHCP_DISCOVER.
Proof.
  destruct (@dhcp_packet_roundtrip cclog_run sample_heap sample_message 1 sample_options
    (message_type_option DHCP_DISCOVER) receiver_heap receiver 1 [])
    as (m' & H & r' & hr' & p & Hr & (_ & _ & _ & _ & Hx & _) & _ & _ & Ht);
    [exact sample_message_wf | reflexivity | reflexivity | reflexivity |
     exact sample_ok | exact sample_canonical | by_decision | by vm_compute | reflexivity |
     reflexivity | reflexivity | reflexivity |].
  exists m'. split; [exact H|]. exists r', hr'. split; [exact Hr|]. split; [exact Hx | exact Ht].
Defined.

(** A packet with the cookie and the sample option area. *)
Definition received : dhcp_message :=
  with_packet receiver (with_cookie packet_zero (htonl MAGIC_COOKIE) sample_area).

Definition parse_received : Z * dhcp_message * option_heap :=
  match @dhcp_packet_parse cclog_run receiver_heap received with
  | Ret r => r
  | _ => (-1, received, receiver_heap)
  end.

Lemma parse_received_eq : @dhcp_packet_parse cclog_run receiver_heap received =
  Ret (0, parse_received.1.2, parse_received.2).
Proof. vm_compute. reflexivity. Qed.

Lemma dhcp_packet_parse_spec_witness : ∃ p' os,
  m_dhcp_options parse_received.1.2 = Some p' ∧ load_options parse_received.2 p' = Ret os ∧
  list_wf os.
Proof.
  destruct (@dhcp_packet_parse_spec cclog_run receiver_heap received 1 0 parse_received.1.2
    parse_received.2) as [_ H]; [reflexivity | by_decision | exact parse_received_eq |].
  destruct H as (p' & os & Hp & _ & Hl & Hw & _); [reflexivity|].
  exists p', os. split; [exact Hp|]. split; [exact Hl | exact Hw].
Defined.

Lemma dhcp_packet_parse_dangles_witness :
  retrieve_option parse_received.2 (m_dhcp_options received) 61 = Undef UseAfterFree.
Proof.
  apply (@dhcp_packet_parse_dangles cclog_run receiver_heap received 1 0 parse_received.1.2
    parse_received.2); [reflexivity | reflexivity | exact parse_received_eq].
Defined.
