(* ===== verification/Database.v ===== *)
(** The packet database, [database.c]: every message that was received or sent
    is appended to a file named after its transaction and its client, as 128
    bytes of text and the raw packet.  [Archive] and [Inspect] read these
    files back. *)
From Stdlib Require Import Ascii String.
From S2P Require Import Prelude Bytes Xtoy Scanf Files Rfc Options Packet.
Local Open Scope Z_scope.

(** ** [database_store_message] *)
Definition METADATA_LEN : Z := 128.

Definition database_dir : string := "/var/dhcp/database/".

(** [DB_FILE_PATH_FORMAT] *)
Definition database_name (xid : Z) (mac : list Z) : string :=
  (print_08x xid ++ "_" ++ print_hex mac ++ ".dhcp")%string.
Definition database_file (xid : Z) (mac : list Z) : string :=
  (database_dir ++ database_name xid mac)%string.

Definition database_path (m : dhcp_message) : result string :=
  mac ← slice (m_chaddr m) 0 6; mret (database_file (m_xid m) mac).

(** [METADATA_FORMAT]; the text is shorter than the buffer. *)
Definition metadata (now : Z) (m : dhcp_message) : result string :=
  mac ← slice (m_chaddr m) 0 6;
  mret ("T:" ++ print_08x now ++ "CA:" ++ print_hex mac ++ "P:")%string.

(** The buffer [buff]: the text and zeros. *)
Definition metadata_buffer (text : string) : string :=
  (text ++ str_zeros (Z.to_nat METADATA_LEN - String.length text))%string.

Section Database.
Context `{CC : !Cclog}.

(** When the second write fails the result of the first is returned. *)
Definition database_store_message (now : Z) (message : dhcp_message) : prog env Z :=
  path ← lift (database_path message);
  fd ← sys_create path;
  match fd with
  | Opened path _ =>
      text ← lift (metadata now message);
      rv ← sys_append path (metadata_buffer text);
      if if_failed_n rv then mret rv
      else
        w ← sys_append path (bytes_string (packet_encode (m_packet message)));
        if if_failed_n w then mret rv else mret 0
  | _ => mret (-1)
  end.

(** ** Specification *)

(** The paths of the packet database. *)
Definition in_database (path : string) : Prop := str_take 19 path = database_dir.

(** The other files are as before, and a schedule without faults stays one. *)
Definition outside_database (e e' : env) : Prop :=
  (e_faults e = [] → e_faults e' = []) ∧
  ∀ path, ¬ in_database path → e_files e' !! path = e_files e !! path.

(** What one message adds to its file. *)
Definition record_of (text : string) (m : dhcp_message) : string :=
  (metadata_buffer text ++ bytes_string (packet_encode (m_packet m)))%string.

(** What storing a message leaves: with no failing system call its record, with the
    time of the call, stands at the end of the file of its transaction and client,
    and no other file changed. *)
Definition recorded (now : Z) (m : dhcp_message) (e e' : env) : Prop :=
  outside_database e e' ∧
  (e_faults e = [] → ∃ path text, database_path m = Ret path ∧ metadata now m = Ret text ∧
     e' = Env (<[path := (default "" (e_files e !! path) ++ record_of text m)%string]> (e_files e)) []).

Lemma outside_refl e : outside_database e e.
Proof. done. Qed.

Lemma path_in_database m path : database_path m = Ret path → in_database path.
Proof. unfold database_path. intros H. inv_run. reflexivity. Qed.

Lemma database_names m now : 6 ≤ zlen (m_chaddr m) → ∃ path text,
  database_path m = Ret path ∧ metadata now m = Ret text ∧ in_database path.
Proof.
  intros Hl. unfold database_path, metadata. rewrite slice_prefix by lia. cbn [mbind result_bind].
  eexists _, _. split; [reflexivity|]. split; [reflexivity|]. reflexivity.
Qed.

(** Storing a message only touches the database, whatever fails. *)
Lemma database_store_run now m e : 6 ≤ zlen (m_chaddr m) →
  ∃ rv e', database_store_message now m e = Ret (rv, e') ∧ outside_database e e'.
Proof.
  intros Hl. destruct (database_names m now Hl) as (path & text & Hp & Ht & Hin).
  unfold database_store_message. rewrite prog_bind_eq. unfold lift at 1. rewrite Hp. cbv beta iota.
  assert (Hout : ∀ files' fs, (e_faults e = [] → fs = []) →
    (∀ p, p ≠ path → files' !! p = e_files e !! p) → outside_database e (Env files' fs)).
  { intros files' fs Hf H. split; [exact Hf|]. intros p Hn. apply H. by intros ->. }
  assert (Hw : ∀ files1 fs text', (e_faults e = [] → fs = []) →
    (∀ p, p ≠ path → files1 !! p = e_files e !! p) →
    ∃ rv e', (rv ← sys_append path (metadata_buffer text');
      if if_failed_n rv then mret rv
      else w ← sys_append path (bytes_string (packet_encode (m_packet m)));
           if if_failed_n w then mret rv else mret 0) (Env files1 fs) = Ret (rv, e') ∧
      outside_database e e').
  { intros files1 fs text' Hf H1. unfold sys_append, mbind, prog_bind, get_state, put_state.
    assert (Hf1 : e_faults e = [] → tail fs = []) by (intros E; by rewrite (Hf E)).
    assert (Hf2 : e_faults e = [] → tail (tail fs) = []) by (intros E; by rewrite (Hf E)).
    rewrite fails_eq. destruct (hd_fault fs); cbn -[bytes_string metadata_buffer tail];
      rewrite if_failed_n_spec; [eexists _, _; split; [reflexivity|by apply Hout]|].
    rewrite (proj2 (Z.ltb_ge _ _)) by lia. rewrite fails_eq.
    destruct (hd_fault _); cbn -[bytes_string metadata_buffer tail]; rewrite if_failed_n_spec;
      rewrite ?(proj2 (Z.ltb_ge _ _)) by lia; eexists _, _; (split; [reflexivity|]);
      (apply Hout; [exact Hf2|]); intros p Hne; rewrite ?lookup_insert_ne by done; by apply H1. }
  rewrite prog_bind_eq. unfold sys_create, mbind, prog_bind, get_state, put_state.
  destruct e as [files fs]. assert (Hf1 : fs = [] → tail fs = []) by (by intros ->).
  rewrite fails_eq. destruct (hd_fault fs); cbn -[metadata_buffer bytes_string tail].
  { eexists _, _. split; [reflexivity | by apply Hout]. }
  destruct (files !! path) eqn:Ef; cbn -[metadata_buffer bytes_string sys_append tail];
    unfold lift; rewrite Ht; cbv beta iota; apply Hw; try done.
  intros p Hne. by rewrite lookup_insert_ne.
Qed.

Lemma database_store_message_spec_run now m files path text :
  database_path m = Ret path → metadata now m = Ret text →
  database_store_message now m (Env files []) =
    Ret (0, Env (<[path := (default "" (files !! path) ++ record_of text m)%string]> files) []).
Proof.
  intros Hp Ht. unfold database_store_message. rewrite prog_bind_eq. unfold lift at 1. rewrite Hp.
  cbv beta iota. rewrite prog_bind_eq. unfold sys_create, sys_append, contents, mbind, prog_bind,
    get_state, put_state, record_of, lift. cbn -[metadata_buffer bytes_string].
  destruct (files !! path) as [old|] eqn:Ef; cbn -[metadata_buffer bytes_string];
    rewrite Ht; cbn -[metadata_buffer bytes_string]; rewrite if_failed_n_spec,
    (proj2 (Z.ltb_ge _ _)) by lia; cbn -[metadata_buffer bytes_string]; rewrite if_failed_n_spec,
    (proj2 (Z.ltb_ge _ _)) by lia; unfold mret, prog_ret; rewrite ?lookup_insert_eq;
    cbn -[metadata_buffer bytes_string];
    rewrite ?lookup_insert_eq, ?insert_insert_eq; cbn -[metadata_buffer bytes_string]; rewrite ?Ef;
    cbn -[metadata_buffer bytes_string]; by rewrite ?string_app_assoc.
Qed.

Lemma database_store_recorded now m e : 6 ≤ zlen (m_chaddr m) →
  ∃ rv e', database_store_message now m e = Ret (rv, e') ∧ recorded now m e e'.
Proof.
  intros Hl. destruct (database_store_run now m e Hl) as (rv & e' & Hrun & Ho).
  exists rv, e'. split; [done|]. split; [done|]. intros Hf. destruct e as [files fs]. cbn in Hf. subst fs.
  destruct (database_names m now Hl) as (path & text & Hp & Ht & _). exists path, text.
  split; [done|]. split; [done|]. rewrite (database_store_message_spec_run now m files path text Hp Ht) in Hrun.
  by injection Hrun as _ <-.
Qed.

(** With no failing system call the record of the message is added at the end
    of the file of its transaction and client, and nothing else changes. *)
Theorem database_store_message_spec now m files path text :
  database_path m = Ret path → metadata now m = Ret text →
  database_store_message now m (Env files []) =
    Ret (0, Env (<[path := (default "" (files !! path) ++ record_of text m)%string]> files) []).
Proof. apply database_store_message_spec_run. Qed.
End Database.

Lemma database_store_message_spec_witness : ∃ path files',
  @database_store_message cclog_run 1000 sample_message (Env ∅ []) = Ret (0, Env files' []) ∧
  files' !! path = Some (record_of "T:000003e8CA:0242ac110002P:" sample_message).
Proof.
  eexists _, _. split.
  - apply (@database_store_message_spec cclog_run 1000 sample_message ∅
      "/var/dhcp/database/deadbeef_0242ac110002.dhcp" "T:000003e8CA:0242ac110002P:");
      vm_compute; reflexivity.
  - apply lookup_insert_eq.
Defined.
