(* ===== verification/Transaction.v ===== *)
(** Transactions, [transaction.c], and the transaction cache,
    [transaction_cache.c]: the messages that were exchanged under one
    transaction id, in a fixed number of slots, each with a timer that empties
    it.

    The cache copies a message with [memcpy], so a stored message shares the
    option list of the original.  A pointer to a transaction is its slot.  The
    server the expiry callback works on is seen through the interface
    [TransServer]. *)
From S2P Require Import Prelude Bytes Rfc Options Packet AddressPool Allocator Timer.

(** ** Data *)
Record transaction := Trans {
  t_begin : Z;
  t_xid : Z;
  t_num_of_messages : Z;
  t_messages : list dhcp_message;
  t_timer : timer;
}.

Notation transaction_cache := (list transaction).

(** ** [transaction.c] *)
Definition trans_clear (now : Z) (t : transaction) : transaction :=
  Trans 0 0 0 []
    (if ti_is_running (t_timer t) then timer_stop (timer_reset now (t_timer t)) else t_timer t).

Definition trans_new (now time : Z) : transaction :=
  trans_clear now
    (Trans 0 0 0 [] (timer_new now TIMER_ONCE time false (Some trans_timer_cb_clear_ptr))).

Definition trans_add (now : Z) (t : transaction) (m : dhcp_message) : Z * transaction :=
  if negb (t_xid t =? 0) && negb (t_xid t =? m_xid m) then (-1, t)
  else
    let t := if t_num_of_messages t =? 0
             then Trans (u32 now) (m_xid m) (t_num_of_messages t) (t_messages t) (t_timer t)
             else t in
    let t := Trans (t_begin t) (t_xid t) (u8 (t_num_of_messages t + 1)) (t_messages t ++ [m])
               (t_timer t) in
    let t := if t_num_of_messages t =? 1
             then Trans (t_begin t) (t_xid t) (t_num_of_messages t) (t_messages t)
                    (timer_start now (t_timer t))
             else t in
    (0, t).

(** [llist_get_index] of an empty list follows a NULL pointer for every index
    but 0. *)
Definition trans_get_index (t : option transaction) (index : Z) : result (option dhcp_message) :=
  match t with
  | None => mret None
  | Some t =>
      match t_messages t with
      | [] => if u8 index =? 0 then mret None else Undef NullDeref
      | ms => mret (ms !! Z.to_nat (u8 index))
      end
  end.

Fixpoint search_for (ms : list dhcp_message) (type : Z) : option dhcp_message :=
  match ms with
  | [] => None
  | m :: ms => if m_type m =? type then Some m else search_for ms type
  end.

Fixpoint search_for_last (ms : list dhcp_message) (type : Z) (last : option dhcp_message)
    : option dhcp_message :=
  match ms with
  | [] => last
  | m :: ms => search_for_last ms type (if m_type m =? type then Some m else last)
  end.

Definition trans_search_for (t : option transaction) (type : Z) : option dhcp_message :=
  t ← t; search_for (t_messages t) type.

Definition trans_search_for_last (t : option transaction) (type : Z) : option dhcp_message :=
  t ← t; search_for_last (t_messages t) type None.

(** ** [transaction_cache.c] *)
Definition trans_cache_new (now size time : Z) : transaction_cache :=
  replicate (Z.to_nat size) (trans_new now time).

Definition cache_get_next_transaction (cache : transaction_cache) : option (nat * transaction) :=
  list_find (λ t, ti_is_running (t_timer t) = false) cache.

Definition trans_cache_retrieve_transaction (cache : transaction_cache) (xid : Z)
    : option (nat * transaction) :=
  list_find (λ t, t_xid t = xid) cache.

(** The time stamp goes into the caller's message, which is returned. *)
Definition trans_cache_add_message (now : Z) (cache : transaction_cache) (message : dhcp_message)
    : Z * transaction_cache * dhcp_message :=
  let message := with_time message (u32 now) in
  match trans_cache_retrieve_transaction cache (m_xid message) with
  | Some (i, t) =>
      let '(rv, t) := trans_add now t message in (rv, <[i := t]> cache, message)
  | None =>
      match cache_get_next_transaction cache with
      | None => (-1, cache, message)
      | Some (i, t) =>
          let '(rv, t) := trans_add now (trans_clear now t) message in
          (rv, <[i := t]> cache, message)
      end
  end.

Definition trans_cache_retrieve_message (cache : transaction_cache) (xid type : Z)
    : option dhcp_message :=
  trans_search_for (snd <$> trans_cache_retrieve_transaction cache xid) type.

Definition trans_cache_retrieve_message_last (cache : transaction_cache) (xid type : Z)
    : option dhcp_message :=
  trans_search_for_last (snd <$> trans_cache_retrieve_transaction cache xid) type.

Definition trans_cache_retrieve_message_index (cache : transaction_cache) (xid index : Z)
    : result (option dhcp_message) :=
  trans_get_index (snd <$> trans_cache_retrieve_transaction cache xid) index.

Definition trans_cache_purge (now : Z) (cache : transaction_cache) : transaction_cache :=
  trans_clear now <$> cache.

(** ** Expiry *)

(** The part of the server the transactions work on. *)
Class TransServer (S : Type) := {
  srv_allocator : S → address_allocator;
  srv_cache : S → transaction_cache;
  srv_set_allocator : address_allocator → S → S;
  srv_set_cache : transaction_cache → S → S;
  srv_allocator_set s al : srv_allocator (srv_set_allocator al s) = al;
  srv_cache_set s c : srv_cache (srv_set_cache c s) = c;
  srv_allocator_set_cache s c : srv_allocator (srv_set_cache c s) = srv_allocator s;
  srv_cache_set_allocator s al : srv_cache (srv_set_allocator al s) = srv_cache s;
}.

Section Expiry.
Context `{CC : !Cclog} {S : Type} `{!TransServer S}.

(** [args->server->trans_cache->transactions[args->index]] *)
Definition get_transaction (index : nat) : prog S transaction :=
  c ← gets srv_cache;
  match c !! index with Some t => mret t | None => lift (Undef OutOfBounds) end.

Definition put_transaction (index : nat) (t : transaction) : prog S () :=
  modify (λ s, srv_set_cache (<[index := t]> (srv_cache s)) s).

Definition trans_timer_cb_clear (index : nat) (time : Z) : prog S Z :=
  trans ← get_transaction index;
  _ ← match trans_search_for (Some trans) DHCP_OFFER, trans_search_for (Some trans) DHCP_ACK with
      | Some offer, None =>
          al ← gets srv_allocator;
          '(_, al) ← lift (allocator_release_address al (m_yiaddr offer));
          modify (srv_set_allocator al)
      | _, _ => mret ()
      end;
  _ ← put_transaction index (trans_clear time trans);
  mret 0.

Definition trans_update_timer (now : Z) (index : nat) : prog S Z :=
  t ← get_transaction index;
  timer_update now (t_timer t)
    (λ timer, put_transaction index
       (Trans (t_begin t) (t_xid t) (t_num_of_messages t) (t_messages t) timer))
    (λ _, trans_timer_cb_clear index).
End Expiry.

(** ** Specification *)

(** A slot whose timer stands still is empty, the others hold the messages of
    their id in order; the count of messages is kept in a byte. *)
Definition trans_wf (t : transaction) : Prop :=
  t_num_of_messages t = u8 (zlen (t_messages t)) ∧
  Forall (λ m, m_xid m = t_xid t) (t_messages t) ∧
  ti_type (t_timer t) = TIMER_ONCE ∧ ti_cb (t_timer t) = Some trans_timer_cb_clear_ptr ∧
  (if ti_is_running (t_timer t) then t_messages t ≠ []
   else t_messages t = [] ∧ t_xid t = 0 ∧ t_begin t = 0).

(** No two slots hold the same id other than 0.  The code uses 0 as the mark of an
    empty slot and looks it up like any other id, so that a client that chooses
    the id 0 can come to hold two slots ([zero_id_two_slots]): for this id there
    is nothing that the operations keep. *)
Definition cache_wf (c : transaction_cache) : Prop :=
  Forall trans_wf c ∧
  ∀ i j t t', c !! i = Some t → c !! j = Some t' → t_xid t = t_xid t' → t_xid t ≠ 0 → i = j.

(** The messages that were exchanged under an id. *)
Definition messages_of (c : transaction_cache) (xid : Z) : list dhcp_message :=
  match trans_cache_retrieve_transaction c xid with
  | Some (_, t) => t_messages t
  | None => []
  end.

Definition has_transaction (c : transaction_cache) (xid : Z) : Prop :=
  ∃ t, t ∈ c ∧ t_xid t = xid.
Definition has_free_slot (c : transaction_cache) : Prop :=
  ∃ t, t ∈ c ∧ ti_is_running (t_timer t) = false.

(** ** Transactions *)
Lemma trans_clear_wf now t : ti_type (t_timer t) = TIMER_ONCE →
  ti_cb (t_timer t) = Some trans_timer_cb_clear_ptr → trans_wf (trans_clear now t).
Proof.
  intros Ht Hc. unfold trans_clear, trans_wf. simpl.
  destruct (ti_is_running (t_timer t)) eqn:E; simpl; rewrite ?E; by split_and?.
Qed.

Lemma trans_new_wf now time : trans_wf (trans_new now time).
Proof. by apply trans_clear_wf. Qed.

Lemma u8_succ n : u8 (u8 n + 1) = u8 (n + 1).
Proof. unfold u8. by rewrite Zplus_mod_idemp_l. Qed.

Lemma trans_add_spec now t m : trans_wf t → (t_xid t = 0 ∨ t_xid t = m_xid m) →
  (t_xid t = 0 → t_messages t = [] ∨ m_xid m = 0) →
  ∃ t', trans_add now t m = (0, t') ∧ trans_wf t' ∧ t_xid t' = m_xid m ∧
    t_messages t' = t_messages t ++ [m].
Proof.
  intros (Hn & Hms & Hty & Hcb & Hrun) Hx H0. unfold trans_add.
  assert (negb (t_xid t =? 0) && negb (t_xid t =? m_xid m) = false) as ->.
  { apply andb_false_iff. rewrite !negb_false_iff, !Z.eqb_eq. tauto. }
  eexists. split; [reflexivity|].
  set (t1 := if t_num_of_messages t =? 0 then _ else _).
  assert (H1 : t_num_of_messages t1 = t_num_of_messages t ∧ t_messages t1 = t_messages t ∧
    t_timer t1 = t_timer t ∧ t_xid t1 = m_xid m).
  { subst t1. destruct (Z.eqb_spec (t_num_of_messages t) 0) as [E|E]; [done|]. split_and?; try done.
    destruct Hx as [Hx|]; [|done]. rewrite Hx. destruct (H0 Hx) as [Hm|]; [|done].
    by rewrite Hn, Hm in E. }
  clearbody t1. destruct H1 as (H1n & H1m & H1t & H1x).
  assert (Hmsgs : Forall (λ m', m_xid m' = m_xid m) (t_messages t ++ [m])).
  { apply Forall_app. split; [|by constructor]. destruct Hx as [Hx|Hx]; [|by rewrite <-Hx].
    destruct (H0 Hx) as [->|E]; [constructor | by rewrite E, <-Hx]. }
  assert (Hne : t_messages t ++ [m] ≠ []) by (by destruct (t_messages t)).
  assert (Hnum : u8 (t_num_of_messages t1 + 1) = u8 (zlen (t_messages t ++ [m]))).
  { rewrite H1n, Hn, u8_succ, zlen_app. done. }
  cbn [t_num_of_messages].
  destruct (Z.eqb_spec (u8 (t_num_of_messages t1 + 1)) 1) as [E|E]; unfold trans_wf, timer_start;
    cbn [t_num_of_messages t_messages t_xid t_timer t_begin ti_type ti_cb ti_is_running];
    rewrite H1m, H1x, H1t, Hnum.
  - by split_and?.
  - split_and?; try done. destruct (ti_is_running (t_timer t)); [done|].
    destruct Hrun as (Hm & _). rewrite H1n, Hn, Hm in E. by destruct E.
Qed.

(** ** Slots *)
Lemma cache_retrieve_Some c x i t : trans_cache_retrieve_transaction c x = Some (i, t) →
  c !! i = Some t ∧ t_xid t = x.
Proof. intros (? & ? & _)%list_find_Some. done. Qed.

Lemma cache_retrieve_None c x : trans_cache_retrieve_transaction c x = None → ¬ has_transaction c x.
Proof.
  intros H (t & Ht & Hx). apply list_find_None in H. rewrite Forall_forall in H. by eapply H.
Qed.

Lemma retrieve_wf c x i t : cache_wf c → x ≠ 0 → c !! i = Some t → t_xid t = x →
  trans_cache_retrieve_transaction c x = Some (i, t).
Proof.
  intros [_ Hd] Hx Hi Ht. destruct (trans_cache_retrieve_transaction c x) as [[j t']|] eqn:E.
  - apply cache_retrieve_Some in E as [Hj Ht']. assert (j = i) as -> by (eapply (Hd j i t' t); congruence).
    congruence.
  - apply cache_retrieve_None in E. destruct E. exists t. split; [by eapply list_elem_of_lookup_2 | done].
Qed.

(** The messages of every id after slot [i] was replaced. *)
Lemma messages_of_insert c i t t' x :
  cache_wf c → cache_wf (<[i := t']> c) → c !! i = Some t → x ≠ 0 →
  (t_xid t = 0 ∨ t_xid t = t_xid t') →
  messages_of (<[i := t']> c) x = if decide (x = t_xid t') then t_messages t' else messages_of c x.
Proof.
  intros Hw Hw' Hi Hx Ht. pose proof (lookup_lt_Some _ _ _ Hi) as Hlt.
  assert (Hself : <[i := t']> c !! i = Some t') by by apply list_lookup_insert_eq.
  destruct (decide (x = t_xid t')) as [->|Hne].
  - unfold messages_of. by rewrite (retrieve_wf _ _ i t').
  - unfold messages_of. destruct (trans_cache_retrieve_transaction c x) as [[j u]|] eqn:E.
    + apply cache_retrieve_Some in E as [Hj Hu]. assert (j ≠ i) by (intros ->; simplify_eq; naive_solver).
      rewrite (retrieve_wf _ _ j u); [done..| |done]. by rewrite list_lookup_insert_ne.
    + apply cache_retrieve_None in E.
      destruct (trans_cache_retrieve_transaction (<[i := t']> c) x) as [[j u]|] eqn:E'; [|done].
      apply cache_retrieve_Some in E' as [Hj Hu]. destruct E.
      destruct (decide (j = i)) as [->|Hne']; [rewrite Hself in Hj; simplify_eq|].
      rewrite list_lookup_insert_ne in Hj by done. exists u. split; [|done].
      by eapply list_elem_of_lookup_2.
Qed.

(** Replacing the transaction of an id, or an empty one. *)
Lemma replace_cache_wf c i t t' : cache_wf c → c !! i = Some t → trans_wf t' →
  (∀ j u, j ≠ i → c !! j = Some u → t_xid u = t_xid t' → t_xid t' = 0) →
  cache_wf (<[i := t']> c).
Proof.
  intros [Hf Hd] Hi Ht Hu. split; [by apply Forall_insert|].
  intros j k u v Hj Hk Huv Hnz.
  apply list_lookup_insert_Some in Hj as [(<- & <- & _)|[Hij Hj]],
    Hk as [(<- & <- & _)|[Hik Hk]]; [done | | | by eapply Hd].
  - destruct Hnz. eapply Hu; [|exact Hk|done]; congruence.
  - destruct Hnz. rewrite Huv. eapply Hu; [|exact Hj|done]; congruence.
Qed.

Lemma trans_cache_add_correct now c m : cache_wf c → m_xid m ≠ 0 →
  ∃ rv c', trans_cache_add_message now c m = (rv, c', with_time m (u32 now)) ∧
    cache_wf c' ∧ length c' = length c ∧
    ((rv = 0 ∧ (has_transaction c (m_xid m) ∨ has_free_slot c) ∧
      ∀ x, x ≠ 0 → messages_of c' x =
        if decide (x = m_xid m) then messages_of c x ++ [with_time m (u32 now)] else messages_of c x)
     ∨ (rv = -1 ∧ c' = c ∧ ¬ has_transaction c (m_xid m) ∧ ¬ has_free_slot c)).
Proof.
  intros Hw Hx. unfold trans_cache_add_message. set (m' := with_time m (u32 now)).
  change (m_xid m') with (m_xid m).
  destruct (trans_cache_retrieve_transaction c (m_xid m)) as [[i t]|] eqn:E.
  - pose proof E as Er. apply cache_retrieve_Some in E as [Hi Ht].
    assert (Htw : trans_wf t) by (by eapply (proj1 (Forall_lookup _ _) (proj1 Hw))).
    destruct (trans_add_spec now t m' Htw) as (t' & -> & Hw' & Hx' & Hm'); [by right | by intros; congruence|].
    assert (Hc' : cache_wf (<[i := t']> c)).
    { eapply replace_cache_wf; [done..|]. intros j u Hji Hj Hu. destruct Hji.
      eapply (proj2 Hw j i u t); [done | done | |]; rewrite Hu, Hx'; [by rewrite Ht | done]. }
    eexists 0, _. split; [reflexivity|]. split; [done|]. split; [by rewrite length_insert|].
    left. split; [done|]. split; [left; exists t; split; [by eapply list_elem_of_lookup_2 | done]|].
    intros x Hxn. rewrite (messages_of_insert c i t t') by (try done; right; by rewrite Hx').
    rewrite Hx'. change (m_xid m') with (m_xid m). destruct (decide (x = m_xid m)) as [->|]; [|done].
    rewrite Hm'. unfold messages_of. by rewrite Er.
  - apply cache_retrieve_None in E. unfold cache_get_next_transaction.
    destruct (list_find _ c) as [[i t]|] eqn:Ef.
    + apply list_find_Some in Ef as (Hi & Hstop & _).
      assert (Htw : trans_wf t) by (by eapply (proj1 (Forall_lookup _ _) (proj1 Hw))).
      destruct (trans_add_spec now (trans_clear now t) m') as (t' & -> & Hw' & Hx' & Hm');
        [apply trans_clear_wf; apply Htw | by left | by left |].
      assert (Hc' : cache_wf (<[i := t']> c)).
      { eapply replace_cache_wf; [done..|]. intros j u Hji Hj Hu. destruct E. exists u.
        split; [by eapply list_elem_of_lookup_2 | by rewrite Hu, Hx']. }
      assert (Ht0 : t_xid t = 0) by (destruct Htw as (_ & _ & _ & _ & Hr); rewrite Hstop in Hr; tauto).
      eexists 0, _. split; [reflexivity|]. split; [done|]. split; [by rewrite length_insert|].
      left. split; [done|]. split; [right; exists t; split; [by eapply list_elem_of_lookup_2 | done]|].
      intros x Hxn. rewrite (messages_of_insert c i t t') by (try done; by left).
      rewrite Hx'. change (m_xid m') with (m_xid m). destruct (decide (x = m_xid m)) as [->|]; [|done].
      rewrite Hm'. simpl. unfold messages_of.
      destruct (trans_cache_retrieve_transaction c (m_xid m)) as [[j u]|] eqn:E2; [|done].
      apply cache_retrieve_Some in E2 as [Hj Hu]. destruct E. exists u.
      split; [by eapply list_elem_of_lookup_2 | done].
    + exists (-1), c. split; [done|]. split; [done|]. split; [done|]. right. split_and?; try done.
      intros (t & Ht & Hr). apply list_find_None in Ef. rewrite Forall_forall in Ef. by eapply Ef.
Qed.

(** The id 0 is found in the first slot that is empty or holds it. *)
Lemma messages_of_zero c i t t' : trans_cache_retrieve_transaction c 0 = Some (i, t) →
  t_xid t' = 0 → messages_of (<[i := t']> c) 0 = t_messages t'.
Proof.
  intros E Ht'. apply list_find_Some in E as (Hi & _ & Hfirst). unfold messages_of.
  assert (trans_cache_retrieve_transaction (<[i := t']> c) 0 = Some (i, t')) as ->; [|done].
  apply list_find_Some. split; [apply list_lookup_insert_eq; by eapply lookup_lt_Some|].
  split; [done|]. intros j u Hj Hji. rewrite list_lookup_insert_ne in Hj by lia. by eapply Hfirst.
Qed.

Lemma trans_cache_add_zero now c m : cache_wf c → m_xid m = 0 →
  ∃ rv c', trans_cache_add_message now c m = (rv, c', with_time m (u32 now)) ∧
    cache_wf c' ∧ length c' = length c ∧
    ((rv = 0 ∧ (has_transaction c 0 ∨ has_free_slot c) ∧
      ∀ x, messages_of c' x =
        if decide (x = 0) then messages_of c x ++ [with_time m (u32 now)] else messages_of c x)
     ∨ (rv = -1 ∧ c' = c ∧ ¬ has_transaction c 0 ∧ ¬ has_free_slot c)).
Proof.
  intros Hw Hx. unfold trans_cache_add_message. set (m' := with_time m (u32 now)).
  assert (Hx0 : m_xid m' = 0) by done. rewrite Hx0.
  destruct (trans_cache_retrieve_transaction c 0) as [[i t]|] eqn:E.
  - pose proof E as Er. apply cache_retrieve_Some in E as [Hi Ht].
    assert (Htw : trans_wf t) by (by eapply (proj1 (Forall_lookup _ _) (proj1 Hw))).
    destruct (trans_add_spec now t m' Htw) as (t' & -> & Hw' & Hx' & Hm'); [by left | by right|].
    rewrite Hx0 in Hx'.
    assert (Hc' : cache_wf (<[i := t']> c)) by (eapply replace_cache_wf; naive_solver).
    eexists 0, _. split; [reflexivity|]. split; [done|]. split; [by rewrite length_insert|].
    left. split; [done|]. split; [left; exists t; split; [by eapply list_elem_of_lookup_2 | done]|].
    intros x. destruct (decide (x = 0)) as [->|Hn].
    + rewrite (messages_of_zero c i t t') by done. rewrite Hm'. unfold messages_of. by rewrite Er.
    + rewrite (messages_of_insert c i t t') by (try done; by left). by rewrite Hx', decide_False by done.
  - apply cache_retrieve_None in E. unfold cache_get_next_transaction.
    assert (Hnf : ¬ has_free_slot c).
    { intros (t & Ht & Hr). destruct E. exists t. split; [done|].
      destruct (proj1 (Forall_forall _ _) (proj1 Hw) t Ht) as (_ & _ & _ & _ & H). rewrite Hr in H. tauto. }
    destruct (list_find _ c) as [[i t]|] eqn:Ef.
    + apply list_find_Some in Ef as (Hi & Hstop & _). destruct Hnf. exists t.
      split; [by eapply list_elem_of_lookup_2 | done].
    + exists (-1), c. repeat (split; [done|]). by right.
Qed.

(** A message of any id. *)
Lemma trans_cache_add_any now c m : cache_wf c →
  ∃ rv c', trans_cache_add_message now c m = (rv, c', with_time m (u32 now)) ∧
    cache_wf c' ∧ length c' = length c ∧
    ((rv = 0 ∧ (has_transaction c (m_xid m) ∨ has_free_slot c) ∧
      ∀ x, x ≠ 0 ∨ m_xid m = 0 → messages_of c' x =
        if decide (x = m_xid m) then messages_of c x ++ [with_time m (u32 now)] else messages_of c x)
     ∨ (rv = -1 ∧ c' = c ∧ ¬ has_transaction c (m_xid m) ∧ ¬ has_free_slot c)).
Proof.
  intros Hw. destruct (decide (m_xid m = 0)) as [H0|Hn].
  - rewrite H0. destruct (trans_cache_add_zero now c m Hw H0) as (rv & c' & H & Hc & Hl & Hr).
    exists rv, c'. naive_solver.
  - destruct (trans_cache_add_correct now c m Hw Hn) as (rv & c' & H & Hc & Hl & Hr).
    exists rv, c'. naive_solver.
Qed.

(** ** Lookup *)
Lemma search_for_find ms type :
  search_for ms type = snd <$> list_find (λ m, m_type m = type) ms.
Proof.
  induction ms as [|m ms IH]; [done|]. simpl. destruct (Z.eqb_spec (m_type m) type) as [E|E].
  - by rewrite decide_True.
  - rewrite decide_False by done. rewrite IH. by destruct (list_find _ ms) as [[??]|].
Qed.

Lemma search_for_app ms m type o : search_for ms type = Some o → search_for (ms ++ [m]) type = Some o.
Proof.
  induction ms as [|y ms IH]; intros H; [done|]. cbn [search_for app] in *.
  destruct (m_type y =? type); [done | by apply IH].
Qed.

Lemma search_for_none ms type : (∀ m, m ∈ ms → m_type m ≠ type) → search_for ms type = None.
Proof.
  induction ms as [|y ms IH]; intros H; [done|]. cbn [search_for].
  rewrite (proj2 (Z.eqb_neq _ _)) by (apply H; left). apply IH. intros z Hz. apply H. by right.
Qed.

Lemma search_for_last_none ms type d :
  (∀ m, m ∈ ms → m_type m ≠ type) → search_for_last ms type d = d.
Proof.
  induction ms as [|y ms IH]; intros H; [done|]. cbn [search_for_last].
  rewrite (proj2 (Z.eqb_neq _ _)) by (apply H; left). apply IH. intros z Hz. apply H. by right.
Qed.

Lemma search_for_last_app ms type d m :
  search_for_last (ms ++ [m]) type d = if m_type m =? type then Some m else search_for_last ms type d.
Proof. revert d. induction ms as [|m' ms IH]; intros d; simpl; [done|]. apply IH. Qed.

Lemma search_for_last_rev ms type d :
  search_for_last ms type d = match search_for (rev ms) type with Some m => Some m | None => d end.
Proof.
  induction ms as [|m ms IH] using rev_ind; [done|].
  rewrite search_for_last_app, rev_app_distr. simpl. by destruct (m_type m =? type).
Qed.

Lemma retrieve_message_of c xid type :
  trans_cache_retrieve_message c xid type = search_for (messages_of c xid) type.
Proof.
  unfold trans_cache_retrieve_message, messages_of, trans_search_for.
  by destruct (trans_cache_retrieve_transaction c xid) as [[??]|].
Qed.

(** ** Theorems *)

(** C18. [trans_cache_add_message] appends the message, stamped with the time,
    to the messages of its transaction id and changes those of no other id.
    It fails exactly when the id is new and no slot is free, and then leaves
    the cache alone; no id other than 0 ever gets a second slot.  The id 0 is the
    mark of an empty slot: its messages go to the first slot that is empty or
    holds it, and what is found under the id 0 after another id took a slot is
    not stated ([zero_id_two_slots] shows what may happen). *)
Theorem trans_cache_add_message_spec now c m : cache_wf c →
  ∃ rv c', trans_cache_add_message now c m = (rv, c', with_time m (u32 now)) ∧
    cache_wf c' ∧ length c' = length c ∧
    ((rv = 0 ∧ (has_transaction c (m_xid m) ∨ has_free_slot c) ∧
      ∀ x, x ≠ 0 ∨ m_xid m = 0 → messages_of c' x =
        if decide (x = m_xid m) then messages_of c x ++ [with_time m (u32 now)] else messages_of c x)
     ∨ (rv = -1 ∧ c' = c ∧ ¬ has_transaction c (m_xid m) ∧ ¬ has_free_slot c)).
Proof. apply trans_cache_add_any. Qed.

(** Retrieval: after a message was added, the first message of a type
    under its id is the one there was, else the new one if it has the type;
    the last one is the new one if it has the type, else the one there was. *)
Theorem trans_cache_retrieve_added now c m c' m' type :
  cache_wf c → m_xid m ≠ 0 → trans_cache_add_message now c m = (0, c', m') →
  trans_cache_retrieve_message c' (m_xid m) type =
    (match trans_cache_retrieve_message c (m_xid m) type with
     | Some f => Some f
     | None => if m_type m =? type then Some m' else None
     end) ∧
  trans_cache_retrieve_message_last c' (m_xid m) type =
    (if m_type m =? type then Some m'
     else trans_cache_retrieve_message_last c (m_xid m) type).
Proof.
  intros Hw Hx H. destruct (trans_cache_add_correct now c m Hw Hx) as (rv & c1 & H1 & _ & _ & Hr).
  rewrite H in H1. injection H1 as <- <- ->.
  destruct Hr as [(_ & _ & Hm)|(? & _)]; [|done]. specialize (Hm (m_xid m) Hx).
  rewrite decide_True in Hm by done. set (m' := with_time m (u32 now)) in *. split.
  - rewrite !retrieve_message_of, Hm. clear Hm. induction (messages_of c (m_xid m)) as [|f ms IH]; [done|].
    simpl. destruct (m_type f =? type); [done | exact IH].
  - assert (Hl : ∀ c, trans_cache_retrieve_message_last c (m_xid m) type =
                      search_for_last (messages_of c (m_xid m)) type None).
    { intros c0. unfold trans_cache_retrieve_message_last, messages_of, trans_search_for_last.
      by destruct (trans_cache_retrieve_transaction c0 (m_xid m)) as [[??]|]. }
    by rewrite !Hl, Hm, search_for_last_app.
Qed.

Section ExpiryTheorems.
Context `{CC : !Cclog} {S : Type} `{!TransServer S}.

Lemma get_transaction_eq (s : S) i t : srv_cache s !! i = Some t →
  get_transaction i s = Ret (t, s).
Proof. intros Hi. unfold get_transaction. rewrite bind_gets, Hi. reflexivity. Qed.

(** The transaction of an offer that was not acknowledged. *)
Definition abandoned (t : transaction) : option Z :=
  match search_for (t_messages t) DHCP_OFFER, search_for (t_messages t) DHCP_ACK with
  | Some offer, None => Some (m_yiaddr offer)
  | _, _ => None
  end.

Lemma release_difference al a : allocator_wf al → ∃ rv al',
  allocator_release_address al a = Ret (rv, al') ∧ allocator_wf al' ∧ same_configuration al al' ∧
  in_use al' = in_use al ∖ {[a]}.
Proof.
  intros Hw. destruct (release_correct al a Hw) as (rv & al' & H & Hs & Hw' & Ho).
  exists rv, al'. split; [done|]. split; [done|]. split; [done|]. unfold release_spec in Hs.
  destruct (bool_decide_reflect (covered al a)) as [Hc|Hc]; cbn [negb] in Hs.
  - destruct (decide (a ∈ in_use al)); injection Hs as -> ->; set_solver.
  - injection Hs as -> ->. assert (a ∉ in_use al); [|set_solver].
    intros (i & p & Hi & Ha)%elem_of_in_use. apply Hc.
    by eapply covered_pool, leased_belongs.
Qed.

(** The callback as two assignments: the allocator, then the slot. *)
Lemma clear_run (s : S) i t time : srv_cache s !! i = Some t → allocator_wf (srv_allocator s) →
  ∃ s1, trans_timer_cb_clear i time s =
      Ret (0, srv_set_cache (<[i := trans_clear time t]> (srv_cache s1)) s1) ∧
    (s1 = s ∨ ∃ al', s1 = srv_set_allocator al' s ∧ same_configuration (srv_allocator s) al') ∧
    allocator_wf (srv_allocator s1) ∧
    in_use (srv_allocator s1) =
      in_use (srv_allocator s) ∖ (match abandoned t with Some a => {[a]} | None => ∅ end).
Proof.
  intros Hi Hw. unfold trans_timer_cb_clear. rewrite prog_bind_eq, (get_transaction_eq s i t Hi).
  cbv beta iota. unfold abandoned, trans_search_for. cbn [mbind option_bind].
  destruct (release_difference (srv_allocator s)
    (match search_for (t_messages t) DHCP_OFFER with Some o => m_yiaddr o | None => 0 end) Hw)
    as (rv & al' & Hr & Hw' & Ho & Hu).
  destruct (search_for (t_messages t) DHCP_OFFER) as [offer|];
    [destruct (search_for (t_messages t) DHCP_ACK) as [ack|]|].
  1, 3: (exists s; split; [reflexivity|]; split; [by left|]; split; [done | set_solver]).
  exists (srv_set_allocator al' s). rewrite srv_allocator_set.
  split; [|split; [right; by exists al' | done]].
  rewrite bind_assoc, bind_gets, bind_assoc, prog_bind_eq. unfold lift. rewrite Hr. reflexivity.
Qed.

Lemma clear_callback (s : S) i t time : srv_cache s !! i = Some t → allocator_wf (srv_allocator s) →
  ∃ s', trans_timer_cb_clear i time s = Ret (0, s') ∧
    srv_cache s' = <[i := trans_clear time t]> (srv_cache s) ∧ allocator_wf (srv_allocator s') ∧
    in_use (srv_allocator s') =
      in_use (srv_allocator s) ∖ (match abandoned t with Some a => {[a]} | None => ∅ end).
Proof.
  intros Hi Hw. destruct (clear_run s i t time Hi Hw) as (s1 & -> & Hs1 & Hw1 & Hu1).
  eexists. split; [reflexivity|]. rewrite srv_cache_set, srv_allocator_set_cache.
  split_and?; try done. by destruct Hs1 as [->|(al' & -> & _)]; rewrite ?srv_cache_set_allocator.
Qed.

(** A slot can be replaced by one with the same id or none. *)
Lemma keep_slot_wf c i t t' : cache_wf c → c !! i = Some t → trans_wf t' →
  t_xid t' = t_xid t ∨ t_xid t' = 0 → cache_wf (<[i := t']> c).
Proof.
  intros Hc Hi Hw' Hx. eapply replace_cache_wf; [done..|]. intros j u Hji Hj Hu.
  destruct Hx as [Hx|]; [|done]. destruct (decide (t_xid t = 0)) as [|Hnz]; [congruence|].
  destruct Hji. by eapply (proj2 Hc j i u t); [done|done|congruence|congruence].
Qed.

(** C19. When the timer of a transaction runs out, its slot is emptied and
    stopped, and the address of an offer that was not acknowledged goes back
    to its pool; before that, an update keeps the transaction and the pools. *)
Theorem trans_update_timer_spec (s : S) i t now :
  srv_cache s !! i = Some t → cache_wf (srv_cache s) → timer_wf (t_timer t) →
  allocator_wf (srv_allocator s) → ti_is_running (t_timer t) = true → is_u32 now →
  ti_ltime (t_timer t) ≤ now →
  ∃ rv s' t', trans_update_timer now i s = Ret (rv, s') ∧
    srv_cache s' = <[i := t']> (srv_cache s) ∧ cache_wf (srv_cache s') ∧
    allocator_wf (srv_allocator s') ∧
    if decide (ti_ltime (t_timer t) < now ∧ ti_rtime (t_timer t) ≤ now - ti_ltime (t_timer t))
    then t_messages t' = [] ∧ t_xid t' = 0 ∧ ti_is_running (t_timer t') = false ∧
         in_use (srv_allocator s') =
           in_use (srv_allocator s) ∖ (match abandoned t with Some a => {[a]} | None => ∅ end)
    else t_messages t' = t_messages t ∧ t_xid t' = t_xid t ∧ srv_allocator s' = srv_allocator s.
Proof.
  intros Hi Hc Htw Hw Hr Hn Hle.
  assert (Ht : trans_wf t) by (by eapply (proj1 (Forall_lookup _ _) (proj1 Hc))).
  pose proof (lookup_lt_Some _ _ _ Hi) as Hlt.
  pose proof Ht as (Hnum & Hms & Hty & Hcb & Hrun). rewrite Hr in Hrun.
  assert (Hkeep : ∀ t', trans_wf t' → t_xid t' = t_xid t ∨ t_xid t' = 0 →
    cache_wf (<[i := t']> (srv_cache s))) by (intros t'; by apply keep_slot_wf).
  unfold trans_update_timer. rewrite prog_bind_eq, (get_transaction_eq s i t Hi). cbv beta iota.
  rewrite timer_update_running by done.
  destruct (decide (now = ti_ltime (t_timer t))) as [->|Hne].
  - destruct (decide (_ < _ ∧ _)) as [Hd|Hd]; [lia|]. exists TIMER_NOCB, s, t.
    rewrite list_insert_id by done. by split_and?.
  - destruct (decide (ti_rtime (t_timer t) ≤ now - ti_ltime (t_timer t))) as [Hexp|Hexp].
    + destruct (decide (_ < _ ∧ _)) as [Hd|Hd]; [|lia]. rewrite Hcb.
      set (t1 := Trans (t_begin t) (t_xid t) (t_num_of_messages t) (t_messages t)
                   (expired (t_timer t) now)).
      set (s1 := srv_set_cache (<[i := t1]> (srv_cache s)) s).
      destruct (clear_callback s1 i t1 now) as (s' & Hs' & Hc' & Hw' & Hu').
      { subst s1. rewrite srv_cache_set. by apply list_lookup_insert_eq. }
      { subst s1. by rewrite srv_allocator_set_cache. }
      exists 0, s', (trans_clear now t1). split; [exact Hs'|].
      subst s1. rewrite srv_cache_set, list_insert_insert_eq in Hc'.
      rewrite srv_allocator_set_cache in Hu'. split; [done|].
      split; [rewrite Hc'; apply Hkeep; [apply trans_clear_wf; done | by right]|].
      split; [done|]. split_and?; try done. subst t1. unfold trans_clear, expired. simpl.
      by rewrite Hty.
    + destruct (decide (_ < _ ∧ _)) as [Hd|Hd]; [lia|].
      eexists TIMER_NOCB, _, (Trans (t_begin t) (t_xid t) (t_num_of_messages t) (t_messages t)
                               (ticked (t_timer t) now)).
      split; [reflexivity|]. rewrite srv_cache_set, srv_allocator_set_cache. split_and?; try done.
      apply Hkeep; [|by left]. unfold trans_wf, ticked.
      cbn [t_num_of_messages t_messages t_xid t_timer t_begin ti_type ti_cb ti_is_running].
      rewrite Hr. by split_and?.
Qed.
End ExpiryTheorems.

(** The cache stays well formed whatever message is added, id 0 included. *)
Lemma trans_cache_add_wf now c m : cache_wf c → cache_wf (trans_cache_add_message now c m).1.2.
Proof.
  intros Hc. by destruct (trans_cache_add_any now c m Hc) as (rv & c' & -> & ? & _).
Qed.

Lemma trans_cache_new_wf now size time : cache_wf (trans_cache_new now size time).
Proof.
  unfold trans_cache_new. split; [apply Forall_replicate, trans_new_wf|].
  intros i j t t' Hi _ _ Hx. apply lookup_replicate in Hi as [-> _]. done.
Qed.

(** ** Witnesses: two slots of 60 seconds *)
Definition sample_cache : transaction_cache := trans_cache_new 1000 2 60.

Definition sample_added : transaction_cache := (trans_cache_add_message 1000 sample_cache sample_message).1.2.

Lemma sample_added_eq : trans_cache_add_message 1000 sample_cache sample_message =
  (0, sample_added, with_time sample_message 1000).
Proof. vm_compute. reflexivity. Qed.

Lemma trans_cache_add_message_spec_witness :
  cache_wf sample_added ∧ messages_of sample_added 3735928559 = [with_time sample_message 1000].
Proof.
  destruct (trans_cache_add_message_spec 1000 sample_cache sample_message)
    as (rv & c' & H & Hw & _ & Hr); [apply trans_cache_new_wf|].
  rewrite sample_added_eq in H. injection H as <- <-. split; [exact Hw|].
  destruct Hr as [(_ & _ & Hm)|[H _]]; [|discriminate H].
  rewrite (Hm 3735928559) by (left; discriminate). vm_compute. reflexivity.
Defined.

(** Two slots under the id 0: the messages of the ids 5 and 0 take the two slots,
    the timer of the first runs out, and the next message of the id 0 is put
    into the slot that was emptied, apart from the message before it. *)
Definition with_id (x : Z) : dhcp_message := let m := sample_message in
  Message (m_packet m) (m_type m) (m_opcode m) (m_htype m) (m_hlen m) (m_hops m) x
    (m_secs m) (m_flags m) (m_ciaddr m) (m_yiaddr m) (m_siaddr m) (m_giaddr m) (m_chaddr m)
    (m_sname m) (m_filename m) (m_cookie m) (m_dhcp_options m) (m_time m).

Theorem zero_id_two_slots :
  let add x c := (trans_cache_add_message 1000 c (with_id x)).1.2 in
  let clear c := alter (trans_clear 1000) 0%nat c in
  (λ t, (ti_is_running (t_timer t), t_xid t, length (t_messages t))) <$>
    add 0 (clear (add 0 (add 5 sample_cache))) = [(true, 0, 1%nat); (true, 0, 1%nat)].
Proof. vm_compute. reflexivity. Qed.

Lemma trans_cache_retrieve_added_witness :
  trans_cache_retrieve_message sample_added 3735928559 DHCP_DISCOVER =
    Some (with_time sample_message 1000) ∧
  trans_cache_retrieve_message sample_added 3735928559 DHCP_OFFER = None.
Proof.
  pose proof (trans_cache_retrieve_added 1000 sample_cache sample_message sample_added
    (with_time sample_message 1000) DHCP_DISCOVER (trans_cache_new_wf 1000 2 60)
    ltac:(discriminate) sample_added_eq) as [H _].
  split; [exact H | vm_compute; reflexivity].
Defined.

#[export] Instance pair_server : TransServer (address_allocator * transaction_cache) := {|
  srv_allocator := fst;
  srv_cache := snd;
  srv_set_allocator al s := (al, snd s);
  srv_set_cache c s := (fst s, c);
  srv_allocator_set s al := eq_refl;
  srv_cache_set s c := eq_refl;
  srv_allocator_set_cache s c := eq_refl;
  srv_cache_set_allocator s al := eq_refl;
|}.

Lemma sample_added_wf : cache_wf sample_added.
Proof.
  destruct (trans_cache_add_correct 1000 sample_cache sample_message (trans_cache_new_wf 1000 2 60)
    ltac:(discriminate)) as (rv & c' & H & Hw & _).
  rewrite sample_added_eq in H. injection H as _ <-. exact Hw.
Qed.

Definition sample_transaction : transaction :=
  Trans 1000 3735928559 1 [with_time sample_message 1000]
    (Timer TIMER_ONCE 60 60 true 1000 (Some trans_timer_cb_clear_ptr)).

Lemma trans_update_timer_spec_witness : ∃ s',
  @trans_update_timer cclog_run _ pair_server 1060 0 (sample_allocator, sample_added) = Ret (0, s') ∧
  cache_wf (snd s') ∧ has_free_slot (snd s').
Proof.
  destruct (@trans_update_timer_spec cclog_run _ pair_server (sample_allocator, sample_added) 0
    sample_transaction 1060) as (rv & s' & t' & H & Hc & Hw & _ & Hd).
  - vm_compute. reflexivity.
  - exact sample_added_wf.
  - split_and!; by_decision.
  - apply sample_allocator_ok.
  - reflexivity.
  - by_decision.
  - by_decision.
  - destruct (decide _) as [_|Hn]; [|destruct Hn; by_decision]. exists s'.
    assert (rv = 0) as ->.
    { assert (E : ∃ q, @trans_update_timer cclog_run _ pair_server 1060 0
        (sample_allocator, sample_added) = Ret (0, q)) by (eexists; vm_compute; reflexivity).
      destruct E as [q E]. rewrite E in H. by injection H. }
    split; [exact H|]. split; [exact Hw|]. exists t'. split; [|tauto].
    cbn [srv_cache pair_server] in Hc. rewrite Hc.
    eapply list_elem_of_lookup_2, list_lookup_insert_eq. vm_compute. lia.
Defined.
