(* ===== verification/Acl.v ===== *)
(** Access control, [security/acl.c] and [security/dynamic_acl.c]: the list of
    hardware addresses that are served or refused, and the list a client is
    put on when it takes up half of the transaction cache.. *)
From Stdlib Require Import Ascii String.
From S2P Require Import Prelude Bytes Xtoy Json Files Rfc Options Packet AddressPool Allocator Timer Transaction.
Local Open Scope Z_scope.

(** ** Data: [enum ACL_status] and [struct acces_control_list] *)
Definition ACL_ERROR : Z := -1.
Definition ACL_OK : Z := 0.
Definition ACL_ALLOW : Z := 1.
Definition ACL_DENY : Z := 2.

Record ACL := Acl {
  acl_entries : list string;
  acl_enabled : bool;
  acl_is_blacklist : bool;
}.

Definition ACL_new : ACL := Acl [] false false.

(** ** Entries of the configuration *)

Definition is_string_valid_mac (s : string) : bool :=
  all_chars (λ c, isdigit c || ((65 <=? toupper c) && (toupper c <=? 70)) || (code c =? 58)) s &&
  (String.length s =? 17)%nat.

(** The loop of [ACL_load_acl_entries] over the array, [None] for an item that
    is not a string: it stops at the first bad entry and keeps the ones
    before. *)
Fixpoint load_entries (config : list (option string)) (entries : list string) : Z * list string :=
  match config with
  | [] => (ACL_OK, entries)
  | None :: _ => (ACL_ERROR, entries)
  | Some s :: config =>
      if negb (is_string_valid_mac s) then (ACL_ERROR, entries)
      else load_entries config (entries ++ [map_chars tolower s])
  end.

Section Load.
Context `{CJ : !Cjson}.

Definition load_config_file (path : string) : prog env (option json) :=
  config ← read_file path;
  mret (config ≫= cJSON_Parse).

(** Without a file, or without the array in it, the list stays as it is and
    the status is [ACL_OK]. *)
Definition ACL_load_acl_entries (acl : ACL) (path : string) : prog env (Z * ACL) :=
  config ← load_config_file path;
  match (c ← config; s ← cJSON_GetObjectItem c "security"; cJSON_GetObjectItem s "acl_entries") with
  | None => mret (ACL_OK, acl)
  | Some config_acl_entries =>
      let '(rv, entries) := load_entries (cJSON_GetStringValue <$> cJSON_children config_acl_entries) [] in
      mret (rv, Acl entries (acl_enabled acl) (acl_is_blacklist acl))
  end.
End Load.

(** ** The check of a client *)

(** [strncmp(a, b, n) == 0] *)
Fixpoint strncmp_eq (n : nat) (a b : string) : bool :=
  match n with
  | O => true
  | S n =>
      match a, b with
      | EmptyString, EmptyString => true
      | String c a, String d b => Ascii.eqb c d && strncmp_eq n a b
      | _, _ => false
      end
  end.

(** The loop of [ACL_check_client_str] that sets [found]. *)
Fixpoint find_entry (entries : list string) (mac : string) : bool :=
  match entries with
  | [] => false
  | value :: entries => if strncmp_eq 17 value mac then true else find_entry entries mac
  end.

Definition ACL_check_client_str (acl : option ACL) (mac : option string) : Z :=
  match acl, mac with
  | Some acl, Some mac =>
      if negb (acl_enabled acl) then ACL_ALLOW
      else
        let found := find_entry (acl_entries acl) mac in
        if found then (if acl_is_blacklist acl then ACL_DENY else ACL_ALLOW)
        else (if acl_is_blacklist acl then ACL_ALLOW else ACL_DENY)
  | _, _ => ACL_DENY
  end.

Definition ACL_check_client (acl : option ACL) (mac : list Z) : result Z :=
  s ← uint8_array_to_mac mac;
  mret (ACL_check_client_str acl (Some s)).

(** ** The dynamic list *)
Definition dynamic_ACL_new : ACL := Acl [] false true.

(** The loop of [dynamic_ACL_check] that counts the running transactions whose
    first message has the client's address. *)
Fixpoint count_transactions (cache : transaction_cache) (chaddr : list Z) : result Z :=
  match cache with
  | [] => mret 0
  | t :: cache =>
      if negb (ti_is_running (t_timer t)) then count_transactions cache chaddr
      else
        m ← trans_get_index (Some t) 0;
        n ← count_transactions cache chaddr;
        match m with
        | None => mret n
        | Some m => mret (if bool_decide (take 6 chaddr = take 6 (m_chaddr m)) then n + 1 else n)
        end
  end.

(** The decision and the list it leaves. *)
Definition dynamic_ACL_check (acl : option ACL) (chaddr : list Z) (cache : transaction_cache)
    : result (Z * option ACL) :=
  match acl with
  | None => mret (ACL_ALLOW, None)
  | Some acl =>
      if negb (acl_enabled acl) then mret (ACL_ALLOW, Some acl)
      else
        associated ← count_transactions cache chaddr;
        acl ← (if zlen cache / 2 <=? associated then
                 mac ← uint8_array_to_mac chaddr;
                 mret (Acl (acl_entries acl ++ [mac]) (acl_enabled acl) (acl_is_blacklist acl))
               else mret acl);
        rv ← ACL_check_client (Some acl) chaddr;
        mret (rv, Some acl)
  end.

(** ** Specification *)

(** The entries are the texts of hardware addresses. *)
Definition mac_text (s : string) : Prop :=
  ∃ mac, zlen mac = 6 ∧ is_bytes mac ∧ uint8_array_to_mac mac = Ret s.

Definition listed (acl : ACL) (chaddr : list Z) : Prop :=
  ∃ s mac, s ∈ acl_entries acl ∧ is_bytes mac ∧ uint8_array_to_mac mac = Ret s ∧
    take 6 mac = take 6 chaddr.

(** The running transactions a client began. *)
Definition begun_by (chaddr : list Z) (t : transaction) : Prop :=
  ti_is_running (t_timer t) = true ∧
  ∃ m ms, t_messages t = m :: ms ∧ take 6 chaddr = take 6 (m_chaddr m).

#[export] Instance begun_by_dec chaddr t : Decision (begun_by chaddr t).
Proof.
  destruct (decide (ti_is_running (t_timer t) = true)) as [Hr|Hr]; [|right; by intros [? _]].
  destruct (t_messages t) as [|m ms] eqn:E; [right; intros (_ & ? & ? & ? & _); congruence|].
  destruct (decide (take 6 chaddr = take 6 (m_chaddr m))) as [Hc|Hc].
  - left. split; [done|]. by exists m, ms.
  - right. intros (_ & ? & ? & ? & ?). congruence.
Defined.

(** ** Lemmas *)
Lemma strncmp_eq_spec n a b : String.length a = n → String.length b = n →
  strncmp_eq n a b = true ↔ a = b.
Proof.
  revert a b. induction n as [|n IH]; intros [|c a] [|d b] Ha Hb; simpl in *; try discriminate; [done|].
  injection Ha as Ha. injection Hb as Hb. rewrite andb_true_iff, IH, Ascii.eqb_eq by done.
  split; [by intros [-> ->] | by intros [= -> ->]].
Qed.

Lemma mac_text_length s mac : uint8_array_to_mac mac = Ret s → String.length s = 17%nat.
Proof.
  destruct mac as [|m0 [|m1 [|m2 [|m3 [|m4 [|m5 rest]]]]]]; try discriminate.
  intros [= <-]. reflexivity.
Qed.

Lemma mac_total mac : 6 ≤ zlen mac → ∃ s, uint8_array_to_mac mac = Ret s.
Proof.
  unfold zlen. intros Hl.
  destruct mac as [|m0 [|m1 [|m2 [|m3 [|m4 [|m5 rest]]]]]]; simpl in Hl; try lia.
  by eexists.
Qed.

Lemma uint8_array_to_mac_take mac : 6 ≤ zlen mac →
  uint8_array_to_mac (take 6 mac) = uint8_array_to_mac mac.
Proof.
  unfold zlen. intros Hl.
  by destruct mac as [|m0 [|m1 [|m2 [|m3 [|m4 [|m5 rest]]]]]]; simpl in Hl; try lia.
Qed.

Lemma find_entry_spec entries mac : Forall (λ s, String.length s = 17%nat) entries →
  String.length mac = 17%nat → find_entry entries mac = bool_decide (mac ∈ entries).
Proof.
  intros He Hm. induction He as [|s entries Hs He IH]; cbn [find_entry].
  - by rewrite bool_decide_false by set_solver.
  - destruct (strncmp_eq 17 s mac) eqn:E.
    + apply strncmp_eq_spec in E as ->; [|done..]. by rewrite bool_decide_true by left.
    + rewrite IH. apply bool_decide_ext. rewrite elem_of_cons. split; [auto|]. intros [->|]; [|done].
      by rewrite (proj2 (strncmp_eq_spec 17 s s Hs Hs) eq_refl) in E.
Qed.

Lemma listed_spec acl chaddr s : Forall mac_text (acl_entries acl) → is_bytes chaddr →
  uint8_array_to_mac chaddr = Ret s → s ∈ acl_entries acl ↔ listed acl chaddr.
Proof.
  intros He Hc Hs. split.
  - intros Hin. exists s, chaddr. done.
  - intros (s' & mac & Hin & Hb & Hs' & Heq). enough (s = s') as -> by done.
    assert (Hl : ∀ l x, uint8_array_to_mac l = Ret x → 6 ≤ zlen l).
    { intros l x Hx. unfold zlen.
      destruct l as [|m0 [|m1 [|m2 [|m3 [|m4 [|m5 rest]]]]]]; try discriminate. simpl. lia. }
    rewrite <-uint8_array_to_mac_take in Hs, Hs' by eauto.
    rewrite Heq, Hs in Hs'. by injection Hs'.
Qed.

Lemma count_transactions_spec cache chaddr : Forall trans_wf cache →
  count_transactions cache chaddr = Ret (zlen (filter (begun_by chaddr) cache)).
Proof.
  induction 1 as [|t cache (_ & _ & _ & _ & Hr) Hc IH]; [done|].
  cbn [count_transactions]. rewrite IH, filter_cons.
  destruct (ti_is_running (t_timer t)) eqn:E; cbn [negb].
  - unfold trans_get_index. destruct (t_messages t) as [|m ms] eqn:Em; [done|].
    cbn [mbind result_bind]. change ((m :: ms) !! Z.to_nat (u8 0)) with (Some m).
    unfold mret, result_ret. rewrite ret_bind. cbv beta iota.
    destruct (decide (take 6 chaddr = take 6 (m_chaddr m))) as [Hch|Hch].
    + rewrite bool_decide_true by done. rewrite decide_True by (split; [done|]; by exists m, ms).
      unfold zlen. cbn [length]. by rewrite Nat2Z.inj_succ.
    + rewrite bool_decide_false by done. rewrite decide_False; [done|].
      intros (_ & m' & ms' & Hm & ?). rewrite Em in Hm. by simplify_eq.
  - rewrite decide_False; [done|]. intros [? _]. congruence.
Qed.

(** ** Theorems *)

(** C37. [ACL_check_client] decides by the hardware address alone: with the
    list enabled, an address that is listed is denied by a blacklist and
    allowed by a whitelist, one that is not listed the other way round; with
    the list disabled everyone is allowed. *)
Theorem ACL_check_client_spec acl chaddr :
  Forall mac_text (acl_entries acl) → is_bytes chaddr → 6 ≤ zlen chaddr →
  ∃ rv, ACL_check_client (Some acl) chaddr = Ret rv ∧
    (rv = ACL_ALLOW ∧ (acl_enabled acl = false ∨ ¬ (listed acl chaddr ↔ acl_is_blacklist acl = true)) ∨
     rv = ACL_DENY ∧ acl_enabled acl = true ∧ (listed acl chaddr ↔ acl_is_blacklist acl = true)).
Proof.
  intros He Hc Hl. destruct (mac_total chaddr Hl) as [s Hs].
  unfold ACL_check_client. rewrite Hs. cbn [mbind result_bind]. eexists. split; [reflexivity|].
  cbn [ACL_check_client_str]. destruct (acl_enabled acl); cbn [negb]; [|left; auto].
  rewrite find_entry_spec; [|eapply Forall_impl; [exact He|]; intros x (mac & _ & _ & Hx);
    by eapply mac_text_length | by eapply mac_text_length].
  pose proof (listed_spec acl chaddr s He Hc Hs) as Hlist.
  destruct (bool_decide_reflect (s ∈ acl_entries acl)) as [Hin|Hin];
    destruct (acl_is_blacklist acl); naive_solver.
Qed.

Lemma load_entries_texts config entries rv out : load_entries config entries = (rv, out) →
  ∃ k, out = entries ++ (map_chars tolower <$> omap id (take k config)) ∧
    Forall (λ o, ∃ s, o = Some s ∧ is_string_valid_mac s = true) (take k config) ∧
    (if decide (rv = ACL_OK) then k = length config
     else rv = ACL_ERROR ∧ ∃ o, config !! k = Some o ∧
          ∀ s, o = Some s → is_string_valid_mac s = false).
Proof.
  revert entries. induction config as [|[s|] config IH]; intros entries H; cbn [load_entries] in H.
  - injection H as <- <-. exists 0%nat. simpl. by rewrite app_nil_r.
  - destruct (is_string_valid_mac s) eqn:E; cbn [negb] in H.
    + destruct (IH _ H) as (k & -> & Hf & Hrv). exists (S k). split.
      { cbn. by rewrite <-app_assoc. }
      split; [constructor; [by exists s | exact Hf]|].
      destruct (decide (rv = ACL_OK)); [simpl; by rewrite Hrv | exact Hrv].
    + injection H as <- <-. exists 0%nat. simpl. rewrite app_nil_r. split; [done|].
      split; [constructor|]. split; [done|]. exists (Some s). split; [done|]. by intros ? [= ->].
  - injection H as <- <-. exists 0%nat. simpl. rewrite app_nil_r. split; [done|].
    split; [constructor|]. split; [done|]. by exists None.
Qed.

(** [dynamic_ACL_check] with the list enabled counts the running
    transactions the client began; when they are half of the cache or more,
    rounded down, its address is put on the list, and the client is denied as
    soon as it is listed.  The list only grows. *)
Theorem dynamic_ACL_check_spec acl chaddr cache :
  Forall mac_text (acl_entries acl) → is_bytes chaddr → 6 ≤ zlen chaddr → Forall trans_wf cache →
  acl_enabled acl = true → acl_is_blacklist acl = true →
  ∃ rv acl', dynamic_ACL_check (Some acl) chaddr cache = Ret (rv, Some acl') ∧
    Forall mac_text (acl_entries acl') ∧ acl_entries acl `prefix_of` acl_entries acl' ∧
    let suspicious := zlen cache / 2 ≤ zlen (filter (begun_by chaddr) cache) in
    (rv = ACL_DENY ∧ (listed acl chaddr ∨ suspicious) ∧ listed acl' chaddr ∨
     rv = ACL_ALLOW ∧ ¬ listed acl chaddr ∧ ¬ suspicious ∧ acl' = acl).
Proof.
  intros He Hc Hl Hw Hen Hbl. unfold dynamic_ACL_check. rewrite Hen. cbn [negb].
  rewrite count_transactions_spec by done. rewrite ret_bind.
  destruct (mac_total chaddr Hl) as [s Hs].
  assert (Hcheck : ∀ es, Forall mac_text es →
    ACL_check_client (Some (Acl es true true)) chaddr =
    Ret (if bool_decide (s ∈ es) then ACL_DENY else ACL_ALLOW)).
  { intros es Hes. unfold ACL_check_client. rewrite Hs. cbn [mbind result_bind ACL_check_client_str].
    cbn [acl_enabled acl_entries acl_is_blacklist negb]. rewrite find_entry_spec; [done| |].
    - eapply Forall_impl; [exact Hes|]. intros x (mac & _ & _ & Hx). by eapply mac_text_length.
    - by eapply mac_text_length. }
  assert (Hacl : acl = Acl (acl_entries acl) true true) by (destruct acl; simpl in *; by subst).
  assert (Htext : mac_text s).
  { exists (take 6 chaddr). rewrite uint8_array_to_mac_take by done. split_and!; [|by apply Forall_take|done].
    unfold zlen in *. rewrite length_take. lia. }
  destruct (Z.leb_spec (zlen cache / 2) (zlen (filter (begun_by chaddr) cache))) as [Hsus|Hsus].
  - rewrite Hs, ret_bind, Hbl. unfold mret, result_ret. rewrite ret_bind.
    assert (Hes : Forall mac_text (acl_entries acl ++ [s])) by (apply Forall_app; auto).
    rewrite Hcheck, ret_bind by done. rewrite bool_decide_true by set_solver.
    eexists _, _. split; [reflexivity|]. split; [done|]. split; [by apply prefix_app_r|]. left.
    split; [done|]. split; [by right|].
    rewrite <-(listed_spec _ _ s) by done. set_solver.
  - unfold mret, result_ret. rewrite ret_bind, Hacl, Hcheck, ret_bind by done.
    cbn [acl_entries]. eexists _, _. split; [reflexivity|]. rewrite <-Hacl. split; [done|].
    split; [done|]. pose proof (listed_spec acl chaddr s He Hc Hs) as Hlist.
    destruct (bool_decide_reflect (s ∈ acl_entries acl)) as [Hin|Hin]; [left | right];
      split_and!; try done; try tauto; try lia.
Qed.

(** With a cache of one transaction the half of the cache is 0, so the
    dynamic list denies and records every client, whatever it did. *)
Theorem dynamic_ACL_check_one_slot t acl chaddr :
  Forall mac_text (acl_entries acl) → is_bytes chaddr → 6 ≤ zlen chaddr → trans_wf t →
  acl_enabled acl = true → acl_is_blacklist acl = true →
  ∃ acl', dynamic_ACL_check (Some acl) chaddr [t] = Ret (ACL_DENY, Some acl') ∧ listed acl' chaddr.
Proof.
  intros He Hc Hl Hw Hen Hbl. destruct (mac_total chaddr Hl) as [s Hs].
  unfold dynamic_ACL_check. rewrite Hen. cbn [negb].
  rewrite count_transactions_spec by (by constructor). rewrite ret_bind.
  change (zlen [t] / 2) with 0. destruct (Z.leb_spec 0 (zlen (filter (begun_by chaddr) [t]))) as [_|Hn];
    [|unfold zlen in Hn; lia].
  rewrite Hs, ret_bind, Hbl. unfold mret, result_ret. rewrite ret_bind.
  unfold ACL_check_client. rewrite Hs, ret_bind.
  cbn [ACL_check_client_str acl_enabled acl_entries acl_is_blacklist negb].
  rewrite find_entry_spec; [|apply Forall_app; split; [eapply Forall_impl; [exact He|];
    intros x (mac & _ & _ & Hx); by eapply mac_text_length | constructor; [|done];
    by eapply mac_text_length] | by eapply mac_text_length].
  rewrite bool_decide_true by set_solver. eexists. split; [reflexivity|].
  exists s, chaddr. cbn [acl_entries]. set_solver.
Qed.

Lemma load_entries_valid config : ∀ entries,
  Forall (λ s, is_string_valid_mac s = true) config →
  load_entries (Some <$> config) entries = (ACL_OK, entries ++ (map_chars tolower <$> config)).
Proof.
  induction config as [|s config IH]; intros entries Hv; cbn; [by rewrite app_nil_r|].
  apply Forall_cons in Hv as [-> Hv]. cbn [negb]. rewrite IH by done. by rewrite <-app_assoc.
Qed.

(** An entry of the configuration that names a hardware address. *)
Definition names (mac : list Z) (entry : string) : Prop :=
  zlen mac = 6 ∧ is_bytes mac ∧ is_string_valid_mac entry = true ∧
  uint8_array_to_mac mac = Ret (map_chars tolower entry).

(** When the configuration file lists hardware addresses, in upper or lower
    case, the access control list holds exactly those addresses after it was
    loaded. *)
Theorem ACL_load_acl_entries_spec `{CJ : !Cjson} files path text root security arr macs config acl :
  files !! path = Some text → cJSON_Parse text = Some root →
  cJSON_GetObjectItem root "security" = Some security →
  cJSON_GetObjectItem security "acl_entries" = Some arr →
  cJSON_GetStringValue <$> cJSON_children arr = Some <$> config → Forall2 names macs config →
  ∃ entries, let acl' := Acl entries (acl_enabled acl) (acl_is_blacklist acl) in
    ACL_load_acl_entries acl path (Env files []) = Ret ((ACL_OK, acl'), Env files []) ∧
    Forall mac_text entries ∧
    ∀ chaddr, is_bytes chaddr → 6 ≤ zlen chaddr → listed acl' chaddr ↔ take 6 chaddr ∈ macs.
Proof.
  intros Hf Hp Hsec Ha Harr H. exists (map_chars tolower <$> config). split; [|split].
  - unfold ACL_load_acl_entries, load_config_file. rewrite bind_assoc, prog_bind_eq.
    rewrite (read_file_run files path text Hf). cbv beta iota. rewrite bind_mret.
    cbn [mbind option_bind]. rewrite Hp. cbn [mbind option_bind]. rewrite Hsec. cbn [mbind option_bind].
    rewrite Ha, Harr.
    rewrite load_entries_valid; [done|]. clear -H. induction H as [|mac s macs config (_ & _ & Hv & _)]; by constructor.
  - clear -H. induction H as [|mac s macs config (Hl & Hb & _ & Ht)]; constructor; [by exists mac | done].
  - intros chaddr Hc Hl. assert (Hin : ∀ s, s ∈ map_chars tolower <$> config ↔
      ∃ mac, mac ∈ macs ∧ uint8_array_to_mac mac = Ret s).
    { intros s. clear -H. induction H as [|mac c macs config (_ & _ & _ & Ht) _ IH]; cbn [fmap list_fmap].
      - set_solver.
      - rewrite elem_of_cons, IH. split.
        + intros [->|(m & ? & ?)]; [exists mac | exists m]; (split; [set_solver | done]).
        + intros (m & [->|Hm]%elem_of_cons & Hs); [left; congruence | right; by exists m]. }
    assert (Hm : ∀ mac, mac ∈ macs → is_bytes mac ∧ take 6 mac = mac).
    { clear -H. induction H as [|mac c macs config (Hlm & Hb & _) _ IH]; [set_solver|].
      intros m [->|Hm]%elem_of_cons; [|by apply IH]. split; [done|]. apply take_ge.
      unfold zlen in Hlm. lia. }
    split.
    + intros (s & mac & Hs & Hb & Ht & Heq). cbn [acl_entries] in Hs.
      apply Hin in Hs as (mac' & Hmac & Ht'). destruct (Hm mac' Hmac) as [Hb' Htk].
      rewrite <-Heq, (uint8_array_to_mac_inj mac mac' s Hb Hb' Ht Ht'), Htk. done.
    + intros Hmac. destruct (mac_total chaddr Hl) as [s Hs]. exists s, chaddr.
      split; [|done]. cbn [acl_entries]. apply Hin. exists (take 6 chaddr).
      by rewrite uint8_array_to_mac_take.
Qed.

(** ** Witnesses *)
Definition sample_mac : list Z := [2; 66; 172; 17; 0; 2].
Definition sample_acl : ACL := Acl ["02:42:ac:11:00:02"%string] true true.

Lemma sample_acl_texts : Forall mac_text (acl_entries sample_acl).
Proof. constructor; [|done]. exists sample_mac. split; [done|]. split; [by_decision | reflexivity]. Qed.

Lemma ACL_check_client_spec_witness :
  ACL_check_client (Some sample_acl) (m_chaddr sample_message) = Ret ACL_DENY.
Proof.
  destruct (ACL_check_client_spec sample_acl (m_chaddr sample_message) sample_acl_texts)
    as (rv & H & Hrv); [by_decision | by_decision |].
  destruct Hrv as [(-> & [Hd|Hn])|(-> & _)]; [discriminate Hd | | exact H].
  destruct Hn. split; [reflexivity|]. intros _. exists "02:42:ac:11:00:02"%string, sample_mac.
  split; [left|]. split; [by_decision|]. split; reflexivity.
Defined.

Lemma dynamic_ACL_check_spec_witness : ∃ acl',
  dynamic_ACL_check (Some (Acl [] true true)) (m_chaddr sample_message) sample_added =
    Ret (ACL_DENY, Some acl').
Proof.
  destruct (dynamic_ACL_check_spec (Acl [] true true) (m_chaddr sample_message) sample_added)
    as (rv & acl' & H & _ & _ & Hr); [constructor | by_decision | by_decision |
      exact (proj1 sample_added_wf) | reflexivity | reflexivity |].
  exists acl'. destruct Hr as [(-> & _)|(_ & _ & Hn & _)]; [exact H|].
  exfalso. apply Hn. vm_compute. discriminate.
Defined.

Lemma dynamic_ACL_check_one_slot_witness : ∃ acl',
  dynamic_ACL_check (Some (Acl [] true true)) sample_mac [trans_new 1000 60] = Ret (ACL_DENY, Some acl') ∧
  listed acl' sample_mac.
Proof.
  apply (dynamic_ACL_check_one_slot (trans_new 1000 60) (Acl [] true true) sample_mac);
    [constructor | by_decision | by_decision | apply trans_new_wf | reflexivity | reflexivity].
Defined.

(** A configuration file with one address. *)
Definition sample_acl_array : TreeJson.tree :=
  @cJSON_AddItemToArray TreeJson.tree_json (@cJSON_CreateArray TreeJson.tree_json)
    (@cJSON_CreateString TreeJson.tree_json "02:42:AC:11:00:02"%string).
Definition sample_acl_security : TreeJson.tree :=
  @cJSON_AddItemToObject TreeJson.tree_json (@cJSON_CreateObject TreeJson.tree_json)
    "acl_entries" sample_acl_array.
Definition sample_acl_root : TreeJson.tree :=
  @cJSON_AddItemToObject TreeJson.tree_json (@cJSON_CreateObject TreeJson.tree_json)
    "security" sample_acl_security.

Lemma ACL_load_acl_entries_spec_witness : ∃ files entries,
  @ACL_load_acl_entries TreeJson.tree_json (Acl [] true true) "config.json" (Env files []) =
    Ret ((ACL_OK, Acl entries true true), Env files []) ∧
  listed (Acl entries true true) sample_mac.
Proof.
  exists {[ "config.json"%string := TreeJson.print sample_acl_root ]}.
  destruct (@ACL_load_acl_entries_spec TreeJson.tree_json
    {[ "config.json"%string := TreeJson.print sample_acl_root ]} "config.json"
    (TreeJson.print sample_acl_root) sample_acl_root sample_acl_security sample_acl_array [sample_mac]
    ["02:42:AC:11:00:02"%string] (Acl [] true true)) as (entries & H & _ & Hl).
  - apply lookup_insert_eq.
  - rewrite <-(string_app_nil (TreeJson.print sample_acl_root)). apply TreeJson.parse_print.
  - reflexivity.
  - reflexivity.
  - reflexivity.
  - constructor; [|constructor]. split; [reflexivity|]. split; [by_decision|].
    split; [vm_compute; reflexivity | vm_compute; reflexivity].
  - exists entries. split; [exact H|]. apply Hl; [by_decision | by_decision | left].
Defined.
