(* ===== verification/Lease.v ===== *)
(** The lease database, [lease.c]: one JSON file per pool, with the leases of
    the pool in an array. *)
From Stdlib Require Import Ascii String.
From S2P Require Import Prelude Bytes Xtoy Rfc Options Json Files AddressPool Allocator.
Local Open Scope Z_scope.

(** ** Leases *)
Definition LEASE_OK : Z := 0.
Definition LEASE_EXISTS : Z := -1.
Definition LEASE_DOESNT_EXITS : Z := -2.
Definition LEASE_INVALID_JSON : Z := -3.
Definition LEASE_ERROR : Z := -4.

Record lease_t := Lease {
  l_address : Z;
  l_subnet : Z;
  l_pool_name : option string;
  l_lease_start : Z;
  l_lease_expire : Z;
  l_xid : Z;
  l_flags : Z;
  l_client_mac_address : list Z;
}.

(** [calloc] and [lease_t lease = {0}] *)
Definition lease_new : lease_t := Lease 0 0 None 0 0 0 0 (zeros 6).

Definition with_pool_name (l : lease_t) (n : option string) : lease_t :=
  Lease (l_address l) (l_subnet l) n (l_lease_start l) (l_lease_expire l) (l_xid l) (l_flags l)
    (l_client_mac_address l).

Definition lease_path (pool : string) : string := ("/etc/dhcp/lease/" ++ pool ++ ".lease")%string.

Section Lease.
Context `{CC : !Cclog} `{CJ : !Cjson}.

Definition get_item (j : option json) (k : string) : option json :=
  j ← j; cJSON_GetObjectItem j k.
Definition get_string (j : option json) : option string := j ← j; cJSON_GetStringValue j.
Definition get_number (j : option json) : option Z := j ← j; cJSON_GetNumberValue j.

(** The conversion of a [double] to an unsigned type of [w] bits: undefined
    for NaN and out of range. *)
Definition to_unsigned (w : Z) (x : option Z) : result Z :=
  match x with
  | Some n => if (0 <=? n) && (n <? 2 ^ w) then Ret n else Undef BadConversion
  | None => Undef BadConversion
  end.

(** [ipv4_address_to_uint32] of a string value that may be NULL *)
Definition address_value (j : option json) : result Z :=
  s ← deref (get_string j); mret (ipv4_address_to_uint32 s).

(** ** Files *)
Definition init_leases_file (path : string) : prog env open_result :=
  r ← sys_create path;
  match r with
  | Opened path pos =>
      let root := cJSON_AddItemToObject cJSON_CreateObject "leases" cJSON_CreateArray in
      w ← sys_write path pos (cJSON_Print root);
      if if_failed_n w then mret OpenError
      else
        s ← sys_lseek;
        if if_failed_n s then mret OpenError else mret (Opened path 0)
  | _ => mret OpenError
  end.

(** [stat], [read] and [cJSON_Parse] of the whole file. *)
Definition lease_load_lease_fila (path : string) (pos : nat) : prog env (option json) :=
  st ← fails;
  if (st : bool) then mret None
  else
    rd ← fails;
    if (rd : bool) then mret None
    else e ← get_state; mret (cJSON_Parse (str_drop pos (contents e path))).

Definition lease_open_lease_file (pool : option string) : prog env open_result :=
  match pool with
  | None => mret OpenError
  | Some pool =>
      let path := lease_path pool in
      r ← sys_open path;
      match r with
      | NoEntry => init_leases_file path
      | r => mret r
      end
  end.

(** ** Conversions *)
Definition lease_to_cjson (lease : lease_t) : result json :=
  mac ← uint8_array_to_mac (l_client_mac_address lease);
  let o := cJSON_CreateObject in
  let o := cJSON_AddItemToObject o "address"
             (cJSON_CreateString (uint32_to_ipv4_address (l_address lease))) in
  let o := cJSON_AddItemToObject o "subnet"
             (cJSON_CreateString (uint32_to_ipv4_address (l_subnet lease))) in
  let o := cJSON_AddItemToObject o "xid" (cJSON_CreateNumber (l_xid lease)) in
  let o := cJSON_AddItemToObject o "lease_start" (cJSON_CreateNumber (l_lease_start lease)) in
  let o := cJSON_AddItemToObject o "lease_expire" (cJSON_CreateNumber (l_lease_expire lease)) in
  let o := cJSON_AddItemToObject o "flags" (cJSON_CreateNumber (l_flags lease)) in
  mret (cJSON_AddItemToObject o "client_mac_address" (cJSON_CreateString mac)).

(** The status and the lease the caller's structure then holds. *)
Definition json_to_lease (result : lease_t) (j : json) (pool_name : string)
    : Prelude.result (Z * lease_t) :=
  address ← address_value (get_item (Some j) "address");
  subnet ← address_value (get_item (Some j) "subnet");
  xid ← to_unsigned 32 (get_number (get_item (Some j) "xid"));
  lease_start ← to_unsigned 32 (get_number (get_item (Some j) "lease_start"));
  lease_expire ← to_unsigned 32 (get_number (get_item (Some j) "lease_expire"));
  flags ← to_unsigned 8 (get_number (get_item (Some j) "flags"));
  let result := Lease address subnet (Some pool_name) lease_start lease_expire xid flags
                  (l_client_mac_address result) in
  match get_string (get_item (Some j) "client_mac_address") with
  | None => mret (LEASE_ERROR, result)
  | Some mac =>
      let bytes := scan_mac 6 mac in
      if (length bytes =? 6)%nat then
        mret (LEASE_OK, Lease address subnet (Some pool_name) lease_start lease_expire xid flags
                          (u8 <$> bytes))
      else mret (LEASE_INVALID_JSON, result)
  end.

(** ** The operations *)

(** The first element of the array with the address, with its index. *)
Fixpoint find_lease (elements : list json) (addr : Z) (index : nat) : result (option (nat * json)) :=
  match elements with
  | [] => mret None
  | element :: elements =>
      cur_addr ← address_value (get_item (Some element) "address");
      if cur_addr =? addr then mret (Some (index, element))
      else find_lease elements addr (S index)
  end.

Definition lease_retrieve (result : lease_t) (addr : Z) (pool_name : option string)
    : prog env (Z * lease_t) :=
  match pool_name with
  | None => mret (LEASE_ERROR, result)
  | Some name =>
      fd ← lease_open_lease_file pool_name;
      match fd with
      | Opened path pos =>
          root ← lease_load_lease_fila path pos;
          match get_item root "leases" with
          | None => mret (LEASE_ERROR, result)
          | Some leases_array =>
              found ← lift (find_lease (cJSON_children leases_array) addr 0);
              match found with
              | None => mret (LEASE_DOESNT_EXITS, with_pool_name result pool_name)
              | Some (_, element) =>
                  '(rv, result) ← lift (json_to_lease result element name);
                  mret (rv, with_pool_name result pool_name)
              end
          end
      | _ => mret (LEASE_ERROR, result)
      end
  end.

Definition lease_retrieve_address (result : lease_t) (addr : Z) (pools : list address_pool)
    : prog env (Z * lease_t) :=
  lease_retrieve result addr
    (p_name ∘ snd <$> list_find (λ p, address_belongs_to_pool p addr = true) pools).

(** The file is written from its beginning and not truncated. *)
Definition lease_add (lease : lease_t) : prog env Z :=
  match l_pool_name lease with
  | None => mret LEASE_ERROR
  | Some name =>
      new_lease_json ← lift (lease_to_cjson lease);
      fd ← lease_open_lease_file (Some name);
      match fd with
      | Opened path pos =>
          root ← lease_load_lease_fila path pos;
          match root, get_item root "leases" with
          | Some root, Some leases_array =>
              let root := cJSON_update_member root "leases"
                            (cJSON_AddItemToArray leases_array new_lease_json) in
              s ← sys_lseek;
              if if_failed_n s then mret LEASE_ERROR
              else
                w ← sys_write path 0 (cJSON_Print root);
                if if_failed_n w then mret LEASE_ERROR else mret LEASE_OK
          | _, _ => mret LEASE_ERROR
          end
      | _ => mret LEASE_ERROR
      end
  end.

(** The end of [lease_remove]: the file is truncated and written again; the
    status does not depend on the calls. *)
Definition lease_store (path : string) (root : json) (rv : Z) : prog env Z :=
  t ← sys_ftruncate path;
  if if_failed t then mret rv
  else
    s ← sys_lseek;
    if if_failed_n s then mret rv
    else
      _ ← sys_write path 0 (cJSON_Print root);
      mret rv.

(** The file is written whether the lease was found or not. *)
Definition lease_remove (lease : lease_t) : prog env Z :=
  fd ← lease_open_lease_file (l_pool_name lease);
  match fd with
  | Opened path pos =>
      root ← lease_load_lease_fila path pos;
      match root, get_item root "leases" with
      | Some root, Some leases_array =>
          found ← lift (find_lease (cJSON_children leases_array) (l_address lease) 0);
          let '(rv, root) :=
            match found with
            | Some (index, _) =>
                (LEASE_OK, cJSON_update_member root "leases"
                             (cJSON_DetachItemFromArray leases_array index))
            | None => (LEASE_DOESNT_EXITS, root)
            end in
          lease_store path root rv
      | _, _ => mret LEASE_ERROR
      end
  | _ => mret LEASE_ERROR
  end.

Definition lease_remove_address_pool (address : Z) (pool_name : option string) : prog env Z :=
  match pool_name with
  | None => mret LEASE_ERROR
  | Some _ => lease_remove (with_pool_name (Lease address 0 None 0 0 0 0 (zeros 6)) pool_name)
  end.
End Lease.

(** ** Specification *)
Definition lease_wf (l : lease_t) : Prop :=
  is_u32 (l_address l) ∧ is_u32 (l_subnet l) ∧ is_u32 (l_lease_start l) ∧
  is_u32 (l_lease_expire l) ∧ is_u32 (l_xid l) ∧ is_u8 (l_flags l) ∧
  length (l_client_mac_address l) = 6%nat ∧ is_bytes (l_client_mac_address l).

#[export] Instance lease_wf_dec l : Decision (lease_wf l).
Proof. unfold lease_wf. apply _. Defined.

Section LeaseSpec.
Context `{CC : !Cclog} `{CJ : !Cjson}.

(** The file of a pool holds the leases, in order; a file that does not exist
    holds none. *)
Definition file_holds (e : env) (pool : string) (ls : list lease_t) : Prop :=
  match e_files e !! lease_path pool with
  | None => ls = []
  | Some text => ∃ root arr rest, text = (cJSON_Print root ++ rest)%string ∧
      cJSON_GetObjectItem root "leases" = Some arr ∧
      Forall2 (λ l j, lease_wf l ∧ lease_to_cjson l = Ret j) ls (cJSON_children arr)
  end.

Definition same_other_files (e e' : env) (pool : string) : Prop :=
  ∀ path, path ≠ lease_path pool → e_files e' !! path = e_files e !! path.

(** ** Conversions *)
(** The value of a key among members, compared as cJSON does. *)
Fixpoint assoc_lower (kvs : list (string * json)) (k : string) : option json :=
  match kvs with
  | [] => None
  | (k0, v) :: kvs => if decide (lower k0 = lower k) then Some v else assoc_lower kvs k
  end.

(** Adding the members of a list of distinct keys to an object. *)
Lemma add_members kvs : ∀ o, NoDup (lower <$> kvs.*1) →
  (∀ k, k ∈ kvs.*1 → cJSON_GetObjectItem o k = None) → ∀ k,
  cJSON_GetObjectItem (foldl (λ o kv, cJSON_AddItemToObject o kv.1 kv.2) o kvs) k =
  match assoc_lower kvs k with Some v => Some v | None => cJSON_GetObjectItem o k end.
Proof.
  induction kvs as [|[k0 v0] kvs IH]; intros o Hnd Hn k; [done|].
  cbn [fmap list_fmap fst] in Hnd. apply NoDup_cons in Hnd as [Hk0 Hnd].
  assert (Ho : cJSON_GetObjectItem o k0 = None) by (apply Hn; left).
  cbn [foldl fst snd assoc_lower]. rewrite IH; [|done|].
  - rewrite get_added_spec by done. destruct (decide (lower k0 = lower k)) as [Hk|]; [|done].
    assert (assoc_lower kvs k = None) as ->; [|done]. rewrite Hk in Hk0. clear -Hk0.
    induction kvs as [|[k1 v1] kvs IH]; [done|]. cbn in *.
    apply not_elem_of_cons in Hk0 as [Hne Hk0]. rewrite decide_False by (intros E; by apply Hne).
    by apply IH.
  - intros k' Hk'. rewrite get_added_spec, decide_False by
      (done || (intros E; apply Hk0; rewrite E; by apply list_elem_of_fmap_2)).
    apply Hn. by right.
Qed.

Lemma lease_json_fields l : lease_wf l → ∃ j mac,
  lease_to_cjson l = Ret j ∧ uint8_array_to_mac (l_client_mac_address l) = Ret mac ∧
  scan_mac 6 mac = l_client_mac_address l ∧
  get_item (Some j) "address" = Some (cJSON_CreateString (uint32_to_ipv4_address (l_address l))) ∧
  get_item (Some j) "subnet" = Some (cJSON_CreateString (uint32_to_ipv4_address (l_subnet l))) ∧
  get_item (Some j) "xid" = Some (cJSON_CreateNumber (l_xid l)) ∧
  get_item (Some j) "lease_start" = Some (cJSON_CreateNumber (l_lease_start l)) ∧
  get_item (Some j) "lease_expire" = Some (cJSON_CreateNumber (l_lease_expire l)) ∧
  get_item (Some j) "flags" = Some (cJSON_CreateNumber (l_flags l)) ∧
  get_item (Some j) "client_mac_address" = Some (cJSON_CreateString mac).
Proof.
  intros (_ & _ & _ & _ & _ & _ & Hl & Hb). unfold lease_to_cjson.
  destruct (l_client_mac_address l) as [|m0 [|m1 [|m2 [|m3 [|m4 [|m5 [|]]]]]]]; try discriminate.
  destruct (scan_mac_print m0 m1 m2 m3 m4 m5 []) as (mac & -> & Hscan); [done|].
  cbn [mbind result_bind]. eexists _, mac. split; [reflexivity|].
  split; [done|]. split; [done|]. unfold get_item. cbn [mbind option_bind].
  match goal with |- context [cJSON_AddItemToObject ?x "client_mac_address" ?v] =>
    set (o := cJSON_AddItemToObject x "client_mac_address" v) end.
  assert (Ho : o = foldl (λ o kv, cJSON_AddItemToObject o kv.1 kv.2) cJSON_CreateObject
    [("address", cJSON_CreateString (uint32_to_ipv4_address (l_address l)));
     ("subnet", cJSON_CreateString (uint32_to_ipv4_address (l_subnet l)));
     ("xid", cJSON_CreateNumber (l_xid l));
     ("lease_start", cJSON_CreateNumber (l_lease_start l));
     ("lease_expire", cJSON_CreateNumber (l_lease_expire l));
     ("flags", cJSON_CreateNumber (l_flags l));
     ("client_mac_address", cJSON_CreateString mac)]%string) by reflexivity.
  rewrite Ho. clearbody o.
  split_and?; rewrite add_members by
    (first [by apply (bool_decide_unpack _) | intros; apply get_empty_spec]); reflexivity.
Qed.

Lemma to_unsigned_u32 n : is_u32 n → to_unsigned 32 (get_number (Some (cJSON_CreateNumber n))) = Ret n.
Proof.
  intros Hn. unfold get_number, to_unsigned. cbn [mbind option_bind].
  rewrite get_number_spec by done. unfold is_u32 in Hn.
  destruct (Z.leb_spec 0 n); [|lia]. destruct (Z.ltb_spec n (2 ^ 32)); [done|lia].
Qed.

Lemma to_unsigned_u8 n : is_u8 n → to_unsigned 8 (get_number (Some (cJSON_CreateNumber n))) = Ret n.
Proof.
  intros Hn. unfold get_number, to_unsigned. cbn [mbind option_bind].
  rewrite get_number_spec by (unfold is_u8, is_u32 in *; lia). unfold is_u8 in Hn.
  destruct (Z.leb_spec 0 n); [|lia]. destruct (Z.ltb_spec n (2 ^ 8)); [done|lia].
Qed.

Lemma address_value_string a : is_u32 a →
  address_value (Some (cJSON_CreateString (uint32_to_ipv4_address a))) = Ret a.
Proof.
  intros Ha. unfold address_value, get_string. cbn [mbind option_bind].
  rewrite get_string_spec. cbn. by rewrite ipv4_print_scan.
Qed.

Lemma lease_json_correct l : lease_wf l → ∃ j, lease_to_cjson l = Ret j ∧
  address_value (get_item (Some j) "address") = Ret (l_address l) ∧
  ∀ r name, json_to_lease r j name = Ret (LEASE_OK, with_pool_name l (Some name)).
Proof.
  intros Hwf. destruct (lease_json_fields l Hwf)
    as (j & mac & Hj & _ & Hscan & Ha & Hs & Hx & Hst & Hex & Hf & Hm).
  destruct Hwf as (? & ? & ? & ? & ? & ? & Hl & Hb).
  exists j. split; [done|]. rewrite Ha. split; [by apply address_value_string|].
  intros r name. unfold json_to_lease. rewrite Ha, Hs, Hx, Hst, Hex, Hf, Hm.
  rewrite !address_value_string, !to_unsigned_u32, to_unsigned_u8 by done. cbn [mbind result_bind].
  unfold get_string. cbn [mbind option_bind]. rewrite get_string_spec, Hscan, Hl.
  cbn [Nat.eqb]. unfold with_pool_name. do 3 f_equal.
  clear Hl Hscan. induction Hb as [|b bs Hb _ IH]; [done|]. cbn [fmap list_fmap].
  by rewrite u8_small, IH.
Qed.

(** ** Searching the array *)
Lemma find_lease_correct ls js addr k :
  Forall2 (λ l j, lease_wf l ∧ lease_to_cjson l = Ret j) ls js →
  find_lease js addr k =
  Ret (match list_find (λ l, l_address l = addr) ls with
       | Some (i, l) => match js !! i with Some j => Some ((k + i)%nat, j) | None => None end
       | None => None
       end).
Proof.
  intros H. revert k. induction H as [|l j ls js [Hl Hj] _ IH]; intros k; [done|].
  destruct (lease_json_correct l Hl) as (j' & Hj' & Ha & _). rewrite Hj in Hj'. injection Hj' as <-.
  cbn [find_lease list_find]. rewrite Ha, ret_bind.
  destruct (Z.eqb_spec (l_address l) addr) as [E|E].
  - rewrite decide_True by done. cbn. by rewrite Nat.add_0_r.
  - rewrite decide_False, IH by done.
    destruct (list_find (λ l, l_address l = addr) ls) as [[i l']|]; [|done]. cbn.
    destruct (js !! i); [|done]. by rewrite Nat.add_succ_r.
Qed.

(** ** Opening and loading *)
(** The file of a pool after it was opened, with no failing calls. *)
Lemma open_correct e pool ls : e_faults e = [] → file_holds e pool ls →
  ∃ e', lease_open_lease_file (Some pool) e = Ret (Opened (lease_path pool) 0, e') ∧
    e_faults e' = [] ∧ is_Some (e_files e' !! lease_path pool) ∧ file_holds e' pool ls ∧
    same_other_files e e' pool.
Proof.
  intros Hnf Hf. unfold lease_open_lease_file, sys_open, file_holds in *.
  destruct e as [files faults]. cbn [e_faults e_files] in *. subst faults.
  destruct (files !! lease_path pool) as [text|] eqn:Ef.
  - exists (Env files []). split; [|by split_and?; cbn; rewrite ?Ef].
    unfold mbind, prog_bind, fails, get_state. cbn. by rewrite Ef.
  - subst ls. eexists. split.
    { unfold mbind, prog_bind, fails, get_state. cbn. rewrite Ef. cbn.
      unfold init_leases_file, sys_create, sys_write, sys_lseek, mbind, prog_bind, fails, get_state,
        put_state. cbn. rewrite Ef. cbn.
      assert (Hlen : ∀ s, if_failed_n (Z.of_nat (String.length s)) = false)
        by (intros; rewrite if_failed_n_spec; apply Z.ltb_ge; lia).
      rewrite Hlen. cbn. rewrite if_failed_n_spec. cbn. reflexivity. }
    cbn [e_files e_faults]. rewrite insert_insert_eq, lookup_insert_eq. split; [done|]. split; [done|].
    split.
    + eexists _, cJSON_CreateArray, ""%string. split; [|split].
      * unfold contents. cbn [e_files]. rewrite lookup_insert_eq. cbn [default].
        rewrite write_at_0, str_drop_nil. reflexivity.
      * rewrite get_added_spec by apply get_empty_spec. by rewrite decide_True.
      * rewrite children_empty_spec. constructor.
    + intros path Hne. cbn [e_files]. by rewrite lookup_insert_ne by done.
Qed.

(** The tree of an existing file. *)
Definition tree_holds (root arr : json) (ls : list lease_t) : Prop :=
  cJSON_GetObjectItem root "leases" = Some arr ∧
  Forall2 (λ l j, lease_wf l ∧ lease_to_cjson l = Ret j) ls (cJSON_children arr).

Lemma load_correct e pool ls : e_faults e = [] → is_Some (e_files e !! lease_path pool) →
  file_holds e pool ls →
  ∃ root arr, lease_load_lease_fila (lease_path pool) 0 e = Ret (Some root, e) ∧
    tree_holds root arr ls.
Proof.
  intros Hnf [text Ht] Hf. unfold file_holds in Hf. rewrite Ht in Hf.
  destruct Hf as (root & arr & rest & -> & Hg & Hl). exists root, arr. split; [|done].
  destruct e as [files faults]. cbn [e_faults e_files] in *. subst faults.
  unfold lease_load_lease_fila, mbind, prog_bind, fails, get_state, contents. cbn.
  rewrite Ht. cbn. by rewrite (parse_print_spec _ _ _ _ Hg).
Qed.

(** Writing a tree over the file. *)
Lemma written_holds e pool root arr ls rest :
  e_files e !! lease_path pool = Some (cJSON_Print root ++ rest)%string → tree_holds root arr ls →
  file_holds e pool ls.
Proof. intros He [Hg Hl]. unfold file_holds. rewrite He. by exists root, arr, rest. Qed.

Lemma tree_add root arr ls l j : tree_holds root arr ls → lease_wf l → lease_to_cjson l = Ret j →
  tree_holds (cJSON_update_member root "leases" (cJSON_AddItemToArray arr j))
    (cJSON_AddItemToArray arr j) (ls ++ [l]).
Proof.
  intros [Hg Hl] Hw Hj. split; [by eapply get_updated_spec|]. rewrite children_add_spec.
  apply Forall2_app; [done|]. by constructor.
Qed.

Lemma tree_detach root arr ls i : tree_holds root arr ls → (i < length ls)%nat →
  tree_holds (cJSON_update_member root "leases" (cJSON_DetachItemFromArray arr i))
    (cJSON_DetachItemFromArray arr i) (delete i ls).
Proof.
  intros [Hg Hl] Hi. split; [by eapply get_updated_spec|].
  rewrite children_detach_spec by (by rewrite <-(Forall2_length _ _ _ Hl)).
  by apply Forall2_delete.
Qed.
End LeaseSpec.

(** ** Theorems *)
Section LeaseTheorems.
Context `{CC : !Cclog} `{CJ : !Cjson}.

(** Round trip: a lease converted to JSON and back is the lease, whatever
    structure receives it. *)
Theorem lease_json_roundtrip l r name : lease_wf l →
  ∃ j, lease_to_cjson l = Ret j ∧
    json_to_lease r j name = Ret (LEASE_OK, with_pool_name l (Some name)).
Proof. intros Hw. destruct (lease_json_correct l Hw) as (j & Hj & _ & H). by exists j. Qed.

(** The rest of [lease_add] once the file was loaded. *)
Lemma add_correct e pool ls l :
  lease_wf l → l_pool_name l = Some pool → e_faults e = [] → file_holds e pool ls →
  ∃ e', lease_add l e = Ret (LEASE_OK, e') ∧ file_holds e' pool (ls ++ [l]) ∧ e_faults e' = [] ∧
    same_other_files e e' pool.
Proof.
  intros Hw Hn Hnf Hf. destruct (lease_json_correct l Hw) as (j & Hj & _).
  destruct (open_correct e pool ls Hnf Hf) as (e1 & Ho & Hnf1 & Hsome & Hf1 & Hs1).
  destruct (load_correct e1 pool ls Hnf1 Hsome Hf1) as (root & arr & Hload & Ht).
  pose proof (tree_add root arr ls l j Ht Hw Hj) as Ht'. destruct Ht as [Hg _].
  unfold lease_add. rewrite Hn, prog_bind_eq. unfold lift. rewrite Hj. cbv beta iota.
  rewrite prog_bind_eq, Ho. cbv beta iota. rewrite prog_bind_eq, Hload. cbv beta iota.
  unfold get_item. cbn [mbind option_bind]. rewrite Hg.
  unfold sys_lseek, sys_write, mbind, prog_bind, fails, get_state, put_state. cbn.
  rewrite Hnf1. cbn. rewrite if_failed_n_spec. cbn. rewrite ?Hnf1. cbn.
  rewrite if_failed_n_spec, (proj2 (Z.ltb_ge _ _)) by lia.
  eexists. split; [reflexivity|]. split; [|split; [done|]].
  - eapply written_holds; [|exact Ht']. cbn [e_files]. rewrite lookup_insert_eq, write_at_0. done.
  - intros path Hne. cbn [e_files]. rewrite lookup_insert_ne by done. by apply Hs1.
Qed.

Lemma remove_correct e pool ls l :
  l_pool_name l = Some pool → e_faults e = [] → file_holds e pool ls →
  ∃ rv e', lease_remove l e = Ret (rv, e') ∧ e_faults e' = [] ∧ same_other_files e e' pool ∧
    match list_find (λ x, l_address x = l_address l) ls with
    | Some (i, _) => rv = LEASE_OK ∧ file_holds e' pool (delete i ls)
    | None => rv = LEASE_DOESNT_EXITS ∧ file_holds e' pool ls
    end.
Proof.
  intros Hn Hnf Hf.
  destruct (open_correct e pool ls Hnf Hf) as (e1 & Ho & Hnf1 & Hsome & Hf1 & Hs1).
  destruct (load_correct e1 pool ls Hnf1 Hsome Hf1) as (root & arr & Hload & Ht).
  pose proof Ht as [Hg Hl]. unfold lease_remove.
  rewrite Hn, prog_bind_eq, Ho. cbv beta iota. rewrite prog_bind_eq, Hload. cbv beta iota.
  unfold get_item. cbn [mbind option_bind]. rewrite Hg, prog_bind_eq. unfold lift.
  rewrite (find_lease_correct ls _ (l_address l) 0 Hl).
  assert (Hrun : ∀ rv root arr' ls', tree_holds root arr' ls' → ∃ e',
    lease_store (lease_path pool) root rv e1 = Ret (rv, e') ∧
    file_holds e' pool ls' ∧ e_faults e' = [] ∧ same_other_files e e' pool).
  { intros rv root' arr' ls' Ht'.
    unfold lease_store, sys_ftruncate, sys_lseek, sys_write, mbind, prog_bind, fails, get_state, put_state. cbn.
    rewrite Hnf1. cbn. rewrite if_failed_spec. cbn. rewrite ?Hnf1. cbn.
    rewrite if_failed_n_spec. cbn. rewrite ?Hnf1. cbn.
    eexists. split; [reflexivity|]. split; [|split; [done|]].
    - eapply written_holds; [|exact Ht']. cbn [e_files]. by rewrite lookup_insert_eq, write_at_0.
    - intros path Hne. cbn [e_files]. rewrite !lookup_insert_ne by done. by apply Hs1. }
  destruct (list_find _ ls) as [[i l0]|] eqn:Efind.
  - apply list_find_Some in Efind as (Hi & _). pose proof (lookup_lt_Some _ _ _ Hi) as Hlt.
    destruct (lookup_lt_is_Some_2 (cJSON_children arr) i) as [j Hj];
      [by rewrite <-(Forall2_length _ _ _ Hl)|].
    rewrite Hj. cbv beta iota zeta. cbn [Nat.add].
    destruct (Hrun LEASE_OK _ _ _ (tree_detach root arr ls i Ht Hlt)) as (e' & -> & Hf' & Hn' & Hs').
    by exists LEASE_OK, e'.
  - cbv beta iota zeta. destruct (Hrun LEASE_DOESNT_EXITS _ _ _ Ht) as (e' & -> & Hf' & Hn' & Hs').
    by exists LEASE_DOESNT_EXITS, e'.
Qed.

Lemma retrieve_correct e pool ls r addr : e_faults e = [] → file_holds e pool ls →
  ∃ e', lease_retrieve r addr (Some pool) e =
      Ret (match list_find (λ x, l_address x = addr) ls with
           | Some (_, l) => (LEASE_OK, with_pool_name l (Some pool))
           | None => (LEASE_DOESNT_EXITS, with_pool_name r (Some pool))
           end, e') ∧ e_faults e' = [] ∧ file_holds e' pool ls ∧ same_other_files e e' pool.
Proof.
  intros Hnf Hf.
  destruct (open_correct e pool ls Hnf Hf) as (e1 & Ho & Hnf1 & Hsome & Hf1 & Hs1).
  destruct (load_correct e1 pool ls Hnf1 Hsome Hf1) as (root & arr & Hload & Hg & Hl).
  exists e1. split; [|done]. unfold lease_retrieve. rewrite prog_bind_eq, Ho. cbv beta iota.
  rewrite prog_bind_eq, Hload. cbv beta iota. unfold get_item. cbn [mbind option_bind].
  rewrite Hg, prog_bind_eq. unfold lift. rewrite (find_lease_correct ls _ addr 0 Hl).
  destruct (list_find _ ls) as [[i l]|] eqn:Efind; [|reflexivity].
  apply list_find_Some in Efind as (Hi & _).
  destruct (Forall2_lookup_l _ _ _ _ _ Hl Hi) as (j & Hj & Hw & Hc). rewrite Hj. cbv beta iota.
  destruct (lease_json_correct l Hw) as (j' & Hj' & _ & Hback). rewrite Hc in Hj'.
  injection Hj' as <-. rewrite prog_bind_eq, Hback. reflexivity.
Qed.

(** C35. The lease file implements a list of leases: with no failing system
    call [lease_add] appends the lease to the list of its pool, after which
    [lease_retrieve] finds the first lease with the address, and the files of
    the other pools are left alone. *)
Theorem lease_add_retrieve e pool ls l r addr :
  lease_wf l → l_pool_name l = Some pool → e_faults e = [] → file_holds e pool ls →
  ∃ e1 e2, lease_add l e = Ret (LEASE_OK, e1) ∧ file_holds e1 pool (ls ++ [l]) ∧
    same_other_files e e1 pool ∧
    lease_retrieve r addr (Some pool) e1 =
      Ret (match list_find (λ x, l_address x = addr) (ls ++ [l]) with
           | Some (_, l') => (LEASE_OK, with_pool_name l' (Some pool))
           | None => (LEASE_DOESNT_EXITS, with_pool_name r (Some pool))
           end, e2) ∧ file_holds e2 pool (ls ++ [l]).
Proof.
  intros Hw Hn Hnf Hf. destruct (add_correct e pool ls l Hw Hn Hnf Hf) as (e1 & H1 & Hf1 & Hn1 & Hs1).
  destruct (retrieve_correct e1 pool (ls ++ [l]) r addr Hn1 Hf1) as (e2 & H2 & _ & Hf2 & _).
  by exists e1, e2.
Qed.

(** With no failing system call [lease_remove] takes the first lease with
    the address out of the list and keeps the order of the others; when there
    is none it returns LEASE_DOESNT_EXITS and keeps the list. *)
Theorem lease_remove_spec e pool ls l :
  l_pool_name l = Some pool → e_faults e = [] → file_holds e pool ls →
  ∃ rv e', lease_remove l e = Ret (rv, e') ∧ e_faults e' = [] ∧ same_other_files e e' pool ∧
    match list_find (λ x, l_address x = l_address l) ls with
    | Some (i, _) => rv = LEASE_OK ∧ file_holds e' pool (delete i ls)
    | None => rv = LEASE_DOESNT_EXITS ∧ file_holds e' pool ls
    end.
Proof. apply remove_correct. Qed.

(** On a file that exists, [lease_add] survives every failure of a system
    call: it returns LEASE_OK and the lease was appended, or LEASE_ERROR and
    no file has changed. *)
Theorem lease_add_failures e pool ls l :
  lease_wf l → l_pool_name l = Some pool → is_Some (e_files e !! lease_path pool) →
  file_holds e pool ls →
  ∃ rv e', lease_add l e = Ret (rv, e') ∧
    (rv = LEASE_OK ∧ file_holds e' pool (ls ++ [l]) ∧ same_other_files e e' pool ∨
     rv = LEASE_ERROR ∧ e_files e' = e_files e).
Proof.
  intros Hw Hn [text Ht] Hf. destruct (lease_json_correct l Hw) as (j & Hj & _).
  unfold file_holds in Hf. rewrite Ht in Hf. destruct Hf as (root & arr & rest & -> & Hg & Hl).
  pose proof (tree_add root arr ls l j (conj Hg Hl) Hw Hj) as Ht'.
  destruct e as [files faults]. cbn [e_files] in *.
  assert (Hok : ∀ fs, file_holds (Env (<[lease_path pool := write_at 0 (cJSON_Print
      (cJSON_update_member root "leases" (cJSON_AddItemToArray arr j)))
      (cJSON_Print root ++ rest)]> files) fs) pool (ls ++ [l]) ∧
    same_other_files (Env files faults) (Env (<[lease_path pool := write_at 0 (cJSON_Print
      (cJSON_update_member root "leases" (cJSON_AddItemToArray arr j)))
      (cJSON_Print root ++ rest)]> files) fs) pool).
  { intros fs. split.
    - eapply written_holds; [|exact Ht']. cbn [e_files]. by rewrite lookup_insert_eq, write_at_0.
    - intros path Hne. cbn [e_files]. by rewrite lookup_insert_ne. }
  unfold lease_add. rewrite Hn, prog_bind_eq. unfold lift. rewrite Hj. cbv beta iota.
  unfold lease_open_lease_file, lease_load_lease_fila, sys_open, sys_lseek, sys_write, contents,
    mbind, prog_bind, get_state, put_state.
  assert (Herr : ∀ fs, ∃ rv e', Ret (LEASE_ERROR, Env files fs) = Ret (rv, e') ∧
    (rv = LEASE_OK ∧ file_holds e' pool (ls ++ [l]) ∧ same_other_files (Env files faults) e' pool ∨
     rv = LEASE_ERROR ∧ e_files e' = files)) by (intros fs; eexists _, _; split; [reflexivity|]; by right).
  rewrite fails_eq. destruct (hd_fault faults); cbn; rewrite ?Ht; cbn; [apply Herr|].
  rewrite fails_eq. destruct (hd_fault _); cbn; [apply Herr|].
  rewrite fails_eq. destruct (hd_fault _); cbn; [apply Herr|].
  rewrite Ht. cbn. rewrite (parse_print_spec _ _ _ _ Hg). cbn. rewrite Hg.
  rewrite fails_eq. destruct (hd_fault _); cbn; rewrite if_failed_n_spec; cbn; [apply Herr|].
  rewrite fails_eq. destruct (hd_fault _); cbn; rewrite ?Ht; cbn; rewrite if_failed_n_spec; cbn;
    [apply Herr|].
  rewrite (proj2 (Z.ltb_ge _ _)) by lia. eexists _, _. split; [reflexivity|].
  left. split; [done|]. apply Hok.
Qed.

(** A failure of the last [write] loses the database: the file was
    already truncated, so every lease of the pool is gone, and [lease_remove]
    returns what it would have returned without the failure. *)
Theorem lease_remove_write_failure files pool root arr rest ls l :
  l_pool_name l = Some pool → files !! lease_path pool = Some (cJSON_Print root ++ rest)%string →
  tree_holds root arr ls →
  ∃ e', lease_remove l (Env files [false; false; false; false; false; true]) =
    Ret (match list_find (λ x, l_address x = l_address l) ls with
         | Some _ => LEASE_OK | None => LEASE_DOESNT_EXITS end, e') ∧
  e_files e' !! lease_path pool = Some EmptyString.
Proof.
  intros Hn Hf Ht. pose proof Ht as [Hg Hl].
  unfold lease_remove, lease_open_lease_file, lease_load_lease_fila, sys_open, contents.
  rewrite Hn. unfold mbind, prog_bind, get_state. cbn. rewrite Hf. cbn. rewrite Hf. cbn.
  rewrite (parse_print_spec _ _ _ _ Hg). cbn. rewrite Hg. unfold lift.
  rewrite (find_lease_correct ls _ (l_address l) 0 Hl).
  assert (Hstore : ∀ root rv, lease_store (lease_path pool) root rv (Env files [false; false; true]) =
    Ret (rv, Env (<[lease_path pool := EmptyString]> files) [])).
  { intros root' rv. unfold lease_store, sys_ftruncate, sys_lseek, sys_write, mbind, prog_bind,
      get_state, put_state. cbn. rewrite if_failed_spec. cbn. rewrite if_failed_n_spec. reflexivity. }
  destruct (list_find _ ls) as [[i l0]|] eqn:Efind.
  - apply list_find_Some in Efind as (Hi & _).
    destruct (Forall2_lookup_l _ _ _ _ _ Hl Hi) as (j & Hj & _). rewrite Hj. cbv beta iota zeta.
    rewrite Hstore. eexists. split; [reflexivity|]. cbn. by rewrite lookup_insert_eq.
  - cbv beta iota zeta. rewrite Hstore. eexists. split; [reflexivity|].
    cbn. by rewrite lookup_insert_eq.
Qed.
End LeaseTheorems.

(** ** Witnesses *)
Definition sample_lease : lease_t :=
  Lease 3232235780 4294967040 (Some "Pool"%string) 1000 4600 3735928559 0 [2; 66; 172; 17; 0; 2].

Definition no_files : env := Env ∅ [].

Lemma sample_lease_wf : lease_wf sample_lease.
Proof. by_decision. Qed.

(** The database after the lease was added to no files. *)
Lemma sample_db : ∃ files, file_holds (CJ := TreeJson.tree_json) (Env files []) "Pool" [sample_lease] ∧
  is_Some (files !! lease_path "Pool").
Proof.
  destruct (@add_correct cclog_run TreeJson.tree_json no_files "Pool" [] sample_lease)
    as ([files fs] & _ & Hf & Hn & _); [exact sample_lease_wf | done | done | done |].
  cbn in Hn. subst fs. exists files. split; [exact Hf|]. unfold file_holds in Hf.
  cbn [e_files] in Hf. destruct (files !! lease_path "Pool"); [by eexists | discriminate].
Qed.

Lemma lease_json_roundtrip_witness : ∃ j,
  @lease_to_cjson TreeJson.tree_json sample_lease = Ret j ∧
  json_to_lease lease_new j "Pool" = Ret (LEASE_OK, sample_lease).
Proof.
  exact (@lease_json_roundtrip TreeJson.tree_json sample_lease lease_new "Pool" sample_lease_wf).
Defined.

Lemma lease_add_retrieve_witness : ∃ e1 e2,
  @lease_add cclog_run TreeJson.tree_json sample_lease no_files = Ret (LEASE_OK, e1) ∧
  @lease_retrieve cclog_run TreeJson.tree_json lease_new 3232235780 (Some "Pool"%string) e1 =
    Ret ((LEASE_OK, sample_lease), e2).
Proof.
  destruct (@lease_add_retrieve cclog_run TreeJson.tree_json no_files "Pool" [] sample_lease lease_new
    3232235780) as (e1 & e2 & H1 & _ & _ & H2 & _);
    [exact sample_lease_wf | reflexivity | reflexivity | reflexivity |].
  exists e1, e2. split; [exact H1 | exact H2].
Defined.

Lemma lease_remove_spec_witness : ∃ e e',
  @lease_remove cclog_run TreeJson.tree_json sample_lease e = Ret (LEASE_OK, e') ∧
  file_holds (CJ := TreeJson.tree_json) e' "Pool" [].
Proof.
  destruct sample_db as (files & Hf & _). exists (Env files []).
  destruct (@lease_remove_spec cclog_run TreeJson.tree_json (Env files []) "Pool" [sample_lease]
    sample_lease) as (rv & e' & H & _ & _ & Hr); [reflexivity | reflexivity | exact Hf |].
  destruct Hr as [-> Hr]. exists e'. split; [exact H | exact Hr].
Defined.

Lemma lease_add_failures_witness : ∃ files rv e',
  @lease_add cclog_run TreeJson.tree_json sample_lease (Env files [false; false; true]) = Ret (rv, e') ∧
  (rv = LEASE_OK ∨ rv = LEASE_ERROR).
Proof.
  destruct sample_db as (files & Hf & Hs). exists files.
  destruct (@lease_add_failures cclog_run TreeJson.tree_json (Env files [false; false; true]) "Pool"
    [sample_lease] sample_lease) as (rv & e' & H & Hr);
    [exact sample_lease_wf | reflexivity | exact Hs | exact Hf |].
  exists rv, e'. split; [exact H|]. destruct Hr as [[-> _]|[-> _]]; [left | right]; reflexivity.
Defined.

Lemma lease_remove_write_failure_witness : ∃ files e',
  @lease_remove cclog_run TreeJson.tree_json sample_lease
    (Env files [false; false; false; false; false; true]) = Ret (LEASE_OK, e') ∧
  e_files e' !! lease_path "Pool" = Some EmptyString.
Proof.
  destruct sample_db as (files & Hf & [text Ht]). unfold file_holds in Hf. cbn [e_files] in Hf.
  rewrite Ht in Hf. destruct Hf as (root & arr & rest & -> & Hg & Hl).
  destruct (@lease_remove_write_failure cclog_run TreeJson.tree_json files "Pool" root arr rest
    [sample_lease] sample_lease) as (e' & H & He); [reflexivity | exact Ht | split; [exact Hg | exact Hl] |].
  exists files, e'. split; [exact H | exact He].
Defined.
