(* ===== verification/Server.v ===== *)
(** The state of the server, [dhcp_server.h], and the code that runs on all of
    it: the components are fields of one record, together with what the
    program shares with the outside: the clock, the option lists of the
    messages, the lease files and the datagrams that were sent. *)
From Stdlib Require Import Ascii String.
From S2P Require Import Prelude Bytes Xtoy Rfc Options Packet AddressPool Allocator Timer Transaction Acl Json Files Lease Database.
Local Open Scope Z_scope.

(** [server->config]; a character array is the string it holds. *)
Record config := Config {
  config_path : string;
  interface : string;
  bound_ip : Z;
  broadcast_addr : Z;
  tick_delay : Z;
  cache_size : Z;
  trans_duration : Z;
  lease_expiration_check : Z;
  lease_time : Z;
  log_verbosity : Z;
  acl_enable : Z;
  dynamic_acl_enable : Z;
  acl_blacklist : Z;
  db_enable : Z;
}.

(** The functions behind the commands of the UNIX server. *)
Inductive command_func := command_echo_ptr | command_stop_ptr | command_rogue_scan_ptr
  | command_pool_status_ptr.

(** What the server shares with its commands: the flag that keeps it running,
    the transaction id of the last scan for rogue servers, the registered
    commands and the answers that were sent. *)
Record ipc := Ipc {
  server_keep_running : bool;
  xid_used_in_scan : Z;
  i_commands : list (string * command_func);
  i_responses : list string;
}.

Record dhcp_server := Server {
  s_allocator : address_allocator;
  s_trans_cache : transaction_cache;
  s_lease_timer : timer;
  s_acl : option ACL;
  s_dacl : option ACL;
  s_config : config;
  s_now : Z;                        (* time(NULL) *)
  s_heap : option_heap;             (* the option lists of messages *)
  s_env : env;                      (* lease files and system call faults *)
  s_sent : list (Z * list Z);       (* destination and bytes of each sendto *)
  s_ipc : ipc;
}.

Definition set_allocator (a : address_allocator) (s : dhcp_server) : dhcp_server :=
  Server a (s_trans_cache s) (s_lease_timer s) (s_acl s) (s_dacl s) (s_config s) (s_now s)
    (s_heap s) (s_env s) (s_sent s) (s_ipc s).
Definition set_cache (c : transaction_cache) (s : dhcp_server) : dhcp_server :=
  Server (s_allocator s) c (s_lease_timer s) (s_acl s) (s_dacl s) (s_config s) (s_now s)
    (s_heap s) (s_env s) (s_sent s) (s_ipc s).
Definition set_lease_timer (t : timer) (s : dhcp_server) : dhcp_server :=
  Server (s_allocator s) (s_trans_cache s) t (s_acl s) (s_dacl s) (s_config s) (s_now s)
    (s_heap s) (s_env s) (s_sent s) (s_ipc s).
Definition set_acl (a : option ACL) (s : dhcp_server) : dhcp_server :=
  Server (s_allocator s) (s_trans_cache s) (s_lease_timer s) a (s_dacl s) (s_config s)
    (s_now s) (s_heap s) (s_env s) (s_sent s) (s_ipc s).
Definition set_dacl (d : option ACL) (s : dhcp_server) : dhcp_server :=
  Server (s_allocator s) (s_trans_cache s) (s_lease_timer s) (s_acl s) d (s_config s) (s_now s)
    (s_heap s) (s_env s) (s_sent s) (s_ipc s).
Definition set_config (c : config) (s : dhcp_server) : dhcp_server :=
  Server (s_allocator s) (s_trans_cache s) (s_lease_timer s) (s_acl s) (s_dacl s) c (s_now s)
    (s_heap s) (s_env s) (s_sent s) (s_ipc s).
Definition set_now (n : Z) (s : dhcp_server) : dhcp_server :=
  Server (s_allocator s) (s_trans_cache s) (s_lease_timer s) (s_acl s) (s_dacl s) (s_config s)
    n (s_heap s) (s_env s) (s_sent s) (s_ipc s).
Definition set_heap (h : option_heap) (s : dhcp_server) : dhcp_server :=
  Server (s_allocator s) (s_trans_cache s) (s_lease_timer s) (s_acl s) (s_dacl s) (s_config s)
    (s_now s) h (s_env s) (s_sent s) (s_ipc s).
Definition set_env (e : env) (s : dhcp_server) : dhcp_server :=
  Server (s_allocator s) (s_trans_cache s) (s_lease_timer s) (s_acl s) (s_dacl s) (s_config s)
    (s_now s) (s_heap s) e (s_sent s) (s_ipc s).
Definition set_sent (l : list (Z * list Z)) (s : dhcp_server) : dhcp_server :=
  Server (s_allocator s) (s_trans_cache s) (s_lease_timer s) (s_acl s) (s_dacl s) (s_config s)
    (s_now s) (s_heap s) (s_env s) l (s_ipc s).
Definition set_ipc (i : ipc) (s : dhcp_server) : dhcp_server :=
  Server (s_allocator s) (s_trans_cache s) (s_lease_timer s) (s_acl s) (s_dacl s) (s_config s)
    (s_now s) (s_heap s) (s_env s) (s_sent s) i.

#[export] Instance dhcp_server_trans : TransServer dhcp_server := {|
  srv_allocator := s_allocator;
  srv_cache := s_trans_cache;
  srv_set_allocator := set_allocator;
  srv_set_cache := set_cache;
  srv_allocator_set s al := eq_refl;
  srv_cache_set s c := eq_refl;
  srv_allocator_set_cache s c := eq_refl;
  srv_cache_set_allocator s al := eq_refl;
|}.

(** ** Parts of the state *)

(** Code on the lease files. *)
Definition with_env {A} (m : prog env A) : prog dhcp_server A := λ s,
  match m (s_env s) with
  | Ret (a, e) => Ret (a, set_env e s)
  | Undef f => Undef f
  | NoFuel => NoFuel
  end.

(** [if (server->config.db_enable) database_store_message(m)] *)
Definition store_if_enabled `{CC : !Cclog} (m : dhcp_message) : prog dhcp_server () :=
  c ← gets s_config;
  if db_enable c =? 0 then mret ()
  else now ← gets s_now; _ ← with_env (database_store_message now m); mret ().

(** Code on the allocator that returns what it leaves. *)
Definition with_allocator {A} (f : address_allocator → result (A * address_allocator))
    : prog dhcp_server A := λ s,
  match f (s_allocator s) with
  | Ret (a, al) => Ret (a, set_allocator al s)
  | Undef f => Undef f
  | NoFuel => NoFuel
  end.

(** An option of a message. *)
Definition option_of (m : dhcp_message) (tag : Z) : prog dhcp_server (option dhcp_option) :=
  h ← gets s_heap; lift (retrieve_option h (m_dhcp_options m) tag).

(** [dhcp_message_new()] *)
Definition new_message : prog dhcp_server dhcp_message := λ s,
  let '(m, h) := dhcp_message_new (s_heap s) in Ret (m, set_heap h s).

(** [trans_cache_add_message(server->trans_cache, m)], with the message it
    stamps. *)
Definition cache_message (m : dhcp_message) : prog dhcp_server (Z * dhcp_message) := λ s,
  let '(rv, c, m) := trans_cache_add_message (s_now s) (s_trans_cache s) m in
  Ret ((rv, m), set_cache c s).

(** [sendto] of the packet of a message; the address is in network order. *)
Definition sendto (dest : Z) (m : dhcp_message) : prog dhcp_server Z :=
  f ← with_env fails;
  if (f : bool) then mret (-1)
  else
    _ ← modify (λ s, set_sent (s_sent s ++ [(dest, packet_encode (m_packet m))]) s);
    mret (zlen (packet_encode (m_packet m))).

(** [dhcp_packet_parse(m)] *)
Definition parse_message `{CC : !Cclog} (m : dhcp_message) : prog dhcp_server (Z * dhcp_message) := λ s,
  match dhcp_packet_parse (s_heap s) m with
  | Ret (rv, m, h) => Ret ((rv, m), set_heap h s)
  | Undef f => Undef f
  | NoFuel => NoFuel
  end.

(** What [recv] finds on a datagram socket: a datagram, nothing ([EAGAIN]) or
    another error. *)
Inductive recv_result := Datagram (bytes : list Z) | NoDatagram | RecvError.

(** [sizeof(dhcp_packet_t)] *)
Definition PACKET_SIZE : nat := 576.

(** [recv(fd, &m->packet, sizeof(dhcp_packet_t), 0)]: what a datagram does not
    fill of the packet stays as it is, what does not fit is lost. *)
Definition recv_packet (m : dhcp_message) (bytes : list Z) : dhcp_message :=
  let bytes := take PACKET_SIZE bytes in
  with_packet m (packet_decode (bytes ++ drop (length bytes) (packet_encode (m_packet m)))).

(** What [store_if_enabled] leaves of the files. *)
Definition stored_if_enabled `{CC : !Cclog} (m : dhcp_message) (s : dhcp_server) (e : env) : Prop :=
  if db_enable (s_config s) =? 0 then e = s_env s else recorded (s_now s) m (s_env s) e.

Lemma store_if_enabled_stored `{CC : !Cclog} m s : 6 ≤ zlen (m_chaddr m) →
  ∃ e', store_if_enabled m s = Ret ((), set_env e' s) ∧ stored_if_enabled m s e'.
Proof.
  intros Hl. unfold store_if_enabled, stored_if_enabled. rewrite bind_gets. destruct (_ =? _).
  - exists (s_env s). split; [by destruct s | done].
  - rewrite bind_gets, prog_bind_eq. unfold with_env.
    destruct (database_store_recorded (s_now s) m (s_env s) Hl) as (rv & e' & -> & He). by exists e'.
Qed.

Lemma stored_outside `{CC : !Cclog} m s e : stored_if_enabled m s e → outside_database (s_env s) e.
Proof. unfold stored_if_enabled. destruct (_ =? _); [by intros -> | by intros [? _]]. Qed.

Lemma store_if_enabled_run `{CC : !Cclog} m s : 6 ≤ zlen (m_chaddr m) →
  ∃ e', store_if_enabled m s = Ret ((), set_env e' s) ∧ outside_database (s_env s) e'.
Proof.
  intros Hl. destruct (store_if_enabled_stored m s Hl) as (e' & H & He).
  exists e'. split; [done | by eapply stored_outside].
Qed.

Lemma with_env_run {A} (m : prog env A) s a e : m (s_env s) = Ret (a, e) →
  with_env m s = Ret (a, set_env e s).
Proof. intros H. unfold with_env. by rewrite H. Qed.
