(* ===== verification/Archive.v ===== *)
(** The packet database read back, [database.c]: a stored transaction is loaded
    by its id and hardware address, or by one of them with the directory
    searched for the other. *)
From Stdlib Require Import Ascii String.
From S2P Require Import Prelude Bytes Xtoy Scanf Files Rfc Options Packet Timer Transaction Database Server.
Local Open Scope Z_scope.

(** ** Reading a file *)

(** [read(fd, buff, n)] at a position; the loop below moves the position on by
    what was read. *)
Definition sys_read_n (path : string) (pos n : nat) : prog env (option string) :=
  f ← fails;
  e ← get_state;
  mret (if (f : bool) then None else Some (str_take n (str_drop pos (contents e path)))).

(** [sscanf(buff, "T:%08lx", ...)] *)
Definition scan_metadata (buff : string) : option Z :=
  s ← scan_char "T" buff; s ← scan_char ":" s; '(v, _) ← scan_08lx s; Some v.

(** [read(fd, &message->packet, ...)]: a short read leaves the rest. *)
Definition read_packet (message : dhcp_message) (data : string) : dhcp_message :=
  recv_packet message (code <$> list_ascii_of_string data).

Section Archive.
Context `{CC : !Cclog}.

(** ** Loading a transaction *)

(** The loop over the records; the padding after [message->time] takes the upper
    half of the [unsigned long] that [sscanf] stores. *)
Fixpoint load_loop (fuel : nat) (path : string) (pos : nat) (message : dhcp_message)
    (trans : transaction) : prog dhcp_server (option transaction) :=
  match fuel with
  | O => λ _, NoFuel
  | S fuel =>
      buff ← with_env (sys_read_n path pos (Z.to_nat METADATA_LEN));
      match buff with
      | None => mret None
      | Some buff =>
          let pos := (pos + String.length buff)%nat in
          data ← with_env (sys_read_n path pos PACKET_SIZE);
          match data with
          | None => mret None
          | Some data =>
              if (String.length data =? 0)%nat then mret (Some trans)
              else
                let pos := (pos + String.length data)%nat in
                let message := read_packet message data in
                match scan_metadata buff with
                | None => load_loop fuel path pos message trans
                | Some time =>
                    '(rv, message) ← parse_message (with_time message (u32 time));
                    if if_failed rv then mret None
                    else
                      now ← gets s_now;
                      let '(rv, trans) := trans_add now trans message in
                      if if_failed rv then mret None
                      else load_loop fuel path pos message trans
                end
          end
      end
  end.

(** Every turn but the last moves the position on. *)
Definition load_fuel (e : env) (path : string) : nat := S (String.length (contents e path)).

Definition database_load_transaction (xid : Z) (mac : list Z)
    : prog dhcp_server (option transaction) :=
  if xid =? 0 then mret None
  else
    now ← gets s_now;
    let trans := trans_new now 0 in
    mac ← lift (slice mac 0 6);
    let path := database_file xid mac in
    fd ← with_env (sys_open path);
    match fd with
    | Opened path pos =>
        message ← new_message;
        e ← gets s_env;
        load_loop (load_fuel e path) path pos message trans
    | _ => mret None
    end.

(** [mac_arr] is what the stack holds: bytes that the text does not give stay. *)
Definition database_load_transaction_str (mac_arr : list Z) (xid : Z) (mac : string)
    : prog dhcp_server (option transaction) :=
  mac_arr ← lift (mac_to_uint8_array mac mac_arr);
  database_load_transaction xid mac_arr.

(** ** Searching the directory *)

(** [sscanf(entry->d_name, "%08x_%[a-f0-9].dhcp", &dxid, dmac)]: the text after
    the address is not looked at; the buffer [dmac] has room for 31
    characters. *)
Definition scan_entry (name : string) : result (option (Z * string)) :=
  match ('(dxid, s) ← scan_08x name; s ← scan_char "_" s; Some (dxid, scan_lower_hex s)) with
  | None => mret None
  | Some (dxid, dmac) =>
      if (String.length dmac =? 0)%nat then mret None
      else if (32 <=? Z.of_nat (String.length dmac)) then Undef OutOfBounds
      else mret (Some (dxid, dmac))
  end.

(** [strncmp(a, b, 12) == 0] *)
Definition same_mac_text (a b : string) : bool := String.eqb (str_take 12 a) (str_take 12 b).

Fixpoint search_entries (entries : list string) (xid : Z) (mac : list Z) (find_xid : bool)
    : result (option (Z * list Z)) :=
  match entries with
  | [] => mret None
  | name :: entries =>
      e ← scan_entry name;
      match e with
      | None => search_entries entries xid mac find_xid
      | Some (dxid, dmac) =>
          if find_xid && same_mac_text (print_hex mac) dmac then mret (Some (dxid, mac))
          else if dxid =? xid then
            mac ← blit mac 0 (scan_pairs 6 dmac); mret (Some (xid, mac))
          else search_entries entries xid mac find_xid
      end
  end.

(** The names [readdir] gives; [None]: [opendir] failed. *)
Definition database_find_xid_or_mac (dir : option (list string)) (xid : Z) (mac : list Z)
    (find_xid : bool) : prog dhcp_server (option transaction) :=
  match dir with
  | None => mret None
  | Some entries =>
      found ← lift (search_entries entries xid mac find_xid);
      match found with
      | None => mret None
      | Some (xid, mac) => database_load_transaction xid mac
      end
  end.

Definition database_load_transaction_xid (dir : option (list string)) (xid : Z)
    : prog dhcp_server (option transaction) :=
  database_find_xid_or_mac dir xid (zeros 6) false.

Definition database_load_transaction_mac (dir : option (list string)) (mac : list Z)
    : prog dhcp_server (option transaction) :=
  database_find_xid_or_mac dir 0 mac true.

Definition database_load_transaction_mac_str (dir : option (list string)) (mac_arr : list Z)
    (mac : string) : prog dhcp_server (option transaction) :=
  mac_arr ← lift (mac_to_uint8_array mac mac_arr);
  database_load_transaction_mac dir mac_arr.

(** ** Specification *)

(** A message that agrees with its packet, and whose packet is one the server
    accepts: what was received, or built to be sent. *)
Definition archivable (xid : Z) (mac : list Z) (m : dhcp_message) (os : list dhcp_option) : Prop :=
  packet_wf (m_packet m) ∧ same_header m (parse_header m) ∧ m_xid m = xid ∧
  length (m_chaddr m) = CHADDR_LEN ∧ take 6 (m_chaddr m) = mac ∧ is_bytes mac ∧
  ntohl (pk_cookie (m_packet m)) = MAGIC_COOKIE ∧
  dhcp_option_parse [] (pk_options (m_packet m)) = Ret (0, os) ∧
  option_map value_number (dhcp_option_retrieve os DHCP_OPTION_DHCP_MESSAGE_TYPE) = Some (m_type m).

(** What was stored at [time] and what is loaded. *)
Definition loaded_from (time : Z) (m r : dhcp_message) : Prop :=
  m_packet r = m_packet m ∧ same_header m r ∧ m_type r = m_type m ∧ m_time r = time.
End Archive.

(** The messages of a conversation, stored one after the other. *)
Fixpoint store_all `{CC : !Cclog} (stored : list (Z * dhcp_message)) : prog env () :=
  match stored with
  | [] => mret ()
  | (time, m) :: stored => _ ← database_store_message time m; store_all stored
  end.

(** ** Lemmas *)
Lemma str_drop_app s t : str_drop (String.length s) (s ++ t) = t.
Proof. induction s as [|c s IH]; [by destruct t|]. exact IH. Qed.
Lemma str_take_app s t : str_take (String.length s) (s ++ t) = s.
Proof.
  induction s as [|c s IH]; [by destruct t|]. rewrite string_app_cons. cbn [String.length str_take].
  by rewrite IH.
Qed.

Lemma length_str_zeros n : String.length (str_zeros n) = n.
Proof. unfold str_zeros. induction n as [|n IH]; [done|]. cbn. by rewrite IH. Qed.

Lemma bytes_string_length bs : String.length (bytes_string bs) = length bs.
Proof. unfold bytes_string. induction bs as [|b bs IH]; [done|]. cbn. by rewrite IH. Qed.

Lemma code_byte_char b : is_u8 b → code (byte_char b) = b.
Proof.
  intros Hb. unfold code, byte_char. unfold is_u8 in Hb. change (2 ^ 8) with 256 in Hb.
  rewrite N_ascii_embedding by lia. lia.
Qed.

Lemma bytes_string_code bs : is_bytes bs → code <$> list_ascii_of_string (bytes_string bs) = bs.
Proof.
  intros Hb. unfold bytes_string. rewrite list_ascii_of_string_of_list_ascii.
  induction Hb as [|b bs Hb Hbs IH]; [done|]. cbn. by rewrite code_byte_char, IH.
Qed.

(** Both reads of a record. *)
Lemma read_n_run path files pre data post : files !! path = Some (pre ++ data ++ post)%string →
  ∀ n pos, n = String.length data → pos = String.length pre →
  sys_read_n path pos n (Env files []) = Ret (Some data, Env files []).
Proof.
  intros Hf n pos -> ->. unfold sys_read_n, contents, mbind, prog_bind, get_state. cbn. rewrite Hf.
  cbn. by rewrite str_drop_app, str_take_app.
Qed.

Lemma read_n_end path files content n : files !! path = Some content →
  sys_read_n path (String.length content) n (Env files []) = Ret (Some "", Env files []).
Proof.
  intros Hf. rewrite <-(string_app_nil content) in Hf.
  unfold sys_read_n, contents, mbind, prog_bind, get_state. cbn. rewrite Hf. cbn.
  rewrite str_drop_app. by destruct n.
Qed.

Lemma metadata_text time m mac : length (m_chaddr m) = CHADDR_LEN → take 6 (m_chaddr m) = mac →
  metadata time m = Ret ("T:" ++ print_08x time ++ "CA:" ++ print_hex mac ++ "P:")%string.
Proof.
  intros Hl <-. unfold metadata. rewrite slice_prefix by (unfold zlen; rewrite Hl; unfold CHADDR_LEN; lia).
  reflexivity.
Qed.

Lemma scan_metadata_text time rest : is_u32 time →
  scan_metadata ("T:" ++ print_08x time ++ rest) = Some time.
Proof.
  intros Ht. unfold scan_metadata. change ("T:" ++ ?x)%string with (String "T" (String ":" x)).
  cbn [scan_char mbind option_bind]. rewrite Ascii.eqb_refl. cbn [mbind option_bind scan_char].
  rewrite Ascii.eqb_refl. cbn [mbind option_bind]. by rewrite scan_print_08lx.
Qed.

Lemma print_08x_length n : is_u32 n → String.length (print_08x n) = 8%nat.
Proof. intros Hn. rewrite print_08x_text by done. reflexivity. Qed.

Lemma metadata_buffer_length time m mac text : is_u32 time → length (m_chaddr m) = CHADDR_LEN →
  take 6 (m_chaddr m) = mac → metadata time m = Ret text →
  String.length (metadata_buffer text) = Z.to_nat METADATA_LEN.
Proof.
  intros Ht Hl Hm H. rewrite (metadata_text time m mac Hl Hm) in H. injection H as <-.
  assert (Hlm : length mac = 6%nat).
  { subst mac. rewrite length_take, Hl. unfold CHADDR_LEN. lia. }
  unfold metadata_buffer. rewrite string_length_app, length_str_zeros, !string_length_app.
  rewrite print_08x_length, print_hex_length, Hlm by done. reflexivity.
Qed.

Lemma packet_encode_bytes p : packet_wf p → is_bytes (packet_encode p).
Proof.
  intros (H8 & _ & _ & _ & _ & _ & _ & _ & Hb). unfold packet_encode.
  unfold is_bytes in *. rewrite !Forall_app in *.
  destruct Hb as (Hc & Hs & Hf & Ho). split_and!; try done; apply le_bytes_is_bytes.
Qed.

Lemma read_packet_record message p : packet_wf (m_packet message) → packet_wf p →
  read_packet message (bytes_string (packet_encode p)) = with_packet message p.
Proof.
  intros Hm Hp. unfold read_packet, recv_packet. rewrite bytes_string_code.
  - pose proof (length_packet_encode p Hp) as Hlp. unfold PACKET_SIZE.
    rewrite take_ge by lia. rewrite drop_ge by (rewrite length_packet_encode by done; lia).
    by rewrite app_nil_r, packet_decode_encode.
  - by apply packet_encode_bytes.
Qed.

Lemma parse_header_loaded m message time : packet_wf (m_packet m) → same_header m (parse_header m) →
  length (m_chaddr m) = CHADDR_LEN → length (m_chaddr message) = CHADDR_LEN →
  same_header m (parse_header (with_time (with_packet message (m_packet m)) time)).
Proof.
  intros (_ & _ & _ & _ & Hc & _) H Hl Hl'.
  destruct H as (? & ? & ? & ? & ? & ? & ? & ? & ? & ? & ? & Hch & ? & ? & ?).
  unfold same_header. split_and!; try done. rewrite <-Hch.
  unfold parse_header, with_time, with_packet.
  cbn [m_chaddr m_packet]. unfold splice. rewrite !take_0, !app_nil_l.
  by rewrite !take_app_le by (unfold PACKET_CHADDR_LEN in *; lia).
Qed.

(** The message the loop reads into. *)
Definition ready (h : option_heap) (message : dhcp_message) : Prop :=
  packet_wf (m_packet message) ∧ length (m_chaddr message) = CHADDR_LEN ∧
  ∃ p os, m_dhcp_options message = Some p ∧ load_options h p = Ret os.

Definition freed (h : option_heap) (m : dhcp_message) : Prop :=
  ∃ p, m_dhcp_options m = Some p ∧ h !! p = Some None.

Section ArchiveTheorems.
Context `{CC : !Cclog}.
#[local] Opaque dhcp_option_parse.

(** Parsing a stored packet. *)
Lemma parse_stored xid mac m os message time s :
  archivable xid mac m os → ready (s_heap s) message →
  ∃ r h, parse_message (with_time (with_packet message (m_packet m)) time) s =
      Ret ((0, r), set_heap h s) ∧
    loaded_from time m r ∧ ready h r ∧ freed h message ∧
    (∀ m', freed (s_heap s) m' → freed h m') ∧
    (∃ p, m_dhcp_options r = Some p ∧ load_options h p = Ret os).
Proof.
  intros (Hp & Hsame & Hx & Hl & Hmac & Hmb & Hc & Hparse & Htype) (Hmp & Hml & p & os0 & Hq & Hlo).
  set (m0 := with_time (with_packet message (m_packet m)) time).
  destruct (parse_eq (s_heap s) m0 p os0 Hc Hq Hlo) as (p' & Hf & Hne & Hrun).
  assert (Hpk : m_packet m0 = m_packet m) by reflexivity.
  pose proof (parse_header_loaded m message time Hp Hsame Hl Hml) as Hh. fold m0 in Hh.
  destruct (dhcp_option_retrieve os DHCP_OPTION_DHCP_MESSAGE_TYPE) as [o|] eqn:Eo; [|done].
  injection Htype as Htype.
  eexists _, _. unfold parse_message. rewrite Hrun. unfold parse_rest.
  rewrite Hpk, Hparse, ret_bind. cbv beta iota zeta. rewrite if_failed_spec.
  cbv beta iota delta [negb Z.eqb]. rewrite Eo. split; [reflexivity|].
  split; [split; [exact Hpk|]; split; [by apply same_header_options|]; split; done|].
  assert (Hlive : load_options (store_options (<[p':=Some []]> (<[p:=None]> (s_heap s))) p' os) p' =
    Ret os) by (unfold load_options, store_options; by rewrite lookup_insert_eq).
  split; [|split; [|split]].
  - split; [exact Hp|]. split; [|exists p', os; split; [reflexivity | exact Hlive]].
    cbn [m_chaddr with_type with_options parse_header]. rewrite length_splice; [exact Hml|].
    destruct Hp as (_ & _ & _ & _ & Hch & _). change (m_chaddr m0) with (m_chaddr message).
    rewrite Hpk, Hml, Hch. unfold CHADDR_LEN, PACKET_CHADDR_LEN. lia.
  - exists p. split; [exact Hq|]. unfold store_options.
    by rewrite !lookup_insert_ne, lookup_insert_eq by done.
  - intros m' (q & Hq' & Hfree). exists q. split; [done|]. unfold store_options.
    assert (p' ≠ q) by (intros ->; congruence). rewrite !lookup_insert_ne by done.
    destruct (decide (p = q)) as [->|]; [by rewrite lookup_insert_eq | by rewrite lookup_insert_ne].
  - exists p'. split; [reflexivity | exact Hlive].
Qed.

Lemma with_env_same {A} (c : prog env A) s a : c (s_env s) = Ret (a, s_env s) →
  with_env c s = Ret (a, s).
Proof. intros H. rewrite (with_env_run c s a _ H). by destruct s. Qed.

(** One turn on a record: its message joins the transaction. *)
Lemma load_turn fuel path files pre post xid mac time m os message trans s :
  s_env s = Env files [] → archivable xid mac m os → is_u32 time → xid ≠ 0 →
  (∀ text, metadata time m = Ret text →
     files !! path = Some (pre ++ record_of text m ++ post)%string) →
  ready (s_heap s) message → trans_wf trans →
  (t_xid trans = 0 ∧ t_messages trans = [] ∨ t_xid trans = xid) →
  ∃ r trans' h, load_loop (S fuel) path (String.length pre) message trans s =
      load_loop fuel path (String.length pre + 704) r trans' (set_heap h s) ∧
    loaded_from time m r ∧ t_messages trans' = t_messages trans ++ [r] ∧ t_xid trans' = xid ∧
    trans_wf trans' ∧ ready h r ∧ freed h message ∧
    (∀ m', freed (s_heap s) m' → freed h m') ∧
    (∃ p, m_dhcp_options r = Some p ∧ load_options h p = Ret os).
Proof.
  intros He Ha Ht Hx Hfile Hr Hw Htx.
  pose proof Ha as (Hp & _ & Hmx & Hl & Hmac & _).
  pose proof (metadata_text time m mac Hl Hmac) as Htext.
  set (text := ("T:" ++ _)%string) in Htext. specialize (Hfile text Htext).
  pose proof (metadata_buffer_length time m mac text Ht Hl Hmac Htext) as Hbl.
  unfold record_of in Hfile. rewrite <-string_app_assoc in Hfile.
  destruct (parse_stored xid mac m os message time s) as (r & h & Hrun & Hlr & Hready & Hfr & Hold & Hopt);
    [done.. |].
  destruct (trans_add_spec (s_now s) trans r) as (trans' & Hadd & Hw' & Hx' & Hms).
  { done. }
  { destruct Hlr as (_ & (_ & _ & _ & _ & -> & _) & _). rewrite Hmx. tauto. }
  { intros H0. destruct Htx as [[_ ?]|E]; [by left | congruence]. }
  exists r, trans', h. cbn [load_loop].
  rewrite prog_bind_eq, (with_env_same _ _ (Some (metadata_buffer text))) by
    (rewrite He; by eapply read_n_run).
  cbv beta iota zeta. rewrite Hbl.
  assert (Hdl : String.length (bytes_string (packet_encode (m_packet m))) = PACKET_SIZE)
    by (rewrite bytes_string_length; by apply length_packet_encode).
  rewrite prog_bind_eq, (with_env_same _ _ (Some (bytes_string (packet_encode (m_packet m))))).
  2:{ rewrite He. eapply (read_n_run path files (pre ++ metadata_buffer text) _ post).
      - by rewrite Hfile, <-string_app_assoc.
      - by rewrite Hdl.
      - by rewrite string_length_app, Hbl. }
  cbv beta iota zeta. rewrite Hdl. change (PACKET_SIZE =? 0)%nat with false. cbv iota.
  unfold metadata_buffer at 1, text at 1. rewrite <-!string_app_assoc, scan_metadata_text by done.
  rewrite u32_small, read_packet_record by (done || apply Hr).
  rewrite prog_bind_eq, Hrun. cbv beta iota. rewrite if_failed_spec. cbn [Z.eqb negb].
  rewrite bind_gets. change (s_now (set_heap h s)) with (s_now s). rewrite Hadd. cbv beta iota.
  rewrite if_failed_spec. cbn [Z.eqb negb].
  split; [f_equal; unfold METADATA_LEN, PACKET_SIZE; lia|].
  destruct Hlr as (? & Hsh & ? & ?). pose proof Hsh as (_ & _ & _ & _ & Hxr & _).
  split_and!; try done. by rewrite Hx', Hxr, Hmx.
Qed.

(** The contents of a file to which messages were stored. *)
Inductive records (xid : Z) (mac : list Z) : list (Z * dhcp_message) → string → Prop :=
  | records_nil : records xid mac [] ""
  | records_cons time m os text stored content :
      is_u32 time → archivable xid mac m os → metadata time m = Ret text →
      records xid mac stored content →
      records xid mac ((time, m) :: stored) (record_of text m ++ content)%string.

Lemma record_length xid mac time m os text : is_u32 time → archivable xid mac m os →
  metadata time m = Ret text → String.length (record_of text m) = 704%nat.
Proof.
  intros Ht (Hp & _ & _ & Hl & Hmac & _) H. unfold record_of.
  rewrite string_length_app, bytes_string_length, length_packet_encode by done.
  by rewrite (metadata_buffer_length time m mac text Ht Hl Hmac H).
Qed.

Lemma records_length xid mac stored content : records xid mac stored content →
  String.length content = (704 * length stored)%nat.
Proof.
  induction 1 as [|time m os text stored content Ht Ha Hm Hr IH]; [done|].
  rewrite string_length_app, IH, (record_length xid mac time m os text) by done. simpl. lia.
Qed.

(** The loop reads all the records from a position on. *)
Lemma load_records xid mac stored content path files : xid ≠ 0 → records xid mac stored content →
  ∀ fuel pre message trans s, (length stored < fuel)%nat → s_env s = Env files [] →
  files !! path = Some (pre ++ content)%string → ready (s_heap s) message → trans_wf trans →
  (t_xid trans = 0 ∧ t_messages trans = [] ∨ t_xid trans = xid) →
  ∃ rs trans' h, load_loop fuel path (String.length pre) message trans s =
      Ret (Some trans', set_heap h s) ∧ Forall2 (λ '(time, m) r, loaded_from time m r) stored rs ∧
    t_messages trans' = t_messages trans ++ rs ∧ (t_xid trans = xid ∨ stored ≠ [] → t_xid trans' = xid) ∧
    trans_wf trans' ∧ (∀ m', freed (s_heap s) m' → freed h m') ∧
    (stored ≠ [] → freed h message) ∧ Forall (freed h) (take (length stored - 1) rs).
Proof.
  intros Hx Hrec. induction Hrec as [|time m os text stored content Ht Ha Hm Hrec IH];
    intros fuel pre message trans s Hfuel He Hfile Hr Hw Htx; (destruct fuel as [|fuel]; [lia|]).
  - exists [], trans, (s_heap s). rewrite string_app_nil in Hfile. cbn [load_loop].
    rewrite prog_bind_eq, (with_env_same _ _ (Some ""%string)) by (rewrite He; by apply read_n_end).
    cbv beta iota zeta. rewrite Nat.add_0_r.
    rewrite prog_bind_eq, (with_env_same _ _ (Some ""%string)) by (rewrite He; by apply read_n_end).
    cbv beta iota. rewrite app_nil_r. split_and!; try done; [by destruct s | by intros [?|?]].
  - destruct (load_turn fuel path files pre content xid mac time m os message trans s)
      as (r & trans1 & h1 & Hrun & Hlr & Hms & Hx1 & Hw1 & Hr1 & Hfr & Hold & _); try done.
    { intros text' Htext'. rewrite Hm in Htext'. injection Htext' as <-. exact Hfile. }
    cbn [length] in Hfuel.
    destruct (IH fuel (pre ++ record_of text m)%string r trans1 (set_heap h1 s))
      as (rs & trans' & h & Hrun' & Hall & Hms' & Hx' & Hw' & Hold' & Hfr' & Hfreed); try done.
    { lia. } { by rewrite <-string_app_assoc. } { by right. }
    exists (r :: rs), trans', h. rewrite Hrun.
    rewrite string_length_app, (record_length xid mac time m os text) in Hrun' by done.
    rewrite Hrun'. split_and!; try done; [by constructor | | | by auto | by auto |].
    + by rewrite Hms', Hms, <-app_assoc.
    + intros _. apply Hx'. by left.
    + destruct stored as [|x stored']; [constructor|]. cbn [length].
      replace (S (S (length stored')) - 1)%nat with (S (S (length stored') - 1))%nat by lia.
      cbn [take]. constructor; [by apply Hfr' | exact Hfreed].
Qed.

(** Storing writes the records, one after the other. *)
Lemma archivable_path xid mac m os : archivable xid mac m os →
  database_path m = Ret (database_file xid mac).
Proof.
  intros (_ & _ & Hx & Hl & Hmac & _). unfold database_path.
  rewrite slice_prefix by (unfold zlen; rewrite Hl; unfold CHADDR_LEN; lia).
  cbn [mbind result_bind]. change (Z.to_nat 6) with 6%nat. by rewrite Hx, Hmac.
Qed.

Lemma store_records xid mac stored :
  Forall (λ '(time, m), is_u32 time ∧ ∃ os, archivable xid mac m os) stored → ∀ files, ∃ content files',
  records xid mac stored content ∧ store_all stored (Env files []) = Ret ((), Env files' []) ∧
  (stored = [] → files' = files) ∧
  (stored ≠ [] → files' !! database_file xid mac =
     Some (default "" (files !! database_file xid mac) ++ content)%string).
Proof.
  induction 1 as [|[time m] stored (Ht & os & Ha) _ IH]; intros files.
  - exists ""%string, files. split_and!; [constructor | done..].
  - pose proof Ha as (_ & _ & _ & Hl & Hmac & _).
    pose proof (metadata_text time m mac Hl Hmac) as Htext. set (text := ("T:" ++ _)%string) in Htext.
    pose proof (database_store_message_spec_run time m files _ text (archivable_path xid mac m os Ha) Htext)
      as Hstore.
    set (path := database_file xid mac) in *.
    set (files1 := <[path := _]> files) in Hstore. destruct (IH files1) as (content & files' & Hr & Hrun & H0 & H1).
    exists (record_of text m ++ content)%string, files'. split; [by econstructor|].
    split; [cbn [store_all]; by rewrite prog_bind_eq, Hstore|]. split; [done|]. intros _.
    destruct stored as [|x stored'].
    + rewrite H0 by done. subst files1. rewrite lookup_insert_eq. inversion Hr.
      by rewrite string_app_nil.
    + rewrite H1 by done. subst files1. rewrite lookup_insert_eq. cbn [default from_option id].
      by rewrite string_app_assoc.
Qed.

(** Loading a stored conversation. *)
Lemma load_stored xid mac stored content s files : xid ≠ 0 → length mac = 6%nat →
  records xid mac stored content → stored ≠ [] → s_env s = Env files [] →
  files !! database_file xid mac = Some content →
  ∃ trans h, database_load_transaction xid mac s = Ret (Some trans, set_heap h s) ∧
    t_xid trans = xid ∧
    Forall2 (λ '(time, m) r, loaded_from time m r) stored (t_messages trans) ∧
    Forall (freed h) (take (length stored - 1) (t_messages trans)).
Proof.
  intros Hx Hml Hrec Hne He Hfile.
  unfold database_load_transaction. rewrite (proj2 (Z.eqb_neq _ _) Hx), bind_gets, prog_bind_eq.
  unfold lift at 1. rewrite slice_prefix by (unfold zlen; lia).
  rewrite take_ge by (rewrite Hml; reflexivity). cbv beta iota zeta.
  rewrite prog_bind_eq, (with_env_same _ _ (Opened (database_file xid mac) 0)).
  2:{ rewrite He. unfold sys_open, mbind, prog_bind, get_state. cbn -[database_file].
      by rewrite Hfile. }
  cbv beta iota. rewrite prog_bind_eq. unfold new_message, dhcp_message_new, new_options.
  set (p := fresh (dom (s_heap s))). cbv beta iota zeta. rewrite bind_gets.
  unfold load_fuel, contents. cbn [s_env set_heap]. rewrite He. cbn [e_files]. rewrite Hfile.
  cbn [default from_option id].
  match goal with |- context [load_loop _ _ _ ?m ?t ?s1] =>
    destruct (load_records xid mac stored content (database_file xid mac) files Hx Hrec
      (S (String.length content)) "" m t s1) as (rs & trans & h & Hrun & Hall & Hms & Htx & _ & _ & _ & Hfr) end.
  - rewrite (records_length xid mac stored content Hrec). lia.
  - exact He.
  - exact Hfile.
  - split; [by_decision|]. split; [reflexivity|]. exists p, []. split; [reflexivity|].
    unfold load_options. cbn [s_heap set_heap]. by rewrite lookup_insert_eq.
  - apply trans_new_wf.
  - by left.
  - exists trans, h. cbn [String.length] in Hrun. rewrite Hrun.
    change (t_messages (trans_new _ 0)) with (@nil dhcp_message) in Hms. rewrite app_nil_l in Hms.
    subst rs. split_and!; try done. apply Htx. by right.
Qed.

(** C24. Round trip over the disk: when the messages of a conversation are
    stored one after the other, loading the transaction by its id and hardware
    address gives back each of them in order, with its packet, its header, its
    type and the time it was stored. *)
Theorem database_store_load xid mac stored files : xid ≠ 0 → length mac = 6%nat → stored ≠ [] →
  Forall (λ '(time, m), is_u32 time ∧ ∃ os, archivable xid mac m os) stored →
  files !! database_file xid mac = None →
  ∃ e, store_all stored (Env files []) = Ret ((), e) ∧
  ∀ s, s_env s = e → ∃ trans s', database_load_transaction xid mac s = Ret (Some trans, s') ∧
    t_xid trans = xid ∧
    Forall2 (λ '(time, m) r, loaded_from time m r) stored (t_messages trans).
Proof.
  intros Hx Hml Hne Hall Hnone.
  destruct (store_records xid mac stored Hall files) as (content & files' & Hrec & Hrun & _ & Hfile).
  exists (Env files' []). split; [exact Hrun|]. intros s He. specialize (Hfile Hne).
  rewrite Hnone in Hfile.
  destruct (load_stored xid mac stored content s files') as (trans & h & H & Htx & Hms & _); try done.
  by exists trans, (set_heap h s).
Qed.

(** The loaded messages share the fate of one option list: each packet
    that is parsed frees the list of the one before, so only the last message
    still has its options.  Looking up an option of another one is a use after
    free. *)
Theorem database_load_dangles xid mac stored x y content s files : xid ≠ 0 → length mac = 6%nat →
  records xid mac (x :: stored ++ [y]) content → s_env s = Env files [] →
  files !! database_file xid mac = Some content →
  ∃ trans s' m ms, database_load_transaction xid mac s = Ret (Some trans, s') ∧
    t_messages trans = m :: ms ∧
    ∀ tag, option_of m tag s' = Undef UseAfterFree.
Proof.
  intros Hx Hml Hrec He Hfile.
  destruct (load_stored xid mac (x :: stored ++ [y]) content s files) as (trans & h & H & _ & Hms & Hfr);
    try done.
  apply Forall2_cons_inv_l in Hms as (m & ms & _ & _ & Hms). exists trans, (set_heap h s), m, ms.
  split; [exact H|]. split; [exact Hms|]. intros tag. rewrite Hms in Hfr.
  assert (freed h m) as (p & Hp & Hf).
  { cbn [length] in Hfr. rewrite length_app in Hfr. cbn [length] in Hfr.
    replace (S (length stored + 1) - 1)%nat with (S (length stored)) in Hfr by lia.
    cbn [take] in Hfr. by apply Forall_cons in Hfr as [? _]. }
  unfold option_of. rewrite bind_gets. unfold lift, retrieve_option. rewrite Hp.
  unfold load_options. cbn [s_heap set_heap]. by rewrite Hf.
Qed.

(** ** Termination *)
Lemma read_n_files path pos n e data e' : sys_read_n path pos n e = Ret (Some data, e') →
  e_files e' = e_files e ∧ data = str_take n (str_drop pos (contents e path)).
Proof.
  destruct e as [files fs]. unfold sys_read_n, mbind, prog_bind, get_state. rewrite fails_eq.
  destruct (hd_fault fs); cbn; [discriminate|]. by intros [= <- <-].
Qed.

Lemma str_take_length n s : (String.length (str_take n s) ≤ String.length s)%nat.
Proof. revert s. induction n as [|n IH]; intros [|c s]; cbn; [lia..|]. specialize (IH s). lia. Qed.
Lemma str_drop_length n s : String.length (str_drop n s) = (String.length s - n)%nat.
Proof. revert s. induction n as [|n IH]; intros [|c s]; cbn; [lia..|]. apply IH. Qed.

Lemma parse_message_env m s rv m' s' : parse_message m s = Ret ((rv, m'), s') → s_env s' = s_env s.
Proof.
  unfold parse_message. destruct (dhcp_packet_parse _ _) as [[[rv1 m1] h]| |]; try done.
  by intros [= _ _ <-].
Qed.

Lemma with_env_bind {A B} (c : prog env A) (k : A → prog dhcp_server B) s :
  (with_env c ≫= k) s =
  match c (s_env s) with
  | Ret (a, e) => k a (set_env e s) | Undef f => Undef f | NoFuel => NoFuel
  end.
Proof. rewrite prog_bind_eq. unfold with_env. by destruct (c (s_env s)) as [[a e]| |]. Qed.

(** Fuel that exceeds the bytes left is enough: more of it changes nothing. *)
Lemma load_loop_fuel path : ∀ fuel1 fuel2 pos message trans s,
  (String.length (contents (s_env s) path) - pos < fuel1)%nat →
  (String.length (contents (s_env s) path) - pos < fuel2)%nat →
  load_loop fuel1 path pos message trans s = load_loop fuel2 path pos message trans s.
Proof.
  induction fuel1 as [|fuel1 IH]; intros fuel2 pos message trans s H1 H2; [lia|].
  destruct fuel2 as [|fuel2]; [lia|]. cbn [load_loop]. rewrite !with_env_bind.
  destruct (sys_read_n _ pos _ (s_env s)) as [[[buff|] e1]| |] eqn:E1; [|done..].
  cbv beta iota zeta. rewrite !with_env_bind.
  cbn [s_env set_env]. destruct (sys_read_n _ (pos + _) _ e1) as [[[data|] e2]| |] eqn:E2; [|done..].
  cbv beta iota. destruct (Nat.eqb_spec (String.length data) 0) as [|Hd]; [done|].
  apply read_n_files in E1 as [F1 ->]. apply read_n_files in E2 as [F2 Ed].
  assert (Hlen : ∀ s2 : dhcp_server, s_env s2 = e2 →
    (String.length (contents (s_env s2) path) - (pos + String.length (str_take (Z.to_nat METADATA_LEN)
       (str_drop pos (contents (s_env s) path))) + String.length data) < fuel1 `min` fuel2)%nat).
  { intros s2 ->. unfold contents in *. rewrite F2, F1.
    pose proof (f_equal String.length Ed) as Hl. rewrite F1 in Hl.
    match type of Hl with _ = String.length (str_take ?n ?t) => pose proof (str_take_length n t) as Ht end.
    rewrite str_drop_length in Ht. lia. }
  destruct (scan_metadata _) as [time|]; [|apply IH; specialize (Hlen (set_env e2 (set_env e1 s)) eq_refl); lia].
  rewrite !prog_bind_eq. destruct (parse_message _ _) as [[[rv m'] s3]| |] eqn:E3; [|done..].
  cbv beta iota. destruct (if_failed rv); [done|]. rewrite !bind_gets.
  destruct (trans_add _ _ _) as [rv' trans']. destruct (if_failed rv'); [done|].
  apply parse_message_env in E3. cbn [s_env set_env] in E3. specialize (Hlen s3 E3). apply IH; lia.
Qed.

(** The loop over a file ends: each of its turns but the last reads at
    least one byte, so the fuel of [database_load_transaction] is enough for any
    file, records cut short and read errors included, and no fuel gives another
    result. *)
Theorem database_load_ends path message trans s fuel :
  (load_fuel (s_env s) path ≤ fuel)%nat →
  load_loop fuel path 0 message trans s =
  load_loop (load_fuel (s_env s) path) path 0 message trans s.
Proof. unfold load_fuel. intros H. apply load_loop_fuel; lia. Qed.

(** ** The directory *)
Lemma scan_database_name xid mac : is_u32 xid → is_bytes mac → length mac = 6%nat →
  scan_entry (database_name xid mac) = Ret (Some (xid, print_hex mac)).
Proof.
  intros Hx Hb Hl. unfold scan_entry, database_name.
  rewrite scan_print_08x by done. cbn [mbind option_bind].
  change ("_" ++ ?x)%string with (String "_" x). cbn [scan_char]. rewrite Ascii.eqb_refl.
  cbn [mbind option_bind]. rewrite scan_lower_hex_print by (done || by intros c t [= <- <-]).
  rewrite print_hex_length, Hl. reflexivity.
Qed.

(** The search by id stops at the first file of that id. *)
Lemma search_by_xid xid mac0 names : length mac0 = 6%nat →
  Forall (λ '(x, mac), is_u32 x ∧ is_bytes mac ∧ length mac = 6%nat) names →
  search_entries ((λ '(x, mac), database_name x mac) <$> names) xid mac0 false =
  Ret (snd <$> list_find (λ '(x, _), x = xid) names).
Proof.
  intros H0. induction 1 as [|[x mac] names (Hx & Hb & Hl) _ IH]; [done|].
  rewrite fmap_cons. cbn [search_entries]. rewrite scan_database_name, ret_bind by done.
  cbn [andb]. cbn [list_find]. destruct (Z.eqb_spec x xid) as [->|Hne].
  - rewrite decide_True by done. rewrite <-(string_app_nil (print_hex mac)), <-Hl, scan_print_pairs by done.
    rewrite blit_in by (unfold zlen; lia). rewrite ret_bind. unfold splice. cbn [Z.to_nat take app].
    rewrite drop_ge by (rewrite H0; cbn; lia). by rewrite app_nil_r.
  - rewrite decide_False by done. rewrite IH.
    cbn [fmap option_fmap option_map]. destruct (list_find _ names) as [[i ?]|]; reflexivity.
Qed.

(** Loading by the transaction id alone: of the files of the database, in
    the order of the directory, the first one with that id is loaded; without
    one the result is NULL. *)
Theorem database_load_transaction_xid_spec names xid s :
  Forall (λ '(x, mac), is_u32 x ∧ is_bytes mac ∧ length mac = 6%nat) names →
  database_load_transaction_xid (Some ((λ '(x, mac), database_name x mac) <$> names)) xid s =
  match list_find (λ '(x, _), x = xid) names with
  | Some (_, (_, mac)) => database_load_transaction xid mac s
  | None => Ret (None, s)
  end.
Proof.
  intros Hall. unfold database_load_transaction_xid, database_find_xid_or_mac.
  rewrite prog_bind_eq. unfold lift. rewrite search_by_xid by done.
  destruct (list_find _ names) as [[i [x mac]]|] eqn:E; [|done].
  apply list_find_Some in E as (_ & -> & _). reflexivity.
Qed.
End ArchiveTheorems.

(** ** Witnesses: the sample message stored twice *)
Definition sample_stored : dhcp_message :=
  match @dhcp_packet_build cclog_run sample_heap sample_message with
  | Ret (_, m) => m
  | _ => sample_message
  end.
Definition sample_mac : list Z := [2; 66; 172; 17; 0; 2].

Definition archive_server (files : gmap string string) : dhcp_server :=
  Server (Allocator.Allocator [] []) [] (timer_new 0 TIMER_REPEAT 60 false None) None None
    (Config "" "" 0 0 0 0 0 0 0 0 0 0 0 0) 2000 ∅ (Env files []) [] (Ipc true 0 [] []).

#[export] Instance packet_wf_dec p : Decision (packet_wf p).
Proof. unfold packet_wf, is_bytes. apply _. Defined.

Lemma sample_archivable : @archivable cclog_run 3735928559 sample_mac sample_stored sample_options.
Proof.
  split; [by_decision|]. split; [by vm_compute|]. split; [by vm_compute|]. split; [by vm_compute|].
  split; [by vm_compute|]. split; [by_decision|]. split; [by vm_compute|]. split; by vm_compute.
Qed.

Lemma sample_records : ∃ content,
  @records cclog_run 3735928559 sample_mac [(1000, sample_stored); (1001, sample_stored)] content.
Proof.
  eexists. econstructor; [by_decision | exact sample_archivable | vm_compute; reflexivity |].
  econstructor; [by_decision | exact sample_archivable | vm_compute; reflexivity | constructor].
Qed.

Lemma database_store_load_witness : ∃ e,
  @store_all cclog_run [(1000, sample_stored)] (Env ∅ []) = Ret ((), e) ∧
  ∀ s, s_env s = e → ∃ trans s',
    @database_load_transaction cclog_run 3735928559 sample_mac s = Ret (Some trans, s') ∧
    t_xid trans = 3735928559 ∧
    Forall2 (λ '(time, m) r, loaded_from time m r) [(1000, sample_stored)] (t_messages trans).
Proof.
  apply (@database_store_load cclog_run 3735928559 sample_mac [(1000, sample_stored)] ∅);
    [done | reflexivity | done | | reflexivity].
  apply Forall_singleton. split; [by_decision|]. exists sample_options. exact sample_archivable.
Defined.

Lemma database_load_dangles_witness : ∃ content trans s' m ms,
  @records cclog_run 3735928559 sample_mac [(1000, sample_stored); (1001, sample_stored)] content ∧
  @database_load_transaction cclog_run 3735928559 sample_mac
    (archive_server {[database_file 3735928559 sample_mac := content]}) = Ret (Some trans, s') ∧
  t_messages trans = m :: ms ∧ option_of m 53 s' = Undef UseAfterFree.
Proof.
  destruct sample_records as [content Hrec].
  destruct (@database_load_dangles cclog_run 3735928559 sample_mac [] (1000, sample_stored)
    (1001, sample_stored) content (archive_server {[database_file 3735928559 sample_mac := content]})
    {[database_file 3735928559 sample_mac := content]}) as (trans & s' & m & ms & H & Hms & Ho);
    [done | reflexivity | exact Hrec | reflexivity | apply lookup_singleton_eq |].
  exists content, trans, s', m, ms. split; [exact Hrec|]. split; [exact H|]. split; [exact Hms | apply Ho].
Defined.

Lemma database_load_ends_witness :
  @load_loop cclog_run 5 "/tmp/x" 0 sample_message (trans_new 0 0) (archive_server ∅) =
  @load_loop cclog_run 1 "/tmp/x" 0 sample_message (trans_new 0 0) (archive_server ∅).
Proof. apply (@database_load_ends cclog_run "/tmp/x"). vm_compute. lia. Defined.

Lemma database_load_transaction_xid_witness :
  @database_load_transaction_xid cclog_run
    (Some ((λ '(x, mac), database_name x mac) <$> [(7, sample_mac)])) 8 (archive_server ∅) =
  Ret (None, archive_server ∅).
Proof.
  rewrite (@database_load_transaction_xid_spec cclog_run [(7, sample_mac)] 8 (archive_server ∅));
    [reflexivity|]. apply Forall_singleton. split; [by_decision|]. split; [by_decision | reflexivity].
Defined.
