(* ===== verification/GuiRfc.v ===== *)
(** The option tables of the configuration interface, [gui/src/RFC-2132.cpp]: the
    name and the type it gives to each tag.  The tags are those of the server. *)
From Stdlib Require Import Ascii String.
From S2P Require Import Prelude Bytes Rfc Options.
Local Open Scope Z_scope.

(** [enum DHCPv4_Options]: the tags the interface declares, in order. *)
Definition DHCPv4_Options : list Z :=
  [0; 1; 2; 3; 4; 5; 6; 7; 8; 9; 10; 11; 12; 13; 14; 15; 16; 17; 18; 19; 20; 21; 22; 23; 24;
   25; 26; 27; 28; 29; 30; 31; 32; 33; 34; 35; 36; 37; 38; 39; 40; 41; 42; 43; 44; 45; 46; 47;
   48; 49; 50; 51; 52; 53; 54; 55; 56; 57; 58; 59; 60; 61; 62; 63; 77; 81; 82; 255].

Definition option_names : list (Z * string) :=
  [(DHCP_OPTION_PAD, "Pad"%string);
   (DHCP_OPTION_SUBNET_MASK, "Subnet mask"%string);
   (DHCP_OPTION_TIME_OFFSET, "Time offset"%string);
   (DHCP_OPTION_ROUTER, "Router"%string);
   (DHCP_OPTION_TIME_SERVERS, "Time servers"%string);
   (DHCP_OPTION_NAME_SERVERS, "Name servers"%string);
   (DHCP_OPTION_DOMAIN_NAME_SERVERS, "Domain name servers"%string);
   (DHCP_OPTION_LOG_SERVERS, "Log servers"%string);
   (DHCP_OPTION_COOKIE_SERVERS, "Cookie servers"%string);
   (DHCP_OPTION_LPR_SERVERS, "LPR servers"%string);
   (DHCP_OPTION_IMPRESS_SERVERS, "Impress servers"%string);
   (DHCP_OPTION_RESOURCE_LOCATION_SERVERS, "Resource location servers"%string);
   (DHCP_OPTION_HOST_NAME, "Host name"%string);
   (DHCP_OPTION_BOOT_FILE_SIZE, "Boot file size"%string);
   (DHCP_OPTION_MERIT_DUMP, "Merit dump"%string);
   (DHCP_OPTION_DOMAIN_NAME, "Domain name"%string);
   (DHCP_OPTION_SWAP_SERVER, "Swap server"%string);
   (DHCP_OPTION_ROOT_PATH, "Root path"%string);
   (DHCP_OPTION_EXTENSIONS_PATH, "Extensions path"%string);
   (DHCP_OPTION_IP_FORWARDING_ENABLE_DISABLE, "IP forwarding enable/disable"%string);
   (DHCP_OPTION_NON_LOCAL_SOURCE_ROUTING_ENABLE_DISABLE, "Non-local source routing enable/disable"%string);
   (DHCP_OPTION_POLICY_FILTER, "Policy filter"%string);
   (DHCP_OPTION_MAX_DGRAM_REASSEMBLY_SIZE, "Max datagram reassembly size"%string);
   (DHCP_OPTION_DEFAULT_IP_TTL, "Default IP TTL"%string);
   (DHCP_OPTION_PATH_MTU_AGING_TIMEOUT, "Path MTU aging timeout"%string);
   (DHCP_OPTION_PATH_MTU_PLATEAU_TABLE, "Path MTU plateau table"%string);
   (DHCP_OPTION_INTERFACE_MTU, "Interface MTU"%string);
   (DHCP_OPTION_ALL_SUBNETS_LOCAL, "All subnets local"%string);
   (DHCP_OPTION_BROADCAST_ADDRESS, "Broadcast address"%string);
   (DHCP_OPTION_PERFORM_MASK_DISCOVERY, "Perform mask discovery"%string);
   (DHCP_OPTION_MASK_SUPPLIER, "Mask supplier"%string);
   (DHCP_OPTION_ROUTER_DISCOVERY, "Router discovery"%string);
   (DHCP_OPTION_ROUTER_SOLICITATION_ADDRESS, "Router solicitation address"%string);
   (DHCP_OPTION_STATIC_ROUTE, "Static route"%string);
   (DHCP_OPTION_TRAILER_ENCAPSULATION, "Trailer encapsulation"%string);
   (DHCP_OPTION_ARP_CACHE_TIMEOUT, "ARP cache timeout"%string);
   (DHCP_OPTION_IEEE802_3_ENCAPSULATION, "IEEE802.3 encapsulation"%string);
   (DHCP_OPTION_DEFAULT_TCP_TTL, "Default TCP TTL"%string);
   (DHCP_OPTION_TCP_KEEPALIVE_INTERVAL, "TCP keepalive interval"%string);
   (DHCP_OPTION_TCP_KEEPALIVE_GARBAGE, "TCP keepalive garbage"%string);
   (DHCP_OPTION_NIS_DOMAIN, "NIS domain"%string);
   (DHCP_OPTION_NIS_SERVERS, "NIS servers"%string);
   (DHCP_OPTION_NTP_SERVERS, "NTP servers"%string);
   (DHCP_OPTION_VENDOR_SPECIFIC_INFO, "Vendor specific info"%string);
   (DHCP_OPTION_NETBIOS_NAME_SERVERS, "NetBIOS name servers"%string);
   (DHCP_OPTION_NETBIOS_DD_SERVER, "NetBIOS DD server"%string);
   (DHCP_OPTION_NETBIOS_NODE_TYPE, "NetBIOS node type"%string);
   (DHCP_OPTION_NETBIOS_SCOPE, "NetBIOS scope"%string);
   (DHCP_OPTION_X_WINDOW_FONT_SERVER, "X window font server"%string);
   (DHCP_OPTION_X_WINDOW_DISPLAY_MANAGER, "X window display manager"%string);
   (DHCP_OPTION_REQUESTED_IP_ADDRESS, "Requested IP address"%string);
   (DHCP_OPTION_IP_ADDRESS_LEASE_TIME, "IP address lease time"%string);
   (DHCP_OPTION_OVERLOAD, "Overload"%string);
   (DHCP_OPTION_DHCP_MESSAGE_TYPE, "DHCP message type"%string);
   (DHCP_OPTION_SERVER_IDENTIFIER, "Server identifier"%string);
   (DHCP_OPTION_PARAMETER_REQUEST_LIST, "Parameter request list"%string);
   (DHCP_OPTION_MESSAGE, "Message"%string);
   (DHCP_OPTION_MAX_DHCP_MESSAGE_SIZE, "Max DHCP message size"%string);
   (DHCP_OPTION_RENEWAL_TIME_VALUE, "Renewal time value"%string);
   (DHCP_OPTION_REBINDING_TIME_VALUE, "Rebinding time value"%string);
   (DHCP_OPTION_VENDOR_CLASS_IDENTIFIER, "Vendor class identifier"%string);
   (DHCP_OPTION_CLIENT_IDENTIFIER, "Client identifier"%string);
   (DHCP_OPTION_NWIP_DOMAIN_NAME, "NWIP domain name"%string);
   (DHCP_OPTION_NWIP_SUBOPTIONS, "NWIP suboptions"%string);
   (DHCP_OPTION_USER_CLASS, "User class"%string);
   (DHCP_OPTION_FQDN, "FQDN"%string);
   (DHCP_OPTION_DHCP_AGENT_OPTIONS, "DHCP agent options"%string);
   (DHCP_OPTION_END, "End"%string)].

Fixpoint name_of (names : list (Z * string)) (tag : Z) : string :=
  match names with
  | [] => "Unknown"
  | (t, name) :: names => if tag =? t then name else name_of names tag
  end.

Definition DHCPv4_tag_to_full_name (tag : Z) : string := name_of option_names tag.

Definition gui_ip_tags : list Z :=
  [DHCP_OPTION_SUBNET_MASK; DHCP_OPTION_ROUTER; DHCP_OPTION_TIME_SERVERS;
   DHCP_OPTION_NAME_SERVERS; DHCP_OPTION_DOMAIN_NAME_SERVERS; DHCP_OPTION_LOG_SERVERS;
   DHCP_OPTION_COOKIE_SERVERS; DHCP_OPTION_LPR_SERVERS; DHCP_OPTION_SERVER_IDENTIFIER;
   DHCP_OPTION_IMPRESS_SERVERS; DHCP_OPTION_RESOURCE_LOCATION_SERVERS; DHCP_OPTION_SWAP_SERVER;
   DHCP_OPTION_BROADCAST_ADDRESS; DHCP_OPTION_ROUTER_SOLICITATION_ADDRESS;
   DHCP_OPTION_STATIC_ROUTE; DHCP_OPTION_NIS_SERVERS; DHCP_OPTION_NTP_SERVERS;
   DHCP_OPTION_NETBIOS_NAME_SERVERS; DHCP_OPTION_NETBIOS_DD_SERVER;
   DHCP_OPTION_X_WINDOW_FONT_SERVER; DHCP_OPTION_X_WINDOW_DISPLAY_MANAGER;
   DHCP_OPTION_REQUESTED_IP_ADDRESS].
Definition gui_numeric_tags : list Z :=
  [DHCP_OPTION_TIME_OFFSET; DHCP_OPTION_BOOT_FILE_SIZE; DHCP_OPTION_DEFAULT_IP_TTL;
   DHCP_OPTION_PATH_MTU_AGING_TIMEOUT; DHCP_OPTION_INTERFACE_MTU;
   DHCP_OPTION_MAX_DGRAM_REASSEMBLY_SIZE; DHCP_OPTION_DEFAULT_TCP_TTL;
   DHCP_OPTION_TCP_KEEPALIVE_INTERVAL; DHCP_OPTION_IP_ADDRESS_LEASE_TIME;
   DHCP_OPTION_NETBIOS_NODE_TYPE; DHCP_OPTION_RENEWAL_TIME_VALUE;
   DHCP_OPTION_REBINDING_TIME_VALUE; DHCP_OPTION_DHCP_MESSAGE_TYPE;
   DHCP_OPTION_ARP_CACHE_TIMEOUT; DHCP_OPTION_OVERLOAD].
Definition gui_bool_tags : list Z :=
  [DHCP_OPTION_IP_FORWARDING_ENABLE_DISABLE; DHCP_OPTION_NON_LOCAL_SOURCE_ROUTING_ENABLE_DISABLE;
   DHCP_OPTION_ROUTER_DISCOVERY; DHCP_OPTION_ALL_SUBNETS_LOCAL; DHCP_OPTION_MASK_SUPPLIER;
   DHCP_OPTION_TRAILER_ENCAPSULATION; DHCP_OPTION_PERFORM_MASK_DISCOVERY;
   DHCP_OPTION_IEEE802_3_ENCAPSULATION; DHCP_OPTION_TCP_KEEPALIVE_GARBAGE].
Definition gui_string_tags : list Z :=
  [DHCP_OPTION_POLICY_FILTER; DHCP_OPTION_HOST_NAME; DHCP_OPTION_NIS_DOMAIN;
   DHCP_OPTION_DOMAIN_NAME; DHCP_OPTION_USER_CLASS; DHCP_OPTION_FQDN; DHCP_OPTION_ROOT_PATH;
   DHCP_OPTION_EXTENSIONS_PATH; DHCP_OPTION_NETBIOS_SCOPE].

Definition gui_tag_to_type (tag : Z) : dhcp_option_type :=
  if case_of tag gui_ip_tags then DHCP_OPTION_IP
  else if case_of tag gui_numeric_tags then DHCP_OPTION_NUMERIC
  else if case_of tag gui_bool_tags then DHCP_OPTION_BOOL
  else if case_of tag gui_string_tags then DHCP_OPTION_STRING
  else DHCP_OPTION_BIN.

(** Every declared tag, and no other, has a name. *)
Lemma named_tags : fst <$> option_names = DHCPv4_Options.
Proof. reflexivity. Qed.

Lemma shown_names_distinct : NoDup ("Unknown"%string :: (snd <$> option_names)).
Proof. by_decision. Qed.

Lemma name_of_lookup l tag : NoDup (fst <$> l) → ∀ name, (tag, name) ∈ l → name_of l tag = name.
Proof.
  induction l as [|[t n] l IH]; [intros _ name []%elem_of_nil|].
  cbn [fmap list_fmap fst name_of]. intros [Ht Hl]%NoDup_cons name [[= <- <-]|Hin]%elem_of_cons.
  - by rewrite Z.eqb_refl.
  - destruct (Z.eqb_spec tag t) as [<-|_]; [|by apply IH].
    destruct Ht. exact (list_elem_of_fmap_2 fst _ (tag, name) Hin).
Qed.

(** Different tags are shown under different names. *)
Theorem DHCPv4_tag_to_full_name_inj a b : a ∈ DHCPv4_Options → b ∈ DHCPv4_Options →
  DHCPv4_tag_to_full_name a = DHCPv4_tag_to_full_name b → a = b.
Proof.
  rewrite <-named_tags. intros ([a' n] & -> & Ha)%list_elem_of_fmap ([b' m] & -> & Hb)%list_elem_of_fmap.
  unfold DHCPv4_tag_to_full_name. cbn [fst].
  assert (Hnd : NoDup (fst <$> option_names)) by by_decision.
  rewrite (name_of_lookup _ _ Hnd _ Ha), (name_of_lookup _ _ Hnd _ Hb). intros ->.
  pose proof shown_names_distinct as [_ Hn]%NoDup_cons.
  apply list_elem_of_lookup in Ha as [i Hi], Hb as [j Hj].
  assert (i = j) as ->; [|congruence].
  apply (NoDup_lookup _ i j m Hn); rewrite list_lookup_fmap; [by rewrite Hi | by rewrite Hj].
Qed.

(** ** The tables of the two programs *)

Lemma gui_tag_to_type_eq tag :
  gui_tag_to_type tag =
  if tag =? DHCP_OPTION_MERIT_DUMP then DHCP_OPTION_BIN else dhcp_option_tag_to_type tag.
Proof.
  destruct (decide (0 ≤ tag < 256)) as [Hr|Hr].
  - assert (Hall : Forall (λ t, gui_tag_to_type t =
      if t =? DHCP_OPTION_MERIT_DUMP then DHCP_OPTION_BIN else dhcp_option_tag_to_type t) (seqZ 0 256))
      by by_decision.
    rewrite Forall_forall in Hall. apply Hall, elem_of_seqZ. lia.
  - assert (Hno : ∀ l, Forall (λ t, 0 ≤ t < 256) l → case_of tag l = false).
    { intros l Hl. unfold case_of. apply not_true_iff_false. rewrite existsb_exists.
      intros (t & Ht & E%Z.eqb_eq). rewrite Forall_forall in Hl.
      apply list_elem_of_In, Hl in Ht. lia. }
    unfold gui_tag_to_type, dhcp_option_tag_to_type. rewrite !Hno by by_decision.
    by destruct (tag =? _).
Qed.

(** C32. The interface and the server give every tag the same type, but for the merit
    dump file, a number to the server and bytes to the interface. *)
Theorem gui_tag_to_type_agrees tag :
  gui_tag_to_type tag =
  if tag =? DHCP_OPTION_MERIT_DUMP then DHCP_OPTION_BIN else dhcp_option_tag_to_type tag.
Proof. apply gui_tag_to_type_eq. Qed.
