(* ===== verification/Inspect.v ===== *)
(** The viewer of stored transactions in the configuration interface,
    [gui/src/database.cpp] and [gui/src/tab_inspect.cpp]: it reads the files the
    server writes ([Database]) and shows the messages and their options. *)
From Stdlib Require Import Ascii String.
From S2P Require Import Prelude Bytes Xtoy Scanf Files Rfc Options Packet Timer Transaction Database Server Archive GuiRfc.
Local Open Scope Z_scope.

(** ** [database.cpp] *)

(** [struct dhcp_message]: the fields of a packet, the integers in host order
    once the message is loaded, the time it was stored and its type as text. *)
Record gui_message := GuiMessage {
  g_packet : dhcp_packet;
  g_time : Z;
  g_msg_type : string;
}.

Definition type_name (type : Z) : string :=
  if type =? 1 then "DISCOVER"
  else if type =? 2 then "OFFER"
  else if type =? 3 then "REQUEST"
  else if type =? 4 then "DECLINE"
  else if type =? 5 then "ACK"
  else if type =? 6 then "NAK"
  else if type =? 7 then "RELEASE"
  else if type =? 8 then "INFORM"
  else "UNKNOWN".

(** The loop of [get_msg_type]; the text is the last one it copied. *)
Fixpoint type_loop (fuel : nat) (options : list Z) (i : Z) (msg_type : string) : result string :=
  match fuel with
  | O => NoFuel
  | S fuel =>
      if negb (i <? 336) then mret msg_type
      else
        tag ← rd options i;
        if tag =? 0 then type_loop fuel options (i + 1) msg_type
        else if tag =? 255 then mret msg_type
        else
          msg_type ← (if (tag =? 53) && (i + 2 <? 336)
                      then t ← rd options (i + 2); mret (type_name t)
                      else mret msg_type);
          let i := i + 1 in
          if 336 <=? i then mret msg_type
          else
            len ← rd options i;
            let i := i + (len + 1) in
            if 336 <=? i then mret msg_type
            else type_loop fuel options i msg_type
  end.

(** Every turn moves on by a byte at least. *)
Definition type_fuel : nat := 337.

Definition get_msg_type (options : list Z) : result string :=
  t ← type_loop type_fuel options 0 "";
  mret (if String.eqb t "" then "UNKNOWN" else t).

(** The fields in host order. *)
Definition host_order (p : dhcp_packet) : dhcp_packet :=
  Packet (pk_opcode p) (pk_htype p) (pk_hlen p) (pk_hops p) (ntohl (pk_xid p)) (ntohs (pk_secs p))
    (ntohs (pk_flags p)) (ntohl (pk_ciaddr p)) (ntohl (pk_yiaddr p)) (ntohl (pk_siaddr p))
    (ntohl (pk_giaddr p)) (pk_chaddr p) (pk_sname p) (pk_filename p) (ntohl (pk_cookie p))
    (pk_options p).

(** The loop over the records.  A record that is shorter ends it, so each turn
    fills all of the buffers. *)
Fixpoint entry_loop (fuel : nat) (path : string) (pos : nat) (transaction : list gui_message)
    : prog env (list gui_message) :=
  match fuel with
  | O => λ _, NoFuel
  | S fuel =>
      header ← sys_read_n path pos (Z.to_nat METADATA_LEN);
      match header with
      | None => mret transaction
      | Some header =>
          if negb (Z.of_nat (String.length header) =? METADATA_LEN) then mret transaction
          else
            let pos := (pos + String.length header)%nat in
            data ← sys_read_n path pos 576;
            match data with
            | None => mret transaction
            | Some data =>
                if negb (Z.of_nat (String.length data) =? 576) then mret transaction
                else
                  let pos := (pos + String.length data)%nat in
                  match scan_metadata header with
                  | None => entry_loop fuel path pos transaction
                  | Some time =>
                      let p := host_order (packet_decode (code <$> list_ascii_of_string data)) in
                      if negb (pk_cookie p =? MAGIC_COOKIE) then entry_loop fuel path pos transaction
                      else
                        type ← lift (get_msg_type (pk_options p));
                        entry_loop fuel path pos (transaction ++ [GuiMessage p (u32 time) type])
                  end
            end
      end
  end.

Definition database_load_entry (path : string) : prog env (list gui_message) :=
  fd ← sys_open path;
  match fd with
  | Opened path pos =>
      e ← get_state;
      entry_loop (load_fuel e path) path pos []
  | _ => mret []
  end.

(** ** The options of a message, [load_selected_message_options] *)

(** [struct dhcp_option] of [tab_inspect.hpp] *)
Record shown_option := Shown {
  so_tag : Z;
  so_lenght : Z;
  so_name_str : string;
  so_lenght_str : string;
  so_value_str : string;
  so_format : string;
}.

(** [array[0] << 24 | ...] *)
Definition uint32_from_uint8_array (array : list Z) (off : Z) : result Z :=
  a ← rd array off; b ← rd array (off + 1); c ← rd array (off + 2); d ← rd array (off + 3);
  mret (Z.lor (Z.lor (Z.lor (Z.shiftl a 24) (Z.shiftl b 16)) (Z.shiftl c 8)) d).

(** The one with a length: the loop is that of the server's parser. *)
Definition uint32_from_uint8_array_len (array : list Z) (off lenght : Z) : result Z :=
  shift_in array off (Z.to_nat lenght) 0.

(** [n] bytes from [j] on. *)
Fixpoint read_bytes (options : list Z) (j : Z) (n : nat) : result (list Z) :=
  match n with
  | O => mret []
  | S n => b ← rd options j; bs ← read_bytes options (j + 1) n; mret (b :: bs)
  end.

(** Each byte as a number and a space. *)
Fixpoint byte_list (bs : list Z) : string :=
  match bs with
  | [] => ""
  | b :: bs => (print_u b ++ " " ++ byte_list bs)%string
  end.

(** [value_str] and [format] *)
Definition option_value (options : list Z) (i tag lenght : Z) : result (string * string) :=
  match gui_tag_to_type tag with
  | DHCP_OPTION_STRING =>
      bs ← read_bytes options i (Z.to_nat lenght); mret (bytes_string bs, "String"%string)
  | DHCP_OPTION_IP =>
      ip ← uint32_from_uint8_array options i;
      mret (uint32_to_ipv4_address ip, "IP Address"%string)
  | DHCP_OPTION_BIN =>
      bs ← read_bytes options i (Z.to_nat lenght); mret (byte_list bs, "Binary"%string)
  | DHCP_OPTION_BOOL =>
      b ← rd options i;
      mret (if b =? 0 then "FALSE"%string else "TRUE"%string, "Boolean"%string)
  | DHCP_OPTION_NUMERIC =>
      n ← uint32_from_uint8_array_len options i lenght; mret (print_u n, "Number"%string)
  end.

Definition DHCP_OPTIONS_LEN : Z := 336.

Fixpoint options_loop (fuel : nat) (options : list Z) (i : Z) (shown : list shown_option)
    : result (list shown_option) :=
  match fuel with
  | O => NoFuel
  | S fuel =>
      if negb (i <? DHCP_OPTIONS_LEN) then mret shown
      else
        tag ← rd options i;
        lenght ← rd options (i + 1);
        let i := i + 2 in
        '(value, format) ← option_value options i tag lenght;
        let o := Shown tag lenght (DHCPv4_tag_to_full_name tag) (print_u lenght) value format in
        let i := i + lenght in
        if tag =? 0 then options_loop fuel options i shown
        else if tag =? 255 then mret shown
        else options_loop fuel options i (shown ++ [o])
  end.

(** Every turn moves on by two bytes at least. *)
Definition options_fuel : nat := 170.

Definition show_options (options : list Z) : result (list shown_option) :=
  options_loop options_fuel options 0 [].

(** ** Specification *)

(** An option the interface can show: of an address it reads four bytes and of a
    truth value one, whatever the length says. *)
Definition viewable (o : dhcp_option) : Prop :=
  option_ok o ∧ option_canonical o ∧
  (o_type o = DHCP_OPTION_IP → o_lenght o = 4) ∧ (o_type o = DHCP_OPTION_BOOL → 1 ≤ o_lenght o) ∧
  o_tag o ≠ DHCP_OPTION_MERIT_DUMP.

(** How an option of the server is shown. *)
Definition shown_value (o : dhcp_option) : string * string :=
  let bytes := take (Z.to_nat (o_lenght o)) (o_value o) in
  match o_type o with
  | DHCP_OPTION_NUMERIC => (print_u (value_number o), "Number"%string)
  | DHCP_OPTION_IP => (uint32_to_ipv4_address (value_ip o), "IP Address"%string)
  | DHCP_OPTION_BOOL =>
      (if hd 0 (o_value o) =? 0 then "FALSE"%string else "TRUE"%string, "Boolean"%string)
  | DHCP_OPTION_STRING => (bytes_string bytes, "String"%string)
  | DHCP_OPTION_BIN => (byte_list bytes, "Binary"%string)
  end.

Definition shown (o : dhcp_option) : shown_option :=
  Shown (o_tag o) (o_lenght o) (DHCPv4_tag_to_full_name (o_tag o)) (print_u (o_lenght o))
    (shown_value o).1 (shown_value o).2.

(** What is shown of a message that was stored at [time]. *)
Definition views (time : Z) (m : dhcp_message) (v : gui_message) : Prop :=
  g_time v = time ∧ g_packet v = host_order (m_packet m) ∧ g_msg_type v = type_name (m_type m) ∧
  m_opcode m = pk_opcode (g_packet v) ∧ m_htype m = pk_htype (g_packet v) ∧
  m_hlen m = pk_hlen (g_packet v) ∧ m_hops m = pk_hops (g_packet v) ∧
  m_xid m = pk_xid (g_packet v) ∧ m_secs m = pk_secs (g_packet v) ∧
  m_flags m = pk_flags (g_packet v) ∧ m_ciaddr m = pk_ciaddr (g_packet v) ∧
  m_yiaddr m = pk_yiaddr (g_packet v) ∧ m_siaddr m = pk_siaddr (g_packet v) ∧
  m_giaddr m = pk_giaddr (g_packet v) ∧ take 16 (m_chaddr m) = pk_chaddr (g_packet v).

(** ** Lemmas *)
Lemma read_bytes_middle mid : ∀ pre post,
  read_bytes (pre ++ mid ++ post) (zlen pre) (length mid) = Ret mid.
Proof.
  induction mid as [|b mid IH]; intros pre post; [done|].
  cbn [length read_bytes app]. rewrite rd_middle, ret_bind.
  replace (pre ++ b :: mid ++ post) with ((pre ++ [b]) ++ mid ++ post) by by rewrite <-app_assoc.
  replace (zlen pre + 1) with (zlen (pre ++ [b])) by by rewrite zlen_app.
  by rewrite IH.
Qed.

Lemma read_bytes_take pre post n : (n ≤ length post)%nat →
  read_bytes (pre ++ post) (zlen pre) n = Ret (take n post).
Proof.
  intros Hn. rewrite <-(take_drop n post) at 1.
  rewrite <-(read_bytes_middle (take n post) pre (drop n post)). f_equal.
  by rewrite length_take, Nat.min_l.
Qed.

(** Four bytes, the most significant first. *)
Lemma uint32_middle n pre post : is_u32 n →
  uint32_from_uint8_array (pre ++ be_bytes 4 n ++ post) (zlen pre) = Ret n.
Proof.
  intros Hn. unfold uint32_from_uint8_array.
  set (l := [Z.land (Z.shiftr n 24) 255; Z.land (Z.shiftr n 16) 255; Z.land (Z.shiftr n 8) 255;
    Z.land n 255]).
  assert (Hb : be_bytes 4 n = l).
  { unfold be_bytes. cbn [le_bytes rev app]. subst l. by rewrite !Z.shiftr_shiftr by lia. }
  rewrite Hb. clear Hb.
  assert (Hrd : ∀ k b, l !! k = Some b → rd (pre ++ l ++ post) (zlen pre + Z.of_nat k) = Ret b).
  { intros k b Hk. apply rd_Ret. unfold zlen. split; [lia|].
    rewrite Z2Nat.inj_add, !Nat2Z.id by lia. rewrite lookup_app_r by lia.
    rewrite lookup_app_l by (apply lookup_lt_is_Some; eexists; rewrite <-Hk; f_equal; lia).
    rewrite <-Hk. f_equal. lia. }
  pose proof (Hrd 0%nat _ eq_refl) as H0. rewrite Z.add_0_r in H0.
  pose proof (Hrd 1%nat _ eq_refl) as H1. pose proof (Hrd 2%nat _ eq_refl) as H2.
  pose proof (Hrd 3%nat _ eq_refl) as H3. 
  change (Z.of_nat 1) with 1 in H1. change (Z.of_nat 2) with 2 in H2. change (Z.of_nat 3) with 3 in H3.
  rewrite H0, ret_bind, H1, ret_bind, H2, ret_bind, H3, ret_bind.
  unfold mret, result_ret. f_equal. rewrite octets_combine by apply land_255_u8. by apply octets_split.
Qed.

Lemma rd_field (pre mid post : list Z) k b : mid !! k = Some b →
  rd (pre ++ mid ++ post) (zlen pre + Z.of_nat k) = Ret b.
Proof.
  intros Hk. apply rd_Ret. unfold zlen. split; [lia|].
  rewrite Z2Nat.inj_add, !Nat2Z.id by lia. rewrite lookup_app_r by lia.
  replace (length pre + k - length pre)%nat with k by lia.
  by rewrite lookup_app_l by (by apply lookup_lt_is_Some; eexists).
Qed.

(** The value of an option as the server sends it. *)
Lemma option_value_encoded o pre post : viewable o →
  option_value (pre ++ encode_value o ++ post) (zlen pre) (o_tag o) (o_lenght o) =
  Ret (shown_value o).
Proof.
  intros (Hok & Hcan & Hip & Hbool & Hmd). pose proof (length_encode_value o Hok) as Hlen.
  destruct Hok as ((Ht & Hl & Hty & Hv & Hb) & H4). destruct Hcan as (_ & _ & Hmax & Hc).
  assert (Hn : Z.to_nat (o_lenght o) = length (encode_value o)) by (rewrite <-Hlen; unfold zlen; lia).
  unfold option_value, shown_value. rewrite gui_tag_to_type_eq, (proj2 (Z.eqb_neq _ _) Hmd), <-Hty.
  unfold is_u8 in Hl. destruct (o_type o) eqn:Et.
  - unfold uint32_from_uint8_array_len. rewrite Hn, shift_in_spec; [|unfold encode_value; rewrite Et|done].
    2:{ apply Forall_rev, le_bytes_is_bytes. }
    rewrite ret_bind. unfold encode_value. rewrite Et. destruct Hc as (n & Hn0 & Hval).
    pose proof (pow256_le4 (o_lenght o) ltac:(split; [lia | apply H4; auto])) as Hpow.
    assert (value_number o = n) as ->.
    { unfold value_number. rewrite Hval. apply value_number_le. lia. }
    rewrite be_val_bytes, Z2Nat.id by lia. rewrite Z.mul_0_l, Z.add_0_l, (Z.mod_small n) by lia.
    by rewrite u32_small by (unfold is_u32; lia).
  - rewrite Hn at 1. rewrite read_bytes_middle, ret_bind. unfold encode_value. by rewrite Et.
  - destruct Hc as (n & Hn0 & Hval). assert (H4' : o_lenght o = 4) by auto.
    unfold encode_value. rewrite Et, H4'. change (Z.to_nat 4) with 4%nat. rewrite H4' in Hn0.
    change (256 ^ 4) with (2 ^ 32) in Hn0.
    assert (value_ip o = n) as -> by (unfold value_ip; rewrite Hval; by apply value_number_le).
    by rewrite uint32_middle.
  - destruct Hc as (b & _ & Hval). pose proof (Hbool eq_refl) as H1. unfold encode_value. rewrite Et, Hval.
    destruct (Z.to_nat (o_lenght o)) as [|k] eqn:Ek; [lia|]. cbn [hd].
    change (take (S k) (b :: ?t) ++ post) with (b :: (take k t ++ post)). by rewrite rd_middle.
  - rewrite Hn at 1. rewrite read_bytes_middle, ret_bind. unfold encode_value. by rewrite Et.
Qed.

Lemma encode_all_cons o os : encode_all (o :: os) = encode o ++ encode_all os.
Proof. reflexivity. Qed.

(** The encoded options, one turn each. *)
Lemma options_loop_encoded os : ∀ fuel pre rest acc,
  Forall viewable os → zlen (pre ++ encode_all os) < DHCP_OPTIONS_LEN → (length os ≤ fuel)%nat →
  options_loop fuel (pre ++ encode_all os ++ rest) (zlen pre) acc =
  options_loop (fuel - length os) (pre ++ encode_all os ++ rest) (zlen (pre ++ encode_all os))
    (acc ++ (shown <$> os)).
Proof.
  induction os as [|o os IH]; intros fuel pre rest acc Hall Hlen Hf.
  - cbn [length fmap list_fmap]. rewrite Nat.sub_0_r, !app_nil_r. reflexivity.
  - apply Forall_cons in Hall as [Ho Hall]. pose proof Ho as (Hok & (Hp & He & _) & _).
    destruct fuel as [|fuel]; cbn [length] in Hf; [lia|]. rewrite encode_all_cons in *.
    assert (Hpos : zlen pre < DHCP_OPTIONS_LEN).
    { rewrite !zlen_app, zlen_encode in Hlen by done. pose proof (zlen_nonneg (encode_all os)).
      destruct Hok as [(_ & Hl & _) _]. unfold is_u8 in Hl. lia. }
    cbn [options_loop]. rewrite (proj2 (Z.ltb_lt _ _) Hpos). cbn [negb].
    replace (pre ++ (encode o ++ encode_all os) ++ rest)
      with (pre ++ encode o ++ (encode_all os ++ rest)) by by rewrite !app_assoc.
    destruct (encode_reads o pre (encode_all os ++ rest) Hok) as (-> & -> & _). rewrite !ret_bind.
    assert (Hval : option_value (pre ++ encode o ++ encode_all os ++ rest) (zlen pre + 2) (o_tag o)
      (o_lenght o) = Ret (shown_value o)).
    { pose proof (option_value_encoded o (pre ++ [o_tag o; o_lenght o]) (encode_all os ++ rest) Ho) as H.
      rewrite zlen_app in H. change (zlen [_; _]) with 2 in H. rewrite <-!app_assoc in H. exact H. }
    rewrite Hval, ret_bind. destruct (shown_value o) as [v f] eqn:Ev.
    change DHCP_OPTION_PAD with 0 in Hp. change DHCP_OPTION_END with 255 in He.
    rewrite (proj2 (Z.eqb_neq _ _) Hp), (proj2 (Z.eqb_neq _ _) He).
    specialize (IH fuel (pre ++ encode o) rest (acc ++ [shown o]) Hall).
    assert (Hz : zlen (pre ++ encode o) = zlen pre + 2 + o_lenght o)
      by (rewrite zlen_app, zlen_encode by done; lia).
    rewrite Hz, <-!app_assoc in IH. unfold shown at 1 in IH. rewrite Ev in IH. cbn [fst snd] in IH.
    rewrite IH by (done || lia). reflexivity.
Qed.

(** C30. The interface shows the options the server sent: when the area holds the
    encoding of options it can show, and of the bytes after the END tag as many
    are left as the next one says, each option is shown, in order, with its
    value. *)
Theorem show_options_spec os l rest :
  Forall viewable os → zlen (encode_all os ++ DHCP_OPTION_END :: l :: rest) = DHCP_OPTIONS_LEN →
  0 ≤ l ≤ zlen rest →
  show_options (encode_all os ++ DHCP_OPTION_END :: l :: rest) = Ret (shown <$> os).
Proof.
  intros Hall Hlen Hl. set (tail := DHCP_OPTION_END :: l :: rest) in *.
  assert (Hcount : 2 * zlen os ≤ zlen (encode_all os)).
  { apply encode_all_count. eapply Forall_impl; [exact Hall|]. by intros o [? _]. }
  assert (Hlt : zlen (encode_all os) < DHCP_OPTIONS_LEN).
  { rewrite zlen_app in Hlen. subst tail. rewrite !zlen_cons in Hlen. pose proof (zlen_nonneg rest). lia. }
  assert (Hfuel : (length os < options_fuel)%nat).
  { unfold DHCP_OPTIONS_LEN, zlen, options_fuel in *. lia. }
  unfold show_options.
  pose proof (options_loop_encoded os options_fuel [] tail [] Hall) as H. rewrite !app_nil_l in H.
  change (zlen []) with 0 in H. rewrite H by (done || lia). clear H.
  destruct (options_fuel - length os)%nat as [|fuel] eqn:Ef; [lia|].
  cbn [options_loop]. rewrite (proj2 (Z.ltb_lt _ _) Hlt). cbn [negb]. subst tail.
  rewrite rd_middle, ret_bind.
  replace (zlen (encode_all os) + 1) with (zlen (encode_all os ++ [DHCP_OPTION_END])) by by rewrite zlen_app.
  replace (encode_all os ++ DHCP_OPTION_END :: l :: rest)
    with ((encode_all os ++ [DHCP_OPTION_END]) ++ l :: rest) by by rewrite <-app_assoc.
  rewrite rd_middle, ret_bind. unfold option_value.
  change (gui_tag_to_type DHCP_OPTION_END) with DHCP_OPTION_BIN. cbv iota.
  assert (Hrd : read_bytes ((encode_all os ++ [DHCP_OPTION_END]) ++ l :: rest)
    (zlen (encode_all os) + 2) (Z.to_nat l) = Ret (take (Z.to_nat l) rest)).
  { pose proof (read_bytes_take ((encode_all os ++ [DHCP_OPTION_END]) ++ [l]) rest (Z.to_nat l)) as H.
    rewrite <-!app_assoc in *. rewrite !zlen_app in H. change (zlen [_]) with 1 in H.
    by rewrite <-H by (unfold zlen in Hl; lia). }
  rewrite Hrd, !ret_bind. change (DHCP_OPTION_END =? 0) with false.
  change (DHCP_OPTION_END =? 255) with true. reflexivity.
Qed.

(** ** The type of a message *)

(** The type the last message type option names. *)
Fixpoint type_of (os : list dhcp_option) (msg_type : string) : string :=
  match os with
  | [] => msg_type
  | o :: os => type_of os (if o_tag o =? 53 then type_name (value_number o) else msg_type)
  end.

(** A message type option as the server sends it: one byte. *)
Definition plain_option (o : dhcp_option) : Prop :=
  option_ok o ∧ option_canonical o ∧ (o_tag o = DHCP_OPTION_DHCP_MESSAGE_TYPE → o_lenght o = 1).

Lemma type_byte o pre post : plain_option o → o_tag o = DHCP_OPTION_DHCP_MESSAGE_TYPE →
  rd (pre ++ encode_value o ++ post) (zlen pre) = Ret (value_number o).
Proof.
  intros (((_ & _ & Hty & _) & _) & (_ & _ & _ & Hc) & H1) Ht. specialize (H1 Ht).
  rewrite Ht in Hty. change (dhcp_option_tag_to_type _) with DHCP_OPTION_NUMERIC in Hty.
  rewrite Hty in Hc. destruct Hc as (n & Hn & Hval). rewrite H1 in Hn. change (256 ^ 1) with 256 in Hn.
  assert (value_number o = n) as E.
  { unfold value_number. rewrite Hval. apply value_number_le. simpl. lia. }
  unfold encode_value. rewrite Hty, H1, E. change (Z.to_nat 1) with 1%nat.
  unfold be_bytes. cbn [le_bytes rev app]. rewrite rd_middle.
  by rewrite land_255, Z.mod_small by lia.
Qed.

Lemma type_loop_encoded os : ∀ fuel pre rest acc,
  Forall plain_option os → zlen (pre ++ encode_all os) < 336 → (length os ≤ fuel)%nat →
  type_loop fuel (pre ++ encode_all os ++ rest) (zlen pre) acc =
  type_loop (fuel - length os) (pre ++ encode_all os ++ rest) (zlen (pre ++ encode_all os))
    (type_of os acc).
Proof.
  induction os as [|o os IH]; intros fuel pre rest acc Hall Hlen Hf.
  - cbn [length type_of]. by rewrite Nat.sub_0_r, !app_nil_r.
  - apply Forall_cons in Hall as [Ho Hall]. pose proof Ho as (Hok & (Hp & He & _) & H1).
    destruct fuel as [|fuel]; cbn [length] in Hf; [lia|]. rewrite encode_all_cons in *.
    assert (Hz : zlen (pre ++ encode o) = zlen pre + 2 + o_lenght o)
      by (rewrite zlen_app, zlen_encode by done; lia).
    assert (Hpos : zlen pre + 2 + o_lenght o < 336 ∧ 0 ≤ o_lenght o).
    { rewrite app_assoc, zlen_app in Hlen. pose proof (zlen_nonneg (encode_all os)).
      destruct Hok as [(_ & Hl & _) _]. unfold is_u8 in Hl. lia. }
    pose proof (zlen_nonneg pre). cbn [type_loop]. rewrite (proj2 (Z.ltb_lt _ 336)) by lia. cbn [negb].
    replace (pre ++ (encode o ++ encode_all os) ++ rest)
      with (pre ++ encode o ++ (encode_all os ++ rest)) by by rewrite !app_assoc.
    destruct (encode_reads o pre (encode_all os ++ rest) Hok) as (Hrt & Hrl & _).
    rewrite Hrt, ret_bind. change DHCP_OPTION_PAD with 0 in Hp. change DHCP_OPTION_END with 255 in He.
    rewrite (proj2 (Z.eqb_neq _ _) Hp), (proj2 (Z.eqb_neq _ _) He).
    assert (Htype : (if (o_tag o =? 53) && (zlen pre + 2 <? 336)
                     then t ← rd (pre ++ encode o ++ encode_all os ++ rest) (zlen pre + 2);
                          mret (type_name t)
                     else mret acc) = Ret (if o_tag o =? 53 then type_name (value_number o) else acc)).
    { destruct (Z.eqb_spec (o_tag o) 53) as [E|E]; [|done].
      rewrite (proj2 (Z.ltb_lt _ _)) by lia. cbn [andb].
      pose proof (type_byte o (pre ++ [o_tag o; o_lenght o]) (encode_all os ++ rest) Ho E) as H2.
      rewrite zlen_app, <-!app_assoc in H2. change (zlen [_; _]) with 2 in H2.
      change (pre ++ encode o ++ ?t) with (pre ++ [o_tag o; o_lenght o] ++ encode_value o ++ t).
      by rewrite H2. }
    rewrite Htype, ret_bind. cbv zeta. rewrite (proj2 (Z.leb_gt _ _)) by lia.
    rewrite Hrl, ret_bind. rewrite (proj2 (Z.leb_gt _ _)) by lia.
    replace (zlen pre + 1 + (o_lenght o + 1)) with (zlen pre + 2 + o_lenght o) by lia.
    specialize (IH fuel (pre ++ encode o) rest (if o_tag o =? 53 then type_name (value_number o) else acc) Hall).
    rewrite Hz, <-!app_assoc in IH. rewrite IH by (done || lia). reflexivity.
Qed.

Lemma type_of_retrieve os o acc : NoDup (o_tag <$> os) → dhcp_option_retrieve os 53 = Some o →
  type_of os acc = type_name (value_number o).
Proof.
  assert (Hno : ∀ os acc, 53 ∉ (o_tag <$> os) → type_of os acc = acc).
  { clear. induction os as [|o os IH]; intros acc Hn; [done|]. rewrite fmap_cons in Hn.
    apply not_elem_of_cons in Hn as [Hne Hn]. cbn [type_of].
    rewrite (proj2 (Z.eqb_neq _ _)) by done. by apply IH. }
  revert acc. induction os as [|o' os IH]; intros acc Hd; [done|]. rewrite fmap_cons in Hd.
  apply NoDup_cons in Hd as [Hn Hd]. cbn [dhcp_option_retrieve type_of].
  destruct (Z.eqb_spec (o_tag o') 53) as [E|E].
  - intros [= ->]. apply Hno. by rewrite <-E.
  - by apply IH.
Qed.

Lemma type_name_some t : type_name t ≠ ""%string.
Proof. unfold type_name. repeat (destruct (_ =? _); [done|]). done. Qed.

Lemma get_msg_type_encoded os o rest : Forall plain_option os → NoDup (o_tag <$> os) →
  dhcp_option_retrieve os 53 = Some o →
  zlen (encode_all os) < 336 →
  get_msg_type (encode_all os ++ DHCP_OPTION_END :: rest) = Ret (type_name (value_number o)).
Proof.
  intros Hall Hd Ho Hlen. unfold get_msg_type.
  assert (Hcount : 2 * zlen os ≤ zlen (encode_all os)).
  { apply encode_all_count. eapply Forall_impl; [exact Hall|]. by intros x [? _]. }
  assert (Hf : (length os < type_fuel)%nat) by (unfold type_fuel, zlen in *; lia).
  pose proof (type_loop_encoded os type_fuel [] (DHCP_OPTION_END :: rest) "" Hall) as H.
  rewrite !app_nil_l in H. change (zlen []) with 0 in H. rewrite H by (done || lia).
  destruct (type_fuel - length os)%nat as [|fuel] eqn:Ef; [lia|]. cbn [type_loop].
  rewrite (proj2 (Z.ltb_lt _ _)) by done. cbn [negb]. rewrite rd_middle, ret_bind.
  change (DHCP_OPTION_END =? 0) with false. change (DHCP_OPTION_END =? 255) with true.
  rewrite (type_of_retrieve os o "" Hd Ho). unfold mret, result_ret. rewrite ret_bind.
  by rewrite (proj2 (String.eqb_neq _ _) (type_name_some _)).
Qed.

Lemma type_loop_total options : length options = 336%nat → is_bytes options →
  ∀ fuel i t, 0 ≤ i ≤ 336 → 336 - i < Z.of_nat fuel →
  ∃ t', type_loop fuel options i t = Ret t'.
Proof.
  intros Hl Hb. induction fuel as [|fuel IH]; intros i t Hi Hf; [lia|].
  cbn [type_loop]. destruct (Z.ltb_spec i 336) as [Hlt|]; [|by exists t]. cbn [negb].
  assert (Hrd : ∀ j, 0 ≤ j < 336 → ∃ b, rd options j = Ret b ∧ is_u8 b).
  { intros j Hj. destruct (rd_in options j) as [b E]; [unfold zlen; lia|].
    exists b. split; [done | by eapply rd_u8]. }
  destruct (Hrd i ltac:(lia)) as (tag & -> & _). rewrite ret_bind.
  destruct (tag =? 0); [apply IH; lia|]. destruct (tag =? 255); [by exists t|].
  assert (∃ t1, (if (tag =? 53) && (i + 2 <? 336)
    then t ← rd options (i + 2); mret (type_name t) else mret t) = Ret t1) as [t1 ->].
  { destruct (_ && _) eqn:E; [|by eexists]. apply andb_true_iff in E as [_ E%Z.ltb_lt].
    destruct (Hrd (i + 2) ltac:(lia)) as (b & -> & _). by eexists. }
  rewrite ret_bind. cbv zeta. destruct (Z.leb_spec 336 (i + 1)); [by exists t1|].
  destruct (Hrd (i + 1) ltac:(lia)) as (len & -> & Hlen). rewrite ret_bind. unfold is_u8 in Hlen.
  destruct (Z.leb_spec 336 (i + 1 + (len + 1))); [by exists t1|]. apply IH; lia.
Qed.

(** Whatever the area holds, [get_msg_type] reads inside it and ends. *)
Theorem get_msg_type_total options : length options = 336%nat → is_bytes options →
  ∃ t, get_msg_type options = Ret t ∧ t ≠ ""%string.
Proof.
  intros Hl Hb. destruct (type_loop_total options Hl Hb type_fuel 0 "") as [t H]; [lia | done |].
  unfold get_msg_type. rewrite H, ret_bind. eexists. split; [reflexivity|].
  by destruct (String.eqb_spec t "").
Qed.

(** ** Reading a file *)
Section Viewer.
Context `{CC : !Cclog}.

(** A stored message the interface understands. *)
Definition readable (xid : Z) (mac : list Z) (m : dhcp_message) : Prop := ∃ os rest,
  archivable xid mac m os ∧ Forall plain_option os ∧ NoDup (o_tag <$> os) ∧
  pk_options (m_packet m) = encode_all os ++ DHCP_OPTION_END :: rest.

Lemma archivable_views xid mac m os time : archivable xid mac m os → views time m
  (GuiMessage (host_order (m_packet m)) time (type_name (m_type m))).
Proof.
  intros ((_ & _ & _ & _ & Hc & _) & Hs & _ & Hl & _).
  destruct Hs as (? & ? & ? & ? & ? & ? & ? & ? & ? & ? & ? & Hch & _).
  unfold views, host_order. cbn [g_time g_packet g_msg_type pk_opcode pk_htype pk_hlen pk_hops pk_xid
    pk_secs pk_flags pk_ciaddr pk_yiaddr pk_siaddr pk_giaddr pk_chaddr].
  split_and!; try done. change (take PACKET_CHADDR_LEN (m_chaddr m)) with (take 16 (m_chaddr m)) in Hch.
  rewrite <-Hch. unfold parse_header. cbn [m_chaddr]. unfold splice. rewrite take_0, app_nil_l.
  unfold PACKET_CHADDR_LEN in *. rewrite take_app_le by lia. by rewrite take_ge by lia.
Qed.

Lemma readable_type xid mac m : readable xid mac m →
  get_msg_type (pk_options (m_packet m)) = Ret (type_name (m_type m)).
Proof.
  intros (os & rest & (Hp & _ & _ & _ & _ & _ & _ & _ & Ht) & Hall & Hd & Harea).
  change DHCP_OPTION_DHCP_MESSAGE_TYPE with 53 in Ht.
  destruct (dhcp_option_retrieve os 53) as [o|] eqn:Eo; [|done]. injection Ht as <-. rewrite Harea.
  apply get_msg_type_encoded; [done..|].
  destruct Hp as (_ & _ & _ & _ & _ & _ & _ & Hol & _). apply (f_equal length) in Harea.
  rewrite Hol, length_app in Harea. cbn [length] in Harea. unfold zlen, OPTIONS_LEN in *. lia.
Qed.

(** The text and the bytes of a record, as the interface decodes them. *)
Lemma entry_turn fuel path files pre post xid mac time m os acc type :
  is_u32 time → archivable xid mac m os →
  (∀ text, metadata time m = Ret text →
     files !! path = Some (pre ++ record_of text m ++ post)%string) →
  get_msg_type (pk_options (m_packet m)) = Ret type →
  entry_loop (S fuel) path (String.length pre) acc (Env files []) =
  entry_loop fuel path (String.length pre + 704)
    (acc ++ [GuiMessage (host_order (m_packet m)) time type]) (Env files []).
Proof.
  intros Ht Ha Hfile Htype. pose proof Ha as (Hp & _ & _ & Hl & Hmac & _ & Hc & _).
  pose proof (metadata_text time m mac Hl Hmac) as Htext.
  set (text := ("T:" ++ _)%string) in Htext. specialize (Hfile text Htext).
  pose proof (metadata_buffer_length time m mac text Ht Hl Hmac Htext) as Hbl.
  unfold record_of in Hfile. rewrite <-string_app_assoc in Hfile. cbn [entry_loop].
  rewrite prog_bind_eq, (read_n_run path files pre _ _ Hfile) by done. cbv beta iota zeta.
  rewrite Hbl. change (Z.of_nat (Z.to_nat METADATA_LEN) =? METADATA_LEN) with true. cbn [negb].
  assert (Hdl : String.length (bytes_string (packet_encode (m_packet m))) = 576%nat)
    by (rewrite bytes_string_length; by apply length_packet_encode).
  rewrite prog_bind_eq.
  rewrite (read_n_run path files (pre ++ metadata_buffer text) (bytes_string (packet_encode (m_packet m))) post).
  2:{ by rewrite Hfile, <-string_app_assoc. } 2:{ by rewrite Hdl. }
  2:{ by rewrite string_length_app, Hbl. }
  cbv beta iota zeta. rewrite Hdl. change (Z.of_nat 576 =? 576) with true. cbn [negb].
  unfold metadata_buffer at 1, text at 1. rewrite <-!string_app_assoc, scan_metadata_text by done.
  rewrite u32_small by done.
  assert (Hdec : packet_decode (code <$> list_ascii_of_string (bytes_string (packet_encode (m_packet m)))) =
    m_packet m).
  { rewrite bytes_string_code by (by apply packet_encode_bytes). by apply packet_decode_encode. }
  rewrite Hdec. change (pk_cookie (host_order (m_packet m))) with (ntohl (pk_cookie (m_packet m))).
  rewrite Hc, Z.eqb_refl. cbn [negb]. change (pk_options (host_order ?p)) with (pk_options p).
  rewrite prog_bind_eq. unfold lift. rewrite Htype. cbv beta iota. f_equal.
  unfold METADATA_LEN. lia.
Qed.

Lemma load_entries xid mac stored content path files : records xid mac stored content →
  Forall (λ '(_, m), readable xid mac m) stored →
  ∀ fuel pre acc, (length stored < fuel)%nat → files !! path = Some (pre ++ content)%string →
  ∃ vs, entry_loop fuel path (String.length pre) acc (Env files []) = Ret (acc ++ vs, Env files []) ∧
    Forall2 (λ '(time, m) v, views time m v) stored vs.
Proof.
  intros Hrec. induction Hrec as [|time m os text stored content Ht Ha Hm Hrec IH];
    intros Hall fuel pre acc Hf Hfile; (destruct fuel as [|fuel]; [lia|]).
  - exists []. rewrite string_app_nil in Hfile. rewrite app_nil_r. split; [|constructor].
    cbn [entry_loop]. by rewrite prog_bind_eq, (read_n_end path files pre) by done.
  - apply Forall_cons in Hall as [Hr Hall]. cbn [length] in Hf.
    rewrite (entry_turn fuel path files pre content xid mac time m os acc (type_name (m_type m)));
      [|done|done|intros text' E; by rewrite Hm in E; injection E as <- | by eapply readable_type].
    destruct (IH Hall fuel (pre ++ record_of text m)%string
      (acc ++ [GuiMessage (host_order (m_packet m)) time (type_name (m_type m))])) as (vs & Hrun & Hvs);
      [lia | by rewrite <-string_app_assoc |].
    rewrite string_length_app, (record_length xid mac time m os text) in Hrun by done. rewrite Hrun.
    eexists (_ :: vs). rewrite <-app_assoc. split; [reflexivity|].
    constructor; [by eapply archivable_views | done].
Qed.

Lemma load_stored_entry xid mac stored content files : records xid mac stored content →
  Forall (λ '(_, m), readable xid mac m) stored → files !! database_file xid mac = Some content →
  ∃ vs, database_load_entry (database_file xid mac) (Env files []) = Ret (vs, Env files []) ∧
    Forall2 (λ '(time, m) v, views time m v) stored vs.
Proof.
  intros Hrec Hread Hfile.
  destruct (load_entries xid mac stored content (database_file xid mac) files Hrec Hread
    (S (String.length content)) "" []) as (vs & Hload & Hvs).
  { rewrite (records_length xid mac stored content Hrec). lia. } { exact Hfile. }
  exists vs. split; [|exact Hvs]. unfold database_load_entry, sys_open, mbind, prog_bind, get_state.
  cbn -[database_file entry_loop]. rewrite Hfile. cbn -[database_file entry_loop].
  unfold load_fuel, contents. cbn [e_files]. rewrite Hfile. exact Hload.
Qed.

(** C25. What the server stores the interface reads: after the messages of a
    conversation were stored, the viewer loads one message for each of them, in
    order, with the fields of the header, the time and the name of the type. *)
Theorem database_load_entry_stored xid mac stored files : stored ≠ [] →
  Forall (λ '(time, m), is_u32 time ∧ readable xid mac m) stored →
  files !! database_file xid mac = None →
  ∃ e, store_all stored (Env files []) = Ret ((), e) ∧
  ∃ vs, database_load_entry (database_file xid mac) e = Ret (vs, e) ∧
    Forall2 (λ '(time, m) v, views time m v) stored vs.
Proof.
  intros Hne Hall Hnone.
  destruct (store_records xid mac stored) with (files := files) as (content & files' & Hrec & Hrun & _ & Hfile).
  { eapply Forall_impl; [exact Hall|]. intros [time m] (Ht & os & rest & Ha & _). split; [done | by exists os]. }
  exists (Env files' []). split; [exact Hrun|]. specialize (Hfile Hne). rewrite Hnone in Hfile.
  assert (Hread : Forall (λ '(_, m), readable xid mac m) stored)
    by (eapply Forall_impl; [exact Hall|]; by intros [time m] [_ ?]).
  by apply (load_stored_entry xid mac stored content files').
Qed.
End Viewer.

(** ** Witnesses: the sample message *)
Lemma sample_plain : Forall plain_option sample_options.
Proof.
  assert (H : Forall (λ o, o_tag o = DHCP_OPTION_DHCP_MESSAGE_TYPE → o_lenght o = 1) sample_options)
    by by_decision.
  pose proof sample_ok as Hok. pose proof sample_canonical as Hcan.
  rewrite Forall_forall in *. intros o Ho. split; [by apply Hok|]. split; [by apply Hcan | by apply H].
Qed.

Lemma sample_viewable : Forall viewable sample_options.
Proof.
  assert (H : Forall (λ o, (o_type o = DHCP_OPTION_IP → o_lenght o = 4) ∧
    (o_type o = DHCP_OPTION_BOOL → 1 ≤ o_lenght o) ∧ o_tag o ≠ DHCP_OPTION_MERIT_DUMP) sample_options)
    by by_decision.
  pose proof sample_ok as Hok. pose proof sample_canonical as Hcan.
  rewrite Forall_forall in *. intros o Ho. split; [by apply Hok|]. split; [by apply Hcan | by apply H].
Qed.

Definition sample_rest : list Z := zeros (334 - length (encode_all sample_options)).

Lemma sample_area_eq : pk_options (m_packet sample_stored) =
  encode_all sample_options ++ DHCP_OPTION_END :: 0 :: sample_rest.
Proof. vm_compute. reflexivity. Qed.

Lemma sample_readable : @readable cclog_run 3735928559 sample_mac sample_stored.
Proof.
  exists sample_options, (0 :: sample_rest). split; [exact sample_archivable|].
  split; [exact sample_plain|]. split; [by_decision | exact sample_area_eq].
Qed.

Lemma show_options_spec_witness :
  show_options (encode_all sample_options ++ DHCP_OPTION_END :: 0 :: sample_rest) =
  Ret (shown <$> sample_options).
Proof.
  apply (show_options_spec sample_options 0 sample_rest);
    [exact sample_viewable | reflexivity | by vm_compute].
Defined.

Lemma get_msg_type_total_witness : ∃ t, get_msg_type (zeros 336) = Ret t ∧ t ≠ ""%string.
Proof. apply get_msg_type_total; [reflexivity | apply zeros_bytes]. Defined.

Lemma database_load_entry_stored_witness : ∃ e,
  @store_all cclog_run [(1000, sample_stored)] (Env ∅ []) = Ret ((), e) ∧
  ∃ vs, database_load_entry (database_file 3735928559 sample_mac) e = Ret (vs, e) ∧
    Forall2 (λ '(time, m) v, views time m v) [(1000, sample_stored)] vs.
Proof.
  apply (@database_load_entry_stored cclog_run 3735928559 sample_mac [(1000, sample_stored)] ∅);
    [done | | reflexivity].
  apply Forall_singleton. split; [by_decision | exact sample_readable].
Defined.
