(* ===== verification/TabInspect.v ===== *)
(** The Inspect tab of the configuration interface, [gui/src/tab_inspect.cpp]: the
    list of stored transactions, the messages of the selected one and the details
    of the selected message.  The menus of the interface write the selections;
    [refresh] brings the rest up to date. *)
From Stdlib Require Import Ascii String.
From S2P Require Import Prelude Bytes Xtoy Scanf Files Rfc Options Packet Timer Transaction Database Server Archive GuiRfc Inspect.
Local Open Scope Z_scope.

(** ** Strings and dates *)

(** [s.substr(pos, n)] throws when the string is shorter than [pos]. *)
Definition substr (s : string) (pos n : nat) : result string :=
  if (pos <=? String.length s)%nat then mret (str_take n (str_drop pos s)) else Undef Uncaught.

Fixpoint is_prefix (pat s : string) : bool :=
  match pat, s with
  | EmptyString, _ => true
  | String c pat, String d s => Ascii.eqb c d && is_prefix pat s
  | _, _ => false
  end.

(** [s.find(pat) != npos] *)
Fixpoint contains (pat s : string) : bool :=
  is_prefix pat s || match s with String _ s => contains pat s | EmptyString => false end.

(** [s.erase(std::remove(..., c), ...)] *)
Fixpoint erase_char (c : ascii) (s : string) : string :=
  match s with
  | String d s => if Ascii.eqb c d then erase_char c s else String d (erase_char c s)
  | EmptyString => ""
  end.

Definition two_digits (n : Z) : string := ((if (n <? 10)%Z then "0" else "") ++ print_u n)%string.

(** The date of a day, counted from 1 January 1970: year, month and day. *)
Definition civil_date (days : Z) : Z * Z * Z :=
  let z := days + 719468 in
  let era := z / 146097 in
  let doe := z mod 146097 in
  let yoe := (doe - doe / 1460 + doe / 36524 - doe / 146096) / 365 in
  let doy := doe - (365 * yoe + yoe / 4 - yoe / 100) in
  let mp := (5 * doy + 2) / 153 in
  let m := if mp <? 10 then mp + 3 else mp - 9 in
  (yoe + era * 400 + (if m <=? 2 then 1 else 0), m, doy - (153 * mp + 2) / 5 + 1).

(** [gmtime] and [put_time] with "%Y-%m-%d %I:%M:%S %p" *)
Definition put_time (time : Z) : string :=
  let '(y, m, d) := civil_date (time / 86400) in
  let s := time mod 86400 in
  let h := s / 3600 in
  let h12 := if h mod 12 =? 0 then 12 else h mod 12 in
  (print_u y ++ "-" ++ two_digits m ++ "-" ++ two_digits d ++ " " ++ two_digits h12 ++ ":" ++
   two_digits (s / 60 mod 60) ++ ":" ++ two_digits (s mod 60) ++ " " ++
   (if (h <? 12)%Z then "AM" else "PM"))%string.

Example put_time_epoch : put_time 0 = "1970-01-01 12:00:00 AM"%string.
Proof. reflexivity. Qed.
Example put_time_leap : put_time 1709210096 = "2024-02-29 12:34:56 PM"%string.
Proof. vm_compute. reflexivity. Qed.

(** ** State *)

(** [struct dhcp_message_str]; [sname], [filename] and [options] stay empty. *)
Record dhcp_message_str := MessageStr {
  ms_opcode : string; ms_htype : string; ms_hlen : string; ms_hops : string;
  ms_xid : string; ms_secs : string; ms_flags : string;
  ms_ciaddr : string; ms_yiaddr : string; ms_siaddr : string; ms_giaddr : string;
  ms_chaddr : string; ms_cookie : string; ms_time_when_stored : string; ms_msg_type : string;
}.

(** The filter, the entries of the directory that match it, the loaded
    transaction and the options of the selected message; a selection is kept with
    the one last handled. *)
Record filter_view := Filter {
  toggle_filter_selected : Z;
  filter_content : string;
  filter_content_last : string;
}.
Record entries_view := Entries {
  transaction_entries_xid : list string;
  transaction_entries_mac : list string;
  transaction_entry_selected : Z;
  transaction_entry_selected_last : Z;
}.
Record loaded_view := Loaded {
  loaded_transaction : list gui_message;
  loaded_transaction_msg_types : list string;
  loaded_transaction_selected : Z;
  loaded_transaction_selected_last : Z;
  loaded_message : dhcp_message_str;
}.
Record options_view := OptionsView {
  loaded_dhcp_options : list shown_option;
  dhcp_option_entries : list string;
  selected_dhcp_option : shown_option;
  option_detail_selected : Z;
  option_detail_selected_last : Z;
}.
Record tab_inspect := Tab {
  t_filter : filter_view;
  t_entries : entries_view;
  t_loaded : loaded_view;
  t_options : options_view;
}.

Definition no_message : dhcp_message_str := MessageStr "" "" "" "" "" "" "" "" "" "" "" "" "" "" "".
Definition no_option : shown_option := Shown 0 0 "" "" "" "".

(** The constructor. *)
Definition TabInspect : tab_inspect :=
  Tab (Filter 0 "" "-----") (Entries [] [] 0 (-1)) (Loaded [] [] 0 (-1) no_message)
    (OptionsView [] [] no_option 0 (-1)).

(** ** Operations *)
Definition db_path : string := database_dir.

(** Does the filter let an entry through? *)
Definition filter_admits (f : filter_view) (path : string) : result bool :=
  if (String.length (filter_content f) <=? 1)%nat then mret true
  else if toggle_filter_selected f =? 0 then
    xid ← substr path 19 8; mret (contains (filter_content f) xid)
  else
    mac ← substr path 28 12; mret (contains (erase_char ":" (filter_content f)) mac).

Fixpoint list_entries (f : filter_view) (names : list string) (e : entries_view) : result entries_view :=
  match names with
  | [] => mret e
  | name :: names =>
      let path := (db_path ++ name)%string in
      let e := if (String.length (filter_content f) <=? 1)%nat then e
               else Entries (transaction_entries_xid e) (transaction_entries_mac e) 0
                      (transaction_entry_selected_last e) in
      ok ← filter_admits f path;
      if negb ok then list_entries f names e
      else
        xid ← substr path 19 8;
        mac ← substr path 28 12;
        list_entries f names
          (Entries (transaction_entries_xid e ++ [xid]) (transaction_entries_mac e ++ [mac])
             (transaction_entry_selected e) (transaction_entry_selected_last e))
  end.

(** The names in the directory, [None] when it does not exist: its iterator
    throws. *)
Definition load_transactions (dir : option (list string)) (t : tab_inspect) : result tab_inspect :=
  let f := t_filter t in
  let e := t_entries t in
  match dir with
  | None => Undef Uncaught
  | Some names =>
      e ← list_entries f names
            (Entries [] [] (transaction_entry_selected e) (transaction_entry_selected_last e));
      mret (Tab (Filter (toggle_filter_selected f) (filter_content f) (filter_content f))
              (Entries (transaction_entries_xid e) (transaction_entries_mac e)
                 (transaction_entry_selected e) (transaction_entry_selected e))
              (t_loaded t) (t_options t))
  end.

(** [strcat(entry.msg_type, " ")] *)
Definition pad_type (m : gui_message) : gui_message :=
  GuiMessage (g_packet m) (g_time m) (g_msg_type m ++ " ")%string.

Definition load_selected_transaction (t : tab_inspect) : prog env tab_inspect :=
  let e := t_entries t in
  if (length (transaction_entries_xid e) =? 0)%nat then mret t
  else
    xid ← lift (rd (transaction_entries_xid e) (transaction_entry_selected e));
    mac ← lift (rd (transaction_entries_mac e) (transaction_entry_selected e));
    ms ← database_load_entry (db_path ++ xid ++ "_" ++ mac ++ ".dhcp")%string;
    let ms := pad_type <$> ms in
    let l := t_loaded t in
    mret (Tab (t_filter t) e
            (Loaded ms (g_msg_type <$> ms) (loaded_transaction_selected l)
               (loaded_transaction_selected_last l) (loaded_message l))
            (t_options t)).

Definition load_selected_message_options (t : tab_inspect) : result tab_inspect :=
  let l := t_loaded t in
  let o := t_options t in
  let cleared := OptionsView [] [] (selected_dhcp_option o) (option_detail_selected o)
                   (option_detail_selected_last o) in
  if loaded_transaction_selected l =? loaded_transaction_selected_last l
  then mret (Tab (t_filter t) (t_entries t) l cleared)
  else
    m ← rd (loaded_transaction l) (loaded_transaction_selected l);
    os ← show_options (pk_options (g_packet m));
    mret (Tab (t_filter t) (t_entries t) l
            (OptionsView os ((λ o, print_u (so_tag o)) <$> os) (selected_dhcp_option o)
               (option_detail_selected o) (option_detail_selected_last o))).

(** The fields of a message as text. *)
Definition message_text (m : gui_message) : result dhcp_message_str :=
  let p := g_packet m in
  chaddr ← uint8_array_to_mac (pk_chaddr p);
  mret (MessageStr (print_u (pk_opcode p)) (print_u (pk_htype p)) (print_u (pk_hlen p))
          (print_u (pk_hops p)) ("0x" ++ print_08x (pk_xid p))%string (print_u (pk_secs p))
          (print_u (pk_flags p)) (uint32_to_ipv4_address (pk_ciaddr p))
          (uint32_to_ipv4_address (pk_yiaddr p)) (uint32_to_ipv4_address (pk_siaddr p))
          (uint32_to_ipv4_address (pk_giaddr p)) chaddr ("0x" ++ print_08x (pk_cookie p))%string
          (put_time (g_time m)) (g_msg_type m)).

Definition load_selected_message (t : tab_inspect) : result tab_inspect :=
  let l := t_loaded t in
  if loaded_transaction_selected l =? loaded_transaction_selected_last l then mret t
  else if (length (transaction_entries_xid (t_entries t)) =? 0)%nat then
    mret (Tab (t_filter t) (t_entries t)
            (Loaded (loaded_transaction l) (loaded_transaction_msg_types l)
               (loaded_transaction_selected l) (loaded_transaction_selected_last l) no_message)
            (t_options t))
  else
    m ← rd (loaded_transaction l) (loaded_transaction_selected l);
    text ← message_text m;
    let o := t_options t in
    t ← load_selected_message_options
          (Tab (t_filter t) (t_entries t)
             (Loaded (loaded_transaction l) (loaded_transaction_msg_types l)
                (loaded_transaction_selected l) (loaded_transaction_selected_last l) text)
             (OptionsView (loaded_dhcp_options o) (dhcp_option_entries o) (selected_dhcp_option o)
                0 (-1)));
    let l := t_loaded t in
    mret (Tab (t_filter t) (t_entries t)
            (Loaded (loaded_transaction l) (loaded_transaction_msg_types l)
               (loaded_transaction_selected l) (loaded_transaction_selected l) (loaded_message l))
            (t_options t)).

Definition load_selected_option (t : tab_inspect) : result tab_inspect :=
  let o := t_options t in
  let select (s : shown_option) (last : Z) :=
    Tab (t_filter t) (t_entries t) (t_loaded t)
      (OptionsView (loaded_dhcp_options o) (dhcp_option_entries o) s (option_detail_selected o) last) in
  if (length (transaction_entries_xid (t_entries t)) =? 0)%nat
  then mret (select no_option (option_detail_selected_last o))
  else if option_detail_selected_last o =? option_detail_selected o then mret t
  else
    s ← rd (loaded_dhcp_options o) (option_detail_selected o);
    mret (select s (option_detail_selected o)).

Definition forget_message (t : tab_inspect) : tab_inspect :=
  let l := t_loaded t in
  Tab (t_filter t) (t_entries t)
    (Loaded (loaded_transaction l) (loaded_transaction_msg_types l) (loaded_transaction_selected l) (-1)
       (loaded_message l)) (t_options t).

Definition stale (t : tab_inspect) : bool :=
  negb (String.eqb (filter_content (t_filter t)) (filter_content_last (t_filter t))) ||
  negb (transaction_entry_selected_last (t_entries t) =? transaction_entry_selected (t_entries t)).

Definition refresh (dir : option (list string)) (t : tab_inspect) : prog env tab_inspect :=
  t ← (if stale t then
         t ← lift (load_transactions dir t);
         t ← load_selected_transaction t;
         mret (forget_message t)
       else mret t);
  t ← lift (load_selected_message t);
  lift (load_selected_option t).

(** [fs::remove] may throw, which is caught. *)
Definition sys_unlink (path : string) : prog env () :=
  f ← fails;
  if (f : bool) then mret ()
  else e ← get_state; put_state (Env (delete path (e_files e)) (e_faults e)).

Fixpoint remove_first (xid : string) (names : list string) : prog env () :=
  match names with
  | [] => mret ()
  | name :: names =>
      let path := (db_path ++ name)%string in
      if contains (xid ++ "_") path then sys_unlink path else remove_first xid names
  end.

Definition remove_database_entry (dir : option (list string)) (t : tab_inspect) : prog env () :=
  let e := t_entries t in
  xid ← lift (rd (transaction_entries_xid e) (transaction_entry_selected e));
  match dir with
  | None => lift (Undef Uncaught)
  | Some names => remove_first xid names
  end.

(** ** Lemmas *)

(** A file of the database: transaction id and hardware address. *)
Definition file_ok (p : Z * list Z) : Prop := is_u32 p.1 ∧ is_bytes p.2 ∧ length p.2 = 6%nat.
Definition file_name (p : Z * list Z) : string := database_name p.1 p.2.

Lemma substr_middle a s b pos n : String.length a = pos → String.length s = n →
  substr (a ++ s ++ b) pos n = Ret s.
Proof.
  intros <- <-. unfold substr. rewrite !string_length_app.
  rewrite (proj2 (Nat.leb_le _ _)) by lia. by rewrite str_drop_app, str_take_app.
Qed.

Lemma substr_xid p : file_ok p → substr (db_path ++ file_name p) 19 8 = Ret (print_08x p.1).
Proof. intros (Hx & _). apply substr_middle; [done | by apply print_08x_length]. Qed.

Lemma substr_mac p : file_ok p → substr (db_path ++ file_name p) 28 12 = Ret (print_hex p.2).
Proof.
  intros (Hx & Hb & Hl). unfold file_name, database_name.
  rewrite !string_app_assoc, <-(string_app_assoc _ (print_hex _)).
  apply substr_middle; [|by rewrite print_hex_length, Hl].
  rewrite !string_length_app, print_08x_length by done. reflexivity.
Qed.

(** Without a filter every file is listed. *)
Lemma list_entries_all f ps : (String.length (filter_content f) ≤ 1)%nat → Forall file_ok ps →
  ∀ e, list_entries f (file_name <$> ps) e =
  Ret (Entries (transaction_entries_xid e ++ ((λ p, print_08x p.1) <$> ps))
         (transaction_entries_mac e ++ ((λ p, print_hex p.2) <$> ps))
         (transaction_entry_selected e) (transaction_entry_selected_last e)).
Proof.
  intros Hf. induction 1 as [|p ps Hp _ IH]; intros e.
  - cbn. rewrite !app_nil_r. by destruct e.
  - rewrite !fmap_cons. cbn [list_entries]. unfold filter_admits.
    rewrite (proj2 (Nat.leb_le _ _)) by done. unfold mret at 1, result_ret at 1. rewrite ret_bind.
    cbn [negb]. rewrite substr_xid, ret_bind, substr_mac, ret_bind by done. rewrite IH.
    cbn [transaction_entries_xid transaction_entries_mac transaction_entry_selected
      transaction_entry_selected_last]. by rewrite <-!app_assoc.
Qed.

Lemma rd_fmap {A B} (f : A → B) (l : list A) i x : 0 ≤ i → l !! Z.to_nat i = Some x →
  rd (f <$> l) i = Ret (f x).
Proof. intros Hi Hx. apply rd_Ret. split; [done|]. by rewrite list_lookup_fmap, Hx. Qed.

Section Viewing.
Context `{CC : !Cclog}.

(** A run of the tab: the directory, the selected file and what is in it. *)
Record showing (ps : list (Z * list Z)) (t : tab_inspect) (xid : Z) (mac : list Z)
    (stored : list (Z * dhcp_message)) (files : gmap string string) : Prop := {
  sh_files : Forall file_ok ps;
  sh_filter : (String.length (filter_content (t_filter t)) ≤ 1)%nat;
  sh_stale : stale t = true;
  sh_index : 0 ≤ transaction_entry_selected (t_entries t);
  sh_selected : ps !! Z.to_nat (transaction_entry_selected (t_entries t)) = Some (xid, mac);
  sh_stored : ∃ content, records xid mac stored content ∧
    files !! database_file xid mac = Some content;
  sh_readable : Forall (λ '(_, m), readable xid mac m) stored;
}.

(** A refresh lists the directory and loads the selected file. *)
Lemma refresh_loads ps t xid mac stored files : showing ps t xid mac stored files →
  ∃ vs, Forall2 (λ '(time, m) v, views time m v) stored vs ∧
  let sel := transaction_entry_selected (t_entries t) in
  let l := t_loaded t in
  refresh (Some (file_name <$> ps)) t (Env files []) =
  (t ← lift (load_selected_message
       (Tab (Filter (toggle_filter_selected (t_filter t)) (filter_content (t_filter t))
               (filter_content (t_filter t)))
          (Entries ((λ p, print_08x p.1) <$> ps) ((λ p, print_hex p.2) <$> ps) sel sel)
          (Loaded (pad_type <$> vs) (g_msg_type <$> (pad_type <$> vs)) (loaded_transaction_selected l) (-1)
             (loaded_message l))
          (t_options t)));
   lift (load_selected_option t)) (Env files []).
Proof.
  intros [Hps Hf Hst Hi Hsel (content & Hrec & Hfile) Hread].
  destruct (load_stored_entry xid mac stored content files Hrec Hread Hfile) as (vs & Hload & Hvs).
  exists vs. split; [done|]. cbv zeta. unfold refresh. rewrite Hst. rewrite bind_assoc, prog_bind_eq.
  unfold lift at 1, load_transactions. rewrite (list_entries_all (t_filter t) ps Hf Hps), ret_bind.
  unfold mret at 1, result_ret at 1. cbv beta iota.
  cbn [transaction_entries_xid transaction_entries_mac transaction_entry_selected
    transaction_entry_selected_last app].
  rewrite bind_assoc. unfold load_selected_transaction.
  cbn [t_entries transaction_entries_xid transaction_entries_mac transaction_entry_selected].
  rewrite (proj2 (Nat.eqb_neq _ _)).
  2:{ rewrite length_fmap. apply lookup_lt_Some in Hsel. lia. }
  rewrite bind_assoc, prog_bind_eq. unfold lift at 1.
  rewrite (rd_fmap _ ps _ (xid, mac) Hi Hsel). cbv beta iota.
  rewrite bind_assoc, prog_bind_eq. unfold lift at 1.
  rewrite (rd_fmap _ ps _ (xid, mac) Hi Hsel). cbv beta iota. cbn [fst snd].
  change (db_path ++ print_08x xid ++ "_" ++ print_hex mac ++ ".dhcp")%string with (database_file xid mac).
  rewrite bind_assoc, prog_bind_eq, Hload. reflexivity.
Qed.

(** The selected message and its options. *)
Definition showable (m : dhcp_message) (os : list dhcp_option) : Prop := ∃ l rest,
  Forall viewable os ∧ pk_options (m_packet m) = encode_all os ++ DHCP_OPTION_END :: l :: rest ∧
  0 ≤ l ≤ zlen rest.

Lemma show_stored m os : packet_wf (m_packet m) → showable m os →
  show_options (pk_options (m_packet m)) = Ret (shown <$> os).
Proof.
  intros (_ & _ & _ & _ & _ & _ & _ & Hl & _) (l & rest & Hall & Harea & Hrest). rewrite Harea in *.
  apply show_options_spec; [done | | done]. unfold zlen. rewrite Hl. reflexivity.
Qed.

Lemma message_text_total m : (6 ≤ length (pk_chaddr (g_packet m)))%nat →
  ∃ text, message_text m = Ret text ∧ ms_msg_type text = g_msg_type m.
Proof.
  intros Hl. unfold message_text, uint8_array_to_mac.
  destruct (pk_chaddr (g_packet m)) as [|? [|? [|? [|? [|? [|? ?]]]]]]; simpl in Hl; try lia.
  eexists. split; reflexivity.
Qed.

(** C29. One refresh after another transaction was selected: the directory is
    listed, the file the server wrote is loaded, the text of the selected message is
    that of its fields, and the options shown are the ones it was sent with. *)
Theorem refresh_spec ps t xid mac stored files time m os :
  showing ps t xid mac stored files → 0 ≤ loaded_transaction_selected (t_loaded t) →
  stored !! Z.to_nat (loaded_transaction_selected (t_loaded t)) = Some (time, m) →
  packet_wf (m_packet m) → showable m os → os ≠ [] →
  ∃ t' v, refresh (Some (file_name <$> ps)) t (Env files []) = Ret (t', Env files []) ∧
    transaction_entries_xid (t_entries t') = (λ p, print_08x p.1) <$> ps ∧
    views time m v ∧ message_text (pad_type v) = Ret (loaded_message (t_loaded t')) ∧
    length (loaded_transaction (t_loaded t')) = length stored ∧
    loaded_dhcp_options (t_options t') = shown <$> os ∧
    Some (selected_dhcp_option (t_options t')) = head (shown <$> os).
Proof.
  intros Hs Hj Hm Hwf Hshow Hne. destruct (refresh_loads ps t xid mac stored files Hs) as (vs & Hvs & Hrun).
  destruct (Forall2_lookup_l _ _ _ _ _ Hvs Hm) as (v & Hv & Hview).
  assert (Hpk : g_packet v = host_order (m_packet m)) by apply Hview.
  destruct (message_text_total (pad_type v)) as (text & Htext & _).
  { cbn [g_packet pad_type]. rewrite Hpk. destruct Hwf as (_ & _ & _ & _ & Hc & _). cbn [pk_chaddr host_order].
    rewrite Hc. unfold PACKET_CHADDR_LEN. lia. }
  cbv zeta in Hrun. set (j := loaded_transaction_selected (t_loaded t)) in *.
  assert (Hrd : rd (pad_type <$> vs) j = Ret (pad_type v)) by by apply rd_fmap.
  assert (Hopt : show_options (pk_options (g_packet (pad_type v))) = Ret (shown <$> os)).
  { cbn [g_packet pad_type]. rewrite Hpk. by apply show_stored. }
  destruct os as [|o os]; [done|].
  rewrite prog_bind_eq in Hrun. unfold lift, load_selected_message, load_selected_message_options in Hrun.
  cbn [t_loaded loaded_transaction_selected loaded_transaction_selected_last loaded_transaction t_entries
    transaction_entries_xid t_options t_filter] in Hrun.
  rewrite (proj2 (Z.eqb_neq j (-1))) in Hrun by lia.
  rewrite (proj2 (Nat.eqb_neq _ 0)) in Hrun.
  2:{ rewrite length_fmap. pose proof (sh_selected _ _ _ _ _ _ Hs) as Hsel. apply lookup_lt_Some in Hsel. lia. }
  rewrite Hrd, !ret_bind, Htext, !ret_bind, Hopt, !ret_bind in Hrun.
  unfold mret, result_ret in Hrun. unfold load_selected_option in Hrun.
  cbn [t_loaded loaded_transaction_selected loaded_transaction_selected_last loaded_transaction t_entries
    transaction_entries_xid t_options t_filter option_detail_selected option_detail_selected_last
    loaded_dhcp_options] in Hrun.
  rewrite (proj2 (Nat.eqb_neq _ 0)) in Hrun.
  2:{ rewrite length_fmap. pose proof (sh_selected _ _ _ _ _ _ Hs) as Hsel. apply lookup_lt_Some in Hsel. lia. }
  change (-1 =? 0) with false in Hrun. cbv iota in Hrun. rewrite fmap_cons in Hrun.
  change (rd (shown o :: (shown <$> os)) 0) with (Ret (shown o)) in Hrun. rewrite ret_bind in Hrun.
  eexists _, v. split; [exact Hrun|]. split_and!; try done.
  cbn [t_loaded loaded_transaction]. rewrite length_fmap. symmetry. by eapply Forall2_length.
Qed.

(** The selection of a message outlives its transaction: when another
    transaction with fewer messages is selected, [refresh] indexes the vector of its
    messages with the old selection, past the end. *)
Theorem refresh_stale_selection ps t xid mac stored files : showing ps t xid mac stored files →
  Z.of_nat (length stored) ≤ loaded_transaction_selected (t_loaded t) →
  refresh (Some (file_name <$> ps)) t (Env files []) = Undef OutOfBounds.
Proof.
  intros Hs Hj. destruct (refresh_loads ps t xid mac stored files Hs) as (vs & Hvs & Hrun).
  cbv zeta in Hrun. rewrite Hrun, prog_bind_eq. unfold lift, load_selected_message.
  cbn [t_loaded loaded_transaction_selected loaded_transaction_selected_last loaded_transaction t_entries
    transaction_entries_xid].
  rewrite (proj2 (Z.eqb_neq _ _)) by lia. rewrite (proj2 (Nat.eqb_neq _ 0)).
  2:{ rewrite length_fmap. pose proof (sh_selected _ _ _ _ _ _ Hs) as Hsel. apply lookup_lt_Some in Hsel. lia. }
  rewrite rd_out; [done|]. unfold zlen. rewrite length_fmap, <-(Forall2_length _ _ _ Hvs). lia.
Qed.
End Viewing.

(** ** Deleting a file *)
Fixpoint count_char (c : ascii) (s : string) : nat :=
  match s with
  | String d s => ((if Ascii.eqb c d then 1 else 0) + count_char c s)%nat
  | EmptyString => 0%nat
  end.

Lemma count_char_app c s t : count_char c (s ++ t) = (count_char c s + count_char c t)%nat.
Proof.
  induction s as [|d s IH]; [done|]. rewrite string_app_cons. cbn [count_char]. lia.
Qed.

Lemma is_prefix_spec pat s : is_prefix pat s = true ↔ ∃ t, s = (pat ++ t)%string.
Proof.
  revert s. induction pat as [|c pat IH]; intros s.
  - split; [by exists s | done].
  - destruct s as [|d s]; cbn [is_prefix]; [split; [done | by intros [t [=]]]|].
    rewrite andb_true_iff, IH, Ascii.eqb_eq. split.
    + intros (-> & t & ->). by exists t.
    + intros [t Ht]. rewrite string_app_cons in Ht. injection Ht as -> ->. split; [done | by exists t].
Qed.

Lemma contains_spec pat s : contains pat s = true ↔ ∃ a b, s = (a ++ pat ++ b)%string.
Proof.
  induction s as [|c s IH]; cbn [contains]; rewrite orb_true_iff, is_prefix_spec.
  - split; [intros [[t ->]|?]; [by exists ""%string, t | done]|]. intros (a & b & H).
    left. exists ""%string. destruct a; [|done]. destruct pat; [done | done].
  - rewrite IH. split.
    + intros [[t ->]|(a & b & ->)]; [by exists ""%string, t | by exists (String c a), b].
    + intros (a & b & H). destruct a as [|d a]; [left; by exists b|].
      rewrite string_app_cons in H. injection H as <- ->. right. by exists a, b.
Qed.

Lemma hex_digit_not c d : 0 ≤ d < 16 → is_lower_hex c = false → Ascii.eqb c (hex_digit d) = false.
Proof.
  intros Hd Hc. destruct (Ascii.eqb_spec c (hex_digit d)) as [->|]; [|done].
  destruct (hex_digit_plain d Hd) as (_ & _ & _ & _ & _ & H). congruence.
Qed.

Lemma count_hex_text c k : is_lower_hex c = false → ∀ n s, count_char c (hex_text k n s) = count_char c s.
Proof.
  intros Hc. induction k as [|k IH]; intros n s; [done|]. cbn [hex_text]. rewrite IH. cbn [count_char].
  by rewrite hex_digit_not by (done || (apply Z.mod_pos_bound; lia)).
Qed.

Lemma count_print_hex c bs : is_lower_hex c = false → is_bytes bs → count_char c (print_hex bs) = 0%nat.
Proof.
  intros Hc. induction 1 as [|b bs Hb _ IH]; [done|]. cbn [print_hex]. rewrite count_char_app, IH.
  unfold print_02x. unfold is_u8 in Hb. change (2 ^ 8) with 256 in Hb. cbn [count_char].
  rewrite !hex_digit_not; [done | by apply Z.mod_pos_bound | done | | done].
  split; [apply Z.div_pos; lia | apply Z.div_lt_upper_bound; lia].
Qed.

(** The text before the only occurrence of a character. *)
Lemma split_at_char c a a' b b' : count_char c a = 0%nat → count_char c a' = 0%nat →
  (a ++ String c b = a' ++ String c b')%string → a = a'.
Proof.
  revert a'. induction a as [|d a IH]; intros [|d' a'] Ha Ha' H; rewrite ?string_app_cons in H.
  - done.
  - injection H as -> _. cbn in Ha'. by rewrite Ascii.eqb_refl in Ha'.
  - injection H as -> _. cbn in Ha. by rewrite Ascii.eqb_refl in Ha.
  - injection H as -> H. f_equal. cbn [count_char] in Ha, Ha'. apply IH; [lia | lia | done].
Qed.

Lemma string_app_inj_r a a' b b' : String.length b = String.length b' → (a ++ b = a' ++ b')%string → b = b'.
Proof.
  revert a'. induction a as [|c a IH]; intros [|c' a'] Hl H; rewrite ?string_app_cons in H; [done| | |].
  - pose proof (f_equal String.length H) as E. change ("" ++ b)%string with b in E. simpl in E.
    rewrite string_length_app in E. lia.
  - pose proof (f_equal String.length H) as E. change ("" ++ b')%string with b' in E. simpl in E.
    rewrite string_length_app in E. lia.
  - injection H as _ H. by eapply IH.
Qed.

Lemma print_08x_inj x y : is_u32 x → is_u32 y → print_08x x = print_08x y → x = y.
Proof.
  intros Hx Hy H. pose proof (scan_print_08x x "" Hx) as E. rewrite H in E.
  rewrite scan_print_08x in E by done. by injection E as <-.
Qed.

(** The text the tab looks for is in the path of a file exactly when the file has
    that transaction id. *)
Lemma contains_xid x p : is_u32 x → file_ok p →
  contains (print_08x x ++ "_") (db_path ++ file_name p) = bool_decide (p.1 = x).
Proof.
  intros Hx (Hp & Hb & Hl). apply eq_bool_prop_intro. rewrite !Is_true_true, bool_decide_eq_true, contains_spec.
  assert (Hpath : (db_path ++ file_name p)%string =
    ((db_path ++ print_08x p.1) ++ String "_" (print_hex p.2 ++ ".dhcp"))%string).
  { unfold file_name, database_name. by rewrite string_app_assoc. }
  rewrite Hpath. split.
  - intros (a & b & H).
    assert (Hc : ∀ z, is_u32 z → count_char "_" (print_08x z) = 0%nat)
      by (intros z Hz; rewrite print_08x_text by done; by apply count_hex_text).
    assert (E : (a ++ (print_08x x ++ "_") ++ b = (a ++ print_08x x) ++ String "_" b)%string)
      by by rewrite <-!string_app_assoc.
    rewrite E in H. pose proof (f_equal (count_char "_") H) as Hcount.
    rewrite !count_char_app in Hcount. cbn [count_char] in Hcount. rewrite Ascii.eqb_refl in Hcount.
    rewrite !count_char_app, count_print_hex, !Hc in Hcount by done.
    change (count_char "_" db_path) with 0%nat in Hcount. change (count_char "_" ".dhcp") with 0%nat in Hcount.
    apply split_at_char in H; [|rewrite count_char_app, Hc by done; done |
      rewrite count_char_app, Hc by done; lia].
    apply string_app_inj_r in H; [|by rewrite !print_08x_length]. by apply print_08x_inj.
  - intros <-. exists db_path, (print_hex p.2 ++ ".dhcp")%string. by rewrite <-!string_app_assoc.
Qed.

(** Deleting the selected transaction removes one file: the first one, in the
    order of the directory, of its transaction id, whichever client it belongs to.
    Every other file stays. *)
Theorem remove_database_entry_spec ps t x mac i files : Forall file_ok ps → is_u32 x →
  transaction_entries_xid (t_entries t) !! Z.to_nat (transaction_entry_selected (t_entries t)) =
    Some (print_08x x) →
  0 ≤ transaction_entry_selected (t_entries t) →
  list_find (λ p, p.1 = x) ps = Some (i, (x, mac)) →
  remove_database_entry (Some (file_name <$> ps)) t (Env files []) =
  Ret ((), Env (delete (database_file x mac) files) []).
Proof.
  intros Hps Hx Hsel Hi Hfind. unfold remove_database_entry. rewrite prog_bind_eq. unfold lift at 1.
  rewrite (proj2 (rd_Ret _ _ _) (conj Hi Hsel)). cbv beta iota. clear Hsel Hi.
  revert i Hfind. induction Hps as [|p ps Hp Hps IH]; intros i Hfind; [done|].
  rewrite fmap_cons. cbn [remove_first]. rewrite contains_xid by done. cbn [list_find] in Hfind.
  destruct (decide (p.1 = x)) as [E|E].
  - rewrite bool_decide_eq_true_2 by done. injection Hfind as _ ->. reflexivity.
  - rewrite bool_decide_eq_false_2 by done.
    destruct (list_find _ ps) as [[k q]|]; [|done]. injection Hfind as _ ->. by apply (IH k).
Qed.

(** Two clients with the same transaction id: the file of the first is deleted
    when the second is selected. *)
Lemma remove_other_client t x mac1 mac2 files : file_ok (x, mac1) → file_ok (x, mac2) →
  transaction_entries_xid (t_entries t) = [print_08x x; print_08x x] →
  transaction_entry_selected (t_entries t) = 1 →
  remove_database_entry (Some (file_name <$> [(x, mac1); (x, mac2)])) t (Env files []) =
  Ret ((), Env (delete (database_file x mac1) files) []).
Proof.
  intros H1 H2 He Hs. apply (remove_database_entry_spec _ _ _ _ 0).
  - constructor; [exact H1|]. constructor; [exact H2 | constructor].
  - apply H1.
  - by rewrite He, Hs.
  - by rewrite Hs.
  - cbn. by rewrite decide_True.
Qed.

(** A file with a name of less than nine characters in the directory ends the
    program: [substr] throws. *)
Lemma load_transactions_short_name t name names : (String.length name < 9)%nat →
  (String.length (filter_content (t_filter t)) ≤ 1)%nat →
  load_transactions (Some (name :: names)) t = Undef Uncaught.
Proof.
  intros Hn Hf. unfold load_transactions. cbn [list_entries]. unfold filter_admits.
  rewrite (proj2 (Nat.leb_le _ _)) by done. unfold mret at 1, result_ret at 1. rewrite ret_bind.
  cbn [negb]. unfold substr. rewrite !string_length_app. change (String.length db_path) with 19%nat.
  rewrite (proj2 (Nat.leb_le 19 _)) by lia. unfold mret at 1, result_ret at 1. rewrite ret_bind.
  by rewrite (proj2 (Nat.leb_gt 28 _)) by lia.
Qed.

(** ** Witnesses: the sample message in its file *)
Definition sample_files (content : string) : gmap string string :=
  {[database_file 3735928559 sample_mac := content]}.

Lemma sample_showing : ∃ content, @showing cclog_run [(3735928559, sample_mac)] TabInspect 3735928559
  sample_mac [(1000, sample_stored); (1001, sample_stored)] (sample_files content).
Proof.
  destruct sample_records as [content Hrec]. exists content. split.
  - apply Forall_singleton. split; [by_decision|]. split; [by_decision | done].
  - vm_compute. lia.
  - reflexivity.
  - done.
  - reflexivity.
  - exists content. split; [exact Hrec | apply lookup_singleton_eq].
  - by repeat (constructor; [exact sample_readable|]).
Qed.

Lemma refresh_spec_witness : ∃ content t',
  refresh (Some (file_name <$> [(3735928559, sample_mac)])) TabInspect (Env (sample_files content) []) =
    Ret (t', Env (sample_files content) []) ∧
  loaded_dhcp_options (t_options t') = shown <$> sample_options.
Proof.
  destruct sample_showing as [content Hs].
  destruct (@refresh_spec cclog_run [(3735928559, sample_mac)] TabInspect 3735928559 sample_mac
    [(1000, sample_stored); (1001, sample_stored)] (sample_files content) 1000 sample_stored sample_options)
    as (t' & v & Hrun & _ & _ & _ & _ & Ho & _);
    [exact Hs | done | reflexivity | apply sample_archivable | | done |].
  - exists 0, sample_rest. split; [exact sample_viewable|]. split; [exact sample_area_eq | done].
  - by exists content, t'.
Defined.

Lemma refresh_stale_selection_witness : ∃ content t,
  refresh (Some (file_name <$> [(3735928559, sample_mac)])) t (Env (sample_files content) []) =
    Undef OutOfBounds.
Proof.
  destruct sample_showing as [content Hs]. exists content.
  set (t := Tab (t_filter TabInspect) (t_entries TabInspect) (Loaded [] [] 2 2 no_message)
              (t_options TabInspect)).
  exists t. apply (@refresh_stale_selection cclog_run [(3735928559, sample_mac)] t 3735928559 sample_mac
    [(1000, sample_stored); (1001, sample_stored)]); [destruct Hs; by split | done].
Defined.

Lemma remove_database_entry_spec_witness :
  remove_database_entry (Some (file_name <$> [(7, sample_mac)]))
    (Tab (t_filter TabInspect) (Entries [print_08x 7] [print_hex sample_mac] 0 0) (t_loaded TabInspect)
       (t_options TabInspect)) (Env ∅ []) =
  Ret ((), Env (delete (database_file 7 sample_mac) ∅) []).
Proof.
  apply (remove_database_entry_spec [(7, sample_mac)] _ 7 sample_mac 0);
    [|by_decision | reflexivity | done | reflexivity].
  apply Forall_singleton. split; [by_decision|]. split; [by_decision | done].
Defined.
