(* ===== verification/TabLeases.v ===== *)
(** The Leases tab of the configuration interface, [gui/src/tab_leases.cpp]: it
    reads the lease files the server writes ([Lease]). *)
From Stdlib Require Import Ascii String.
From S2P Require Import Prelude Bytes Xtoy Scanf Rfc Options Json Files AddressPool Allocator Lease Packet Timer Transaction Database Server Archive GuiRfc Inspect TabInspect.
Local Open Scope Z_scope.

(** ** State *)

(** [struct Lease] *)
Record gui_lease := GuiLease {
  gl_address : Z;
  gl_subnet : Z;
  gl_pool_name : string;
  gl_lease_start : Z;
  gl_lease_expire : Z;
  gl_xid : Z;
  gl_flags : Z;
  gl_client_mac_address : list Z;
}.

(** The texts of the details. *)
Record lease_details := Details {
  d_pool_name : string;
  d_address : string;
  d_subnet : string;
  d_xid : string;
  d_start : string;
  d_end : string;
  d_mac : string;
}.

Record tab_leases := TabL {
  tl_pools : list string;
  tl_leased_addresses : list string;
  tl_leases : list gui_lease;
  tl_details : lease_details;
  pool_selected : Z;
  pool_selected_last : Z;
  lease_selected : Z;
  lease_selected_last : Z;
}.

Definition no_details : lease_details := Details "" "" "" "" "" "" "".

(** The constructor. *)
Definition TabLease : tab_leases := TabL [] [] [] no_details 0 (-1) 0 (-1).

(** ** Operations *)
Definition leases_path : string := "/etc/dhcp/lease/".

(** [s.find_last_of(c)] *)
Fixpoint find_last_of (c : ascii) (s : string) : option nat :=
  match s with
  | EmptyString => None
  | String d s =>
      match find_last_of c s with
      | Some i => Some (S i)
      | None => if Ascii.eqb c d then Some 0%nat else None
      end
  end.

(** The name of the pool of a file; without a dot the length wraps around and
    [substr] gives the rest of the path. *)
Definition pool_of_path (path : string) : result string :=
  let len := String.length leases_path in
  substr path len
    (match find_last_of "." path with
     | Some last_dot => if (last_dot <? len)%nat then String.length path else (last_dot - len)%nat
     | None => String.length path
     end).

Fixpoint pool_names (names : list string) : result (list string) :=
  match names with
  | [] => mret []
  | name :: names =>
      pool ← pool_of_path (leases_path ++ name);
      pools ← pool_names names;
      mret ((pool ++ " ")%string :: pools)
  end.

Definition load_pools (dir : option (list string)) (t : tab_leases) : result tab_leases :=
  match dir with
  | None => Undef Uncaught
  | Some names =>
      pools ← pool_names names;
      mret (TabL pools (tl_leased_addresses t) (tl_leases t) (tl_details t) (pool_selected t)
              (pool_selected_last t) (lease_selected t) (lease_selected_last t))
  end.

Section TabLeases.
Context `{CJ : !Cjson}.

(** The loop over the array; [lease] is one variable, so bytes of a hardware
    address that the text does not give stay from the element before. *)
Fixpoint leases_loop (elements : list json) (lease : gui_lease) (leases : list gui_lease)
    (addresses : list string) : result (list gui_lease * list string) :=
  match elements with
  | [] => mret (leases, addresses)
  | element :: elements =>
      let item k := get_item (Some element) k in
      address ← address_value (item "address");
      subnet ← address_value (item "subnet");
      lease_start ← to_unsigned 32 (get_number (item "lease_start"));
      lease_expire ← to_unsigned 32 (get_number (item "lease_expire"));
      xid ← to_unsigned 32 (get_number (item "xid"));
      flags ← to_unsigned 8 (get_number (item "flags"));
      mac ← deref (get_string (item "client_mac_address"));
      bytes ← mac_to_uint8_array mac (gl_client_mac_address lease);
      let lease := GuiLease address subnet (gl_pool_name lease) lease_start lease_expire xid flags bytes in
      text ← deref (get_string (item "address"));
      leases_loop elements lease (leases ++ [lease]) (addresses ++ [text])
  end.

Definition with_leases (t : tab_leases) (leases : list gui_lease) (addresses : list string) : tab_leases :=
  TabL (tl_pools t) addresses leases (tl_details t) (pool_selected t) (pool_selected_last t)
    (lease_selected t) (lease_selected_last t).

Definition parse_json_leases (_json : json) (_pool_name : string) (t : tab_leases)
    : result (Z * tab_leases) :=
  match get_item (Some _json) "leases" with
  | Some array =>
      if cJSON_IsArray array then
        '(leases, addresses) ← leases_loop (cJSON_children array)
          (GuiLease 0 0 _pool_name 0 0 0 0 (zeros 6)) [] [];
        mret (0, with_leases t leases addresses)
      else mret (-1, with_leases t [] [])
  | None => mret (-1, with_leases t [] [])
  end.

(** A buffer of exactly the bytes of the file, handed to [cJSON_Parse]: without a
    NUL among them it reads on behind the buffer. *)
Fixpoint c_text (data : string) : option string :=
  match data with
  | EmptyString => None
  | String c data =>
      if Ascii.eqb c zero then Some ""%string
      else s ← c_text data; Some (String c s)
  end.

Definition parse_buffer (data : string) : result (option json) :=
  match c_text data with
  | Some text => mret (cJSON_Parse text)
  | None => Undef OutOfBounds
  end.

(** The status and the state; the file is read with one [ifstream]. *)
Definition load_leases (t : tab_leases) : prog env (Z * tab_leases) :=
  if pool_selected t =? pool_selected_last t then mret (0, t)
  else if (length (tl_pools t) =? 0)%nat then mret (-1, t)
  else
    pool ← lift (rd (tl_pools t) (pool_selected t));
    name ← lift (substr pool 0 (String.length pool - 1));
    fd ← sys_open (lease_path name);
    match fd with
    | Opened path _ =>
        e ← get_state;
        json_leases ← lift (parse_buffer (contents e path));
        match json_leases with
        | None => mret (-1, t)
        | Some json_leases =>
            '(rv, t) ← lift (parse_json_leases json_leases pool t);
            if rv =? 0 then
              mret (0, TabL (tl_pools t) (tl_leased_addresses t) (tl_leases t) (tl_details t)
                         (pool_selected t) (pool_selected t) 0 (-1))
            else mret (-1, t)
        end
    | _ => mret (-1, t)
    end.
End TabLeases.

Definition with_details (t : tab_leases) (d : lease_details) (last : Z) : tab_leases :=
  TabL (tl_pools t) (tl_leased_addresses t) (tl_leases t) d (pool_selected t) (pool_selected_last t)
    (lease_selected t) last.

Definition lease_text (l : gui_lease) : result lease_details :=
  mac ← uint8_array_to_mac (gl_client_mac_address l);
  mret (Details (gl_pool_name l) (uint32_to_ipv4_address (gl_address l))
          (uint32_to_ipv4_address (gl_subnet l)) ("0x" ++ print_08x (gl_xid l))%string
          (put_time (gl_lease_start l)) (put_time (gl_lease_expire l)) mac).

Definition load_lease_details (t : tab_leases) : result tab_leases :=
  if lease_selected t =? lease_selected_last t then mret t
  else if (length (tl_leases t) =? 0)%nat then mret (with_details t no_details (lease_selected_last t))
  else
    lease ← rd (tl_leases t) (lease_selected t);
    d ← lease_text lease;
    mret (with_details t d (lease_selected t)).

(** The status of [load_leases] is not looked at. *)
Definition refresh_leases `{CJ : !Cjson} (dir : option (list string)) (t : tab_leases)
    : prog env tab_leases :=
  t ← lift (load_pools dir t);
  '(_, t) ← load_leases t;
  lift (load_lease_details t).

(** ** Theorems *)

(** A lease of the server in the interface. *)
Definition gui_of (pool : string) (l : lease_t) : gui_lease :=
  GuiLease (l_address l) (l_subnet l) pool (l_lease_start l) (l_lease_expire l) (l_xid l) (l_flags l)
    (l_client_mac_address l).

Lemma map_u8_bytes bs : is_bytes bs → u8 <$> bs = bs.
Proof.
  induction 1 as [|b bs Hb _ IH]; [done|]. rewrite fmap_cons, IH. by rewrite u8_small.
Qed.

Section TabLeasesTheorems.
Context `{CJ : !Cjson}.

Lemma leases_loop_spec pool ls js : Forall2 (λ l j, lease_wf l ∧ lease_to_cjson l = Ret j) ls js →
  ∀ lease leases addresses, gl_pool_name lease = pool → length (gl_client_mac_address lease) = 6%nat →
  leases_loop js lease leases addresses =
  Ret (leases ++ (gui_of pool <$> ls), addresses ++ ((λ l, uint32_to_ipv4_address (l_address l)) <$> ls)).
Proof.
  induction 1 as [|l j ls js [Hw Hj] _ IH]; intros lease leases addresses Hn Hl.
  - cbn [leases_loop]. by rewrite !app_nil_r.
  - destruct (lease_json_fields l Hw) as (j' & mac & Hj' & _ & Hscan & Ha & Hs & Hx & Hst & Hex & Hf & Hm).
    rewrite Hj in Hj'. injection Hj' as <-. destruct Hw as (? & ? & ? & ? & ? & ? & Hlm & Hb).
    cbn [leases_loop]. rewrite Ha, Hs, Hx, Hst, Hex, Hf, Hm.
    rewrite !address_value_string, !to_unsigned_u32, to_unsigned_u8 by done.
    rewrite !ret_bind. unfold get_string. cbn [mbind option_bind]. rewrite !get_string_spec.
    cbn [deref]. rewrite !ret_bind. unfold mac_to_uint8_array. rewrite Hscan, map_u8_bytes by done.
    rewrite blit_in by (unfold zlen; lia). unfold splice. cbn [Z.to_nat]. rewrite take_0, app_nil_l.
    rewrite drop_ge by lia. rewrite app_nil_r, !ret_bind.
    rewrite IH by done. rewrite !fmap_cons, <-!app_assoc. by rewrite Hn.
Qed.

(** C31. The interface shows the leases of the server: of a tree that holds a
    list of leases it takes each one, in order, with every field, the hardware
    address and the name of the pool, and lists their addresses. *)
Theorem parse_json_leases_spec root arr ls pool t : tree_holds root arr ls → cJSON_IsArray arr = true →
  parse_json_leases root pool t =
  Ret (0, with_leases t (gui_of pool <$> ls) ((λ l, uint32_to_ipv4_address (l_address l)) <$> ls)).
Proof.
  intros [Hg Hl] Ha. unfold parse_json_leases, get_item. cbn [mbind option_bind]. rewrite Hg, Ha.
  by rewrite (leases_loop_spec pool ls _ Hl) by done.
Qed.

(** The buffer of a file has no room for a NUL: whatever lease file is
    selected, unless it contains one itself, [cJSON_Parse] reads past the end of
    the buffer. *)
Lemma parse_buffer_overread data : c_text data = None → parse_buffer data = Undef OutOfBounds.
Proof. unfold parse_buffer. by intros ->. Qed.

Theorem load_leases_overread t pool text files :
  tl_pools t !! Z.to_nat (pool_selected t) = Some (pool ++ " ")%string → 0 ≤ pool_selected t →
  pool_selected t ≠ pool_selected_last t → files !! lease_path pool = Some text → c_text text = None →
  load_leases t (Env files []) = Undef OutOfBounds.
Proof.
  intros Hp Hi Hne Hfile Htext. unfold load_leases. rewrite (proj2 (Z.eqb_neq _ _) Hne).
  rewrite (proj2 (Nat.eqb_neq _ 0)) by (apply lookup_lt_Some in Hp; lia).
  rewrite prog_bind_eq. unfold lift at 1. rewrite (proj2 (rd_Ret _ _ _) (conj Hi Hp)). cbv beta iota.
  rewrite prog_bind_eq. unfold lift at 1. rewrite (substr_middle "" pool " " 0) by
    (done || (rewrite string_length_app; simpl; lia)).
  cbv beta iota. unfold sys_open, mbind, prog_bind, get_state. cbn -[lease_path]. rewrite Hfile.
  cbn -[lease_path]. unfold lift, contents. cbn -[lease_path]. rewrite Hfile.
  by rewrite parse_buffer_overread.
Qed.
End TabLeasesTheorems.

(** ** The names of the pools *)
Lemma find_last_of_app c s t : (∀ i, find_last_of c t ≠ Some i) →
  find_last_of c (s ++ String c t) = Some (String.length s).
Proof.
  intros Ht. assert (H0 : find_last_of c t = None).
  { destruct (find_last_of c t) as [i|]; [by destruct (Ht i)|done]. }
  induction s as [|d s IH].
  - change ("" ++ String c t)%string with (String c t). cbn. by rewrite H0, Ascii.eqb_refl.
  - rewrite string_app_cons. cbn. by rewrite IH.
Qed.

(** The tab lists the pools of the lease files, in the order of the
    directory. *)
Theorem load_pools_spec pools t :
  load_pools (Some ((λ p, p ++ ".lease")%string <$> pools)) t =
  Ret (TabL ((λ p, p ++ " ")%string <$> pools) (tl_leased_addresses t) (tl_leases t) (tl_details t)
         (pool_selected t) (pool_selected_last t) (lease_selected t) (lease_selected_last t)).
Proof.
  unfold load_pools.
  assert (Hnames : pool_names ((λ p, p ++ ".lease")%string <$> pools) = Ret ((λ p, p ++ " ")%string <$> pools)).
  { induction pools as [|p pools IH]; [done|]. rewrite !fmap_cons. cbn [pool_names].
    assert (Hp : pool_of_path (leases_path ++ p ++ ".lease") = Ret p).
    { unfold pool_of_path. change ".lease"%string with (String "." "lease") at 1.
      rewrite string_app_assoc, find_last_of_app by (intros i; vm_compute; discriminate).
      rewrite string_length_app, (proj2 (Nat.ltb_ge _ _)) by lia.
      rewrite <-string_app_assoc. apply substr_middle; [done|]. lia. }
    by rewrite Hp, ret_bind, IH. }
  by rewrite Hnames.
Qed.

(** ** Witnesses *)
Definition lease_tree : @json TreeJson.tree_json :=
  match @lease_to_cjson TreeJson.tree_json sample_lease with Ret j => j | _ => GenNode 0 [] end.
Definition leases_root : @json TreeJson.tree_json := GenNode 1 [TreeJson.member "leases" (GenNode 0 [lease_tree])].

Lemma leases_root_holds : @tree_holds TreeJson.tree_json leases_root (GenNode 0 [lease_tree]) [sample_lease].
Proof.
  split; [vm_compute; reflexivity|]. constructor; [|constructor]. split; [exact sample_lease_wf|].
  vm_compute. reflexivity.
Qed.

Lemma parse_json_leases_spec_witness :
  @parse_json_leases TreeJson.tree_json leases_root "Pool " TabLease =
  Ret (0, with_leases TabLease [gui_of "Pool " sample_lease] ["192.168.1.4"%string]).
Proof.
  apply (@parse_json_leases_spec TreeJson.tree_json leases_root (GenNode 0 [lease_tree]) [sample_lease] "Pool " TabLease).
  - exact leases_root_holds.
  - reflexivity.
Defined.

Definition pool_tab : tab_leases := TabL ["Pool "%string] [] [] no_details 0 (-1) 0 (-1).

Lemma load_leases_overread_witness :
  @load_leases TreeJson.tree_json pool_tab (Env {[ lease_path "Pool" := "{}"%string ]} []) = Undef OutOfBounds.
Proof.
  apply (@load_leases_overread TreeJson.tree_json pool_tab "Pool" "{}").
  - reflexivity.
  - reflexivity.
  - discriminate.
  - apply lookup_singleton_eq.
  - reflexivity.
Defined.
