(* ===== verification/TabConfig.v ===== *)
(** The Config tab of the configuration interface, [gui/src/tab_config.cpp]: it
    loads the configuration file into fields that can be edited, and "Apply"
    writes them back for the server to read ([Config]).

    The tab keeps pointers into one JSON tree: to its sections, to the items of
    the entries, to the arrays of options.  Here the tree is a value, a pointer to
    an item is whether it was found, and an assignment through it updates the
    tree. *)
From Stdlib Require Import Ascii String.
From S2P Require Import Prelude Bytes Xtoy Scanf Rfc Options Json Files AddressPool Allocator Lease GuiRfc Packet Timer Transaction Database Server Archive Inspect TabInspect TabLeases.
Local Open Scope Z_scope.

(** ** Numbers as text *)

(** [std::stoi]: text after the digits is ignored; without a digit or out of range
    it throws. *)
Definition stoi (s : string) : result Z :=
  let '(neg, s) := scan_sign (skip_space s) in
  match s with
  | String c _ =>
      match digit_val c with
      | Some _ =>
          let n := if (neg : bool) then - (scan_digits s 0).1 else (scan_digits s 0).1 in
          if (- 2 ^ 31 <=? n) && (n <? 2 ^ 31) then mret n else Undef Uncaught
      | None => Undef Uncaught
      end
  | EmptyString => Undef Uncaught
  end.

Definition print_int (n : Z) : string :=
  if n <? 0 then ("-" ++ dec_digits 20 (- n) "")%string else dec_digits 20 n "".

(** A [double] that is [NAN] or an integer, with no digits after the point. *)
Definition print_fixed (x : option Z) : string :=
  match x with Some n => print_int n | None => "nan" end.

(** The conversion of a [double] to [int]. *)
Definition to_int (x : option Z) : result Z :=
  match x with
  | Some n => if (- 2 ^ 31 <=? n) && (n <? 2 ^ 31) then Ret n else Undef BadConversion
  | None => Undef BadConversion
  end.

(** ** State *)
Inductive conf_type := NUMERIC | STRING | BOOLEAN | IP.

(** [struct ConfEntry] without the name and the description, which are only
    shown; [ce_json]: the pointer is not NULL. *)
Record conf_entry := ConfEntry {
  ce_json_path : string;
  ce_type : conf_type;
  ce_val : string;
  ce_val_i : Z;
  ce_def_val : string;
  ce_def_val_i : Z;
  ce_json : bool;
}.

Definition set_val (e : conf_entry) (v : string) : conf_entry :=
  ConfEntry (ce_json_path e) (ce_type e) v (ce_val_i e) (ce_def_val e) (ce_def_val_i e) (ce_json e).
Definition set_val_i (e : conf_entry) (v : Z) : conf_entry :=
  ConfEntry (ce_json_path e) (ce_type e) (ce_val e) v (ce_def_val e) (ce_def_val_i e) (ce_json e).
Definition set_json (e : conf_entry) (b : bool) : conf_entry :=
  ConfEntry (ce_json_path e) (ce_type e) (ce_val e) (ce_val_i e) (ce_def_val e) (ce_def_val_i e) b.

(** [struct DHCPOption] *)
Record gui_option := GuiOption {
  go_tag : Z;
  go_lenght : Z;
  go_value : string;
}.

(** [enum ConfigName] *)
Definition CONF_INTERFACE : nat := 0.
Definition CONF_DB_ENABLE : nat := 7.
Definition CONF_SEC_ACL_ENABLE : nat := 8.
Definition CONF_SEC_ACL_MODE : nat := 9.
Definition CONF_SEC_DYN_ACL_ENABLE : nat := 10.
Definition CONF_SEC_ACL_ENTRIES : nat := 11.

(** [initialize]: a field that is not named is zero. *)
Definition numeric_entry (path v : string) : conf_entry := ConfEntry path NUMERIC v 0 v 0 false.
Definition boolean_entry (path : string) : conf_entry := ConfEntry path BOOLEAN "" 1 "" 1 false.
Definition string_entry (path : string) : conf_entry := ConfEntry path STRING "" 0 "" 0 false.

Definition initialize : list conf_entry :=
  [string_entry "interface"; numeric_entry "tick_delay" "1000"; numeric_entry "cache_size" "25";
   numeric_entry "transaction_duration" "60"; numeric_entry "lease_expiration_check" "60";
   numeric_entry "log_verbosity" "4"; numeric_entry "lease_time" "43200"; boolean_entry "db_enable";
   boolean_entry "acl_enable"; boolean_entry "acl_blacklist"; boolean_entry "dynamic_acl";
   string_entry "acl_entries"].

Section TabConfig.
Context `{CJ : !Cjson}.

(** [struct DHCPPool] *)
Record gui_pool := GuiPool {
  gp_name : string;
  gp_start_addr : string;
  gp_end_addr : string;
  gp_subnet : string;
  gp_options_json : json;
}.

(** [config_json.config] and what the tab edits; [None] is the tree that could
    not be parsed, whose sections were not assigned. *)
Record tab_config := TabC {
  tc_root : option json;
  config_entries : list conf_entry;
  security_acl_entries : list string;
  pools_pools : list gui_pool;
  options_config_entries : list (list gui_option);
  tc_error : bool;                      (* error_msg is shown *)
}.

Definition with_root (t : tab_config) (root : option json) : tab_config :=
  TabC root (config_entries t) (security_acl_entries t) (pools_pools t) (options_config_entries t)
    (tc_error t).
Definition with_entries (t : tab_config) (es : list conf_entry) : tab_config :=
  TabC (tc_root t) es (security_acl_entries t) (pools_pools t) (options_config_entries t) (tc_error t).
Definition with_acl (t : tab_config) (l : list string) : tab_config :=
  TabC (tc_root t) (config_entries t) l (pools_pools t) (options_config_entries t) (tc_error t).
Definition with_pools (t : tab_config) (ps : list gui_pool) : tab_config :=
  TabC (tc_root t) (config_entries t) (security_acl_entries t) ps (options_config_entries t) (tc_error t).
Definition with_option_lists (t : tab_config) (os : list (list gui_option)) : tab_config :=
  TabC (tc_root t) (config_entries t) (security_acl_entries t) (pools_pools t) os (tc_error t).
Definition with_error (t : tab_config) : tab_config :=
  TabC (tc_root t) (config_entries t) (security_acl_entries t) (pools_pools t) (options_config_entries t)
    true.

(** ** The tree *)

(** A section of the file and a change of it. *)
Definition section (root : json) (name : string) : option json := cJSON_GetObjectItem root name.
Definition in_section (root : json) (name : string) (f : json → json) : json :=
  match section root name with
  | Some s => cJSON_update_member root name (f s)
  | None => root
  end.

(** An assignment to the item of a section. *)
Definition set_item (root : json) (name key : string) (v : json) : json :=
  in_section root name (λ s, match cJSON_GetObjectItem s key with
                             | Some _ => cJSON_update_member s key v
                             | None => s
                             end).

(** [cJSON_SetBoolValue] of an item that may be NULL or no truth value. *)
Definition set_bool (root : json) (name key : string) (b : bool) : json :=
  match get_item (section root name) key with
  | Some j => if cJSON_IsBool j then set_item root name key (cJSON_CreateBool b) else root
  | None => root
  end.

(** [clearArray] *)
Fixpoint clear_loop (fuel : nat) (array : json) : json :=
  match fuel with
  | O => array
  | S fuel =>
      match cJSON_children array with
      | [] => array
      | _ :: _ => clear_loop fuel (cJSON_DetachItemFromArray array 0)
      end
  end.
Definition clearArray (array : json) : json := clear_loop (length (cJSON_children array)) array.

(** ** Loading *)

(** [load_dhcp_config]; the value of a truth value is not a number. *)
Definition option_text (e : json) (tag : Z) : result string :=
  match gui_tag_to_type tag with
  | DHCP_OPTION_IP | DHCP_OPTION_STRING => deref (get_string (cJSON_GetObjectItem e "value"))
  | DHCP_OPTION_NUMERIC | DHCP_OPTION_BOOL =>
      mret (print_fixed (get_number (cJSON_GetObjectItem e "value")))
  | DHCP_OPTION_BIN => mret ""%string
  end.

Fixpoint load_dhcp_loop (elements : list json) (options : list gui_option) : result (list gui_option) :=
  match elements with
  | [] => mret options
  | e :: elements =>
      tag ← to_int (get_number (cJSON_GetObjectItem e "tag"));
      lenght ← to_int (get_number (cJSON_GetObjectItem e "lenght"));
      value ← option_text e tag;
      load_dhcp_loop elements
        (if (String.length value =? 0)%nat then options else options ++ [GuiOption tag lenght value])
  end.

Definition load_dhcp_config (json : option json) : result (list gui_option) :=
  match json with
  | None => mret []
  | Some json => load_dhcp_loop (cJSON_children json) []
  end.

(** One entry of the server section, with whether it was accepted. *)
Definition load_entry (root : json) (e : conf_entry) : result (json * conf_entry * bool) :=
  match get_item (section root "server") (ce_json_path e) with
  | None =>
      let v := match ce_type e with
               | STRING | IP => cJSON_CreateString (ce_def_val e)
               | NUMERIC => cJSON_CreateNumber (ce_def_val_i e)
               | BOOLEAN => cJSON_CreateBool (negb (ce_def_val_i e =? 0))
               end in
      let root := in_section root "server" (λ s, cJSON_AddItemToObject s (ce_json_path e) v) in
      let found := get_item (section root "server") (ce_json_path e) in
      mret (root, set_json e (bool_decide (is_Some found)), true)
  | Some j =>
      let e := set_json e true in
      match ce_type e with
      | STRING =>
          if negb (cJSON_IsString j) then mret (root, e, false)
          else v ← deref (cJSON_GetStringValue j); mret (root, set_val e v, true)
      | IP =>
          if negb (cJSON_IsString j) then mret (root, e, false)
          else
            v ← deref (cJSON_GetStringValue j);
            mret (root, set_val e v, negb (ipv4_address_to_uint32 v =? 0))
      | NUMERIC =>
          if negb (cJSON_IsNumber j) then mret (root, e, false)
          else mret (root, set_val e (print_fixed (cJSON_GetNumberValue j)), true)
      | BOOLEAN =>
          if negb (cJSON_IsBool j) then mret (root, e, false)
          else mret (root, set_val_i e (if cJSON_IsTrue j then 1 else 0), true)
      end
  end.

(** The loop over the entries of the server section; those [before] are done. *)
Fixpoint load_server_entries (root : json) (before todo : list conf_entry)
    : result (Z * json * list conf_entry) :=
  match todo with
  | [] => mret (0, root, before)
  | e :: todo =>
      '(root, e, ok) ← load_entry root e;
      if negb ok then mret (-1, root, before ++ e :: todo)
      else load_server_entries root (before ++ [e]) todo
  end.

(** An item of the security section, added when it is missing. *)
Definition ensure_item (root : json) (key : string) (v : json) : json :=
  match get_item (section root "security") key with
  | Some _ => root
  | None => in_section root "security" (λ s, cJSON_AddItemToObject s key v)
  end.

Definition is_kind (p : json → bool) (root : json) (key : string) : bool :=
  match get_item (section root "security") key with Some j => p j | None => false end.

Fixpoint acl_texts (elements : list json) : result (list string) :=
  match elements with
  | [] => mret []
  | e :: elements => s ← deref (cJSON_GetStringValue e); ss ← acl_texts elements; mret (s :: ss)
  end.

(** The entry of a name, and an assignment to it. *)
Definition entry (es : list conf_entry) (i : nat) : conf_entry := default (string_entry "") (es !! i).
Definition point_at (root : json) (es : list conf_entry) (i : nat) : list conf_entry :=
  <[i := set_json (entry es i)
           (bool_decide (is_Some (get_item (section root "security") (ce_json_path (entry es i)))))]> es.

(** The security section: the items that are missing are added (the one of the
    dynamic list with the default of the mode); the values are not read. *)
Definition load_security (root : json) (t : tab_config) : result (Z * tab_config) :=
  let es := config_entries t in
  let acl_enable := entry es CONF_SEC_ACL_ENABLE in
  let acl_mode := entry es CONF_SEC_ACL_MODE in
  let dacl_enable := entry es CONF_SEC_DYN_ACL_ENABLE in
  let acl_list := entry es CONF_SEC_ACL_ENTRIES in
  let root := ensure_item root (ce_json_path acl_enable)
                (cJSON_CreateBool (negb (ce_def_val_i acl_enable =? 0))) in
  let root := ensure_item root (ce_json_path acl_mode)
                (cJSON_CreateBool (negb (ce_def_val_i acl_mode =? 0))) in
  let root := ensure_item root (ce_json_path dacl_enable)
                (cJSON_CreateBool (negb (ce_def_val_i acl_mode =? 0))) in
  let root := ensure_item root (ce_json_path acl_list) cJSON_CreateArray in
  let es := point_at root (point_at root (point_at root (point_at root es CONF_SEC_ACL_ENABLE)
              CONF_SEC_ACL_MODE) CONF_SEC_DYN_ACL_ENABLE) CONF_SEC_ACL_ENTRIES in
  let t := with_entries (with_root t (Some root)) es in
  if negb (is_kind cJSON_IsBool root (ce_json_path acl_enable)) then mret (-1, t)
  else if negb (is_kind cJSON_IsBool root (ce_json_path acl_mode)) then mret (-1, t)
  else if negb (is_kind cJSON_IsArray root (ce_json_path acl_list)) then mret (-1, t)
  else
    array ← deref (get_item (section root "security") (ce_json_path acl_list));
    texts ← acl_texts (cJSON_children array);
    mret (0, with_acl t texts).

(** One pool, with whether its fields are usable.  The array of options that is
    added to a pool without one goes with the pool when the settings are applied. *)
Definition load_pool (e : json) : result (gui_pool * bool) :=
  let text k := deref (get_string (cJSON_GetObjectItem e k)) in
  name ← text "name"%string;
  start_addr ← text "start"%string;
  end_addr ← text "end"%string;
  subnet ← text "subnet"%string;
  let options := default cJSON_CreateArray (cJSON_GetObjectItem e "options") in
  mret (GuiPool name start_addr end_addr subnet options,
        negb ((String.length name =? 0)%nat || (ipv4_address_to_uint32 start_addr =? 0) ||
              (ipv4_address_to_uint32 end_addr =? 0) || (ipv4_address_to_uint32 subnet =? 0))).

Fixpoint load_pools_loop (elements : list json) (pools : list gui_pool) : result (Z * list gui_pool) :=
  match elements with
  | [] => mret (0, pools)
  | e :: elements =>
      '(pool, ok) ← load_pool e;
      if negb ok then mret (-1, pools) else load_pools_loop elements (pools ++ [pool])
  end.

Fixpoint load_pool_options (pools : list gui_pool) : result (list (list gui_option)) :=
  match pools with
  | [] => mret []
  | p :: pools =>
      os ← load_dhcp_config (Some (gp_options_json p));
      oss ← load_pool_options pools;
      mret (os :: oss)
  end.

Definition items (j : option json) : list json := match j with Some j => cJSON_children j | None => [] end.

(** [load_config_file] once the tree is there. *)
Definition load_tree (root : json) (t : tab_config) : result (Z * tab_config) :=
  '(rv, root, es) ← load_server_entries root [] (take 8 (config_entries t));
  let t := with_entries (with_root t (Some root)) (es ++ drop 8 (config_entries t)) in
  if negb (rv =? 0) then mret (rv, t)
  else
    '(rv, t) ← load_security root t;
    if negb (rv =? 0) then mret (rv, t)
    else
      let root := default root (tc_root t) in
      '(rv, pools) ← load_pools_loop (items (section root "pools")) [];
      let t := with_pools t pools in
      if negb (rv =? 0) then mret (rv, t)
      else
        global ← load_dhcp_config (section root "options");
        oss ← load_pool_options pools;
        mret (0, with_option_lists t (options_config_entries t ++ global :: oss)).

(** Without a file: the four empty sections. *)
Definition empty_config : json :=
  let root := cJSON_AddItemToObject cJSON_CreateObject "server" cJSON_CreateObject in
  let root := cJSON_AddItemToObject root "pools" cJSON_CreateArray in
  let root := cJSON_AddItemToObject root "options" cJSON_CreateArray in
  cJSON_AddItemToObject root "security" cJSON_CreateObject.

Definition default_config_path : string := "/etc/dhcp/config.json".

(** The buffer is handed to [cJSON_Parse] without a NUL at its end. *)
Definition load_config_file (t : tab_config) : prog env (Z * tab_config) :=
  fd ← sys_open default_config_path;
  match fd with
  | Opened path _ =>
      e ← get_state;
      root ← lift (parse_buffer (contents e path));
      match root with
      | None => mret (-1, with_root t None)
      | Some root => lift (load_tree root t)
      end
  | _ => lift (load_tree empty_config t)
  end.

(** The constructor: what [load_config_file] returns is not looked at. *)
Definition TabConfig : prog env tab_config :=
  '(_, t) ← load_config_file (TabC None initialize [] [] [] false); mret t.

(** ** Applying *)

(** One turn of the loop over the entries.  [entry] is a reference to the first
    one, so the assignment [entry = config_entries[i]] copies the [i]-th entry over
    the first. *)
Definition apply_entry (root : json) (es : list conf_entry) (i : nat)
    : result (json * list conf_entry * bool) :=
  let e := entry es i in
  let found := get_item (section root "server") (ce_json_path e) in
  let es := <[CONF_INTERFACE := set_json e (bool_decide (is_Some found))]> es in
  let set v := set_item root "server" (ce_json_path e) v in
  match found with
  | None => mret (root, es, true)
  | Some j =>
      match ce_type e with
      | STRING | IP =>
          if negb (cJSON_IsString j) then mret (root, es, false)
          else mret (set (cJSON_CreateString (ce_val e)), es, true)
      | NUMERIC =>
          if negb (cJSON_IsNumber j) then mret (root, es, false)
          else n ← stoi (ce_val e); mret (set (cJSON_CreateNumber n), es, true)
      | BOOLEAN =>
          if negb (cJSON_IsBool j) then mret (root, es, false)
          else mret (set (cJSON_CreateBool (negb (ce_val_i e =? 0))), es, true)
      end
  end.

Fixpoint apply_entries (indices : list nat) (root : json) (es : list conf_entry)
    : result (Z * json * list conf_entry) :=
  match indices with
  | [] => mret (0, root, es)
  | i :: indices =>
      '(root, es, ok) ← apply_entry root es i;
      if negb ok then mret (-1, root, es) else apply_entries indices root es
  end.

(** The length that is written for an option; [None]: a bad address. *)
Definition applied_lenght (o : gui_option) : option Z :=
  match gui_tag_to_type (go_tag o) with
  | DHCP_OPTION_BIN | DHCP_OPTION_STRING => Some (Z.of_nat (String.length (go_value o)))
  | DHCP_OPTION_IP => if ipv4_address_to_uint32 (go_value o) =? 0 then None else Some 4
  | DHCP_OPTION_BOOL => Some 1
  | DHCP_OPTION_NUMERIC => Some (if go_lenght o =? 0 then 4 else go_lenght o)
  end.

Definition applied_value (o : gui_option) : result json :=
  match gui_tag_to_type (go_tag o) with
  | DHCP_OPTION_STRING | DHCP_OPTION_IP | DHCP_OPTION_BIN => mret (cJSON_CreateString (go_value o))
  | DHCP_OPTION_BOOL => n ← stoi (go_value o); mret (cJSON_CreateBool (negb (n =? 0)))
  | DHCP_OPTION_NUMERIC => n ← stoi (go_value o); mret (cJSON_CreateNumber n)
  end.

Definition option_object (tag lenght : Z) (value : json) : json :=
  let opt := cJSON_AddItemToObject cJSON_CreateObject "tag" (cJSON_CreateNumber tag) in
  let opt := cJSON_AddItemToObject opt "lenght" (cJSON_CreateNumber lenght) in
  cJSON_AddItemToObject opt "value" value.

(** [apply_options]: the array and the options with their lengths; a bad address
    ends the loop. *)
Fixpoint apply_loop (todo done : list gui_option) (array : json) : result (json * list gui_option) :=
  match todo with
  | [] => mret (array, done)
  | o :: todo =>
      match applied_lenght o with
      | None => mret (array, done ++ o :: todo)
      | Some lenght =>
          let o := GuiOption (go_tag o) lenght (go_value o) in
          value ← applied_value o;
          let array := match gui_tag_to_type (go_tag o) with
                       | DHCP_OPTION_BIN => array
                       | _ => cJSON_AddItemToArray array (option_object (go_tag o) lenght value)
                       end in
          apply_loop todo (done ++ [o]) array
      end
  end.

Definition apply_options (os : list gui_option) (array : json) : result (json * list gui_option) :=
  apply_loop os [] (clearArray array).

(** The options of the pools, each into the new array of its pool. *)
Fixpoint apply_pool_options (oss : list (list gui_option)) : result (list (json * list gui_option)) :=
  match oss with
  | [] => mret []
  | os :: oss =>
      r ← apply_options os cJSON_CreateArray;
      rs ← apply_pool_options oss;
      mret (r :: rs)
  end.

Definition pool_object (p : gui_pool) (options : json) : json :=
  let o := cJSON_AddItemToObject cJSON_CreateObject "name" (cJSON_CreateString (gp_name p)) in
  let o := cJSON_AddItemToObject o "start" (cJSON_CreateString (gp_start_addr p)) in
  let o := cJSON_AddItemToObject o "end" (cJSON_CreateString (gp_end_addr p)) in
  let o := cJSON_AddItemToObject o "subnet" (cJSON_CreateString (gp_subnet p)) in
  cJSON_AddItemToObject o "options" options.

(** The pools that have options; a list of options without a pool keeps a pointer
    into the array of pools that was cleared. *)
Fixpoint add_pools (array : json) (ps : list gui_pool) (options : list json) : result json :=
  match ps, options with
  | p :: ps, o :: options => add_pools (cJSON_AddItemToArray array (pool_object p o)) ps options
  | [], _ :: _ => Undef UseAfterFree
  | _, [] => mret array
  end.

Definition in_section_run (root : json) (name : string) (f : json → result json) : result json :=
  match section root name with
  | Some s => s ← f s; mret (cJSON_update_member root name s)
  | None => mret root
  end.

Definition acl_array (texts : list string) (array : json) : json :=
  foldl (λ a s, cJSON_AddItemToArray a (cJSON_CreateString s)) (clearArray array) texts.

(** A switch of the security section. *)
Definition set_flag (es : list conf_entry) (root : json) (i : nat) : json :=
  let e := entry es i in
  if ce_json e then set_bool root "security" (ce_json_path e) (negb (ce_val_i e =? 0)) else root.

(** The security section: the three switches and the texts of the list. *)
Definition apply_security (root : json) (es : list conf_entry) (acl : list string) : json :=
  let root := set_flag es (set_flag es (set_flag es root CONF_SEC_DYN_ACL_ENABLE) CONF_SEC_ACL_ENABLE)
                CONF_SEC_ACL_MODE in
  let acl_list := entry es CONF_SEC_ACL_ENTRIES in
  if ce_json acl_list
  then match get_item (section root "security") (ce_json_path acl_list) with
       | Some array => set_item root "security" (ce_json_path acl_list) (acl_array acl array)
       | None => root
       end
  else root.

(** The global options, into their array when there is one. *)
Definition apply_global_options (root : json) (os : list gui_option) : result (json * list gui_option) :=
  match section root "options" with
  | Some array =>
      '(array, os) ← apply_options os array;
      mret (cJSON_update_member root "options" array, os)
  | None => '(_, os) ← apply_options os cJSON_CreateArray; mret (root, os)
  end.

(** The tree and the state after the loops; the status is the one returned. *)
Definition apply_tree (t : tab_config) : result (Z * tab_config) :=
  match tc_root t with
  | None => Undef Uninitialised
  | Some root =>
      '(rv, root, es) ← apply_entries (seq 0 8) root (config_entries t);
      let t := with_entries (with_root t (Some root)) es in
      if negb (rv =? 0) then mret (rv, t)
      else
        let acl := filter (λ s, s ≠ ""%string) (security_acl_entries t) in
        let root := apply_security root es acl in
        global ← rd (options_config_entries t) 0;
        '(root, global) ← apply_global_options root global;
        applied ← apply_pool_options (drop 1 (options_config_entries t));
        root ← in_section_run root "pools" (λ a, add_pools (clearArray a) (pools_pools t) applied.*1);
        mret (0, with_option_lists (with_acl (with_root t (Some root)) acl) (global :: applied.*2))
  end.

(** A [std::ofstream] that is opened, written and closed. *)
Definition write_file (path text : string) : prog env bool :=
  f ← fails;
  if (f : bool) then mret false
  else
    e ← get_state;
    _ ← put_state (Env (<[path := ""%string]> (e_files e)) (e_faults e));
    _ ← sys_append path text;
    mret true.

Definition write_config (t : tab_config) : prog env tab_config :=
  match tc_root t with
  | Some root =>
      ok ← write_file default_config_path (cJSON_Print root ++ String "010" "")%string;
      mret (if (ok : bool) then t else with_error t)
  | None => mret t
  end.

Definition apply_settings (t : tab_config) : prog env (Z * tab_config) :=
  '(rv, t) ← lift (apply_tree t);
  if negb (rv =? 0) then mret (rv, t) else t ← write_config t; mret (0, t).
End TabConfig.

(** ** The tree *)
Section TreeLemmas.
Context `{CJ : !Cjson}.

Lemma in_section_same root name f s : section root name = Some s →
  section (in_section root name f) name = Some (f s).
Proof. unfold in_section, section. intros H. rewrite H. by eapply get_updated_spec. Qed.

Lemma in_section_other root name f name' : lower name ≠ lower name' →
  section (in_section root name f) name' = section root name'.
Proof.
  intros Hne. unfold in_section, section. destruct (cJSON_GetObjectItem root name); [|done].
  by apply get_updated_other_spec.
Qed.

Lemma set_item_same root name key v s w : section root name = Some s →
  cJSON_GetObjectItem s key = Some w → get_item (section (set_item root name key v) name) key = Some v.
Proof.
  intros Hs Hw. unfold set_item. rewrite (in_section_same _ _ _ s Hs), Hw. unfold get_item.
  cbn [mbind option_bind]. by eapply get_updated_spec.
Qed.

Lemma set_item_key root name key v key' : lower key ≠ lower key' →
  get_item (section (set_item root name key v) name) key' = get_item (section root name) key'.
Proof.
  intros Hne. unfold set_item. destruct (section root name) as [s|] eqn:E.
  - rewrite (in_section_same _ _ _ s E). unfold get_item. cbn [mbind option_bind].
    destruct (cJSON_GetObjectItem s key); [|done]. by apply get_updated_other_spec.
  - unfold in_section. by rewrite E, E.
Qed.

Lemma set_item_other root name key v name' : lower name ≠ lower name' →
  section (set_item root name key v) name' = section root name'.
Proof. apply in_section_other. Qed.

Lemma clear_array_children a : cJSON_children (clearArray a) = [].
Proof.
  unfold clearArray. remember (length (cJSON_children a)) as n eqn:En. revert a En.
  induction n as [|n IH]; intros a En; cbn [clear_loop].
  - by destruct (cJSON_children a).
  - destruct (cJSON_children a) as [|x xs] eqn:E; [done|]. apply IH.
    rewrite children_detach_spec, E by (rewrite E; simpl; lia). cbn in *. lia.
Qed.

Lemma clear_array_array a : cJSON_IsArray a = true → cJSON_IsArray (clearArray a) = true.
Proof.
  unfold clearArray. generalize (length (cJSON_children a)) as n. intros n. revert a.
  induction n as [|n IH]; intros a Ha; cbn [clear_loop]; [done|].
  destruct (cJSON_children a); [done|]. by apply IH, is_array_detach_spec.
Qed.

(** ** Applying the entries *)

(** What is written for an entry. *)
Definition applied_item (e : conf_entry) (j : json) : Prop :=
  match ce_type e with
  | STRING | IP => j = cJSON_CreateString (ce_val e)
  | NUMERIC => ∃ n, stoi (ce_val e) = Ret n ∧ j = cJSON_CreateNumber n
  | BOOLEAN => j = cJSON_CreateBool (negb (ce_val_i e =? 0))
  end.

(** One turn changes the item of its entry, when there is one, and nothing else of
    the tree; the entry is copied over the first one. *)
Lemma apply_entry_run root es i root' es' : apply_entry root es i = Ret (root', es', true) →
  let path := ce_json_path (entry es i) in
  (∃ b, es' = <[CONF_INTERFACE := set_json (entry es i) b]> es) ∧
  (∀ name, lower name ≠ lower "server" → section root' name = section root name) ∧
  (∀ key, lower path ≠ lower key →
     get_item (section root' "server") key = get_item (section root "server") key) ∧
  (is_Some (get_item (section root "server") path) →
     ∃ j, get_item (section root' "server") path = Some j ∧ applied_item (entry es i) j).
Proof.
  intros H path. unfold apply_entry in H. fold path in H. cbv zeta in H.
  assert (Hset : ∀ v, is_Some (get_item (section root "server") path) →
    (∀ name, lower name ≠ lower "server" → section (set_item root "server" path v) name = section root name) ∧
    (∀ key, lower path ≠ lower key →
       get_item (section (set_item root "server" path v) "server") key = get_item (section root "server") key) ∧
    get_item (section (set_item root "server" path v) "server") path = Some v).
  { intros v [w Hw]. split; [intros name Hne; by apply set_item_other|].
    split; [intros key Hne; by apply set_item_key|].
    destruct (section root "server") as [s|] eqn:Es; [|done]. by eapply set_item_same. }
  destruct (get_item (section root "server") path) as [j|] eqn:Ej.
  - assert (Hv : ∃ v, root' = set_item root "server" path v ∧ applied_item (entry es i) v ∧
      ∃ b, es' = <[CONF_INTERFACE := set_json (entry es i) b]> es).
    { unfold applied_item. destruct (ce_type (entry es i)).
      - destruct (negb (cJSON_IsNumber j)); [done|]. apply bind_Ret in H as (n & Hn & H).
        injection H as <- <-. eexists. split; [done|]. split; [by exists n | by eexists].
      - destruct (negb (cJSON_IsString j)); [done|]. injection H as <- <-. eexists. split; [done|].
        split; [done | by eexists].
      - destruct (negb (cJSON_IsBool j)); [done|]. injection H as <- <-. eexists. split; [done|].
        split; [done | by eexists].
      - destruct (negb (cJSON_IsString j)); [done|]. injection H as <- <-. eexists. split; [done|].
        split; [done | by eexists]. }
    destruct Hv as (v & -> & Hi & Hes). destruct (Hset v ltac:(done)) as (H1 & H2 & H3).
    split_and!; try done. intros _. by exists v.
  - injection H as <- <-. split_and!; [by eexists | done | done | by intros [? ?]].
Qed.

Lemma entry_insert_0 es i e : (0 < i)%nat → entry (<[CONF_INTERFACE := e]> es) i = entry es i.
Proof. intros Hi. unfold entry. by rewrite list_lookup_insert_ne by (unfold CONF_INTERFACE; lia). Qed.

(** Turns for other entries than the first: each reads its own entry, the items of
    other keys stay, the last entry ends up in the first place. *)
Lemma apply_entries_run indices : Forall (λ i, (0 < i)%nat) indices → ∀ root es root' es',
  apply_entries indices root es = Ret (0, root', es') →
  let paths := (λ i, lower (ce_json_path (entry es i))) <$> indices in
  (∀ i, (0 < i)%nat → entry es' i = entry es i) ∧
  (∀ name, lower name ≠ lower "server" → section root' name = section root name) ∧
  (∀ key, lower key ∉ paths →
     get_item (section root' "server") key = get_item (section root "server") key) ∧
  (NoDup paths → ∀ i, i ∈ indices →
     is_Some (get_item (section root "server") (ce_json_path (entry es i))) →
     ∃ j, get_item (section root' "server") (ce_json_path (entry es i)) = Some j ∧
       applied_item (entry es i) j) ∧
  (∀ k, last indices = Some k → es ≠ [] → ∃ b, entry es' CONF_INTERFACE = set_json (entry es k) b).
Proof.
  induction 1 as [|i indices Hi Hall IH]; intros root es root' es' H paths; cbn [apply_entries] in H.
  - injection H as <- <-. split_and!; try done. by intros _ i Hi%elem_of_nil.
  - apply bind_Ret in H as ([[root1 es1] ok] & H1 & H). destruct ok; [|done]. cbn [negb] in H.
    destruct (apply_entry_run _ _ _ _ _ H1) as ((b & ->) & Hsec & Hkey & Hitem).
    set (es1 := <[CONF_INTERFACE:=set_json (entry es i) b]> es) in *.
    assert (Hsame : ∀ k, (0 < k)%nat → entry es1 k = entry es k)
      by (intros k Hk; by apply entry_insert_0).
    assert (Hmap : (λ k, lower (ce_json_path (entry es1 k))) <$> indices
      = (λ k, lower (ce_json_path (entry es k))) <$> indices).
    { apply list_fmap_ext. intros n k Hk. rewrite Hsame; [done|].
      rewrite Forall_forall in Hall. apply Hall. by eapply list_elem_of_lookup_2. }
    destruct (IH root1 _ root' es' H) as (He & Hs & Hk & Hj & Hlast). cbv zeta in Hk, Hj.
    rewrite Hmap in Hk, Hj. subst paths. rewrite fmap_cons.
    split; [intros k Hk0; by rewrite He, Hsame|]. split; [intros name Hne; by rewrite Hs, Hsec|].
    split; [|split].
    + intros key Hn. apply not_elem_of_cons in Hn as [Hne Hn].
      rewrite Hk by done. apply Hkey. by intros E.
    + intros [Hni Hnd]%NoDup_cons k [->|Hin]%elem_of_cons Hsome.
      * destruct (Hitem Hsome) as (j & Hj0 & Ha). exists j. split; [|done]. by rewrite Hk by done.
      * assert (Hk0 : (0 < k)%nat) by (rewrite Forall_forall in Hall; by apply Hall).
        rewrite <-(Hsame k Hk0). apply Hj; [done | done|]. rewrite Hsame by done. rewrite Hkey; [done|].
        intros E. apply Hni. rewrite E.
        by apply (list_elem_of_fmap_2 (λ i, lower (ce_json_path (entry es i)))).
    + intros k Hlk Hne.
      assert (Hne1 : es1 ≠ []) by (subst es1; by destruct es).
      destruct indices as [|i' indices'].
      * injection Hlk as <-. cbn [apply_entries] in H. injection H as <- <-. exists b. subst es1.
        unfold entry. rewrite list_lookup_insert_eq by (destruct es; [done | unfold CONF_INTERFACE; simpl; lia]).
        reflexivity.
      * rewrite last_cons_cons in Hlk. destruct (Hlast k Hlk Hne1) as [b' E]. exists b'.
        rewrite E, Hsame; [done|]. rewrite Forall_forall in Hall. apply Hall.
        apply last_Some in Hlk as [l Hl]. rewrite Hl. apply elem_of_app. right. by left.
Qed.

(** The paths of the server entries. *)
Definition server_paths : list string :=
  ["interface"; "tick_delay"; "cache_size"; "transaction_duration"; "lease_expiration_check";
   "log_verbosity"; "lease_time"; "db_enable"]%string.

Definition shaped (es : list conf_entry) : Prop :=
  ce_json_path <$> take 8 es = server_paths ∧
  ce_type <$> take 8 es =
    [STRING; NUMERIC; NUMERIC; NUMERIC; NUMERIC; NUMERIC; NUMERIC; BOOLEAN].

Lemma shaped_path es i : shaped es → (i < 8)%nat →
  Some (ce_json_path (entry es i)) = server_paths !! i.
Proof.
  intros [Hp _] Hi. rewrite <-Hp, list_lookup_fmap, lookup_take_lt by done. unfold entry.
  destruct (es !! i) eqn:E; [done|]. exfalso. apply lookup_ge_None_1 in E.
  apply (f_equal length) in Hp. rewrite length_fmap, length_take in Hp.
  change (length server_paths) with 8%nat in Hp. lia.
Qed.

Lemma shaped_paths es : shaped es →
  (λ i, lower (ce_json_path (entry es i))) <$> seq 1 7 = lower <$> drop 1 server_paths.
Proof.
  intros Hsh. apply list_eq. intros i. rewrite !list_lookup_fmap, lookup_drop.
  destruct (decide (i < 7)%nat) as [Hi|Hi].
  - rewrite lookup_seq_lt by done. cbn [fmap option_fmap option_map].
    by rewrite <-(shaped_path es (1 + i)%nat Hsh) by lia.
  - rewrite (lookup_ge_None_2 (seq 1 7)) by (rewrite length_seq; lia).
    by rewrite (lookup_ge_None_2 server_paths) by (cbn; lia).
Qed.

(** Seven entries after the first do not have its path. *)
Lemma shaped_not_first es i : shaped es → (0 < i < 8)%nat →
  lower (ce_json_path (entry es i)) ≠ lower "interface".
Proof.
  intros Hsh Hi E. assert (Hn : lower "interface" ∉ lower <$> drop 1 server_paths) by by_decision.
  apply Hn. rewrite <-(shaped_paths es Hsh), <-E.
  apply (list_elem_of_fmap_2 (λ i, lower (ce_json_path (entry es i)))), elem_of_seq. lia.
Qed.

(** The turns after the first one. *)
Lemma apply_rest_run root es es1 root' es' : shaped es →
  es1 ≠ [] → (∀ k, (0 < k)%nat → entry es1 k = entry es k) →
  apply_entries (seq 1 7) root es1 = Ret (0, root', es') →
  (∀ name, lower name ≠ lower "server" → section root' name = section root name) ∧
  (∀ key, lower key ∉ lower <$> drop 1 server_paths →
     get_item (section root' "server") key = get_item (section root "server") key) ∧
  (∀ i, (0 < i < 8)%nat → is_Some (get_item (section root "server") (ce_json_path (entry es i))) →
     ∃ j, get_item (section root' "server") (ce_json_path (entry es i)) = Some j ∧
       applied_item (entry es i) j) ∧
  (∀ i, (0 < i)%nat → entry es' i = entry es i) ∧
  (∃ b, entry es' CONF_INTERFACE = set_json (entry es CONF_DB_ENABLE) b).
Proof.
  intros Hsh Hne Hsame H.
  assert (Hpos : Forall (λ i, (0 < i)%nat) (seq 1 7)) by (repeat constructor; lia).
  destruct (apply_entries_run _ Hpos _ _ _ _ H) as (He & Hs & Hk & Hj & Hlast). cbv zeta in Hk, Hj.
  assert (Hpaths : (λ i, lower (ce_json_path (entry es1 i))) <$> seq 1 7 = lower <$> drop 1 server_paths).
  { rewrite <-(shaped_paths es Hsh). apply list_fmap_ext. intros n k Hk0. rewrite Hsame; [done|].
    apply lookup_seq in Hk0. lia. }
  rewrite Hpaths in Hk, Hj. split_and!; try done.
  - intros i Hi Hsome. rewrite <-(Hsame i) by lia. apply Hj; [by_decision | apply elem_of_seq; lia|].
    by rewrite Hsame by lia.
  - intros i Hi. by rewrite He, Hsame.
  - destruct (Hlast 7%nat eq_refl Hne) as [b' E].
    exists b'. by rewrite E, Hsame by (unfold CONF_DB_ENABLE; lia).
Qed.

Lemma insert_shaped es e : shaped es → <[CONF_INTERFACE := e]> es ≠ [].
Proof.
  intros Hsh E. apply (f_equal length) in E. rewrite length_insert in E. destruct es; [|done].
  by vm_compute in Hsh; destruct Hsh.
Qed.

(** The loop of [apply_settings] over the server entries. *)
Lemma apply_server_run root es root' es' : shaped es →
  apply_entries (seq 0 8) root es = Ret (0, root', es') →
  (∀ name, lower name ≠ lower "server" → section root' name = section root name) ∧
  (∀ key, lower key ∉ lower <$> server_paths →
     get_item (section root' "server") key = get_item (section root "server") key) ∧
  (∀ i, (i < 8)%nat → is_Some (get_item (section root "server") (ce_json_path (entry es i))) →
     ∃ j, get_item (section root' "server") (ce_json_path (entry es i)) = Some j ∧
       applied_item (entry es i) j) ∧
  (∀ i, (0 < i)%nat → entry es' i = entry es i) ∧
  (∃ b, entry es' CONF_INTERFACE = set_json (entry es CONF_DB_ENABLE) b).
Proof.
  intros Hsh H. change (seq 0 8) with (0%nat :: seq 1 7) in H. cbn [apply_entries] in H.
  apply bind_Ret in H as ([[root1 es1] ok] & H1 & H). destruct ok; [|done]. cbn [negb] in H.
  destruct (apply_entry_run _ _ _ _ _ H1) as ((b & ->) & Hsec & Hkey & Hitem). cbv zeta in Hkey, Hitem.
  destruct (apply_rest_run _ es _ _ _ Hsh (insert_shaped _ _ Hsh) (λ k, entry_insert_0 es k _) H)
    as (Hs & Hk & Hj & He & Hlast).
  assert (H0 : ce_json_path (entry es 0) = "interface"%string).
  { pose proof (shaped_path es 0 Hsh ltac:(lia)) as Hp. by injection Hp. }
  rewrite H0 in Hkey, Hitem. split_and!; [intros name Hn; by rewrite Hs, Hsec| | |done..].
  - intros key Hn. change server_paths with ("interface"%string :: drop 1 server_paths) in Hn.
    rewrite fmap_cons in Hn. apply not_elem_of_cons in Hn as [Hne Hn]. rewrite Hk by done.
    apply Hkey. by intros E.
  - intros i Hi Hsome. destruct i as [|i].
    + rewrite H0 in *. destruct (Hitem Hsome) as (j & Hj0 & Ha). exists j. split; [|done].
      rewrite Hk; [done | by_decision].
    + apply Hj; [lia|]. rewrite Hkey; [done|]. intros E. by eapply (shaped_not_first es (S i)); [|lia|].
Qed.
End TreeLemmas.

(** ** Numbers as text *)
Lemma dec_digits_scan fuel : ∀ n acc, (0 < fuel)%nat → 0 ≤ n < 10 ^ Z.of_nat fuel →
  ∃ d s, dec_digits fuel n acc = String (digit d) s ∧ 0 ≤ d < 10 ∧ scan_digits s d = scan_digits acc n.
Proof.
  induction fuel as [|fuel IH]; intros n acc Hf Hn; [lia|]. cbn [dec_digits].
  destruct (Z.ltb_spec n 10) as [Hlt|Hge].
  - exists n, acc. rewrite Z.mod_small by lia. split_and!; done || lia.
  - rewrite Nat2Z.inj_succ, Z.pow_succ_r in Hn by lia.
    assert (Hpos : (0 < fuel)%nat) by (destruct fuel; [change (10 ^ Z.of_nat 0) with 1 in Hn|]; lia).
    destruct (IH (n / 10) (String (digit (n mod 10)) acc) Hpos) as (d & s & -> & Hd & Hs).
    { split; [apply Z.div_pos; lia | apply Z.div_lt_upper_bound; lia]. }
    exists d, s. split; [done|]. split; [done|]. rewrite Hs. cbn [scan_digits].
    rewrite digit_val_digit by (apply Z.mod_pos_bound; lia). f_equal. pose proof (Z.div_mod n 10). lia.
Qed.

(** A number that an [int] holds is read back from its text. *)
Lemma stoi_faults s : match stoi s with Ret _ => True | Undef f => f = Uncaught | NoFuel => False end.
Proof.
  unfold stoi. destruct (scan_sign _) as [neg [|c s']]; [done|]. destruct (digit_val c); [|done].
  cbv zeta. by destruct (_ && _).
Qed.

Lemma stoi_print n : 0 ≤ n < 2 ^ 31 → stoi (print_int n) = Ret n ∧ print_int n ≠ ""%string.
Proof.
  intros Hn. unfold print_int. rewrite (proj2 (Z.ltb_ge _ _)) by lia.
  destruct (dec_digits_scan 20 n "" ltac:(lia) ltac:(change (10 ^ Z.of_nat 20) with 100000000000000000000; lia))
    as (d & s & -> & Hd & Hs). split; [|done].
  unfold stoi. cbn [skip_space]. rewrite digit_no_space, digit_no_sign, digit_val_digit by done.
  cbn [scan_digits]. rewrite digit_val_digit by done. replace (10 * 0 + d) with d by lia. rewrite Hs.
  cbn [scan_digits fst]. rewrite (proj2 (Z.leb_le _ _)), (proj2 (Z.ltb_lt _ _)) by lia. done.
Qed.

(** ** Options written and read back *)
Section OptionLemmas.
Context `{CJ : !Cjson}.

Lemma object_lookup kvs k : NoDup (lower <$> kvs.*1) →
  cJSON_GetObjectItem (foldl (λ o kv, cJSON_AddItemToObject o kv.1 kv.2) cJSON_CreateObject kvs) k =
  assoc_lower kvs k.
Proof.
  intros Hnd. rewrite add_members by (done || (intros; apply get_empty_spec)).
  destruct (assoc_lower kvs k); [done|]. apply get_empty_spec.
Qed.

Lemma option_object_fields tag len value :
  cJSON_GetObjectItem (option_object tag len value) "tag" = Some (cJSON_CreateNumber tag) ∧
  cJSON_GetObjectItem (option_object tag len value) "lenght" = Some (cJSON_CreateNumber len) ∧
  cJSON_GetObjectItem (option_object tag len value) "value" = Some value.
Proof.
  pose proof (object_lookup [("tag", cJSON_CreateNumber tag); ("lenght", cJSON_CreateNumber len);
    ("value", value)]%string) as H.
  split_and!; (etrans; [apply H; by apply (bool_decide_unpack _) | reflexivity]).
Qed.

Definition with_lenght (o : gui_option) : gui_option :=
  GuiOption (go_tag o) (default 0 (applied_lenght o)) (go_value o).

(** The options the tab can write: with a length and a value. *)
Definition applicable (o : gui_option) : Prop :=
  gui_tag_to_type (go_tag o) ≠ DHCP_OPTION_BIN ∧ is_Some (applied_lenght o) ∧ ∃ v, applied_value o = Ret v.

Definition option_json (o : gui_option) : json :=
  option_object (go_tag o) (go_lenght o)
    (match applied_value o with Ret v => v | _ => cJSON_CreateArray end).

Lemma children_foldl_add {A} (f : A → json) l : ∀ a,
  cJSON_children (foldl (λ a x, cJSON_AddItemToArray a (f x)) a l) = cJSON_children a ++ (f <$> l).
Proof.
  induction l as [|x l IH]; intros a; cbn [foldl]; [by rewrite app_nil_r|].
  by rewrite IH, children_add_spec, <-app_assoc.
Qed.

Lemma apply_loop_run todo : Forall applicable todo → ∀ done rest array,
  apply_loop (todo ++ rest) done array =
  apply_loop rest (done ++ (with_lenght <$> todo))
    (foldl (λ a o, cJSON_AddItemToArray a (option_json o)) array (with_lenght <$> todo)).
Proof.
  induction 1 as [|o todo (Ht & [len Hl] & v & Hv) _ IH]; intros done rest array.
  - by rewrite app_nil_r.
  - assert (Hw : with_lenght o = GuiOption (go_tag o) len (go_value o)) by (unfold with_lenght; by rewrite Hl).
    rewrite fmap_cons, Hw. cbn [app apply_loop foldl]. rewrite Hl. cbv zeta.
    assert (Hv' : applied_value (GuiOption (go_tag o) len (go_value o)) = Ret v) by exact Hv.
    unfold option_json at 2. rewrite Hv', ret_bind, IH, <-app_assoc. cbn [go_tag go_lenght app].
    by destruct (gui_tag_to_type (go_tag o)).
Qed.

Lemma apply_options_run os array : Forall applicable os →
  ∃ array', apply_options os array = Ret (array', with_lenght <$> os) ∧
    cJSON_children array' = option_json <$> (with_lenght <$> os).
Proof.
  intros Ha. pose proof (apply_loop_run os Ha [] [] (clearArray array)) as H. rewrite app_nil_r in H.
  eexists. split; [exact H|]. by rewrite children_foldl_add, clear_array_children.
Qed.
End OptionLemmas.

(** ** Applying the sections *)
Section ApplyLemmas.
Context `{CJ : !Cjson}.

Lemma set_bool_other root name key b name' : lower name ≠ lower name' →
  section (set_bool root name key b) name' = section root name'.
Proof.
  intros Hne. unfold set_bool. destruct (get_item (section root name) key) as [j|]; [|done].
  destruct (cJSON_IsBool j); [by apply set_item_other | done].
Qed.

Lemma set_bool_key root name key b key' : lower key ≠ lower key' →
  get_item (section (set_bool root name key b) name) key' = get_item (section root name) key'.
Proof.
  intros Hne. unfold set_bool. destruct (get_item (section root name) key) as [j|]; [|done].
  destruct (cJSON_IsBool j); [by apply set_item_key | done].
Qed.

Lemma set_bool_same root name key b j : get_item (section root name) key = Some j →
  cJSON_IsBool j = true →
  get_item (section (set_bool root name key b) name) key = Some (cJSON_CreateBool b).
Proof.
  intros Hj Hb. unfold set_bool. rewrite Hj, Hb. unfold get_item in Hj.
  destruct (section root name) as [s|] eqn:Es; [|done]. by eapply set_item_same.
Qed.

Lemma apply_security_other root es acl name : lower "security" ≠ lower name →
  section (apply_security root es acl) name = section root name.
Proof.
  intros Hne. unfold apply_security, set_flag. cbv zeta.
  repeat (match goal with
          | |- context [if ce_json ?e then _ else _] => destruct (ce_json e)
          | |- context [match get_item ?s ?k with _ => _ end] => destruct (get_item s k)
          end); rewrite ?set_item_other, ?set_bool_other by done; done.
Qed.

Lemma in_section_run_Ret root name f root' : in_section_run root name f = Ret root' →
  (∀ name', lower name ≠ lower name' → section root' name' = section root name') ∧
  ∀ a, section root name = Some a → ∃ a', f a = Ret a' ∧ section root' name = Some a'.
Proof.
  intros H. unfold in_section_run in H. destruct (section root name) as [a|] eqn:E.
  - apply bind_Ret in H as (a' & Ha & [= <-]). unfold section in *. split.
    + intros name' Hne. by apply get_updated_other_spec.
    + intros ? [= <-]. exists a'. split; [done|]. by eapply get_updated_spec.
  - injection H as <-. by rewrite E.
Qed.

Lemma apply_global_Ret root os root' os' : apply_global_options root os = Ret (root', os') →
  (∀ name, lower "options" ≠ lower name → section root' name = section root name) ∧
  ∀ a, section root "options" = Some a → ∃ a', apply_options os a = Ret (a', os') ∧
    section root' "options" = Some a'.
Proof.
  intros H. unfold apply_global_options in H. destruct (section root "options") as [a|] eqn:E.
  - apply bind_Ret in H as ([a' ?] & Ha & [= <- <-]). unfold section in *. split.
    + intros name Hne. by apply get_updated_other_spec.
    + intros ? [= <-]. exists a'. split; [done|]. by eapply get_updated_spec.
  - apply bind_Ret in H as ([a' ?] & Ha & [= <- <-]). by rewrite E.
Qed.

(** The four parts after the entries were accepted. *)
Lemma apply_tree_run t root t' : tc_root t = Some root → apply_tree t = Ret (0, t') →
  ∃ root1 root', tc_root t' = Some root' ∧
    apply_entries (seq 0 8) root (config_entries t) = Ret (0, root1, config_entries t') ∧
    section root' "server" = section root1 "server" ∧
    section root' "security" = section (apply_security root1 (config_entries t')
      (filter (λ s, s ≠ ""%string) (security_acl_entries t))) "security" ∧
    (∀ array, section root1 "options" = Some array → ∃ os array' os',
       options_config_entries t !! 0%nat = Some os ∧ apply_options os array = Ret (array', os') ∧
       section root' "options" = Some array') ∧
    (∀ array, section root1 "pools" = Some array → ∃ applied array',
       apply_pool_options (drop 1 (options_config_entries t)) = Ret applied ∧
       add_pools (clearArray array) (pools_pools t) applied.*1 = Ret array' ∧
       section root' "pools" = Some array').
Proof.
  intros Hroot H. unfold apply_tree in H. rewrite Hroot in H.
  apply bind_Ret in H as ([[rv root1] es] & H1 & H). cbv zeta in H.
  destruct (Z.eqb_spec rv 0) as [->|Hrv]; cbn [negb] in H; [|injection H as ? ?; congruence].
  apply bind_Ret in H as (global & Hg & H). apply rd_Ret in Hg as [_ Hg].
  apply bind_Ret in H as ([root2 global'] & H2 & H).
  apply bind_Ret in H as (applied & H3 & H). apply bind_Ret in H as (root' & H4 & H).
  injection H as <-. cbn [config_entries with_option_lists with_acl with_root with_entries tc_root
    options_config_entries pools_pools security_acl_entries] in *.
  exists root1, root'. set (sec := apply_security root1 es _) in *.
  assert (Hsec : ∀ name, lower "security" ≠ lower name → section sec name = section root1 name)
    by (intros name; apply apply_security_other).
  apply in_section_run_Ret in H4 as [E4 E4']. apply apply_global_Ret in H2 as [E2 E2'].
  split_and!; [done..| | | |].
  - by rewrite E4, E2, Hsec.
  - by rewrite E4, E2.
  - intros a Ha. rewrite <-Hsec in Ha by done. destruct (E2' a Ha) as (a' & ? & ?).
    exists global, a', global'. by rewrite E4.
  - intros a Ha. rewrite <-Hsec, <-E2 in Ha by done. destruct (E4' a Ha) as (a' & ? & ?).
    by exists applied, a'.
Qed.
End ApplyLemmas.

(** ** Theorems *)
Section TabConfigTheorems.
Context `{CJ : !Cjson}.

(** An option whose value can be read back: an address, a text, or a number
    written as the tab writes it. *)
Definition editable (o : gui_option) : Prop :=
  0 ≤ go_tag o < 2 ^ 31 ∧ (String.length (go_value o) ≠ 0)%nat ∧
  match gui_tag_to_type (go_tag o) with
  | DHCP_OPTION_STRING => Z.of_nat (String.length (go_value o)) < 2 ^ 31
  | DHCP_OPTION_IP => ipv4_address_to_uint32 (go_value o) ≠ 0
  | DHCP_OPTION_NUMERIC => 0 ≤ go_lenght o < 2 ^ 31 ∧ ∃ n, 0 ≤ n < 2 ^ 31 ∧ go_value o = print_int n
  | DHCP_OPTION_BOOL | DHCP_OPTION_BIN => False
  end.

(** An item that was read for an option. *)
Definition loads (j : json) (o : gui_option) : Prop :=
  to_int (get_number (cJSON_GetObjectItem j "tag")) = Ret (go_tag o) ∧
  to_int (get_number (cJSON_GetObjectItem j "lenght")) = Ret (go_lenght o) ∧
  option_text j (go_tag o) = Ret (go_value o) ∧ String.length (go_value o) ≠ 0%nat.

Lemma load_dhcp_loop_run js os : Forall2 loads js os → ∀ rest done,
  load_dhcp_loop (js ++ rest) done = load_dhcp_loop rest (done ++ os).
Proof.
  induction 1 as [|j o js os (Ht & Hl & Hv & Hn) _ IH]; intros rest done; [by rewrite app_nil_r|].
  cbn [app load_dhcp_loop]. rewrite Ht, Hl, !ret_bind, Hv, ret_bind, (proj2 (Nat.eqb_neq _ _) Hn), IH.
  rewrite <-app_assoc. by destruct o.
Qed.

Lemma to_int_number n : 0 ≤ n < 2 ^ 31 → to_int (get_number (Some (cJSON_CreateNumber n))) = Ret n.
Proof.
  intros Hn. unfold get_number, to_int. cbn [mbind option_bind].
  rewrite get_number_spec by (unfold is_u32; lia).
  by rewrite (proj2 (Z.leb_le _ _)), (proj2 (Z.ltb_lt _ _)) by lia.
Qed.

Lemma editable_applicable o : editable o → applicable o.
Proof.
  intros (_ & _ & Hv). unfold applicable, applied_lenght, applied_value.
  destruct (gui_tag_to_type (go_tag o)); try done.
  - split_and!; [done | by eexists|]. destruct Hv as (_ & n & Hn & ->). exists (cJSON_CreateNumber n).
    by rewrite (proj1 (stoi_print n Hn)).
  - split_and!; [done | by eexists | by eexists].
  - rewrite (proj2 (Z.eqb_neq _ _) Hv). split_and!; [done | by eexists | by eexists].
Qed.

Lemma editable_loads o : editable o → loads (option_json (with_lenght o)) (with_lenght o).
Proof.
  intros (Ht & Hn & Hv). unfold loads, option_json. cbn [with_lenght go_tag go_lenght go_value].
  destruct (option_object_fields (go_tag o) (default 0 (applied_lenght o))
    (match applied_value (with_lenght o) with Ret v => v | _ => cJSON_CreateArray end)) as (H1 & H2 & H3).
  rewrite H1, H2. split; [by apply to_int_number|]. unfold option_text. rewrite H3. clear H1 H2 H3.
  unfold applied_value, applied_lenght, mret, result_ret. cbn [with_lenght go_tag go_value].
  destruct (gui_tag_to_type (go_tag o)); try done.
  - destruct Hv as (Hl & n & Hv & E). rewrite E, (proj1 (stoi_print n Hv)), ret_bind.
    split; [apply to_int_number; cbn [default from_option id]; destruct (Z.eqb_spec (go_lenght o) 0); lia|].
    unfold get_number. cbn [mbind option_bind]. rewrite get_number_spec by (unfold is_u32; lia).
    split; [done | by rewrite <-E].
  - unfold get_string. cbn [mbind option_bind]. rewrite get_string_spec.
    split; [apply to_int_number; cbn [default from_option id]; lia | done].
  - unfold get_string. cbn [mbind option_bind]. rewrite get_string_spec, (proj2 (Z.eqb_neq _ _) Hv).
    split; [by apply to_int_number | done].
Qed.

Lemma loads_all os : Forall editable os →
  Forall2 loads (option_json <$> (with_lenght <$> os)) (with_lenght <$> os).
Proof.
  induction 1 as [|o os Ho _ IH]; [constructor|]. constructor; [by apply editable_loads | exact IH].
Qed.

(** C28. Options are kept: what "Apply" writes for a list of addresses, texts and
    numbers is loaded as the same list with the lengths that were written. *)
Theorem options_apply_load os array : Forall editable os →
  ∃ array', apply_options os array = Ret (array', with_lenght <$> os) ∧
    load_dhcp_config (Some array') = Ret (with_lenght <$> os).
Proof.
  intros He. destruct (apply_options_run os array) as (array' & Ha & Hc).
  { eapply Forall_impl; [exact He | apply editable_applicable]. }
  exists array'. split; [done|]. unfold load_dhcp_config. rewrite Hc.
  pose proof (load_dhcp_loop_run _ _ (loads_all os He) [] []) as H. by rewrite app_nil_r in H.
Qed.

Lemma apply_loop_nan os tag len rest done array : Forall applicable os →
  gui_tag_to_type tag = DHCP_OPTION_BOOL →
  apply_loop (os ++ GuiOption tag len "nan" :: rest) done array = Undef Uncaught.
Proof.
  intros Ha Ht. rewrite apply_loop_run by done. cbn [apply_loop]. unfold applied_lenght, applied_value.
  cbn [go_tag go_value]. by rewrite Ht.
Qed.

(** A truth value is not kept: the tab reads the value of such an option, as it is in
    a file it wrote itself, as the text "nan", and the next "Apply" throws an
    exception that nothing catches. *)
Theorem boolean_option_throws os tag b array array2 : Forall editable os → 0 ≤ tag < 2 ^ 31 →
  gui_tag_to_type tag = DHCP_OPTION_BOOL →
  cJSON_children array = (option_json <$> (with_lenght <$> os)) ++ [option_object tag 1 (cJSON_CreateBool b)] →
  ∃ os', load_dhcp_config (Some array) = Ret os' ∧ apply_options os' array2 = Undef Uncaught.
Proof.
  intros He Ht Hty Hc. exists ((with_lenght <$> os) ++ [GuiOption tag 1 "nan"]). split.
  - unfold load_dhcp_config. rewrite Hc, (load_dhcp_loop_run _ _ (loads_all os He)).
    destruct (option_object_fields tag 1 (cJSON_CreateBool b)) as (H1 & H2 & H3).
    cbn [load_dhcp_loop app]. rewrite H1, H2, !to_int_number, !ret_bind by done.
    unfold option_text. rewrite Hty, H3. unfold get_number. cbn [mbind option_bind]. by rewrite get_number_bool_spec.
  - unfold apply_options. apply apply_loop_nan; [|done]. apply Forall_fmap.
    eapply Forall_impl; [exact He|]. intros o Ho. apply editable_applicable in Ho as (H1 & [l Hl] & H3).
    unfold applicable, with_lenght. cbn [compose go_tag]. split; [done|]. split; [|exact H3].
    unfold applied_lenght in *. cbn [go_tag go_value go_lenght] in *.
    destruct (gui_tag_to_type (go_tag o)); by eexists || (by destruct (ipv4_address_to_uint32 _ =? 0)).
Qed.
End TabConfigTheorems.

(** ** The settings that are not the ones of the file *)
Section SettingsTheorems.
Context `{CJ : !Cjson}.

(** What loading leaves of an entry. *)
Definition same_setting (e e' : conf_entry) : Prop :=
  ce_json_path e' = ce_json_path e ∧ ce_type e' = ce_type e ∧ ce_val_i e' = ce_val_i e.

Lemma load_entry_kept root e root' e' ok : load_entry root e = Ret (root', e', ok) →
  ce_json_path e' = ce_json_path e ∧ ce_type e' = ce_type e.
Proof.
  unfold load_entry. destruct (get_item _ _) as [j|]; [|by intros [= _ <- _]].
  change (ce_type (set_json e true)) with (ce_type e). destruct (ce_type e) eqn:Et.
  - destruct (negb _); [|]; by intros [= _ <- _].
  - destruct (negb _); [by intros [= _ <- _]|]. intros (v & _ & H)%bind_Ret. by injection H as _ <- _.
  - destruct (negb _); [|]; by intros [= _ <- _].
  - destruct (negb _); [by intros [= _ <- _]|]. intros (v & _ & H)%bind_Ret. by injection H as _ <- _.
Qed.

Lemma load_entries_kept todo : ∀ root before rv root' es,
  load_server_entries root before todo = Ret (rv, root', es) →
  ce_json_path <$> es = ce_json_path <$> before ++ todo ∧ ce_type <$> es = ce_type <$> before ++ todo.
Proof.
  induction todo as [|e todo IH]; intros root before rv root' es H; cbn [load_server_entries] in H.
  - injection H as _ _ <-. by rewrite app_nil_r.
  - apply bind_Ret in H as ([[root1 e1] ok] & H1 & H). apply load_entry_kept in H1 as [Hp Ht].
    destruct ok; cbn [negb] in H.
    + apply IH in H as [-> ->]. by rewrite !fmap_app, !fmap_cons, <-!app_assoc, Hp, Ht.
    + injection H as _ _ <-. by rewrite !fmap_app, !fmap_cons, Hp, Ht.
Qed.

Lemma entry_point_at root es i k : same_setting (entry es k) (entry (point_at root es i) k).
Proof.
  unfold point_at, entry. destruct (decide (i = k)) as [->|Hne]; [|by rewrite list_lookup_insert_ne].
  destruct (decide (k < length es)%nat) as [Hk|Hk].
  - by rewrite list_lookup_insert_eq.
  - rewrite list_insert_ge by lia. done.
Qed.

Lemma point_at_json root es i k : (k < length es)%nat →
  ce_json (entry (point_at root es i) k) =
  if decide (i = k) then bool_decide (is_Some (get_item (section root "security") (ce_json_path (entry es k))))
  else ce_json (entry es k).
Proof.
  intros Hk. unfold point_at, entry. destruct (decide (i = k)) as [->|Hne]; [by rewrite list_lookup_insert_eq|].
  by rewrite list_lookup_insert_ne.
Qed.

Lemma length_point_at root es i : length (point_at root es i) = length es.
Proof. unfold point_at. by rewrite length_insert. Qed.

Lemma same_setting_trans e1 e2 e3 : same_setting e1 e2 → same_setting e2 e3 → same_setting e1 e3.
Proof. unfold same_setting. intuition congruence. Qed.

(** The items of the section, once it was loaded. *)
Lemma load_security_run root t t' : load_security root t = Ret (0, t') →
  (12 ≤ length (config_entries t))%nat →
  ∃ root', tc_root t' = Some root' ∧
    (∀ k, same_setting (entry (config_entries t) k) (entry (config_entries t') k)) ∧
    length (config_entries t') = length (config_entries t) ∧
    ∀ k, k = CONF_SEC_ACL_ENABLE ∨ k = CONF_SEC_ACL_MODE →
      ce_json (entry (config_entries t') k) = true ∧
      is_kind cJSON_IsBool root' (ce_json_path (entry (config_entries t) k)) = true.
Proof.
  unfold load_security. cbv zeta. set (root' := ensure_item _ _ _).
  destruct (is_kind cJSON_IsBool root' (ce_json_path (entry _ CONF_SEC_ACL_ENABLE))) eqn:E1;
    cbn [negb]; [|done].
  destruct (is_kind cJSON_IsBool root' (ce_json_path (entry _ CONF_SEC_ACL_MODE))) eqn:E2; cbn [negb]; [|done].
  destruct (is_kind cJSON_IsArray _ _); cbn [negb]; [|done].
  intros (a & _ & H)%bind_Ret Hlen. apply bind_Ret in H as (texts & _ & H). injection H as <-.
  exists root'. split; [done|].
  cbn [config_entries with_acl with_entries with_root]. split; [|split].
  - intros k. do 4 (eapply same_setting_trans; [|apply entry_point_at]). done.
  - by rewrite !length_point_at.
  - assert (Hsome : ∀ p, is_kind cJSON_IsBool root' p = true → is_Some (get_item (section root' "security") p)).
    { intros p. unfold is_kind. destruct (get_item _ p); [by eexists | done]. }
    intros k [->| ->]; rewrite !point_at_json by (rewrite ?length_point_at; unfold CONF_SEC_ACL_ENABLE, CONF_SEC_ACL_MODE; lia);
      split; try done; apply bool_decide_eq_true; apply Hsome.
    + exact E1.
    + destruct (entry_point_at root' (config_entries t) CONF_SEC_ACL_ENABLE CONF_SEC_ACL_MODE) as (-> & _). exact E2.
Qed.

Lemma set_flag_key es root i key : lower (ce_json_path (entry es i)) ≠ lower key →
  get_item (section (set_flag es root i) "security") key = get_item (section root "security") key.
Proof. intros Hne. unfold set_flag. destruct (ce_json _); [by apply set_bool_key | done]. Qed.

Lemma set_flag_same es root i : ce_json (entry es i) = true →
  is_kind cJSON_IsBool root (ce_json_path (entry es i)) = true →
  get_item (section (set_flag es root i) "security") (ce_json_path (entry es i)) =
    Some (cJSON_CreateBool (negb (ce_val_i (entry es i) =? 0))).
Proof.
  intros Hj Hb. unfold set_flag. rewrite Hj. unfold is_kind in Hb.
  destruct (get_item _ _) as [j|] eqn:E; [|done]. by eapply set_bool_same.
Qed.

(** The paths of the security entries. *)
Definition secured (es : list conf_entry) : Prop :=
  ce_json_path (entry es CONF_SEC_ACL_ENABLE) = "acl_enable"%string ∧
  ce_json_path (entry es CONF_SEC_ACL_MODE) = "acl_blacklist"%string ∧
  ce_json_path (entry es CONF_SEC_DYN_ACL_ENABLE) = "dynamic_acl"%string ∧
  ce_json_path (entry es CONF_SEC_ACL_ENTRIES) = "acl_entries"%string.

(** The switches that are written. *)
Lemma apply_security_flags root es acl (k : nat) : secured es →
  k = CONF_SEC_ACL_ENABLE ∨ k = CONF_SEC_ACL_MODE → ce_json (entry es k) = true →
  is_kind cJSON_IsBool root (ce_json_path (entry es k)) = true →
  get_item (section (apply_security root es acl) "security") (ce_json_path (entry es k)) =
    Some (cJSON_CreateBool (negb (ce_val_i (entry es k) =? 0))).
Proof.
  intros (H1 & H2 & H3 & H4) Hk Hj Hb. unfold apply_security. cbv zeta. rewrite H4.
  set (root1 := set_flag es root CONF_SEC_DYN_ACL_ENABLE).
  set (root2 := set_flag es root1 CONF_SEC_ACL_ENABLE). set (root3 := set_flag es root2 CONF_SEC_ACL_MODE).
  assert (E4 : ∀ v, get_item (section (set_item root3 "security" "acl_entries" v) "security")
      (ce_json_path (entry es k)) = get_item (section root3 "security") (ce_json_path (entry es k))).
  { intros v. apply set_item_key. destruct Hk as [->| ->]; rewrite ?H1, ?H2; by_decision. }
  assert (Hb1 : is_kind cJSON_IsBool root1 (ce_json_path (entry es k)) = true).
  { unfold is_kind, root1. rewrite set_flag_key; [exact Hb|].
    rewrite H3. destruct Hk as [->| ->]; rewrite ?H1, ?H2; by_decision. }
  assert (E3 : get_item (section root3 "security") (ce_json_path (entry es k)) =
    Some (cJSON_CreateBool (negb (ce_val_i (entry es k) =? 0)))).
  { unfold root3. destruct Hk as [->| ->].
    - rewrite set_flag_key by (rewrite H1, H2; by_decision). by apply set_flag_same.
    - apply set_flag_same; [done|]. unfold is_kind, root2.
      rewrite set_flag_key by (rewrite H1, H2; by_decision). exact Hb1. }
  destruct (ce_json (entry es CONF_SEC_ACL_ENTRIES)); [|exact E3].
  destruct (get_item (section root3 "security") "acl_entries"); [by rewrite E4 | exact E3].
Qed.

Lemma take_kept es es' n : (∀ k, same_setting (entry es k) (entry es' k)) → length es' = length es →
  ce_json_path <$> take n es' = ce_json_path <$> take n es ∧ ce_type <$> take n es' = ce_type <$> take n es.
Proof.
  intros Hs Hl. split; apply list_eq; intros i; rewrite !list_lookup_fmap;
    (destruct (decide (i < n)%nat) as [Hi|Hi];
     [rewrite !lookup_take_lt by done | by rewrite !lookup_take_ge by lia]);
    specialize (Hs i); unfold entry, same_setting in Hs;
    (destruct (decide (i < length es)%nat) as [Hlt|Hge];
     [| by rewrite !lookup_ge_None_2 by lia]);
    (destruct (es !! i) eqn:E1; [|apply lookup_ge_None_1 in E1; lia]);
    (destruct (es' !! i) eqn:E2; [|apply lookup_ge_None_1 in E2; lia]); cbn in Hs |- *; intuition congruence.
Qed.

(** The tree and the entries after a file was loaded. *)
Lemma load_tree_run root t t' : load_tree root t = Ret (0, t') → (12 ≤ length (config_entries t))%nat →
  ∃ root', tc_root t' = Some root' ∧
    ce_json_path <$> take 8 (config_entries t') = ce_json_path <$> take 8 (config_entries t) ∧
    ce_type <$> take 8 (config_entries t') = ce_type <$> take 8 (config_entries t) ∧
    (∀ k, (8 ≤ k)%nat → same_setting (entry (config_entries t) k) (entry (config_entries t') k)) ∧
    (∀ k, k = CONF_SEC_ACL_ENABLE ∨ k = CONF_SEC_ACL_MODE → ce_json (entry (config_entries t') k) = true ∧
      is_kind cJSON_IsBool root' (ce_json_path (entry (config_entries t) k)) = true).
Proof.
  intros H Hlen. unfold load_tree in H. apply bind_Ret in H as ([[rv root1] es] & H1 & H).
  apply load_entries_kept in H1 as [Hp Ht]. rewrite app_nil_l in Hp, Ht. cbv zeta in H.
  set (t1 := with_entries _ _) in H.
  assert (Hl : length es = 8%nat).
  { apply (f_equal length) in Hp. rewrite !length_fmap, length_take in Hp. lia. }
  destruct (Z.eqb_spec rv 0) as [->|Hrv]; cbn [negb] in H; [|by injection H].
  apply bind_Ret in H as ([rv t2] & H2 & H).
  destruct (Z.eqb_spec rv 0) as [->|Hrv]; cbn [negb] in H; [|by injection H].
  assert (Hl1 : (12 ≤ length (config_entries t1))%nat).
  { cbn [t1 config_entries with_entries with_root]. rewrite length_app, length_drop. lia. }
  destruct (load_security_run _ _ _ H2 Hl1) as (root' & Hroot & Hsame & Hl2 & Hflags).
  apply bind_Ret in H as ([rv pools] & _ & H). cbv zeta in H.
  destruct (Z.eqb_spec rv 0) as [->|Hrv]; cbn [negb] in H; [|by injection H].
  apply bind_Ret in H as (global & _ & H). apply bind_Ret in H as (oss & _ & H). injection H as <-.
  cbn [tc_root config_entries with_option_lists with_pools]. exists root'. split; [done|].
  assert (He1 : ∀ k, (8 ≤ k)%nat → entry (config_entries t1) k = entry (config_entries t) k).
  { intros k Hk. unfold entry. cbn [t1 config_entries with_entries with_root].
    rewrite lookup_app_r, lookup_drop by lia. do 2 f_equal. lia. }
  destruct (take_kept (config_entries t1) (config_entries t2) 8 Hsame ltac:(lia)) as [E1 E2].
  assert (Htake : take 8 (config_entries t1) = es).
  { cbn [t1 config_entries with_entries with_root]. by rewrite take_app_length' by done. }
  rewrite E1, E2, Htake. split_and!; [done..| |].
  - intros k Hk. rewrite <-He1 by done. apply Hsame.
  - intros k Hk. rewrite <-He1 by (unfold CONF_SEC_ACL_ENABLE, CONF_SEC_ACL_MODE in Hk; lia). by apply Hflags.
Qed.

(** The tree a file of the tab leads to. *)
Definition opened : tab_config := TabC None initialize [] [] [] false.

Lemma opened_shaped t' : 
  ce_json_path <$> take 8 (config_entries t') = ce_json_path <$> take 8 (config_entries opened) →
  ce_type <$> take 8 (config_entries t') = ce_type <$> take 8 (config_entries opened) →
  shaped (config_entries t').
Proof. intros Hp Ht. split; [by rewrite Hp | by rewrite Ht]. Qed.

(** C27. The switches of the access control list are not read: whatever the file says,
    when the tab is opened and the settings are applied the list is switched on,
    as a blacklist. *)
Theorem load_apply_enables_acl root t t' : load_tree root opened = Ret (0, t) → apply_tree t = Ret (0, t') →
  ∃ root', tc_root t' = Some root' ∧
    get_item (section root' "security") "acl_enable" = Some (cJSON_CreateBool true) ∧
    get_item (section root' "security") "acl_blacklist" = Some (cJSON_CreateBool true).
Proof.
  intros Hload Happly. destruct (load_tree_run _ _ _ Hload) as (root1 & Hroot & Hp & Ht & Hsame & Hflags);
    [cbn; lia|].
  assert (Hsh : shaped (config_entries t)) by (by apply opened_shaped).
  destruct (apply_tree_run _ _ _ Hroot Happly) as (root2 & root' & Hroot' & Hentries & _ & Hsec & _ & _).
  destruct (apply_server_run _ _ _ _ Hsh Hentries) as (Hs & _ & _ & He & _).
  exists root'. split; [done|]. rewrite Hsec. set (acl := filter _ _).
  assert (Hpath : ∀ k, (8 ≤ k)%nat → same_setting (entry initialize k) (entry (config_entries t') k)).
  { intros k Hk. rewrite He by lia. by apply Hsame. }
  assert (Hsecured : secured (config_entries t')).
  { unfold secured. destruct (Hpath CONF_SEC_ACL_ENABLE) as (-> & _); [by_decision|].
    destruct (Hpath CONF_SEC_ACL_MODE) as (-> & _); [by_decision|].
    destruct (Hpath CONF_SEC_DYN_ACL_ENABLE) as (-> & _); [by_decision|].
    destruct (Hpath CONF_SEC_ACL_ENTRIES) as (-> & _); [by_decision|]. done. }
  assert (Hflag : ∀ k, k = CONF_SEC_ACL_ENABLE ∨ k = CONF_SEC_ACL_MODE →
    get_item (section (apply_security root2 (config_entries t') acl) "security")
      (ce_json_path (entry initialize k)) = Some (cJSON_CreateBool true)).
  { intros k Hk. assert (Hk8 : (8 ≤ k)%nat) by (destruct Hk as [->| ->]; by_decision).
    destruct (Hpath k Hk8) as (Hpk & _ & Hvk). destruct (Hflags k Hk) as [Hj Hb].
    rewrite <-Hpk, apply_security_flags; [|done..|by rewrite He by lia|].
    - rewrite Hvk. by destruct Hk as [->| ->].
    - rewrite Hpk. unfold is_kind in *. by rewrite Hs. }
  split; [apply (Hflag CONF_SEC_ACL_ENABLE) | apply (Hflag CONF_SEC_ACL_MODE)]; auto.
Qed.

(** A configuration file without a NUL is read past the end of its buffer. *)
Lemma load_config_file_overread t text files : files !! default_config_path = Some text →
  c_text text = None → load_config_file t (Env files []) = Undef OutOfBounds.
Proof.
  intros Hfile Htext. unfold load_config_file, sys_open, mbind, prog_bind, get_state.
  cbn -[default_config_path]. rewrite Hfile. cbn -[default_config_path]. unfold lift, contents.
  cbn -[default_config_path]. rewrite Hfile. by rewrite parse_buffer_overread.
Qed.

(** The interface is written once: a reference to the first entry is used to go over the
    entries, so after "Apply" the first field stands for another setting, and a
    second "Apply" leaves the interface of the first one, whatever was typed. *)
Theorem second_apply_keeps_interface root t t' text t'' : tc_root t = Some root →
  shaped (config_entries t) → apply_tree t = Ret (0, t') →
  apply_tree (with_entries t' (<[CONF_INTERFACE := set_val (entry (config_entries t') CONF_INTERFACE) text]>
    (config_entries t'))) = Ret (0, t'') →
  ∃ root' root'', tc_root t' = Some root' ∧ tc_root t'' = Some root'' ∧
    get_item (section root'' "server") "interface" = get_item (section root' "server") "interface".
Proof.
  intros Hroot Hsh H1 H2.
  destruct (apply_tree_run _ _ _ Hroot H1) as (root1 & root' & Hroot' & He1 & _).
  destruct (apply_server_run _ _ _ _ Hsh He1) as (_ & _ & _ & Hsame & b & Hfirst).
  set (es' := config_entries t') in *. set (e := set_val _ text) in *.
  destruct (apply_tree_run (with_entries t' (<[CONF_INTERFACE:=e]> es')) root' t'' Hroot' H2)
    as (root2 & root'' & Hroot'' & He2 & Hserver & _).
  exists root', root''. split; [done|]. split; [done|].
  cbn [config_entries with_entries] in He2. change (seq 0 8) with (0%nat :: seq 1 7) in He2.
  cbn [apply_entries] in He2. apply bind_Ret in He2 as ([[root3 es3] ok] & Hturn & He2).
  destruct ok; [|done]. cbn [negb] in He2. rewrite Hserver.
  destruct (apply_entry_run _ _ _ _ _ Hturn) as ((b' & ->) & _ & Hkey & _). cbv zeta in Hkey.
  assert (Hpath : ce_json_path (entry (<[CONF_INTERFACE:=e]> es') 0) = "db_enable"%string).
  { unfold entry. destruct (decide (0 < length es')%nat) as [Hl|Hl].
    - rewrite list_lookup_insert_eq by done. unfold e. cbn [default from_option ce_json_path set_val].
      rewrite Hfirst. cbn [ce_json_path set_json]. pose proof (shaped_path _ 7 Hsh ltac:(lia)) as E.
      by injection E.
    - destruct es'; [|simpl in Hl; lia]. exfalso. specialize (Hsame 7%nat ltac:(lia)).
      pose proof (shaped_path _ 7 Hsh ltac:(lia)) as E. by rewrite <-Hsame in E. }
  rewrite Hpath in Hkey.
  set (es3 := <[CONF_INTERFACE:=_]> (<[CONF_INTERFACE:=e]> es')) in He2.
  assert (Hne : es3 ≠ []).
  { intros E. apply (f_equal length) in E. unfold es3 in E. rewrite !length_insert in E.
    destruct es'; [|done]. by simpl in Hpath. }
  assert (Hsame3 : ∀ k, (0 < k)%nat → entry es3 k = entry (config_entries t) k).
  { intros k Hk. unfold es3. rewrite !entry_insert_0 by done. by apply Hsame. }
  destruct (apply_rest_run _ (config_entries t) es3 _ _ Hsh Hne Hsame3 He2) as (_ & Hrest & _).
  rewrite Hrest by by_decision. apply Hkey. by_decision.
Qed.
End SettingsTheorems.

(** ** Witnesses *)
Definition sample_options : list gui_option :=
  [GuiOption 6 0 "10.0.0.53"; GuiOption 12 0 "office"; GuiOption 23 1 "64"].

Lemma sample_editable : Forall editable sample_options.
Proof.
  repeat constructor; try done; try by_decision. exists 64. split; [lia | reflexivity].
Qed.

Lemma options_apply_load_witness :
  ∃ array', @apply_options TreeJson.tree_json sample_options (GenNode 0 []) =
      Ret (array', with_lenght <$> sample_options) ∧
    @load_dhcp_config TreeJson.tree_json (Some array') = Ret (with_lenght <$> sample_options) ∧
    go_lenght <$> (with_lenght <$> sample_options) = [4; 6; 1].
Proof.
  destruct (@options_apply_load TreeJson.tree_json sample_options (GenNode 0 []) sample_editable) as (a & H1 & H2).
  exists a. split; [exact H1|]. split; [exact H2 | reflexivity].
Defined.

Lemma boolean_option_throws_witness :
  ∃ os', @load_dhcp_config TreeJson.tree_json (Some (GenNode 0
      [@option_object TreeJson.tree_json 19 1 (@cJSON_CreateBool TreeJson.tree_json true)])) = Ret os' ∧
    @apply_options TreeJson.tree_json os' (GenNode 0 []) = Undef Uncaught.
Proof.
  apply (@boolean_option_throws TreeJson.tree_json [] 19 true _ (GenNode 0 [])).
  - constructor.
  - lia.
  - reflexivity.
  - reflexivity.
Defined.

(** A file whose access control list is switched off. *)
Definition acl_off : @json TreeJson.tree_json :=
  @in_section TreeJson.tree_json (@empty_config TreeJson.tree_json) "security" (λ s,
    @cJSON_AddItemToObject TreeJson.tree_json s "acl_enable" (@cJSON_CreateBool TreeJson.tree_json false)).

(** The tab after a step that succeeds. *)
Definition after (m : result (Z * @tab_config TreeJson.tree_json)) : @tab_config TreeJson.tree_json :=
  match m with Ret (_, t) => t | _ => opened end.
Definition accepted (m : result (Z * @tab_config TreeJson.tree_json)) : bool :=
  match m with Ret (rv, _) => rv =? 0 | _ => false end.
Lemma accepted_after m : accepted m = true → m = Ret (0, after m).
Proof. destruct m as [[rv t]| |]; [|done..]. cbn. by intros ->%Z.eqb_eq. Qed.

Definition loaded_off := after (@load_tree TreeJson.tree_json acl_off opened).
Definition applied_off := after (apply_tree loaded_off).

Lemma load_apply_enables_acl_witness :
  get_item (section acl_off "security") "acl_enable" = Some (@cJSON_CreateBool TreeJson.tree_json false) ∧
  ∃ root', tc_root applied_off = Some root' ∧
    get_item (section root' "security") "acl_enable" = Some (@cJSON_CreateBool TreeJson.tree_json true) ∧
    get_item (section root' "security") "acl_blacklist" = Some (@cJSON_CreateBool TreeJson.tree_json true).
Proof.
  split; [vm_compute; reflexivity|].
  apply (@load_apply_enables_acl TreeJson.tree_json acl_off loaded_off applied_off);
    apply accepted_after; vm_compute; reflexivity.
Defined.

(** The interface is typed, applied, typed again and applied again. *)
Definition typed (text : string) (t : @tab_config TreeJson.tree_json) : @tab_config TreeJson.tree_json :=
  with_entries t (<[CONF_INTERFACE := set_val (entry (config_entries t) CONF_INTERFACE) text]>
    (config_entries t)).
Definition typed_once := typed "eth0" loaded_off.
Definition applied_once := after (apply_tree typed_once).
Definition applied_twice := after (apply_tree (typed "eth1" applied_once)).

Lemma second_apply_keeps_interface_witness :
  ∃ root' root'', tc_root applied_once = Some root' ∧ tc_root applied_twice = Some root'' ∧
    get_item (section root'' "server") "interface" = get_item (section root' "server") "interface".
Proof.
  eapply (@second_apply_keeps_interface TreeJson.tree_json _ typed_once applied_once "eth1" applied_twice).
  - vm_compute. reflexivity.
  - split; vm_compute; reflexivity.
  - apply accepted_after. vm_compute. reflexivity.
  - apply accepted_after. vm_compute. reflexivity.
Defined.
