(* ===== verification/TabEditor.v ===== *)
(** The editors of the Config tab, [gui/src/tab_config.cpp]: the lists of pools and
    of options on top of what [TabConfig] loads and applies, with the selections
    of the menus.  The widgets are left out, but for the references they take into the lists. *)
From Stdlib Require Import Ascii String.
From S2P Require Import Prelude Bytes Xtoy Scanf Rfc Options Json Files GuiRfc TabConfig.
Local Open Scope Z_scope.

Section TabEditor.
Context `{CJ : !Cjson}.

(** ** State *)
Record tab_editor := Editor {
  ed_config : tab_config;
  options_list : list string;
  options_list_selected : Z;
  options_list_selected_last : Z;
  options_loaded_list : list gui_option;        (* a copy *)
  options_loaded_list_entries : list string;
  options_loaded_list_selected : Z;
  options_loaded_list_selected_last : Z;
  options_loaded_type : string;
  pools_entries : list string;
  pools_pool_selected : Z;
  pools_pool_selected_last : Z;
  security_acl_entries_size_last : Z;
}.

Definition with_config (t : tab_editor) (c : tab_config) : tab_editor :=
  Editor c (options_list t) (options_list_selected t) (options_list_selected_last t)
    (options_loaded_list t) (options_loaded_list_entries t) (options_loaded_list_selected t)
    (options_loaded_list_selected_last t) (options_loaded_type t) (pools_entries t)
    (pools_pool_selected t) (pools_pool_selected_last t) (security_acl_entries_size_last t).

Definition with_list (t : tab_editor) (selected last : Z) : tab_editor :=
  Editor (ed_config t) (options_list t) selected last
    (options_loaded_list t) (options_loaded_list_entries t) (options_loaded_list_selected t)
    (options_loaded_list_selected_last t) (options_loaded_type t) (pools_entries t)
    (pools_pool_selected t) (pools_pool_selected_last t) (security_acl_entries_size_last t).

Definition with_loaded (t : tab_editor) (l : list gui_option) (entries : list string) : tab_editor :=
  Editor (ed_config t) (options_list t) (options_list_selected t) (options_list_selected_last t)
    l entries (options_loaded_list_selected t)
    (options_loaded_list_selected_last t) (options_loaded_type t) (pools_entries t)
    (pools_pool_selected t) (pools_pool_selected_last t) (security_acl_entries_size_last t).

Definition with_option (t : tab_editor) (selected last : Z) (type : string) : tab_editor :=
  Editor (ed_config t) (options_list t) (options_list_selected t) (options_list_selected_last t)
    (options_loaded_list t) (options_loaded_list_entries t) selected last type (pools_entries t)
    (pools_pool_selected t) (pools_pool_selected_last t) (security_acl_entries_size_last t).

Definition with_pool (t : tab_editor) (entries : list string) (selected last : Z) : tab_editor :=
  Editor (ed_config t) (options_list t) (options_list_selected t) (options_list_selected_last t)
    (options_loaded_list t) (options_loaded_list_entries t) (options_loaded_list_selected t)
    (options_loaded_list_selected_last t) (options_loaded_type t) entries selected last
    (security_acl_entries_size_last t).

Definition with_list_names (t : tab_editor) (names : list string) : tab_editor :=
  Editor (ed_config t) names (options_list_selected t) (options_list_selected_last t)
    (options_loaded_list t) (options_loaded_list_entries t) (options_loaded_list_selected t)
    (options_loaded_list_selected_last t) (options_loaded_type t) (pools_entries t)
    (pools_pool_selected t) (pools_pool_selected_last t) (security_acl_entries_size_last t).

Definition with_acl_size (t : tab_editor) (n : Z) : tab_editor :=
  Editor (ed_config t) (options_list t) (options_list_selected t) (options_list_selected_last t)
    (options_loaded_list t) (options_loaded_list_entries t) (options_loaded_list_selected t)
    (options_loaded_list_selected_last t) (options_loaded_type t) (pools_entries t)
    (pools_pool_selected t) (pools_pool_selected_last t) n.

(** The options of every list, and of the [i]-th. *)
Definition option_lists (t : tab_editor) : list (list gui_option) := options_config_entries (ed_config t).
Definition set_option_lists (t : tab_editor) (oss : list (list gui_option)) : tab_editor :=
  with_config t (with_option_lists (ed_config t) oss).

(** ** Operations *)
Definition option_line (o : gui_option) : string :=
  (print_int (go_tag o) ++ " - " ++ DHCPv4_tag_to_full_name (go_tag o))%string.

Definition type_text (type : dhcp_option_type) : string :=
  match type with
  | DHCP_OPTION_STRING => "string"
  | DHCP_OPTION_BOOL => "boolean (0/1)"
  | DHCP_OPTION_NUMERIC => "numeric"
  | DHCP_OPTION_IP => "IP (example: 192.168.1.1)"
  | DHCP_OPTION_BIN => "binary"
  end.

(** [options_config_entries.at(i)] throws outside the list. *)
Definition at_ {A} (l : list A) (i : Z) : result A :=
  match rd l i with Ret x => mret x | _ => Undef Uncaught end.

(** The first part of [options_load]: another list was selected. *)
Definition load_list (t : tab_editor) : result tab_editor :=
  if negb (options_list_selected t =? options_list_selected_last t) && (0 <=? options_list_selected t) then
    os ← at_ (option_lists t) (options_list_selected t);
    let entries := match os with [] => ["No options"%string] | _ => option_line <$> os end in
    let t := with_option (with_loaded t os entries) 0 (-2) (options_loaded_type t) in
    mret (with_list t (options_list_selected t) (options_list_selected t))
  else mret t.

(** The second part: another option was.  The field is a reference to its value. *)
Definition load_option (t : tab_editor) : result tab_editor :=
  let selected := options_loaded_list_selected t in
  if negb (selected =? options_loaded_list_selected_last t) && (0 <=? selected) then
    match options_loaded_list t with
    | [] => mret (with_option t selected (options_loaded_list_selected_last t) "")
    | _ :: _ =>
        o ← rd (options_loaded_list t) selected;
        _ ← (if 0 <=? options_list_selected t then
               os ← rd (option_lists t) (options_list_selected t);
               field ← rd os selected;
               mret tt
             else mret tt);
        mret (with_option t selected selected (type_text (gui_tag_to_type (go_tag o))))
    end
  else mret t.

Definition options_load (t : tab_editor) : result tab_editor :=
  t ← load_list (with_list_names t ("General"%string :: pools_entries t));
  load_option t.

(** The index of the first option with a tag. *)
Fixpoint find_tag (tag : Z) (os : list gui_option) : option nat :=
  match os with
  | [] => None
  | o :: os => if go_tag o =? tag then Some 0%nat else S <$> find_tag tag os
  end.

Definition erase {A} (l : list A) (i : Z) : result (list A) :=
  _ ← rd l i; mret (delete (Z.to_nat i) l).

(** The end of [dhcp_option_ctl]. *)
Definition reload_options (t : tab_editor) : result tab_editor :=
  t ← options_load (with_list t (options_list_selected t) (-1));
  os ← rd (option_lists t) (options_list_selected t);
  mret (with_loaded t os (options_loaded_list_entries t)).

(** The option of a tag is removed from the selected list, or added to it. *)
Definition toggle_option (tag : Z) (remove : bool) (t : tab_editor) : result tab_editor :=
  let set os selected :=
    reload_options (with_option (set_option_lists t
      (<[Z.to_nat (options_list_selected t) := os]> (option_lists t)))
      selected (options_loaded_list_selected_last t) (options_loaded_type t)) in
  match find_tag tag (options_loaded_list t) with
  | Some i =>
      if remove then
        os ← rd (option_lists t) (options_list_selected t);
        os ← erase os (Z.of_nat i);
        set os 0
      else reload_options t
  | None =>
      if remove then reload_options t
      else
        os ← rd (option_lists t) (options_list_selected t);
        let os := os ++ [GuiOption tag 0 ""] in
        set os (Z.of_nat (length os) - 1)
  end.

Definition dhcp_option_ctl (dhcp_option_ctl_input : string) (remove : bool) (t : tab_editor)
    : result tab_editor :=
  if (String.length dhcp_option_ctl_input <? 1)%nat then mret t
  else
    tag ← stoi dhcp_option_ctl_input;
    if 82 <? tag then mret t
    else
      match gui_tag_to_type tag with
      | DHCP_OPTION_BIN => mret t
      | _ => toggle_option tag remove t
      end.

(** The fields are references to the selected pool. *)
Definition pools_refresh (t : tab_editor) : result tab_editor :=
  if pools_pool_selected t =? pools_pool_selected_last t then mret t
  else
    let pools := pools_pools (ed_config t) in
    _ ← (match pools with
         | [] => mret tt
         | _ :: _ => p ← rd pools (pools_pool_selected t); mret tt
         end);
    mret (with_pool t (gp_name <$> pools) (pools_pool_selected t) (pools_pool_selected t)).

Definition new_pool : gui_pool := GuiPool "New pool" "0.0.0.0" "0.0.0.0" "0.0.0.0" cJSON_CreateArray.

Definition pool_ctl (remove : bool) (t : tab_editor) : result tab_editor :=
  let pools := pools_pools (ed_config t) in
  t ← (if remove then
         pools ← erase pools (pools_pool_selected t);
         oss ← erase (option_lists t) (pools_pool_selected t + 1);
         mret (with_pool (set_option_lists (with_config t (TabConfig.with_pools (ed_config t) pools)) oss)
                 (pools_entries t) 0 (pools_pool_selected_last t))
       else
         let pools := pools ++ [new_pool] in
         mret (with_pool (set_option_lists (with_config t (TabConfig.with_pools (ed_config t) pools))
                            (option_lists t ++ [[]]))
                 (pools_entries t) (Z.of_nat (length pools) - 1) (pools_pool_selected_last t)));
  t ← pools_refresh (with_list (with_pool t (pools_entries t) (pools_pool_selected t) (-1)) 0 (-1));
  options_load t.

(** The fields of the list are made again when its size changed. *)
Definition update_acl_entries (t : tab_editor) : tab_editor :=
  let size := Z.of_nat (length (security_acl_entries (ed_config t))) in
  if size =? security_acl_entries_size_last t then t else with_acl_size t size.

Definition refresh (t : tab_editor) : result tab_editor :=
  t ← options_load (update_acl_entries t); pools_refresh t.

(** The buttons of the security menu. *)
Definition add_acl_entry (t : tab_editor) : tab_editor :=
  with_config t (with_acl (ed_config t) (security_acl_entries (ed_config t) ++ ["00:00:00:00:00:00"%string])).
Definition delete_empty_entries (t : tab_editor) : tab_editor :=
  with_config t (with_acl (ed_config t) (filter (λ s, s ≠ ""%string) (security_acl_entries (ed_config t)))).

(** The constructor after [load_config_file]; [pools_entries] are the pools it loaded. *)
Definition editor_of (c : tab_config) : tab_editor :=
  let names := match options_config_entries c with
               | [] => []
               | _ :: _ => "Global"%string :: (gp_name <$> pools_pools c)
               end in
  Editor c names 0 (-1) [] [] 0 (-1) "" (gp_name <$> pools_pools c) 0 (-1) (2 ^ 31 - 1).

(** The menus: a list, an option of it, a pool. *)
Definition select_list (i : Z) (t : tab_editor) : tab_editor := with_list t i (options_list_selected_last t).
Definition select_option (i : Z) (t : tab_editor) : tab_editor :=
  with_option t i (options_loaded_list_selected_last t) (options_loaded_type t).
Definition select_pool (i : Z) (t : tab_editor) : tab_editor :=
  with_pool t (pools_entries t) i (pools_pool_selected_last t).
End TabEditor.

(** ** What a user does *)
Inductive action :=
  | AddPool
  | RemovePool
  | OptionCtl (text : string) (remove : bool)
  | SelectList (i : Z)
  | SelectOption (i : Z)
  | SelectPool (i : Z)
  | EditValue (text : string)
  | AddAclEntry
  | DeleteEmptyEntries.

Section Actions.
Context `{CJ : !Cjson}.

(** Text typed into the field of the option that was selected when the field was
    made, in [options_load]. *)
Definition edit_value (text : string) (t : tab_editor) : result tab_editor :=
  os ← rd (option_lists t) (options_list_selected_last t);
  o ← rd os (options_loaded_list_selected_last t);
  let os := <[Z.to_nat (options_loaded_list_selected_last t) := GuiOption (go_tag o) (go_lenght o) text]> os in
  mret (set_option_lists t (<[Z.to_nat (options_list_selected_last t) := os]> (option_lists t))).

Definition perform (a : action) (t : tab_editor) : result tab_editor :=
  match a with
  | AddPool => pool_ctl false t
  | RemovePool => pool_ctl true t
  | OptionCtl text remove => dhcp_option_ctl text remove t
  | SelectList i => mret (select_list i t)
  | SelectOption i => mret (select_option i t)
  | SelectPool i => mret (select_pool i t)
  | EditValue text => edit_value text t
  | AddAclEntry => mret (add_acl_entry t)
  | DeleteEmptyEntries => mret (delete_empty_entries t)
  end.

(** An event and the refresh before the next frame. *)
Definition event (a : action) (t : tab_editor) : result tab_editor := t ← perform a t; refresh t.

Fixpoint events (l : list action) (t : tab_editor) : result tab_editor :=
  match l with
  | [] => mret t
  | a :: l => t ← event a t; events l t
  end.

(** ** Specification *)

(** The copy of the selected list has the tags of the list, and the selected option is one of
    them. *)
Definition listed (t : tab_editor) (os : list gui_option) : Prop :=
  go_tag <$> options_loaded_list t = go_tag <$> os ∧
  (os = [] ∨ 0 ≤ options_loaded_list_selected t < zlen os).

Definition pool_in_range (t : tab_editor) : Prop :=
  pools_pools (ed_config t) = [] ∨ 0 ≤ pools_pool_selected t < zlen (pools_pools (ed_config t)).

(** Before a refresh. *)
Definition ready (t : tab_editor) : Prop :=
  length (option_lists t) = S (length (pools_pools (ed_config t))) ∧ pool_in_range t ∧
  0 ≤ options_list_selected t ∧
  ∃ os, option_lists t !! Z.to_nat (options_list_selected t) = Some os ∧
    (options_list_selected_last t = options_list_selected t → listed t os).

(** The field for the value stands for the selected option. *)
Definition field_made (t : tab_editor) : Prop :=
  options_loaded_list t = [] ∨ options_loaded_list_selected_last t = options_loaded_list_selected t.

(** After one: a list of options for every pool and one for all, and the
    selections lie in their lists. *)
Definition settled (t : tab_editor) : Prop :=
  ready t ∧ options_list_selected_last t = options_list_selected t ∧ field_made t.

(** What can be done in a tab: the buttons are there in every state, the field of the
    option number takes any text, a menu offers its entries, and there is a field
    for a value when the selected list has an option. *)
Definition offered (a : action) (t : tab_editor) : bool :=
  let within (i : Z) (n : nat) := (0 <=? i) && (i <? Z.of_nat n) in
  match a with
  | AddPool | RemovePool | OptionCtl _ _ | AddAclEntry | DeleteEmptyEntries => true
  | SelectList i => within i (length (option_lists t))
  | SelectOption i => within i (Nat.max 1 (length (options_loaded_list t)))
  | SelectPool i => within i (length (pools_pools (ed_config t)))
  | EditValue _ => negb (length (options_loaded_list t) =? 0)%nat
  end.

(** The two mistakes the tab does not survive: "Remove pool" when there is no pool,
    which erases from an empty vector, and an option number that [std::stoi] cannot
    read, whose exception nothing catches. *)
Definition mishap (a : action) (t : tab_editor) : option fault :=
  match a with
  | RemovePool => match pools_pools (ed_config t) with [] => Some OutOfBounds | _ :: _ => None end
  | OptionCtl text _ =>
      if (String.length text <? 1)%nat then None
      else match stoi text with Ret _ => None | _ => Some Uncaught end
  | _ => None
  end.

(** Each action is offered in the state the ones before it lead to. *)
Fixpoint all_offered (l : list action) (t : tab_editor) : bool :=
  match l with
  | [] => true
  | a :: l => offered a t && match event a t with Ret t' => all_offered l t' | _ => true end
  end.

(** The first mistake of a sequence of actions. *)
Fixpoint first_mishap (l : list action) (t : tab_editor) : option fault :=
  match l with
  | [] => None
  | a :: l =>
      match mishap a t with
      | Some f => Some f
      | None => match event a t with Ret t' => first_mishap l t' | _ => None end
      end
  end.

(** What a refresh leaves alone. *)
Definition frame (t t' : tab_editor) : Prop :=
  ed_config t' = ed_config t ∧ options_list_selected t' = options_list_selected t ∧
  pools_pool_selected t' = pools_pool_selected t.

Lemma rd_lookup {A} (l : list A) i x : 0 ≤ i → l !! Z.to_nat i = Some x → rd l i = Ret x.
Proof. intros Hi Hl. by apply rd_Ret. Qed.

Lemma load_list_run t os : 0 ≤ options_list_selected t →
  option_lists t !! Z.to_nat (options_list_selected t) = Some os →
  (options_list_selected_last t = options_list_selected t → listed t os) →
  ∃ t', load_list t = Ret t' ∧ frame t t' ∧ listed t' os ∧
    options_list_selected_last t' = options_list_selected t.
Proof.
  intros Hi Hos Hl. unfold load_list. rewrite (proj2 (Z.leb_le _ _) Hi), andb_true_r.
  destruct (Z.eqb_spec (options_list_selected t) (options_list_selected_last t)) as [E|E]; cbn [negb].
  - exists t. split; [done|]. split; [done|]. by split; [apply Hl|].
  - unfold at_. rewrite (rd_lookup _ _ os Hi Hos). cbn [mbind result_bind mret result_ret].
    eexists. split; [reflexivity|]. split; [done|]. split; [|done]. split; [done|].
    cbn. unfold zlen. destruct os; [by left | right; simpl; lia].
Qed.

Lemma load_option_run t os : 0 ≤ options_list_selected t →
  option_lists t !! Z.to_nat (options_list_selected t) = Some os → listed t os →
  ∃ t', load_option t = Ret t' ∧ frame t t' ∧ listed t' os ∧
    options_list_selected_last t' = options_list_selected_last t ∧ field_made t'.
Proof.
  intros Hi Hos [Htags Hsel]. unfold load_option. cbv zeta.
  assert (Hlen : length (options_loaded_list t) = length os).
  { apply (f_equal length) in Htags. by rewrite !length_fmap in Htags. }
  destruct (negb _ && _) eqn:E.
  2: { exists t. split_and!; try done. destruct Hsel as [->|Hsel]; [left; by destruct (options_loaded_list t)|].
       right. rewrite (proj2 (Z.leb_le _ _)) in E by lia. rewrite andb_true_r in E.
       by apply negb_false_iff, Z.eqb_eq in E. }
  clear E.
  destruct (options_loaded_list t) as [|o l] eqn:El.
  - eexists. split; [reflexivity|]. split; [done|]. split; [|split; [done | by left]]. split; [by rewrite <-Htags; cbn; rewrite El|].
    left. by destruct os.
  - destruct Hsel as [->|Hsel]; [done|].
    destruct (rd_in (o :: l) (options_loaded_list_selected t)) as [x Hx]; [unfold zlen in *; lia|].
    destruct (rd_in os (options_loaded_list_selected t)) as [y Hy]; [done|].
    rewrite Hx, ret_bind, (proj2 (Z.leb_le _ _) Hi), (rd_lookup _ _ os Hi Hos), ret_bind, Hy, !ret_bind.
    eexists. split; [reflexivity|]. split; [done|]. split; [|split; [done | by right]].
    split; [by cbn; rewrite El|]. by right.
Qed.

Lemma options_load_run t os : 0 ≤ options_list_selected t →
  option_lists t !! Z.to_nat (options_list_selected t) = Some os →
  (options_list_selected_last t = options_list_selected t → listed t os) →
  ∃ t', options_load t = Ret t' ∧ frame t t' ∧ listed t' os ∧
    options_list_selected_last t' = options_list_selected t ∧ field_made t'.
Proof.
  intros Hi Hos Hl. unfold options_load. set (t0 := with_list_names t _).
  destruct (load_list_run t0 os Hi Hos Hl) as (t1 & -> & (Hc1 & Hs1 & Hp1) & Hl1 & Hlast).
  rewrite ret_bind.
  destruct (load_option_run t1 os) as (t2 & -> & (Hc2 & Hs2 & Hp2) & Hl2 & Hlast2 & Hf2); [by rewrite Hs1 | |done|].
  - unfold option_lists. by rewrite Hc1, Hs1.
  - exists t2. split; [done|]. split; [unfold frame; by rewrite Hc2, Hs2, Hp2|]. split; [done|]. by rewrite Hlast2.
Qed.

Lemma pools_refresh_run t : pool_in_range t → ∃ t', pools_refresh t = Ret t' ∧ frame t t' ∧
  (∀ os, listed t os → listed t' os) ∧ options_list_selected_last t' = options_list_selected_last t ∧
  (field_made t → field_made t').
Proof.
  intros Hr. unfold pools_refresh. destruct (_ =? _); [by exists t|]. cbv zeta.
  destruct Hr as [->|Hr]; [rewrite ret_bind; by eexists|].
  destruct (pools_pools (ed_config t)) as [|p ps] eqn:E; [rewrite ret_bind; by eexists|].
  destruct (rd_in (p :: ps) (pools_pool_selected t) Hr) as [x ->]. rewrite !ret_bind. by eexists.
Qed.
Lemma options_load_ready t : ready t → ∃ t', options_load t = Ret t' ∧ settled t'.
Proof.
  intros (Hlen & Hpool & Hi & os & Hos & Hl).
  destruct (options_load_run t os Hi Hos Hl) as (t' & -> & (Hc & Hs & Hp) & Hl' & Hlast & Hf).
  exists t'. split; [done|]. split; [|split; [by rewrite Hs | done]]. unfold ready, pool_in_range, option_lists in *.
  rewrite Hc, Hs, Hp. split_and!; try done. by exists os.
Qed.

Lemma pools_refresh_ready t : ready t → ∃ t', pools_refresh t = Ret t' ∧ ready t' ∧
  (settled t → settled t').
Proof.
  intros (Hlen & Hpool & Hi & os & Hos & Hl).
  destruct (pools_refresh_run t Hpool) as (t' & -> & (Hc & Hs & Hp) & Hl' & Hlast & Hf).
  exists t'. split; [done|]. assert (Hr : ready t').
  { unfold ready, pool_in_range, option_lists in *. rewrite Hc, Hs, Hp, Hlast.
    split_and!; try done. exists os. split; [done|]. intros E. by apply Hl', Hl. }
  split; [done|]. intros (_ & E & Hm). split; [done|]. split; [by rewrite Hlast, Hs | by apply Hf].
Qed.

Lemma refresh_run t : ready t → ∃ t', refresh t = Ret t' ∧ settled t'.
Proof.
  intros Hr. unfold refresh. assert (Hu : ready (update_acl_entries t)).
  { unfold update_acl_entries. cbv zeta. by destruct (_ =? _). }
  destruct (options_load_ready _ Hu) as (t1 & -> & Hs1). rewrite ret_bind.
  destruct (pools_refresh_ready t1 (proj1 Hs1)) as (t2 & -> & _ & Hs2). exists t2. auto.
Qed.

(** The list of the selected pool was changed, and is loaded again. *)
Lemma reload_run t os : length (option_lists t) = S (length (pools_pools (ed_config t))) → pool_in_range t →
  0 ≤ options_list_selected t → option_lists t !! Z.to_nat (options_list_selected t) = Some os →
  ∃ t', reload_options t = Ret t' ∧ ready t'.
Proof.
  intros Hlen Hpool Hi Hos. unfold reload_options.
  destruct (options_load_run (with_list t (options_list_selected t) (-1)) os Hi Hos)
    as (t' & -> & (Hc & Hs & Hp) & [Htags Hsel] & Hlast & _); [cbn; lia|].
  cbn in Hc, Hs, Hp, Hlast. rewrite ret_bind.
  rewrite (rd_lookup _ _ os) by (rewrite ?Hs; unfold option_lists in *; by rewrite ?Hc).
  rewrite ret_bind. eexists. split; [reflexivity|].
  unfold ready, pool_in_range, option_lists in *. cbn. rewrite Hc, Hs, Hp. split_and!; try done.
  exists os. split; [done|]. by intros _.
Qed.

Lemma find_tag_lt tag os i : find_tag tag os = Some i → (i < length os)%nat.
Proof.
  revert i. induction os as [|o os IH]; intros i H; cbn in H; [done|].
  destruct (go_tag o =? tag); [injection H as <-; simpl; lia|].
  destruct (find_tag tag os) as [j|]; [|done]. injection H as <-. specialize (IH j eq_refl). simpl. lia.
Qed.

Lemma erase_run {A} (l : list A) i : 0 ≤ i < zlen l → erase l i = Ret (delete (Z.to_nat i) l).
Proof. intros Hi. unfold erase. destruct (rd_in l i Hi) as [x ->]. by rewrite ret_bind. Qed.

(** The list of options that is selected was replaced. *)
Lemma replaced_run t os os' i (Hr : ready t) :
  option_lists t !! Z.to_nat (options_list_selected t) = Some os →
  ∃ t', reload_options (with_option (set_option_lists t
      (<[Z.to_nat (options_list_selected t) := os']> (option_lists t))) i
      (options_loaded_list_selected_last t) (options_loaded_type t)) = Ret t' ∧ ready t'.
Proof.
  intros Hos. destruct Hr as (Hlen & Hpool & Hi & _).
  apply (reload_run _ os'); unfold pool_in_range, option_lists in *; cbn; try done.
  - by rewrite length_insert.
  - rewrite list_lookup_insert_eq; [done|]. by eapply lookup_lt_Some.
Qed.

Lemma option_ctl_run text remove t : settled t → (∃ n, stoi text = Ret n) →
  ∃ t', dhcp_option_ctl text remove t = Ret t' ∧ ready t'.
Proof.
  intros (Hr & Hlast & _) [n Hn]. pose proof Hr as (Hlen & Hpool & Hi & os & Hos & Hl).
  destruct (Hl Hlast) as [Htags _].
  assert (Hlens : length (options_loaded_list t) = length os).
  { apply (f_equal length) in Htags. by rewrite !length_fmap in Htags. }
  assert (Hreload : ∃ t', reload_options t = Ret t' ∧ ready t') by (by apply (reload_run t os)).
  assert (Hrd : rd (option_lists t) (options_list_selected t) = Ret os) by (by apply rd_lookup).
  assert (Hmain : ∃ t', toggle_option n remove t = Ret t' ∧ ready t').
  { unfold toggle_option. cbv zeta.
    destruct (find_tag n _) as [i|] eqn:E; destruct remove; try done; rewrite Hrd, ret_bind.
    - apply find_tag_lt in E. rewrite erase_run by (unfold zlen; lia). rewrite ret_bind. by eapply replaced_run.
    - by eapply replaced_run. }
  unfold dhcp_option_ctl. destruct (_ <? 1)%nat; [by exists t|]. rewrite Hn, ret_bind.
  destruct (82 <? n); [by exists t|]. destruct (gui_tag_to_type n); try exact Hmain. by exists t.
Qed.

Lemma pool_ctl_run remove t : settled t → (remove = true → pools_pools (ed_config t) ≠ []) →
  ∃ t', pool_ctl remove t = Ret t' ∧ ready t'.
Proof.
  intros ((Hlen & Hpool & _) & _) Hne. unfold pool_ctl. cbv zeta.
  assert (Hend : ∀ t1, length (option_lists t1) = S (length (pools_pools (ed_config t1))) → pool_in_range t1 →
    ∃ t', (t ← pools_refresh (with_list (with_pool t1 (pools_entries t1) (pools_pool_selected t1) (-1)) 0 (-1));
           options_load t) = Ret t' ∧ ready t').
  { intros t1 Hlen1 Hpool1. set (t2 := with_list _ 0 (-1)). assert (Hr : ready t2).
    { destruct (option_lists t1) as [|os oss] eqn:E; [done|]. unfold ready, t2, pool_in_range in *.
      split; [change (option_lists _) with (option_lists t1); rewrite E; exact Hlen1|].
      split; [exact Hpool1|]. split; [done|]. exists os. split; [|done].
      change (option_lists _) with (option_lists t1). by rewrite E. }
    destruct (pools_refresh_ready t2 Hr) as (t3 & -> & Hr3 & _). rewrite ret_bind.
    destruct (options_load_ready t3 Hr3) as (t4 & -> & Hr4 & _). by exists t4. }
  unfold pool_in_range in *. destruct remove.
  - destruct Hpool as [E|Hpool]; [by destruct (Hne eq_refl)|].
    rewrite !erase_run by (unfold zlen in *; lia). rewrite !ret_bind. apply Hend.
    + unfold option_lists in *. cbn. rewrite !length_delete by (apply lookup_lt_is_Some; unfold zlen in *; lia).
      unfold zlen in *. lia.
    + unfold pool_in_range. cbn. destruct (delete _ _); [by left | right; unfold zlen; simpl; lia].
  - rewrite ret_bind. apply Hend.
    + unfold option_lists in *. cbn. rewrite !length_app. simpl. lia.
    + unfold pool_in_range. cbn. right. unfold zlen. rewrite length_app. simpl. lia.
Qed.

Lemma edit_value_run text t : settled t → options_loaded_list t ≠ [] →
  ∃ t', edit_value text t = Ret t' ∧ ready t'.
Proof.
  intros ((Hlen & Hpool & Hi & os & Hos & Hl) & Hlast & [?|Hfield]) Hne; [done|].
  destruct (Hl Hlast) as [Htags Hsel]. unfold edit_value. rewrite Hlast, Hfield.
  rewrite (rd_lookup _ _ os Hi Hos), ret_bind.
  destruct Hsel as [->|Hsel]; [by destruct (options_loaded_list t)|].
  destruct (rd_in os _ Hsel) as [o Ho]. rewrite Ho, ret_bind. cbv zeta. eexists. split; [reflexivity|].
  apply rd_Ret in Ho as [_ Ho]. unfold ready, pool_in_range, option_lists in *. cbn. rewrite length_insert.
  split_and!; try done. eexists. split; [apply list_lookup_insert_eq; by eapply lookup_lt_Some|].
  intros _. unfold listed. split.
  - cbn. rewrite Htags. apply list_eq. intros k. rewrite !list_lookup_fmap.
    destruct (decide (Z.to_nat (options_loaded_list_selected t) = k)) as [<-|Hk].
    + rewrite list_lookup_insert_eq by (by eapply lookup_lt_Some). by rewrite Ho.
    + by rewrite list_lookup_insert_ne.
  - right. cbn. unfold zlen in *. by rewrite length_insert.
Qed.

(** Selecting an entry of a menu. *)
Lemma select_list_run i t : settled t → 0 ≤ i < zlen (option_lists t) → ready (select_list i t).
Proof.
  intros ((Hlen & Hpool & _ & os & Hos & Hl) & Hlast & _) Hi.
  destruct (rd_in (option_lists t) i Hi) as [os' [_ Hos']%rd_Ret].
  unfold ready, pool_in_range, option_lists in *. cbn. split_and!; [done|done|lia|].
  exists os'. split; [done|]. intros Hsame. rewrite <-Hsame, Hlast, Hos in Hos'. injection Hos' as <-. by apply Hl.
Qed.

Lemma select_option_run i t : settled t → 0 ≤ i < Z.max 1 (zlen (options_loaded_list t)) →
  ready (select_option i t).
Proof.
  intros ((Hlen & Hpool & Hi & os & Hos & Hl) & Hlast & _) Hin. destruct (Hl Hlast) as [Htags _].
  unfold ready, pool_in_range, option_lists in *. cbn. split_and!; try done. exists os. split; [done|].
  intros _. split; [done|]. apply (f_equal length) in Htags. rewrite !length_fmap in Htags.
  cbn. unfold zlen in *. destruct os; [by left|]. right. rewrite Htags in Hin. simpl in *. lia.
Qed.

Lemma select_pool_run i t : settled t → 0 ≤ i < zlen (pools_pools (ed_config t)) → ready (select_pool i t).
Proof.
  intros ((Hlen & Hpool & Hi & Hos) & _) Hin. unfold ready, pool_in_range, option_lists in *. cbn.
  split_and!; try done. by right.
Qed.

Lemma perform_run a t : settled t → offered a t = true →
  match mishap a t with
  | None => ∃ t', perform a t = Ret t' ∧ ready t'
  | Some f => perform a t = Undef f
  end.
Proof.
  intros Hs Ha. pose proof Hs as [Hr _]. pose proof Hr as (Hlen & Hpool & _).
  destruct a; cbn [perform offered mishap] in *; cbv zeta in *; bool_to_prop.
  - by apply pool_ctl_run.
  - destruct (pools_pools (ed_config t)) as [|p ps] eqn:E; [|apply pool_ctl_run; [done | by intros _; rewrite E]].
    unfold pool_ctl. cbv zeta. rewrite E.
    assert (@erase gui_pool [] (pools_pool_selected t) = Undef OutOfBounds) as ->; [|done].
    unfold erase, rd. by destruct (_ <=? _).
  - destruct (String.length text <? 1)%nat eqn:El; [unfold dhcp_option_ctl; rewrite El; by exists t|].
    pose proof (stoi_faults text) as Hf. destruct (stoi text) as [n|f|] eqn:En; [| |done].
    + apply option_ctl_run; [done | by exists n].
    + unfold dhcp_option_ctl. by rewrite El, En, Hf.
  - eexists. split; [reflexivity|]. apply select_list_run; [done|]. unfold zlen. lia.
  - eexists. split; [reflexivity|]. apply select_option_run; [done|]. unfold zlen. lia.
  - eexists. split; [reflexivity|]. apply select_pool_run; [done|]. unfold zlen. lia.
  - apply edit_value_run; [done|]. intros E. by rewrite E in Ha.
  - eexists. split; [reflexivity|]. exact Hr.
  - eexists. split; [reflexivity|]. exact Hr.
Qed.

Lemma event_run a t : settled t → offered a t = true →
  match mishap a t with
  | None => ∃ t', event a t = Ret t' ∧ settled t'
  | Some f => event a t = Undef f
  end.
Proof.
  intros Hs Ha. pose proof (perform_run a t Hs Ha) as H. unfold event.
  destruct (mishap a t); [by rewrite H|]. destruct H as (t1 & -> & Hr). rewrite ret_bind. by apply refresh_run.
Qed.

Lemma events_run l : ∀ t, settled t → all_offered l t = true →
  match first_mishap l t with
  | None => ∃ t', events l t = Ret t' ∧ settled t'
  | Some f => events l t = Undef f
  end.
Proof.
  induction l as [|a l IH]; intros t Hs Hall; [by exists t|]. cbn [all_offered first_mishap events] in *.
  apply andb_true_iff in Hall as [Ha Hall]. pose proof (event_run a t Hs Ha) as H.
  destruct (mishap a t); [by rewrite H|]. destruct H as (t1 & Ht1 & Hs1). rewrite Ht1 in *.
  rewrite ret_bind. by apply IH.
Qed.

Lemma load_security_lists root t rv t' : load_security root t = Ret (rv, t') →
  options_config_entries t' = options_config_entries t.
Proof.
  unfold load_security. cbv zeta. intros H.
  repeat (match type of H with context [if ?b then _ else _] => destruct b end; [by injection H as _ <-|]).
  apply bind_Ret in H as (a & _ & H). apply bind_Ret in H as (texts & _ & H). by injection H as _ <-.
Qed.

(** The tab after a file was loaded. *)
Lemma loaded_ready root t : load_tree root opened = Ret (0, t) → ready (editor_of t).
Proof.
  intros H. unfold load_tree in H. apply bind_Ret in H as ([[rv root1] es] & _ & H). cbv zeta in H.
  destruct (Z.eqb_spec rv 0) as [->|Hrv]; cbn [negb] in H; [|by injection H].
  apply bind_Ret in H as ([rv t2] & H2 & H).
  destruct (Z.eqb_spec rv 0) as [->|Hrv]; cbn [negb] in H; [|by injection H].
  apply bind_Ret in H as ([rv pools] & _ & H). cbv zeta in H.
  destruct (Z.eqb_spec rv 0) as [->|Hrv]; cbn [negb] in H; [|by injection H].
  apply bind_Ret in H as (global & _ & H). apply bind_Ret in H as (oss & Hoss & H). injection H as <-.
  apply load_security_lists in H2 as Hempty.
  assert (Hl : length oss = length pools).
  { clear -Hoss. revert oss Hoss. induction pools as [|p pools IH]; intros oss H; cbn [load_pool_options] in H.
    - by injection H as <-.
    - apply bind_Ret in H as (os & _ & H). apply bind_Ret in H as (rest & Hr & H). injection H as <-.
      cbn. by rewrite (IH rest Hr). }
  unfold ready, pool_in_range, option_lists. cbn. rewrite Hempty. cbn. split_and!; [by rewrite Hl| |done|].
  - destruct pools; [by left | right; unfold zlen; simpl; lia].
  - exists global. by split.
Qed.

(** C26. Editing after a configuration was loaded: whatever sequence of buttons,
    menu entries and typed values the tab offers, with a refresh after each, until
    the first of two mistakes ([mishap]) no list is accessed outside its bounds and
    no exception escapes, the selections stay in their lists, and every pool has
    its list of options, which is what "Apply" needs.  The mistakes are to press
    "Remove pool" when there is no pool, which erases from an empty vector, and to
    add or remove an option by a text that is not a number that fits an int, which
    ends the interface with an uncaught exception. *)
Theorem editing_settled root t l : load_tree root opened = Ret (0, t) →
  (∀ t0, refresh (editor_of t) = Ret t0 → all_offered l t0 = true) →
  ∃ t0, refresh (editor_of t) = Ret t0 ∧
    match first_mishap l t0 with
    | None => ∃ t', events l t0 = Ret t' ∧ settled t' ∧
        length (option_lists t') = S (length (pools_pools (ed_config t')))
    | Some f => events l t0 = Undef f
    end.
Proof.
  intros Hload Hall. destruct (refresh_run _ (loaded_ready root t Hload)) as (t0 & Ht0 & Hs0).
  exists t0. split; [done|]. pose proof (events_run l t0 Hs0 (Hall t0 Ht0)) as H.
  destruct (first_mishap l t0); [done|]. destruct H as (t' & Ht' & Hs'). exists t'.
  split_and!; try done. apply Hs'.
Qed.

(** A configuration that is refused leaves the tab without a list of options: the first
    refresh throws an exception that nothing catches. *)
Theorem refused_load_throws root rv t : load_tree root opened = Ret (rv, t) → rv ≠ 0 →
  refresh (editor_of t) = Undef Uncaught.
Proof.
  intros H Hrv. assert (Hempty : options_config_entries t = []).
  { unfold load_tree in H. apply bind_Ret in H as ([[rv1 root1] es] & _ & H). cbv zeta in H.
    destruct (rv1 =? 0); cbn [negb] in H; [|by injection H as _ <-].
    apply bind_Ret in H as ([rv2 t2] & H2 & H).
    apply load_security_lists in H2.
    destruct (rv2 =? 0); cbn [negb] in H; [|by injection H as _ <-].
    apply bind_Ret in H as ([rv3 pools] & _ & H). cbv zeta in H.
    destruct (rv3 =? 0); cbn [negb] in H; [|by injection H as _ <-].
    apply bind_Ret in H as (global & _ & H). apply bind_Ret in H as (oss & _ & H). by injection H as <- _. }
  unfold refresh, options_load, load_list. set (u := with_list_names _ _).
  assert (Hu : options_list_selected u = 0 ∧ options_list_selected_last u = -1 ∧ option_lists u = []).
  { unfold u, update_acl_entries. cbv zeta. unfold option_lists. by destruct (_ =? _). }
  destruct Hu as (-> & -> & ->). done.
Qed.
End Actions.

(** ** Witnesses *)
Definition session : list action :=
  [AddPool; OptionCtl "6" false; EditValue "10.0.0.1"; SelectList 1; OptionCtl "12" false; EditValue "office";
   OptionCtl "15" false; SelectOption 1; OptionCtl "12" true; SelectPool 0; AddAclEntry; RemovePool].

(** The session, and the session with one more press of "Remove pool". *)
Lemma editing_settled_witness :
  ∃ t0, refresh (editor_of loaded_off) = Ret t0 ∧
    (∃ t', events session t0 = Ret t' ∧ settled t' ∧
       length (option_lists t') = S (length (pools_pools (ed_config t')))) ∧
    events (session ++ [RemovePool]) t0 = Undef OutOfBounds.
Proof.
  assert (Hload : load_tree acl_off opened = Ret (0, loaded_off)) by (apply accepted_after; vm_compute; reflexivity).
  assert (Hb : match refresh (editor_of loaded_off) with
    | Ret t0 => all_offered (session ++ [RemovePool]) t0 && all_offered session t0 &&
        bool_decide (first_mishap session t0 = None) &&
        bool_decide (first_mishap (session ++ [RemovePool]) t0 = Some OutOfBounds)
    | _ => false end = true) by (vm_compute; reflexivity).
  destruct (@editing_settled TreeJson.tree_json acl_off loaded_off session Hload) as (t0 & H0 & H).
  { intros t0 H0. rewrite H0 in Hb. by bool_to_prop. }
  destruct (@editing_settled TreeJson.tree_json acl_off loaded_off (session ++ [RemovePool]) Hload)
    as (t0' & H0' & H').
  { intros t0' H0'. rewrite H0' in Hb. by bool_to_prop. }
  rewrite H0 in H0', Hb. injection H0' as <-. bool_to_prop.
  repeat match goal with E : bool_decide _ = true |- _ => apply bool_decide_eq_true in E end.
  exists t0. split; [exact H0|]. split.
  - by match goal with E : first_mishap session t0 = None |- _ => rewrite E in H end.
  - by match goal with E : first_mishap (_ ++ _) t0 = Some _ |- _ => rewrite E in H' end.
Defined.

(** A file whose interface is not a text. *)
Definition refused_file : @json TreeJson.tree_json :=
  @in_section TreeJson.tree_json (@empty_config TreeJson.tree_json) "server" (λ s,
    @cJSON_AddItemToObject TreeJson.tree_json s "interface" (@cJSON_CreateNumber TreeJson.tree_json 1)).

Definition refused := after (@load_tree TreeJson.tree_json refused_file opened).

Lemma refused_load_throws_witness : refresh (editor_of refused) = Undef Uncaught.
Proof.
  apply (@refused_load_throws TreeJson.tree_json refused_file (-1) refused).
  - assert (Hb : match @load_tree TreeJson.tree_json refused_file opened with Ret (rv, _) => rv =? -1 | _ => false end
      = true) by (vm_compute; reflexivity).
    unfold refused. destruct (@load_tree TreeJson.tree_json refused_file opened) as [[rv t]| |]; [|done..].
    apply Z.eqb_eq in Hb as ->. reflexivity.
  - discriminate.
Defined.
