(* ===== verification/Messages.v ===== *)
(** The message handlers, [messages/*.c]: DHCPDISCOVER and the offer it leads
    to, DHCPREQUEST with the commitment and renewal of leases, DHCPDECLINE,
    DHCPRELEASE and DHCPINFORM, and the construction of DHCPOFFER, DHCPACK and
    DHCPNAK. *)
From S2P Require Import Prelude Bytes Xtoy Rfc Options Packet AddressPool Allocator Timer Transaction Acl Json Files Lease Database Server.

Section Messages.
Context `{CC : !Cclog} `{CJ : !Cjson}.

(** ** Parts the replies share *)

(** The statements [reply->field = ...] of a [message_*_build] function. *)
Definition reply_header (reply request : dhcp_message) (ciaddr yiaddr siaddr giaddr type : Z)
    : dhcp_message :=
  Message (m_packet reply) type BOOTREPLY (m_htype request) (m_hlen request) 0 (m_xid request) 0
    (m_flags request) ciaddr yiaddr siaddr giaddr (m_chaddr request) (m_sname reply)
    (m_filename reply) (m_cookie request) (m_dhcp_options reply) (m_time reply).

(** The buffer of requested tags: option 55 copied into 256 zeros.  The option
    is dereferenced without a test. *)
Definition requested_tags (o55 : option dhcp_option) : result (list Z) :=
  o ← deref o55;
  bs ← slice (o_value o) 0 (o_lenght o);
  blit (zeros 256) 0 bs.

(** [get_requested_dhcp_options]: the options of a reply for an address. *)
Definition get_requested_dhcp_options (request : dhcp_message) (address : Z) (reply : dhcp_message)
    (required blacklisted : list Z) (type : Z) : prog dhcp_server Z :=
  o55 ← option_of request DHCP_OPTION_PARAMETER_REQUEST_LIST;
  requested ← lift (requested_tags o55);
  al ← gets s_allocator;
  match allocator_get_pool_by_address al address with
  | None => mret (-1)
  | Some (_, pool) =>
      q ← lift (deref (m_dhcp_options reply));
      h ← gets s_heap;
      dest ← lift (load_options h q);
      '(rv, dest) ← lift (dhcp_option_build_required_options dest requested required blacklisted
                            (default_options al) (p_dhcp_option_override pool) type);
      _ ← modify (λ s, set_heap (store_options (s_heap s) q dest) s);
      if if_failed rv then mret (-1) else mret 0
  end.

(** Adding one option to the list of a reply. *)
Definition add_option (reply : dhcp_message) (o : dhcp_option) : prog dhcp_server Z :=
  q ← lift (deref (m_dhcp_options reply));
  h ← gets s_heap;
  dest ← lift (load_options h q);
  let '(rv, dest) := dhcp_option_add dest (Some o) in
  _ ← modify (λ s, set_heap (store_options (s_heap s) q dest) s);
  mret rv.

(** The end of every [message_*_build]: build the packet, send it, cache it,
    store it. *)
Definition build_send_cache (send : dhcp_message → prog dhcp_server Z) (reply : dhcp_message)
    : prog dhcp_server Z :=
  h ← gets s_heap;
  '(rv, reply) ← lift (dhcp_packet_build h reply);
  if if_failed rv then mret (-1)
  else
    rv ← send reply;
    if if_failed rv then mret (-1)
    else
      '(rv, reply) ← cache_message reply;
      if if_failed rv then mret (-1) else _ ← store_if_enabled reply; mret 0.

(** ** DHCPOFFER, [dhcpoffer.c] *)
Definition message_dhcpoffer_send (message : dhcp_message) : prog dhcp_server Z :=
  c ← gets s_config;
  rv ← sendto (htonl (broadcast_addr c)) message;
  if if_failed_n rv then mret (-1) else mret 0.

Definition offer_required : list Z := [51; 54; 0].
Definition offer_blacklisted : list Z := [50; 55; 61; 57; 0].

Definition get_offer_options (discover : dhcp_message) (offered_address : Z) (offer : dhcp_message)
    : prog dhcp_server Z :=
  rv ← get_requested_dhcp_options discover offered_address offer offer_required offer_blacklisted
         DHCP_OFFER;
  if if_failed rv then mret (-1)
  else
    o61_client ← option_of discover DHCP_OPTION_CLIENT_IDENTIFIER;
    match o61_client with
    | None => mret 0
    | Some o =>
        o61 ← lift (dhcp_option_new_values DHCP_OPTION_CLIENT_IDENTIFIER (o_lenght o) (o_value o));
        rv ← add_option offer o61;
        if if_failed rv then mret (-1) else mret 0
    end.

(** The duration that was worked out for the client is not used. *)
Definition message_dhcpoffer_build (discover : dhcp_message) (offered_address : Z)
    (offered_lease_duration : Z) : prog dhcp_server Z :=
  c ← gets s_config;
  offer ← new_message;
  let offer := reply_header offer discover 0 offered_address (bound_ip c) (m_giaddr discover)
                 DHCP_OFFER in
  rv ← get_offer_options discover offered_address offer;
  if if_failed rv then mret (-1) else build_send_cache message_dhcpoffer_send offer.

(** ** DHCPACK, [dhcpack.c] *)
Definition message_dhcpack_send (message : dhcp_message) : prog dhcp_server Z :=
  c ← gets s_config;
  let dest := if negb (m_ciaddr message =? 0) then htonl (m_ciaddr message)
              else htonl (broadcast_addr c) in
  rv ← sendto dest message;
  if if_failed_n rv then mret (-1) else mret 0.

Definition inform_required : list Z := [54; 0].
Definition inform_blacklisted : list Z := [50; 51; 55; 61; 57; 0].

(** The type of [ack] is not set: it stays 0, as [calloc] left it. *)
Definition message_dhcpack_build (request : dhcp_message) (acked_lease_duration leased_address : Z)
    : prog dhcp_server Z :=
  c ← gets s_config;
  ack ← new_message;
  let ack := reply_header ack request (m_ciaddr request) leased_address (bound_ip c)
               (m_giaddr request) (m_type ack) in
  rv ← get_requested_dhcp_options request leased_address ack offer_required offer_blacklisted DHCP_ACK;
  if if_failed rv then mret (-1) else build_send_cache message_dhcpack_send ack.

Definition message_dhcpack_build_lease_renew (request : dhcp_message) : prog dhcp_server Z :=
  c ← gets s_config;
  ack ← new_message;
  let ack := reply_header ack request (m_ciaddr request) (m_ciaddr request) (bound_ip c) 0
               (m_type ack) in
  rv ← get_requested_dhcp_options request (m_ciaddr ack) ack offer_required offer_blacklisted DHCP_ACK;
  if if_failed rv then mret (-1) else build_send_cache message_dhcpack_send ack.

Definition get_requested_dhcp_options_inform_response (inform ack : dhcp_message)
    : prog dhcp_server Z :=
  get_requested_dhcp_options inform (m_ciaddr inform) ack inform_required inform_blacklisted DHCP_ACK.

Definition message_dhcpack_build_inform_response (inform : dhcp_message) : prog dhcp_server Z :=
  if m_ciaddr inform =? 0 then mret (-1)
  else
    c ← gets s_config;
    ack ← new_message;
    let ack := reply_header ack inform (m_ciaddr inform) 0 (bound_ip c) (m_giaddr inform) DHCP_ACK in
    rv ← get_requested_dhcp_options_inform_response inform ack;
    if if_failed rv then mret (-1) else build_send_cache message_dhcpack_send ack.

(** ** DHCPNAK, [dhcpnak.c] *)

(** A client address would go out in host order, but a DHCPNAK has none. *)
Definition message_nak_send (message : dhcp_message) : prog dhcp_server Z :=
  c ← gets s_config;
  let dest := if negb (m_ciaddr message =? 0) then m_ciaddr message else htonl (broadcast_addr c) in
  rv ← sendto dest message;
  if if_failed_n rv then mret (-1) else mret 0.

Definition get_nak_options (nak : dhcp_message) : prog dhcp_server Z :=
  requested ← lift (dhcp_option_new_values DHCP_OPTION_PARAMETER_REQUEST_LIST 1 [0]);
  al ← gets s_allocator;
  q ← lift (deref (m_dhcp_options nak));
  h ← gets s_heap;
  dest ← lift (load_options h q);
  '(rv, dest) ← lift (dhcp_option_build_required_options dest (o_value requested) [54; 0] [0]
                        (default_options al) (default_options al) DHCP_NAK);
  _ ← modify (λ s, set_heap (store_options (s_heap s) q dest) s);
  if if_failed rv then mret (-1) else mret 0.

Definition message_dhcpnak_build (request : dhcp_message) : prog dhcp_server Z :=
  nak ← new_message;
  let nak := reply_header nak request 0 0 0 (m_giaddr request) DHCP_NAK in
  rv ← get_nak_options nak;
  if if_failed rv then mret (-1) else build_send_cache message_nak_send nak.

(** ** DHCPDISCOVER, [dhcpdiscover.c] *)
Definition allocate_particular_address (msg : dhcp_message) : prog dhcp_server Z :=
  o50 ← option_of msg DHCP_OPTION_REQUESTED_IP_ADDRESS;
  match o50 with
  | None => mret 0
  | Some o =>
      buf ← with_allocator (λ al, '(rv, al, buf) ← allocator_request_this_address al (value_ip o);
                                  mret (buf, al));
      mret (default 0 buf)
  end.

Definition allocate_random_address : prog dhcp_server Z :=
  buf ← with_allocator (λ al, '(rv, al, buf) ← allocator_request_any_address al; mret (buf, al));
  mret (default 0 buf).

(** The duration the client asks for, up to the configured one; 0 when none is
    configured. *)
Definition get_lease_duration (msg : dhcp_message) : prog dhcp_server Z :=
  o51_requested ← option_of msg DHCP_OPTION_IP_ADDRESS_LEASE_TIME;
  al ← gets s_allocator;
  mret (match dhcp_option_retrieve (default_options al) DHCP_OPTION_IP_ADDRESS_LEASE_TIME with
        | None => 0
        | Some o51_global =>
            match o51_requested with
            | Some o =>
                if value_number o <=? value_number o51_global then value_number o
                else value_number o51_global
            | None => value_number o51_global
            end
        end).

(** The first half of the handler: the requested address when it can be had,
    else any address; 0 when there is none. *)
Definition choose_address (m : dhcp_message) : prog dhcp_server Z :=
  o50 ← option_of m DHCP_OPTION_REQUESTED_IP_ADDRESS;
  new_address ← match o50 with
                | Some _ => allocate_particular_address m
                | None => mret 0
                end;
  if new_address =? 0 then allocate_random_address else mret new_address.

Definition message_dhcpdiscover_handle (message : dhcp_message) : prog dhcp_server Z :=
  new_address ← choose_address message;
  if new_address =? 0 then mret (-1)
  else
    lease_time ← get_lease_duration message;
    if lease_time =? 0 then mret (-1)
    else
      rv ← message_dhcpoffer_build message new_address lease_time;
      if if_failed rv then mret (-1) else mret 0.

(** ** Specification *)

(** The server between two messages: its components are well formed and the
    configured options can be sent. *)
Definition server_wf (s : dhcp_server) : Prop :=
  allocator_wf (s_allocator s) ∧ cache_wf (s_trans_cache s) ∧
  sendable (default_options (s_allocator s)) ∧
  Forall sendable (p_dhcp_option_override <$> address_pools (s_allocator s)) ∧
  is_u32 (bound_ip (s_config s)) ∧ is_u32 (broadcast_addr (s_config s)).

(** A message that was received, parsed into the options [os] and cached. *)
Definition received_ok (s : dhcp_server) (m : dhcp_message) (os : list dhcp_option) : Prop :=
  message_wf m ∧ m_cookie m = MAGIC_COOKIE ∧ m_xid m ≠ 0 ∧
  (list_wf os ∧ Forall (λ o, o_lenght o ≤ DHCP_OPTION_MAX_LENGHT) os) ∧
  has_transaction (s_trans_cache s) (m_xid m) ∧
  ∃ p, m_dhcp_options m = Some p ∧ load_options (s_heap s) p = Ret os.

(** Configured options by tag, for an address of the given pool. *)
Definition configured_for (s : dhcp_server) (pool : address_pool) (tag : Z) : option dhcp_option :=
  configured_option (default_options (s_allocator s)) (p_dhcp_option_override pool) tag.

(** The size of everything a reply can carry from the configuration, and of
    the client identifier. *)
Definition config_size (s : dhcp_server) (pool : address_pool) : Z :=
  3 + zlen (encode_all (default_options (s_allocator s))) +
  zlen (encode_all (p_dhcp_option_override pool)).

Definition identifier_size (os : list dhcp_option) : Z :=
  match dhcp_option_retrieve os DHCP_OPTION_CLIENT_IDENTIFIER with
  | Some o => 2 + o_lenght o
  | None => 0
  end.

(** ** Steps *)
Lemma zlen_encode_all_app a b : zlen (encode_all (a ++ b)) = zlen (encode_all a) + zlen (encode_all b).
Proof. unfold encode_all. by rewrite fmap_app, concat_app, zlen_app. Qed.

Lemma zlen_encode_all_cons o os : option_ok o →
  zlen (encode_all (o :: os)) = 2 + o_lenght o + zlen (encode_all os).
Proof.
  intros Ho. change (encode_all (o :: os)) with (encode o ++ encode_all os).
  by rewrite zlen_app, zlen_encode.
Qed.
Lemma option_of_run s m os tag p : m_dhcp_options m = Some p → load_options (s_heap s) p = Ret os →
  option_of m tag s = Ret (dhcp_option_retrieve os (u8 tag), s).
Proof.
  intros Hp Hl. unfold option_of. rewrite bind_gets. unfold retrieve_option, lift.
  rewrite Hp, Hl. reflexivity.
Qed.

Lemma terminated_exists (buf : list Z) : 0 ∈ buf → ∃ l, terminated l buf.
Proof.
  induction buf as [|b buf IH]; intros H; [by apply not_elem_of_nil in H|].
  destruct (decide (b = 0)) as [->|Hb].
  - exists []. split; [apply not_elem_of_nil | by exists buf].
  - apply elem_of_cons in H as [|H]; [congruence|]. destruct (IH H) as (l & Hl & rest & ->).
    exists (b :: l). split; [apply not_elem_of_cons; auto | by exists rest].
Qed.

Lemma requested_tags_run o : option_wf o →
  ∃ buf l, requested_tags (Some o) = Ret buf ∧ terminated l buf.
Proof.
  intros (_ & Hl & _ & Hlen & Hb). unfold is_u8 in Hl. unfold requested_tags. cbn [deref].
  rewrite ret_bind, slice_prefix by (unfold zlen, VALUE_SIZE in *; lia). rewrite ret_bind.
  set (bs := take (Z.to_nat (o_lenght o)) (o_value o)).
  assert (Hbs : (length bs ≤ 255)%nat) by (subst bs; rewrite length_take; lia).
  rewrite blit_in by (unfold zlen; rewrite ?length_zeros; lia).
  destruct (terminated_exists (splice (Z.to_nat 0) bs (zeros 256))) as [l Hterm]; [|by eexists _, l].
  unfold splice. change (Z.to_nat 0) with 0%nat. rewrite take_0, app_nil_l, Nat.add_0_l, elem_of_app.
  right. unfold zeros. rewrite drop_replicate. destruct (256 - length bs)%nat eqn:E; [lia|]. left.
Qed.

Lemma terminated_list l rest : bool_decide (0 ∈ l) = false → terminated l (l ++ 0 :: rest).
Proof. intros H. split; [by apply bool_decide_eq_false in H | by eexists]. Qed.

(** The options of a reply whose list is [q], for an address of [pool]. *)
Lemma requested_options_run s m os o55 a i pool reply q required black type req blk :
  server_wf s → received_ok s m os →
  dhcp_option_retrieve os DHCP_OPTION_PARAMETER_REQUEST_LIST = Some o55 →
  allocator_get_pool_by_address (s_allocator s) a = Some (i, pool) →
  m_dhcp_options reply = Some q → load_options (s_heap s) q = Ret [] →
  terminated req required → terminated blk black →
  ∃ dest, get_requested_dhcp_options m a reply required black type s =
      Ret (if decide (Exists (λ t, t ∉ blk ∧ configured_for s pool t = None) req) then -1 else 0,
           set_heap (store_options (s_heap s) q dest) s) ∧ good_options dest ∧
    zlen (encode_all dest) ≤ config_size s pool ∧
    (¬ Exists (λ t, t ∉ blk ∧ configured_for s pool t = None) req →
     dhcp_option_retrieve dest DHCP_OPTION_DHCP_MESSAGE_TYPE = Some (message_type_option type) ∧
     ∀ t, t ≠ DHCP_OPTION_DHCP_MESSAGE_TYPE → t ∈ req → t ∉ blk →
       dhcp_option_retrieve dest t = configured_for s pool t).
Proof.
  intros (Hal & _ & Hg & Hps & _) (_ & _ & _ & [Hos _] & _ & p & Hp & Hl) H55 Hpool Hq Hlq Hreq Hblk.
  assert (Hs : sendable (p_dhcp_option_override pool)).
  { apply by_address_Some in Hpool as [Hi _]. rewrite Forall_forall in Hps. apply Hps.
    apply list_elem_of_fmap_2. by eapply list_elem_of_lookup_2. }
  assert (Hw : option_wf o55).
  { destruct Hos as [Hf _]. rewrite Forall_forall in Hf. apply Hf.
    by apply retrieve_Some in H55 as [? _]. }
  destruct (requested_tags_run o55 Hw) as (buf & l & Hbuf & Hterm).
  destruct (build_options_correct [] l req blk buf required black (default_options (s_allocator s))
    (p_dhcp_option_override pool) type Hg Hs Hterm Hreq Hblk) as (dest & Hb & Hspec).
  assert (Hgood : good_options dest).
  { eapply build_good; [exact Hg | exact Hs | | exact Hb]. repeat constructor. }
  exists dest. split; [|split; [done|split]].
  - unfold get_requested_dhcp_options. rewrite prog_bind_eq, (option_of_run s m os _ p Hp Hl).
    cbv beta iota. change (u8 DHCP_OPTION_PARAMETER_REQUEST_LIST) with DHCP_OPTION_PARAMETER_REQUEST_LIST.
    rewrite H55, prog_bind_eq. unfold lift at 1. rewrite Hbuf. cbv beta iota.
    rewrite bind_gets, Hpool, prog_bind_eq, Hq. cbn [deref lift]. cbv beta iota.
    rewrite bind_gets, prog_bind_eq. unfold lift at 1. rewrite Hlq. cbv beta iota.
    rewrite prog_bind_eq. unfold lift. rewrite Hb. cbv beta iota. rewrite bind_modify, if_failed_spec.
    unfold configured_for. by destruct (decide _).
  - etrans; [apply encode_all_submseteq; [apply Hgood |
      exact (build_members _ _ _ _ _ _ _ _ _ Hg Hs Hb)]|].
    cbn [app]. rewrite zlen_encode_all_cons, zlen_encode_all_app by apply message_type_ok.
    unfold config_size. cbn [o_lenght message_type_option]. lia.
  - intros Hn. specialize (Hspec Hn). split; [by rewrite Hspec|].
    intros t Ht Hr Hbl. rewrite Hspec. cbn [dhcp_option_retrieve].
    rewrite (proj2 (Z.eqb_neq _ _)) by done. by rewrite decide_True by auto.
Qed.

(** ** Building, sending and caching a reply *)

(** What the three send functions do once they know the destination. *)
Definition send_to (dest : Z) (m : dhcp_message) : prog dhcp_server Z :=
  rv ← sendto dest m; if if_failed_n rv then mret (-1) else mret 0.

(** The next system call succeeds. *)
Definition no_fault (s : dhcp_server) : Prop := hd_fault (e_faults (s_env s)) = false.

(** The state after one more call and possibly one more datagram. *)
Definition after_call (sent : list (Z * list Z)) (s : dhcp_server) : dhcp_server :=
  set_sent (s_sent s ++ sent) (set_env (Env (e_files (s_env s)) (tail (e_faults (s_env s)))) s).

Lemma send_to_run dest m s : send_to dest m s =
  if hd_fault (e_faults (s_env s)) then Ret (-1, after_call [] s)
  else Ret (0, after_call [(dest, packet_encode (m_packet m))] s).
Proof.
  destruct s as [al c ti acl dacl cfg now h [files faults] sent ip].
  unfold send_to, sendto, with_env, mbind, prog_bind, modify, after_call. cbn [s_env e_files e_faults].
  rewrite fails_eq. cbn [s_env e_files e_faults]. destruct (hd_fault faults); cbn.
  - rewrite if_failed_n_spec. cbn. by rewrite app_nil_r.
  - rewrite if_failed_n_spec, (proj2 (Z.ltb_ge _ _)) by apply zlen_nonneg. reflexivity.
Qed.

(** A reply that was sent: its datagram, and the message in the cache. *)
Definition replied (s s' : dhcp_server) (dest : Z) (reply : dhcp_message) (opts : list dhcp_option)
    : Prop :=
  ∃ pk, datagram_of reply opts (packet_encode pk) ∧
    s_sent s' = s_sent s ++ [(dest, packet_encode pk)] ∧
    ∀ x, x ≠ 0 → messages_of (s_trans_cache s') x =
      if decide (x = m_xid reply)
      then messages_of (s_trans_cache s) x ++ [with_time (with_packet reply pk) (u32 (s_now s))]
      else messages_of (s_trans_cache s) x.

(** What building, sending and caching leaves of the rest of the state. *)
Definition same_rest (s s' : dhcp_server) : Prop :=
  s_allocator s' = s_allocator s ∧ s_heap s' = s_heap s ∧ s_config s' = s_config s ∧
  s_now s' = s_now s ∧ outside_database (s_env s) (s_env s').

#[local] Opaque dhcp_options_serialize.

Lemma after_call_rest sent s : same_rest s (after_call sent s).
Proof.
  split; [done|]. split; [done|]. split; [done|]. split; [done|]. split; [|done].
  cbn. by intros ->.
Qed.

Lemma same_rest_env s s1 e : same_rest s s1 → outside_database (s_env s1) e →
  same_rest s (set_env e s1).
Proof.
  intros (? & ? & ? & ? & Hf & Ho) [Hf' Ho']. split_and!; try done.
  - split; [by intros ?%Hf%Hf'|]. intros path Hp. cbn. by rewrite Ho', Ho.
Qed.

Lemma build_send_cache_run send s reply q dest opts :
  (∀ pk, send (with_packet reply pk) s = send_to dest (with_packet reply pk) s) →
  cache_wf (s_trans_cache s) → message_wf reply → m_cookie reply = MAGIC_COOKIE → m_xid reply ≠ 0 →
  m_dhcp_options reply = Some q → load_options (s_heap s) q = Ret opts → good_options opts →
  has_transaction (s_trans_cache s) (m_xid reply) →
  ∃ rv s', build_send_cache send reply s = Ret (rv, s') ∧ same_rest s s' ∧
    cache_wf (s_trans_cache s') ∧
    (rv = 0 ∧ zlen (encode_all opts) ≤ DHCP_PACKET_OPTIONS_SIZE ∧ no_fault s ∧
       replied s s' dest reply opts ∨
     rv = -1 ∧ (DHCP_PACKET_OPTIONS_SIZE < zlen (encode_all opts) ∨ ¬ no_fault s) ∧
       s_sent s' = s_sent s ∧ s_trans_cache s' = s_trans_cache s).
Proof.
  intros Hsend Hc Hm Hck Hx Hq Hl [Hs Hn] Ht.
  assert (Hok : Forall option_ok opts) by (eapply Forall_impl; [exact Hs | by intros ? [? _]]).
  unfold build_send_cache. rewrite bind_gets, prog_bind_eq. unfold lift.
  destruct (decide (zlen (encode_all opts) ≤ DHCP_PACKET_OPTIONS_SIZE)) as [Hfit|Hfit].
  - destruct (built_datagram (s_heap s) reply q opts) as (pk & -> & Hpk); try done.
    cbv beta iota. rewrite if_failed_spec. cbn [Z.eqb negb].
    rewrite prog_bind_eq, Hsend, send_to_run. unfold no_fault.
    destruct (hd_fault (e_faults (s_env s))) eqn:Ef; cbv beta iota; rewrite if_failed_spec.
    + exists (-1), (after_call [] s). split; [reflexivity|]. split; [apply after_call_rest|]. split; [done|].
      right. split_and?; [done | by right | simpl; by rewrite app_nil_r | done].
    + cbn [Z.eqb negb]. rewrite prog_bind_eq. unfold cache_message.
      destruct (trans_cache_add_correct (s_now s) (s_trans_cache s) (with_packet reply pk) Hc Hx)
        as (rv & c' & Ha & Hc' & _ & Hr).
      cbn [s_trans_cache after_call set_sent set_env s_now]. rewrite Ha. cbv beta iota.
      destruct Hr as [(-> & _ & Hmsgs)|(_ & _ & Hno & _)]; [|by destruct Hno].
      rewrite if_failed_spec. cbn [Z.eqb negb]. rewrite prog_bind_eq.
      set (s2 := set_cache c' _).
      destruct (store_if_enabled_run (with_time (with_packet reply pk) (u32 (s_now s))) s2)
        as (e' & -> & Hdb).
      { cbn [m_chaddr with_time with_packet]. unfold zlen.
        destruct Hm as (_ & _ & _ & _ & -> & _). unfold CHADDR_LEN. lia. }
      eexists 0, _. split; [reflexivity|].
      split; [apply same_rest_env; [by apply after_call_rest | done]|]. split; [done|].
      left. split_and?; try done.
      exists pk. split; [done|]. split; [reflexivity | exact Hmsgs].
  - unfold dhcp_packet_build. rewrite Hck, Z.eqb_refl. cbn [negb]. rewrite Hq, Hl, ret_bind.
    destruct Hm as (_ & _ & _ & _ & _ & _ & _ & _ & Hol & _).
    destruct (serialize_correct opts (pk_options (build_header reply)) Hok) as (-> & Hpre & Hbound).
    { cbn [build_header pk_options]. unfold zlen. by rewrite Hol. }
    assert (length (fitting 0 opts) ≠ length opts) as Hshort.
    { intros E. apply Hfit. by rewrite <-(prefix_length_eq _ _ Hpre) at 1 by lia. }
    rewrite decide_False, ret_bind by done. cbv beta iota. rewrite if_failed_spec.
    cbn [Z.eqb negb]. unfold mret at 1, result_ret. cbv beta iota. rewrite if_failed_spec.
    eexists (-1), s. split; [reflexivity|]. split; [done|]. split; [done|]. right.
    split_and?; [done | left; lia | done | done].
Qed.

(** ** Replies *)
Lemma new_message_run s : ∃ m q h, new_message s = Ret (m, set_heap h s) ∧
  m_dhcp_options m = Some q ∧ load_options h q = Ret [] ∧ m_type m = 0 ∧
  m_packet m = packet_zero ∧ m_sname m = zeros SNAME_LEN ∧ m_filename m = zeros FILENAME_LEN ∧
  s_heap s !! q = None ∧ ∀ p os, load_options (s_heap s) p = Ret os → load_options h p = Ret os.
Proof.
  unfold new_message, dhcp_message_new, new_options. cbv zeta.
  assert (Hf : s_heap s !! fresh (dom (s_heap s)) = None) by apply not_elem_of_dom, is_fresh.
  generalize dependent (fresh (dom (s_heap s))). intros q Hf.
  eexists _, q, _. split; [reflexivity|]. split; [done|].
  split; [unfold load_options; by rewrite lookup_insert_eq|]. split_and?; try done.
  intros p os Hl. unfold load_options in *. rewrite lookup_insert_ne; [done|].
  intros ->. by rewrite Hf in Hl.
Qed.

Lemma reply_header_wf reply m ciaddr yiaddr siaddr giaddr type :
  message_wf m → m_packet reply = packet_zero → m_sname reply = zeros SNAME_LEN →
  m_filename reply = zeros FILENAME_LEN → Forall is_u32 [ciaddr; yiaddr; siaddr; giaddr] →
  message_wf (reply_header reply m ciaddr yiaddr siaddr giaddr type).
Proof.
  intros (H8 & _ & Hfl & H32 & Hc & _ & _ & Hb & _) Hp Hsn Hfn Haddr.
  repeat (apply Forall_cons in H8 as [? H8]). repeat (apply Forall_cons in H32 as [? H32]).
  unfold message_wf, reply_header.
  cbn [m_packet m_type m_opcode m_htype m_hlen m_hops m_xid m_secs m_flags m_ciaddr m_yiaddr m_siaddr
    m_giaddr m_chaddr m_sname m_filename m_cookie]. rewrite Hp, Hsn, Hfn.
  split; [repeat apply Forall_cons_2; try done; by_decision|].
  split; [by_decision|]. split; [done|]. split.
  { apply Forall_cons_2; [done|]. apply (Forall_app_2 _ [ciaddr; yiaddr; siaddr; giaddr]); [done|].
    by apply Forall_cons_2. }
  split; [done|]. split; [done|]. split; [done|].
  split; [|split; [done | apply zeros_bytes]].
  apply Forall_app in Hb as [Hb _]. apply Forall_app. split; [done|].
  apply Forall_app. split; apply zeros_bytes.
Qed.

(** The list of a reply after an option was added to it. *)
Lemma add_option_run s reply q o dest : m_dhcp_options reply = Some q →
  load_options (s_heap s) q = Ret dest → good_options dest → option_ok o → option_canonical o →
  ∃ dest', add_option reply o s = Ret (0, set_heap (store_options (s_heap s) q dest') s) ∧
    good_options dest' ∧ zlen (encode_all dest') ≤ zlen (encode_all dest) + 2 + o_lenght o ∧
    ∀ t, dhcp_option_retrieve dest t ≠ None →
      dhcp_option_retrieve dest' t = dhcp_option_retrieve dest t.
Proof.
  intros Hq Hl Hd Ho Hc. pose proof (retrieve_add dest o) as Hr.
  destruct (dhcp_option_add dest (Some o)) as [rv dest'] eqn:Ea.
  destruct (good_add _ _ _ _ Hd Ho Hc Ea) as [-> Hd']. exists dest'. split; [|split; [done|split]].
  - unfold add_option. rewrite prog_bind_eq, Hq. cbn [deref lift]. cbv beta iota.
    rewrite bind_gets, prog_bind_eq. unfold lift. rewrite Hl. cbv beta iota. rewrite Ea, bind_modify.
    reflexivity.
  - cbn [dhcp_option_add] in Ea. pose proof (proj1 (proj2 (proj1 Ho))) as [? _].
    destruct (dhcp_option_retrieve dest (o_tag o)); injection Ea as <-; [lia|].
    rewrite zlen_encode_all_app, zlen_encode_all_cons by done. change (zlen (encode_all [])) with 0. lia.
  - intros t Ht. cbn [snd] in Hr. rewrite Hr. by destruct (dhcp_option_retrieve dest t).
Qed.

(** The client identifier as it is copied into the offer. *)
Lemma copied_identifier o : option_wf o → o_lenght o ≤ DHCP_OPTION_MAX_LENGHT → ∃ o',
  dhcp_option_new_values DHCP_OPTION_CLIENT_IDENTIFIER (o_lenght o) (o_value o) = Ret o' ∧
  o_lenght o' = o_lenght o ∧ option_ok o' ∧ option_canonical o'.
Proof.
  intros (_ & Hl & _ & Hlen & Hb) Hmax. unfold is_u8, DHCP_OPTION_MAX_LENGHT in *.
  set (bs := take (Z.to_nat (o_lenght o)) (o_value o)).
  assert (Hbs : zlen bs = o_lenght o)
    by (subst bs; unfold zlen, VALUE_SIZE in *; rewrite length_take; lia).
  assert (Hbb : is_bytes bs) by (by apply Forall_take).
  unfold dhcp_option_new_values. rewrite slice_prefix by (unfold zlen, VALUE_SIZE in *; lia).
  rewrite ret_bind. fold bs.
  assert (Hblit : blit (zeros VALUE_SIZE) 0 bs = Ret (bs ++ zeros (VALUE_SIZE - length bs)))
    by (apply blit_zeros; unfold zlen, VALUE_SIZE in *; lia).
  cbn [o_value dhcp_option_new]. rewrite Hblit, ret_bind. eexists. split; [reflexivity|].
  cbn [o_tag o_lenght]. rewrite (u8_small (o_lenght o)) by (unfold is_u8; lia). split; [reflexivity|].
  assert (Hvl : length (bs ++ zeros (VALUE_SIZE - length bs)) = VALUE_SIZE)
    by (rewrite length_app, length_zeros; unfold zlen, VALUE_SIZE in *; lia).
  split.
  - split; [|intros [H|H]; discriminate]. split; [by_decision|].
    split; [unfold is_u8; cbn [o_lenght]; lia|]. split; [reflexivity|]. split; [exact Hvl|].
    apply Forall_app. split; [done | apply zeros_bytes].
  - split; [done|]. split; [done|]. split; [exact Hmax|].
    change (o_type _) with DHCP_OPTION_BIN. by exists bs.
Qed.

(** The option lists that are live stay as they are. *)
Definition heap_keeps (h h' : option_heap) : Prop :=
  ∀ p os, load_options h p = Ret os → load_options h' p = Ret os.

(** The state after a reply was made, whether it was sent or not. *)
Definition reply_frame (s s' : dhcp_server) : Prop :=
  s_allocator s' = s_allocator s ∧ s_config s' = s_config s ∧ s_now s' = s_now s ∧
  outside_database (s_env s) (s_env s') ∧ heap_keeps (s_heap s) (s_heap s') ∧
  cache_wf (s_trans_cache s').

(** Nothing was sent or cached. *)
Definition unanswered (s s' : dhcp_server) : Prop :=
  s_sent s' = s_sent s ∧ s_trans_cache s' = s_trans_cache s.

Lemma heap_keeps_store h h' q os : h !! q = None → heap_keeps h h' →
  heap_keeps h (store_options h' q os).
Proof.
  intros Hq Hk p os' Hl. pose proof (Hk p os' Hl) as Hl'. unfold load_options, store_options in *.
  rewrite lookup_insert_ne; [done|]. intros <-. by rewrite Hq in Hl.
Qed.

Lemma required_51_54 : terminated [51; 54] offer_required ∧
  terminated [50; 55; 61; 57] offer_blacklisted ∧ terminated [54] inform_required ∧
  terminated [50; 51; 55; 61; 57] inform_blacklisted.
Proof. split_and?; (split; [by apply (bool_decide_unpack _) | by eexists]). Qed.

(** The required options of an offer or an acknowledgement are configured. *)
Definition lease_options_configured (s : dhcp_server) (pool : address_pool) : Prop :=
  configured_for s pool 51 ≠ None ∧ configured_for s pool 54 ≠ None.

Lemma lease_options_exists s pool :
  lease_options_configured s pool ↔
  ¬ Exists (λ t, t ∉ [50; 55; 61; 57] ∧ configured_for s pool t = None) [51; 54].
Proof.
  rewrite !Exists_cons, Exists_nil. unfold lease_options_configured.
  assert (51 ∉ [50; 55; 61; 57]) by by apply (bool_decide_unpack _).
  assert (54 ∉ [50; 55; 61; 57]) by by apply (bool_decide_unpack _).
  destruct (configured_for s pool 51), (configured_for s pool 54); naive_solver.
Qed.

(** What an offer or acknowledgement carries. *)
Definition carries (s : dhcp_server) (pool : address_pool) (type : Z) (opts : list dhcp_option) : Prop :=
  dhcp_option_retrieve opts DHCP_OPTION_DHCP_MESSAGE_TYPE = Some (message_type_option type) ∧
  dhcp_option_retrieve opts 51 = configured_for s pool 51 ∧
  dhcp_option_retrieve opts 54 = configured_for s pool 54.

Lemma carries_options s pool type dest :
  dhcp_option_retrieve dest DHCP_OPTION_DHCP_MESSAGE_TYPE = Some (message_type_option type) →
  (∀ t, t ≠ DHCP_OPTION_DHCP_MESSAGE_TYPE → t ∈ [51; 54] → t ∉ [50; 55; 61; 57] →
     dhcp_option_retrieve dest t = configured_for s pool t) →
  carries s pool type dest.
Proof.
  intros H53 Hd. split; [done|].
  split; (rewrite Hd; [done | by apply (bool_decide_unpack _) | set_solver
                      | by apply (bool_decide_unpack _)]).
Qed.

Lemma received_heap s s' m os : received_ok s m os → s_trans_cache s' = s_trans_cache s →
  heap_keeps (s_heap s) (s_heap s') → received_ok s' m os.
Proof.
  intros (Hm & Hc & Hx & Hos & Ht & p & Hp & Hl) E Hk. split; [done|]. split; [done|].
  split; [done|]. split; [done|]. split; [by rewrite E|]. exists p. auto.
Qed.

Lemma message_wf_addresses m : message_wf m → is_u32 (m_ciaddr m) ∧ is_u32 (m_giaddr m).
Proof.
  intros (_ & _ & _ & H32 & _). rewrite !Forall_cons in H32. tauto.
Qed.

(** Sending a reply whose options are ready in [h2]. *)
Lemma finish_reply send dest reply q opts s h2 :
  (∀ pk, send (with_packet reply pk) (set_heap h2 s) =
     send_to dest (with_packet reply pk) (set_heap h2 s)) →
  cache_wf (s_trans_cache s) → message_wf reply → m_cookie reply = MAGIC_COOKIE → m_xid reply ≠ 0 →
  has_transaction (s_trans_cache s) (m_xid reply) → m_dhcp_options reply = Some q →
  heap_keeps (s_heap s) h2 → load_options h2 q = Ret opts → good_options opts →
  ∃ rv s', build_send_cache send reply (set_heap h2 s) = Ret (rv, s') ∧ reply_frame s s' ∧
    (rv = 0 ∧ no_fault s ∧ replied s s' dest reply opts ∨
     rv = -1 ∧ unanswered s s' ∧
       (DHCP_PACKET_OPTIONS_SIZE < zlen (encode_all opts) ∨ ¬ no_fault s)).
Proof.
  intros Hsend Hcw Hm Hck Hx Ht Hq Hk Hl Hgood.
  destruct (build_send_cache_run send (set_heap h2 s) reply q dest opts)
    as (rv & s' & Hrun & (Ea & Eh & Ec & En & Ee) & Hcw' & Hr); try done.
  exists rv, s'. split; [exact Hrun|]. split.
  - split; [done|]. split; [done|]. split; [done|]. split; [done|]. split; [|done]. by rewrite Eh.
  - destruct Hr as [(-> & _ & Hnf & Hrep)|(-> & Hwhy & Hs & Hc)]; [by left | by right].
Qed.

(** The reasons for which a reply to the options [os] cannot be made. *)
Definition unable (s : dhcp_server) (pool : address_pool) (os : list dhcp_option) : Prop :=
  ¬ lease_options_configured s pool ∨ ¬ no_fault s ∨
  DHCP_PACKET_OPTIONS_SIZE < config_size s pool + identifier_size os.

(** An offer that was filled in: it is sent, or it cannot be for one of these reasons. *)
Lemma offer_outcome s s' m os a pool offer opts rv : lease_options_configured s pool →
  carries s pool DHCP_OFFER opts → m_yiaddr offer = a → m_type offer = DHCP_OFFER →
  m_xid offer = m_xid m → m_chaddr offer = m_chaddr m →
  zlen (encode_all opts) ≤ config_size s pool + identifier_size os →
  (rv = 0 ∧ no_fault s ∧ replied s s' (htonl (broadcast_addr (s_config s))) offer opts ∨
   rv = -1 ∧ unanswered s s' ∧ (DHCP_PACKET_OPTIONS_SIZE < zlen (encode_all opts) ∨ ¬ no_fault s)) →
  rv = 0 ∧ no_fault s ∧ lease_options_configured s pool ∧ (∃ reply opts,
     replied s s' (htonl (broadcast_addr (s_config s))) reply opts ∧
     carries s pool DHCP_OFFER opts ∧ m_yiaddr reply = a ∧ m_type reply = DHCP_OFFER ∧
     m_xid reply = m_xid m ∧ m_chaddr reply = m_chaddr m)
   ∨ rv = -1 ∧ unanswered s s' ∧ unable s pool os.
Proof.
  intros Hconf Hc Ha Ht Hx Hch Hsize [(-> & Hnf & Hrep)|(-> & Hu & Hwhy)].
  - left. split_and!; try done. by exists offer, opts.
  - right. split; [done|]. split; [done|]. right. destruct Hwhy as [Hwhy|]; [right; lia | by left].
Qed.

(** The options of an offer: those asked for, and the identifier of the client. *)
Lemma offer_options_run s m os o55 a i pool offer q :
  server_wf s → received_ok s m os →
  dhcp_option_retrieve os DHCP_OPTION_PARAMETER_REQUEST_LIST = Some o55 →
  allocator_get_pool_by_address (s_allocator s) a = Some (i, pool) →
  m_dhcp_options offer = Some q → load_options (s_heap s) q = Ret [] →
  ∃ rv dest, get_offer_options m a offer s =
      Ret (rv, set_heap (store_options (s_heap s) q dest) s) ∧
    (rv = -1 ∧ ¬ lease_options_configured s pool ∨
     rv = 0 ∧ lease_options_configured s pool ∧ good_options dest ∧
       carries s pool DHCP_OFFER dest ∧
       zlen (encode_all dest) ≤ config_size s pool + identifier_size os).
Proof.
  intros Hwf Hm H55 Hpool Hq Hlq. pose proof Hm as (_ & _ & _ & [Hos Hlen] & _ & p & Hp & Hl).
  destruct required_51_54 as (Hreq & Hblk & _).
  destruct (requested_options_run s m os o55 a i pool offer q offer_required offer_blacklisted
    DHCP_OFFER _ _ Hwf Hm H55 Hpool Hq Hlq Hreq Hblk) as (dest & Hopt & Hgood & Hsize & Hspec).
  unfold get_offer_options. rewrite prog_bind_eq, Hopt. cbv beta iota. set (h2 := store_options _ q dest).
  destruct (decide _) as [Hx1|Hx1]; cbv beta iota; rewrite if_failed_spec; cbn [Z.eqb negb].
  { exists (-1), dest. split; [reflexivity|]. left. split; [done|].
    rewrite lease_options_exists. tauto. }
  destruct (Hspec Hx1) as [H53 Hd]. apply lease_options_exists in Hx1 as Hconf.
  assert (Hpq : p ≠ q) by (intros ->; rewrite Hlq in Hl; injection Hl as <-; discriminate).
  assert (Hl2 : load_options h2 q = Ret dest)
    by (unfold h2, load_options, store_options; by rewrite lookup_insert_eq).
  rewrite prog_bind_eq, (option_of_run _ m os _ p)
    by (done || by (unfold h2, load_options, store_options; cbn [s_heap set_heap]; rewrite lookup_insert_ne)).
  cbv beta iota. change (u8 DHCP_OPTION_CLIENT_IDENTIFIER) with DHCP_OPTION_CLIENT_IDENTIFIER.
  destruct (dhcp_option_retrieve os DHCP_OPTION_CLIENT_IDENTIFIER) as [o61|] eqn:H61.
  2:{ exists 0, dest. split; [reflexivity|]. right. split_and!; try done; [by apply carries_options|].
      unfold identifier_size. rewrite H61. lia. }
  pose proof H61 as Hin. apply Options.retrieve_Some in Hin as [Hin _].
  destruct (copied_identifier o61) as (o & Hcopy & Hlo & Ho & Hcan);
    [by apply (proj1 (Forall_forall _ _) (proj1 Hos)) | by apply (proj1 (Forall_forall _ _) Hlen)|].
  rewrite prog_bind_eq. unfold lift. rewrite Hcopy. cbv beta iota.
  destruct (add_option_run (set_heap h2 s) offer q o dest Hq Hl2 Hgood Ho Hcan)
    as (dest' & Hadd & Hgood' & Hsize' & Hkeep).
  rewrite prog_bind_eq, Hadd. cbv beta iota. rewrite if_failed_spec. cbn [Z.eqb negb].
  exists 0, dest'. split.
  { unfold mret, prog_ret, h2, store_options. cbn [s_heap set_heap].
    by rewrite insert_insert_eq. }
  right. pose proof (carries_options s pool DHCP_OFFER dest H53 Hd) as (C53 & C51 & C54).
  destruct Hconf as [K51 K54]. split_and!; try done.
  - split; [|split]; (rewrite Hkeep; [done|]); rewrite ?C53, ?C51, ?C54; done.
  - unfold identifier_size. rewrite H61. cbn [o_lenght] in *. lia.
Qed.

Lemma offer_build_run s m os o55 a i pool d :
  server_wf s → received_ok s m os → is_u32 a →
  dhcp_option_retrieve os DHCP_OPTION_PARAMETER_REQUEST_LIST = Some o55 →
  allocator_get_pool_by_address (s_allocator s) a = Some (i, pool) →
  ∃ rv s', message_dhcpoffer_build m a d s = Ret (rv, s') ∧ reply_frame s s' ∧
    (rv = 0 ∧ no_fault s ∧ lease_options_configured s pool ∧ (∃ reply opts,
       replied s s' (htonl (broadcast_addr (s_config s))) reply opts ∧
       carries s pool DHCP_OFFER opts ∧ m_yiaddr reply = a ∧ m_type reply = DHCP_OFFER ∧
       m_xid reply = m_xid m ∧ m_chaddr reply = m_chaddr m)
     ∨ rv = -1 ∧ unanswered s s' ∧ unable s pool os).
Proof.
  intros Hwf Hm Ha H55 Hpool. pose proof Hwf as (Hal & Hcw & Hg & Hps & Hip & Hbc).
  pose proof Hm as (Hmw & Hck & Hx & _ & Ht & p & Hp & Hl).
  destruct (new_message_run s) as (m0 & q & h & Hnew & Hq & Hlq & Hty & Hpk & Hsn & Hfn & Hfresh & Hk).
  destruct (message_wf_addresses m Hmw) as [_ Hgi].
  unfold message_dhcpoffer_build. rewrite bind_gets, prog_bind_eq, Hnew. cbv beta iota.
  set (offer := reply_header m0 m 0 a _ _ DHCP_OFFER). set (s1 := set_heap h s).
  assert (Hm1 : received_ok s1 m os) by (by eapply received_heap).
  destruct (offer_options_run s1 m os o55 a i pool offer q Hwf Hm1 H55 Hpool Hq Hlq)
    as (rv1 & dest & Hopt & Hd).
  assert (Hrw : message_wf offer).
  { apply reply_header_wf; try done. repeat apply Forall_cons_2; try done; by_decision. }
  rewrite prog_bind_eq, Hopt. cbv beta iota. rewrite if_failed_spec.
  change (set_heap _ s1) with (set_heap (store_options h q dest) s). set (h2 := store_options h q dest).
  assert (Hk2 : heap_keeps (s_heap s) h2) by by apply heap_keeps_store.
  destruct Hd as [(-> & Hn)|(-> & Hconf & Hgood & Hcar & Hsize)]; cbn [Z.eqb negb].
  { exists (-1), (set_heap h2 s). split; [reflexivity|].
    split; [do 4 (split; [done|]); by split|]. right. split; [done|]. split; [done|]. by left. }
  destruct (finish_reply message_dhcpoffer_send (htonl (broadcast_addr (s_config s))) offer q dest s h2)
    as (rv & s' & Hrun & Hfr & Hr); try done.
  { unfold h2, load_options, store_options. by rewrite lookup_insert_eq. }
  exists rv, s'. split; [exact Hrun|]. split; [done|].
  by apply (offer_outcome s s' m os a pool offer dest rv).
Qed.

(** ** DHCPDISCOVER *)

(** A step that took the free address [a]. *)
Definition takes (s s' : dhcp_server) (a : Z) : Prop :=
  covered (s_allocator s) a ∧ a ∉ in_use (s_allocator s) ∧
  ∃ al', s' = set_allocator al' s ∧ allocator_wf al' ∧ same_configuration (s_allocator s) al' ∧
    in_use al' = {[a]} ∪ in_use (s_allocator s).

Lemma same_configuration_wf s al : server_wf s → allocator_wf al → same_configuration (s_allocator s) al →
  server_wf (set_allocator al s).
Proof.
  intros (_ & Hc & Hg & Hp & Hr) Hal Hs. split; [done|]. split; [done|].
  cbn [s_allocator set_allocator].
  by rewrite (proj1 Hs), (same_configuration_options _ _ Hs).
Qed.

Lemma takes_wf s s' a : server_wf s → takes s s' a → server_wf s' ∧ is_u32 a ∧ a ≠ 0 ∧
  ∃ i pool, allocator_get_pool_by_address (s_allocator s') a = Some (i, pool).
Proof.
  intros Hwf ((p & Hp & Hin) & _ & al' & -> & Hal & Hopt & Hu).
  split; [by apply same_configuration_wf|]. destruct Hwf as ((Hpools & _) & _).
  rewrite Forall_forall in Hpools. destruct (Hpools p Hp) as (Hr & He & _).
  apply address_belongs_to_pool_spec in Hin. split; [unfold is_u32; lia|]. split; [lia|].
  cbn [s_allocator set_allocator].
  destruct (allocator_get_pool_by_address al' a) as [[i pool]|] eqn:E; [by exists i, pool|].
  apply by_address_None in E. destruct E.
  assert (a ∈ in_use al') as (i & q & Hi & Ha)%elem_of_in_use by set_solver.
  by eapply covered_pool, leased_belongs.
Qed.

Lemma set_allocator_id s : set_allocator (s_allocator s) s = s.
Proof. by destruct s. Qed.

Lemma allocate_random_run s : server_wf s →
  (allocate_random_address s = Ret (0, s) ∧
     ∀ a, covered (s_allocator s) a → a ∈ in_use (s_allocator s)) ∨
  ∃ a s', allocate_random_address s = Ret (a, s') ∧ takes s s' a.
Proof.
  intros (Hal & _). unfold allocate_random_address, with_allocator, mbind, prog_bind.
  destruct (request_any_correct (s_allocator s) Hal) as (al' & buf & Hrun & Hal' & Hopt & Hbuf).
  rewrite Hrun. destruct buf as [a|]; cbn.
  - right. destruct Hbuf as (Hu & Hni & i & p & Hi & _ & Hin & _). exists a. eexists.
    split; [reflexivity|]. split; [by eapply covered_pool|]. split; [done|]. by exists al'.
  - left. destruct Hbuf as [-> Hbuf]. by rewrite set_allocator_id.
Qed.

Lemma allocate_particular_run s m os o50 p : server_wf s → m_dhcp_options m = Some p →
  load_options (s_heap s) p = Ret os →
  dhcp_option_retrieve os DHCP_OPTION_REQUESTED_IP_ADDRESS = Some o50 →
  (allocate_particular_address m s = Ret (0, s) ∧
     ¬ (covered (s_allocator s) (value_ip o50) ∧ value_ip o50 ∉ in_use (s_allocator s))) ∨
  ∃ s', allocate_particular_address m s = Ret (value_ip o50, s') ∧ takes s s' (value_ip o50).
Proof.
  intros (Hal & _) Hp Hl H50. unfold allocate_particular_address.
  rewrite prog_bind_eq, (option_of_run s m os _ p) by done. cbv beta iota.
  change (u8 DHCP_OPTION_REQUESTED_IP_ADDRESS) with DHCP_OPTION_REQUESTED_IP_ADDRESS. rewrite H50.
  unfold with_allocator, mbind, prog_bind.
  destruct (request_this_correct (s_allocator s) (value_ip o50) Hal)
    as (rv & al' & buf & Hrun & Hs & Hal' & Hopt & Hnone). unfold request_spec in Hs.
  destruct (bool_decide_reflect (covered (s_allocator s) (value_ip o50))) as [Hc|Hc]; cbn [negb] in Hs;
    [destruct (decide (value_ip o50 ∈ in_use (s_allocator s))) as [Hi|Hi]|].
  2: { right. injection Hs as -> Hu ->. rewrite Hrun. cbn. eexists. split; [reflexivity|].
       split; [done|]. split; [done|]. by exists al'. }
  all: left; injection Hs as -> Hu ->; split; [|tauto]; rewrite Hrun, Hnone by done; cbn;
    by rewrite set_allocator_id.
Qed.

Lemma choose_address_run s m os : server_wf s → received_ok s m os →
  (choose_address m s = Ret (0, s) ∧ ∀ a, covered (s_allocator s) a → a ∈ in_use (s_allocator s)) ∨
  ∃ a s', choose_address m s = Ret (a, s') ∧ takes s s' a ∧
    ∀ o50, dhcp_option_retrieve os DHCP_OPTION_REQUESTED_IP_ADDRESS = Some o50 →
      covered (s_allocator s) (value_ip o50) → value_ip o50 ∉ in_use (s_allocator s) → a = value_ip o50.
Proof.
  intros Hwf (_ & _ & _ & _ & _ & p & Hp & Hl). unfold choose_address.
  rewrite prog_bind_eq, (option_of_run s m os _ p) by done. cbv beta iota.
  change (u8 DHCP_OPTION_REQUESTED_IP_ADDRESS) with DHCP_OPTION_REQUESTED_IP_ADDRESS.
  destruct (dhcp_option_retrieve os _) as [o50|] eqn:H50.
  - rewrite prog_bind_eq.
    destruct (allocate_particular_run s m os o50 p) as [[-> Hno]|(s' & -> & Ht)]; try done; cbv beta iota.
    + cbn [Z.eqb]. destruct (allocate_random_run s Hwf) as [[-> Hall]|(a & s' & -> & Ht)]; [by left|].
      right. exists a, s'. split; [done|]. split; [done|]. intros o [= <-]. tauto.
    + destruct (takes_wf s s' _ Hwf Ht) as (_ & _ & Hnz & _).
      rewrite (proj2 (Z.eqb_neq _ _)) by done. right. eexists _, s'. split; [reflexivity|].
      split; [done|]. by intros o [= <-].
  - rewrite bind_mret. cbn [Z.eqb].
    destruct (allocate_random_run s Hwf) as [[-> Hall]|(a & s' & -> & Ht)]; [by left|].
    right. exists a, s'. by split_and?.
Qed.

(** The duration worked out for a client that sent the options [os]. *)
Definition lease_duration (al : address_allocator) (os : list dhcp_option) : Z :=
  match dhcp_option_retrieve (default_options al) DHCP_OPTION_IP_ADDRESS_LEASE_TIME with
  | None => 0
  | Some g => match dhcp_option_retrieve os DHCP_OPTION_IP_ADDRESS_LEASE_TIME with
              | Some o => Z.min (value_number o) (value_number g)
              | None => value_number g
              end
  end.

Lemma lease_duration_run s m os p : m_dhcp_options m = Some p → load_options (s_heap s) p = Ret os →
  get_lease_duration m s = Ret (lease_duration (s_allocator s) os, s).
Proof.
  intros Hp Hl. unfold get_lease_duration. rewrite prog_bind_eq, (option_of_run s m os _ p) by done.
  cbv beta iota. rewrite bind_gets.
  change (u8 DHCP_OPTION_IP_ADDRESS_LEASE_TIME) with DHCP_OPTION_IP_ADDRESS_LEASE_TIME.
  unfold lease_duration. destruct (dhcp_option_retrieve (default_options _) _) as [g|]; [|done].
  destruct (dhcp_option_retrieve os _) as [o|]; [|done].
  destruct (Z.leb_spec (value_number o) (value_number g)); by rewrite ?Z.min_l, ?Z.min_r by lia.
Qed.

Lemma takes_frame s s' a m os : takes s s' a → received_ok s m os → received_ok s' m os.
Proof. by intros (_ & _ & al' & -> & _). Qed.

Lemma takes_same s s' a : takes s s' a →
  s_sent s' = s_sent s ∧ s_trans_cache s' = s_trans_cache s ∧ s_config s' = s_config s ∧
  s_env s' = s_env s ∧ s_heap s' = s_heap s ∧ s_now s' = s_now s.
Proof. by intros (_ & _ & al' & -> & _). Qed.

(** An address was taken, [s1] is the state then, and no reply can be made. *)
Definition stuck_after (s : dhcp_server) (os : list dhcp_option) : Prop :=
  ∃ a s1 i pool, takes s s1 a ∧ allocator_get_pool_by_address (s_allocator s1) a = Some (i, pool) ∧
    (lease_duration (s_allocator s) os = 0 ∨ unable s1 pool os).

Lemma takes_duration s s' a os : takes s s' a →
  lease_duration (s_allocator s') os = lease_duration (s_allocator s) os.
Proof. intros (_ & _ & al' & -> & _ & [Ed _] & _). unfold lease_duration. cbn. by rewrite Ed. Qed.

(** The whole handler, with what it leaves of the option lists. *)
Lemma discover_run s m os o55 :
  server_wf s → received_ok s m os →
  dhcp_option_retrieve os DHCP_OPTION_PARAMETER_REQUEST_LIST = Some o55 →
  ∃ rv s', message_dhcpdiscover_handle m s = Ret (rv, s') ∧ server_wf s' ∧
    heap_keeps (s_heap s) (s_heap s') ∧
    (rv = -1 ∧ unanswered s s' ∧
       ((∀ a, covered (s_allocator s) a → a ∈ in_use (s_allocator s)) ∨ stuck_after s os) ∨
     rv = 0 ∧ ∃ a i pool reply opts,
       covered (s_allocator s) a ∧ a ∉ in_use (s_allocator s) ∧
       (∀ o50, dhcp_option_retrieve os DHCP_OPTION_REQUESTED_IP_ADDRESS = Some o50 →
          covered (s_allocator s) (value_ip o50) → value_ip o50 ∉ in_use (s_allocator s) →
          a = value_ip o50) ∧
       in_use (s_allocator s') = {[a]} ∪ in_use (s_allocator s) ∧
       replied s s' (htonl (broadcast_addr (s_config s))) reply opts ∧
       m_yiaddr reply = a ∧ m_type reply = DHCP_OFFER ∧ m_xid reply = m_xid m ∧
       m_chaddr reply = m_chaddr m ∧
       allocator_get_pool_by_address (s_allocator s') a = Some (i, pool) ∧
       carries s' pool DHCP_OFFER opts).
Proof.
  intros Hwf Hm H55. unfold message_dhcpdiscover_handle. rewrite prog_bind_eq.
  destruct (choose_address_run s m os Hwf Hm) as [[-> Hall]|(a & s1 & -> & Ht & Hreq)]; cbv beta iota.
  { cbn [Z.eqb]. exists (-1), s. split; [reflexivity|]. split; [done|]. split; [by intros ? ?|]. left.
    split; [done|]. split; [done|]. by left. }
  destruct (takes_wf s s1 a Hwf Ht) as (Hwf1 & Ha & Hnz & i & pool & Hpool).
  pose proof (takes_frame _ _ _ m os Ht Hm) as Hm1.
  destruct (takes_same s s1 a Ht) as (Es & Ec & Ecfg & Ee & Eh & En).
  rewrite (proj2 (Z.eqb_neq _ _)) by done.
  pose proof Hm1 as (_ & _ & _ & _ & _ & p & Hp & Hl).
  rewrite prog_bind_eq, (lease_duration_run s1 m os p Hp Hl). cbv beta iota.
  rewrite (takes_duration s s1 a os Ht).
  destruct (Z.eqb_spec (lease_duration (s_allocator s) os) 0) as [Hd|Hd].
  { exists (-1), s1. split; [reflexivity|]. split; [done|]. split; [by rewrite Eh; intros ? ?|].
    left. split; [done|]. split; [done|].
    right. exists a, s1, i, pool. auto. }
  destruct (offer_build_run s1 m os o55 a i pool (lease_duration (s_allocator s) os) Hwf1 Hm1 Ha H55 Hpool)
    as (rv & s' & Hrun & (Fa & Fc & Fn & Ff & Fh & Fw) & Hr).
  rewrite prog_bind_eq, Hrun. cbv beta iota. rewrite if_failed_spec.
  assert (Hwf' : server_wf s').
  { destruct Hwf1 as (? & ? & ? & ? & ?). unfold server_wf. by rewrite Fa, Fc. }
  destruct Hr as [(-> & _ & _ & reply & opts & Hrep & Hcar & Hy & Hty & Hx & Hch)|(-> & [Hu Hu'] & Hwhy)].
  - exists 0, s'. split; [reflexivity|]. split; [done|]. split; [by rewrite <-Eh|]. right. split; [done|].
    exists a, i, pool, reply, opts. unfold carries, configured_for, covered. rewrite Fa.
    destruct Ht as (Hc & Hni & al' & -> & _ & _ & Hu). split_and?; done || apply Hcar.
  - exists (-1), s'. split; [reflexivity|]. split; [done|]. split; [by rewrite <-Eh|]. left. split; [done|].
    split; [split; congruence|]. right. exists a, s1, i, pool. auto.
Qed.

(** C7. A DHCPDISCOVER that lists its parameters is answered unless every
    address is in use, no lease time results, the lease time or the server
    identifier is not configured, the options do not fit or the system call
    fails; then nothing goes out and nothing is cached.  The answer offers a
    free address, the one the client asked for if it can be had, marks it as
    in use, goes out as one broadcast datagram that carries the message type
    and the configured lease time and server identifier, and is remembered
    under the transaction id. *)
Theorem message_dhcpdiscover_spec s m os o55 :
  server_wf s → received_ok s m os →
  dhcp_option_retrieve os DHCP_OPTION_PARAMETER_REQUEST_LIST = Some o55 →
  ∃ rv s', message_dhcpdiscover_handle m s = Ret (rv, s') ∧ server_wf s' ∧
    (rv = -1 ∧ unanswered s s' ∧
       ((∀ a, covered (s_allocator s) a → a ∈ in_use (s_allocator s)) ∨ stuck_after s os) ∨
     rv = 0 ∧ ∃ a i pool reply opts,
       covered (s_allocator s) a ∧ a ∉ in_use (s_allocator s) ∧
       (∀ o50, dhcp_option_retrieve os DHCP_OPTION_REQUESTED_IP_ADDRESS = Some o50 →
          covered (s_allocator s) (value_ip o50) → value_ip o50 ∉ in_use (s_allocator s) →
          a = value_ip o50) ∧
       in_use (s_allocator s') = {[a]} ∪ in_use (s_allocator s) ∧
       replied s s' (htonl (broadcast_addr (s_config s))) reply opts ∧
       m_yiaddr reply = a ∧ m_type reply = DHCP_OFFER ∧ m_xid reply = m_xid m ∧
       m_chaddr reply = m_chaddr m ∧
       allocator_get_pool_by_address (s_allocator s') a = Some (i, pool) ∧
       carries s' pool DHCP_OFFER opts).
Proof.
  intros Hwf Hm H55. destruct (discover_run s m os o55 Hwf Hm H55) as (rv & s' & Hr & Hw & _ & H).
  by exists rv, s'.
Qed.

(** Without a parameter request list there are no options to build from. *)
Lemma requested_missing s m os p address reply required blacklisted type :
  m_dhcp_options m = Some p → load_options (s_heap s) p = Ret os →
  dhcp_option_retrieve os DHCP_OPTION_PARAMETER_REQUEST_LIST = None →
  get_requested_dhcp_options m address reply required blacklisted type s = Undef NullDeref.
Proof.
  intros Hp Hl H55. unfold get_requested_dhcp_options.
  rewrite prog_bind_eq, (option_of_run s m os _ p) by done. cbv beta iota.
  change (u8 DHCP_OPTION_PARAMETER_REQUEST_LIST) with DHCP_OPTION_PARAMETER_REQUEST_LIST.
  by rewrite H55.
Qed.

(** A DHCPDISCOVER without a parameter request list (option 55, which a
    client need not send) dereferences NULL as soon as there is an address to
    offer and a lease time. *)
Theorem message_dhcpdiscover_no_parameters s m os :
  server_wf s → received_ok s m os →
  dhcp_option_retrieve os DHCP_OPTION_PARAMETER_REQUEST_LIST = None →
  (∃ a, covered (s_allocator s) a ∧ a ∉ in_use (s_allocator s)) →
  lease_duration (s_allocator s) os ≠ 0 →
  message_dhcpdiscover_handle m s = Undef NullDeref.
Proof.
  intros Hwf Hm H55 (a0 & Hc0 & Hf0) Hd. unfold message_dhcpdiscover_handle. rewrite prog_bind_eq.
  destruct (choose_address_run s m os Hwf Hm) as [[_ Hall]|(a & s1 & -> & Ht & _)]; cbv beta iota.
  { destruct Hf0. by apply Hall. }
  destruct (takes_wf s s1 a Hwf Ht) as (_ & _ & Hnz & _).
  destruct (takes_same s s1 a Ht) as (_ & _ & _ & _ & Eh & _).
  rewrite (proj2 (Z.eqb_neq _ _)) by done. destruct Hm as (_ & _ & _ & _ & _ & p & Hp & Hl).
  rewrite prog_bind_eq, (lease_duration_run s1 m os p) by (done || by rewrite Eh). cbv beta iota.
  rewrite (takes_duration s s1 a os Ht), (proj2 (Z.eqb_neq _ _)) by done.
  destruct (new_message_run s1) as (m0 & q & h & Hnew & _ & _ & _ & _ & _ & _ & _ & Hk).
  unfold message_dhcpoffer_build. rewrite bind_assoc, bind_gets, bind_assoc, prog_bind_eq, Hnew.
  cbv beta iota. unfold get_offer_options. rewrite bind_assoc, prog_bind_eq, prog_bind_eq.
  by rewrite (requested_missing _ m os p) by (done || (apply Hk; by rewrite Eh)).
Qed.

(** A client that asks for a lease time of 0 makes the server take an
    address for it and forget about it: nothing is sent, nothing is cached,
    so no timer ever gives the address back. *)
Theorem message_dhcpdiscover_leak s m os : server_wf s → received_ok s m os →
  (∃ a, covered (s_allocator s) a ∧ a ∉ in_use (s_allocator s)) →
  lease_duration (s_allocator s) os = 0 →
  ∃ a s', message_dhcpdiscover_handle m s = Ret (-1, s') ∧ unanswered s s' ∧
    a ∉ in_use (s_allocator s) ∧ in_use (s_allocator s') = {[a]} ∪ in_use (s_allocator s).
Proof.
  intros Hwf Hm (a0 & Hc0 & Hf0) Hd. unfold message_dhcpdiscover_handle. rewrite prog_bind_eq.
  destruct (choose_address_run s m os Hwf Hm) as [[_ Hall]|(a & s1 & -> & Ht & _)]; cbv beta iota.
  { destruct Hf0. by apply Hall. }
  destruct (takes_wf s s1 a Hwf Ht) as (_ & _ & Hnz & _).
  destruct (takes_same s s1 a Ht) as (Es & Ec & _ & _ & Eh & _).
  rewrite (proj2 (Z.eqb_neq _ _)) by done. destruct Hm as (_ & _ & _ & _ & _ & p & Hp & Hl).
  rewrite prog_bind_eq, (lease_duration_run s1 m os p) by (done || by rewrite Eh). cbv beta iota.
  rewrite (takes_duration s s1 a os Ht), Hd. cbn [Z.eqb].
  exists a, s1. split; [reflexivity|]. split; [done|].
  destruct Ht as (_ & Hni & al' & -> & _ & _ & Hu). done.
Qed.
(** ** Acknowledgements *)

(** What a reply carries when [req] are its required options. *)
Definition carries_all (s : dhcp_server) (pool : address_pool) (type : Z) (req : list Z)
    (opts : list dhcp_option) : Prop :=
  dhcp_option_retrieve opts DHCP_OPTION_DHCP_MESSAGE_TYPE = Some (message_type_option type) ∧
  ∀ t, t ∈ req → dhcp_option_retrieve opts t = configured_for s pool t.

(** A header set by [mk] on a new message. *)
Definition header_of (m : dhcp_message) (mk : dhcp_message → dhcp_message) : Prop := ∀ r,
  m_packet r = packet_zero → m_sname r = zeros SNAME_LEN → m_filename r = zeros FILENAME_LEN →
  message_wf (mk r) ∧ m_cookie (mk r) = m_cookie m ∧ m_xid (mk r) = m_xid m ∧
  m_dhcp_options (mk r) = m_dhcp_options r.

(** Why a reply with the options [req] cannot be sent. *)
Definition cannot_reply (s : dhcp_server) (pool : address_pool) (req : list Z) : Prop :=
  Exists (λ t, configured_for s pool t = None) req ∨ ¬ no_fault s ∨
  DHCP_PACKET_OPTIONS_SIZE < config_size s pool.

(** The common body of the acknowledgements. *)
Lemma reply_run send mk dest s m os o55 a i pool type required black req blk :
  server_wf s → received_ok s m os →
  dhcp_option_retrieve os DHCP_OPTION_PARAMETER_REQUEST_LIST = Some o55 →
  allocator_get_pool_by_address (s_allocator s) a = Some (i, pool) →
  header_of m mk → terminated req required → terminated blk black →
  Forall (λ t, t ∉ blk ∧ t ≠ DHCP_OPTION_DHCP_MESSAGE_TYPE) req →
  (∀ r s', s_config s' = s_config s → send (mk r) s' = send_to dest (mk r) s') →
  (∀ r pk, mk (with_packet r pk) = with_packet (mk r) pk) →
  ∃ rv s', (ack ← new_message;
      rv ← get_requested_dhcp_options m a (mk ack) required black type;
      if if_failed rv then mret (-1) else build_send_cache send (mk ack)) s = Ret (rv, s') ∧
    reply_frame s s' ∧
    (rv = 0 ∧ no_fault s ∧ (∃ r opts, m_type r = 0 ∧ replied s s' dest (mk r) opts ∧
       carries_all s pool type req opts)
     ∨ rv = -1 ∧ unanswered s s' ∧ cannot_reply s pool req).
Proof.
  intros Hwf Hm H55 Hpool Hmk Hreq Hblk Hrb Hsend Hcomm. pose proof Hwf as (Hal & Hcw & Hg & Hps & _).
  pose proof Hm as (Hmw & Hck & Hx & [Hos Hlen] & Ht & p & Hp & Hl).
  destruct (new_message_run s) as (m0 & q & h & Hnew & Hq & Hlq & Hty & Hpk & Hsn & Hfn & Hfresh & Hk).
  destruct (Hmk m0 Hpk Hsn Hfn) as (Hrw & Hrc & Hrx & Hrq). rewrite <-Hrq in Hq.
  rewrite prog_bind_eq, Hnew. cbv beta iota. set (s1 := set_heap h s).
  assert (Hm1 : received_ok s1 m os) by (by eapply received_heap).
  destruct (requested_options_run s1 m os o55 a i pool (mk m0) q required black type _ _ Hwf Hm1 H55
    Hpool Hq Hlq Hreq Hblk) as (dest' & Hopt & Hgood & Hsize & Hspec).
  rewrite prog_bind_eq, Hopt. cbv beta iota. rewrite if_failed_spec.
  set (h2 := store_options h q dest'). change (set_heap _ s1) with (set_heap h2 s).
  assert (Hk2 : heap_keeps (s_heap s) h2) by by apply heap_keeps_store.
  assert (Hex : Exists (λ t, t ∉ blk ∧ configured_for s1 pool t = None) req ↔
    Exists (λ t, configured_for s pool t = None) req).
  { rewrite !Exists_exists. rewrite Forall_forall in Hrb. split; intros (t & Hin & Hn); exists t;
      split; [done | apply Hn | done | split; [by apply Hrb | exact Hn]]. }
  destruct (decide _) as [Hx1|Hx1]; cbn [Z.eqb negb].
  { exists (-1), (set_heap h2 s). split; [reflexivity|]. split; [by split_and?|].
    right. split; [done|]. split; [done|]. left. by apply Hex. }
  destruct (Hspec Hx1) as [H53 Hd].
  destruct (finish_reply send dest (mk m0) q dest' s h2) as (rv & s' & Hrun & Hfr & Hr); try done.
  - intros pk. rewrite <-Hcomm. by apply Hsend.
  - by rewrite Hrc.
  - by rewrite Hrx.
  - by rewrite Hrx.
  - unfold load_options, h2, store_options. by rewrite lookup_insert_eq.
  - exists rv, s'. split; [exact Hrun|]. split; [done|].
    destruct Hr as [(-> & Hnf & Hrep)|(-> & Hu & Hwhy)].
    + left. split; [done|]. split; [done|]. exists m0, dest'. split; [done|]. split; [done|].
      split; [done|]. intros t Hin. rewrite Forall_forall in Hrb. apply Hd; [by apply Hrb | done | by apply Hrb].
    + right. split; [done|]. split; [done|]. right.
      destruct Hwhy as [Hwhy|]; [right | by left]. change (config_size s1 pool) with (config_size s pool) in Hsize.
      lia.
Qed.
Lemma reply_header_of m c y si gi ty : message_wf m → Forall is_u32 [c; y; si; gi] →
  header_of m (λ r, reply_header r m c y si gi (ty r)).
Proof. intros Hm Ha r Hp Hs Hf. split; [by apply reply_header_wf|]. by split_and?. Qed.

(** Where an acknowledgement goes. *)
Definition ack_dest (cfg : config) (ciaddr : Z) : Z :=
  if ciaddr =? 0 then htonl (broadcast_addr cfg) else htonl ciaddr.

Lemma ack_send_run s m c y si gi ty r s' : s_config s' = s_config s →
  message_dhcpack_send (reply_header r m c y si gi ty) s' =
  send_to (ack_dest (s_config s) c) (reply_header r m c y si gi ty) s'.
Proof.
  intros E. unfold message_dhcpack_send, ack_dest. rewrite bind_gets, E.
  change (m_ciaddr (reply_header _ _ _ _ _ _ _)) with c. by destruct (c =? 0).
Qed.

Lemma ack_lists : Forall (λ t, t ∉ [50; 55; 61; 57] ∧ t ≠ DHCP_OPTION_DHCP_MESSAGE_TYPE) [51; 54] ∧
  Forall (λ t, t ∉ [50; 51; 55; 61; 57] ∧ t ≠ DHCP_OPTION_DHCP_MESSAGE_TYPE) [54].
Proof. split; by apply (bool_decide_unpack _). Qed.

(** The acknowledgement of an address: to a client that asked for one, and to
    one that renews its lease.  The message in the cache has type 0. *)
Definition acknowledged (s s' : dhcp_server) (m : dhcp_message) (pool : address_pool) (a : Z) : Prop :=
  ∃ reply opts, replied s s' (ack_dest (s_config s) (m_ciaddr m)) reply opts ∧
    carries_all s pool DHCP_ACK [51; 54] opts ∧ m_type reply = 0 ∧ m_yiaddr reply = a ∧
    m_xid reply = m_xid m ∧ m_chaddr reply = m_chaddr m.

Lemma ack_build_run s m os o55 a i pool d :
  server_wf s → received_ok s m os → is_u32 a →
  dhcp_option_retrieve os DHCP_OPTION_PARAMETER_REQUEST_LIST = Some o55 →
  allocator_get_pool_by_address (s_allocator s) a = Some (i, pool) →
  ∃ rv s', message_dhcpack_build m d a s = Ret (rv, s') ∧ reply_frame s s' ∧
    (rv = 0 ∧ no_fault s ∧ acknowledged s s' m pool a
     ∨ rv = -1 ∧ unanswered s s' ∧ cannot_reply s pool [51; 54]).
Proof.
  intros Hwf Hm Ha H55 Hpool. pose proof Hwf as (_ & _ & _ & _ & Hip & _).
  pose proof Hm as [Hmw _]. destruct (message_wf_addresses m Hmw) as [Hci Hgi].
  unfold message_dhcpack_build. rewrite bind_gets.
  destruct required_51_54 as (Hreq & Hblk & _).
  destruct (reply_run message_dhcpack_send
    (λ r, reply_header r m (m_ciaddr m) a (bound_ip (s_config s)) (m_giaddr m) (m_type r))
    (ack_dest (s_config s) (m_ciaddr m)) s m os o55 a i pool DHCP_ACK offer_required offer_blacklisted
    [51; 54] [50; 55; 61; 57] Hwf Hm H55 Hpool) as (rv & s' & Hrun & Hfr & Hr); try done.
  - apply reply_header_of; [done|]. by repeat apply Forall_cons_2.
  - apply ack_lists.
  - intros r s' E. by apply ack_send_run.
  - exists rv, s'. split; [exact Hrun|]. split; [done|].
    destruct Hr as [(-> & Hnf & r & opts & Hty & Hrep & Hc)|Hr]; [left | by right].
    split; [done|]. split; [done|]. by eexists _, opts.
Qed.

Lemma ack_renew_run s m os o55 i pool :
  server_wf s → received_ok s m os →
  dhcp_option_retrieve os DHCP_OPTION_PARAMETER_REQUEST_LIST = Some o55 →
  allocator_get_pool_by_address (s_allocator s) (m_ciaddr m) = Some (i, pool) →
  ∃ rv s', message_dhcpack_build_lease_renew m s = Ret (rv, s') ∧ reply_frame s s' ∧
    (rv = 0 ∧ no_fault s ∧ acknowledged s s' m pool (m_ciaddr m)
     ∨ rv = -1 ∧ unanswered s s' ∧ cannot_reply s pool [51; 54]).
Proof.
  intros Hwf Hm H55 Hpool. pose proof Hwf as (_ & _ & _ & _ & Hip & _).
  pose proof Hm as [Hmw _]. destruct (message_wf_addresses m Hmw) as [Hci _].
  unfold message_dhcpack_build_lease_renew. rewrite bind_gets.
  destruct required_51_54 as (Hreq & Hblk & _).
  destruct (reply_run message_dhcpack_send
    (λ r, reply_header r m (m_ciaddr m) (m_ciaddr m) (bound_ip (s_config s)) 0 (m_type r))
    (ack_dest (s_config s) (m_ciaddr m)) s m os o55 (m_ciaddr m) i pool DHCP_ACK offer_required
    offer_blacklisted [51; 54] [50; 55; 61; 57] Hwf Hm H55 Hpool) as (rv & s' & Hrun & Hfr & Hr); try done.
  - apply reply_header_of; [done|]. repeat apply Forall_cons_2; try done; by_decision.
  - apply ack_lists.
  - intros r s' E. by apply ack_send_run.
  - exists rv, s'. split; [exact Hrun|]. split; [done|].
    destruct Hr as [(-> & Hnf & r & opts & Hty & Hrep & Hc)|Hr]; [left | by right].
    split; [done|]. split; [done|]. by eexists _, opts.
Qed.

(** A renewal without a parameter request list. *)
Lemma ack_renew_missing s m os p :
  m_dhcp_options m = Some p → load_options (s_heap s) p = Ret os →
  dhcp_option_retrieve os DHCP_OPTION_PARAMETER_REQUEST_LIST = None →
  message_dhcpack_build_lease_renew m s = Undef NullDeref.
Proof.
  intros Hp Hl H55. unfold message_dhcpack_build_lease_renew. rewrite bind_gets.
  destruct (new_message_run s) as (m0 & q & h & Hnew & _ & _ & _ & _ & _ & _ & _ & Hk).
  rewrite prog_bind_eq, Hnew. cbv beta iota. rewrite prog_bind_eq.
  by rewrite (requested_missing _ m os p) by (done || by apply Hk).
Qed.

(** The answer to a DHCPINFORM: no address and no lease time of its own. *)
Definition informed (s s' : dhcp_server) (m : dhcp_message) (pool : address_pool) : Prop :=
  ∃ reply opts, replied s s' (htonl (m_ciaddr m)) reply opts ∧
    carries_all s pool DHCP_ACK [54] opts ∧ m_type reply = DHCP_ACK ∧ m_yiaddr reply = 0 ∧
    m_xid reply = m_xid m.

Lemma ack_inform_run s m os o55 i pool :
  server_wf s → received_ok s m os → m_ciaddr m ≠ 0 →
  dhcp_option_retrieve os DHCP_OPTION_PARAMETER_REQUEST_LIST = Some o55 →
  allocator_get_pool_by_address (s_allocator s) (m_ciaddr m) = Some (i, pool) →
  ∃ rv s', message_dhcpack_build_inform_response m s = Ret (rv, s') ∧ reply_frame s s' ∧
    (rv = 0 ∧ no_fault s ∧ informed s s' m pool
     ∨ rv = -1 ∧ unanswered s s' ∧ cannot_reply s pool [54]).
Proof.
  intros Hwf Hm Hnz H55 Hpool. pose proof Hwf as (_ & _ & _ & _ & Hip & _).
  pose proof Hm as [Hmw _]. destruct (message_wf_addresses m Hmw) as [Hci Hgi].
  unfold message_dhcpack_build_inform_response. rewrite (proj2 (Z.eqb_neq _ _)) by done.
  rewrite bind_gets. destruct required_51_54 as (_ & _ & Hreq & Hblk).
  destruct (reply_run message_dhcpack_send
    (λ r, reply_header r m (m_ciaddr m) 0 (bound_ip (s_config s)) (m_giaddr m) DHCP_ACK)
    (ack_dest (s_config s) (m_ciaddr m)) s m os o55 (m_ciaddr m) i pool DHCP_ACK inform_required
    inform_blacklisted [54] [50; 51; 55; 61; 57] Hwf Hm H55 Hpool) as (rv & s' & Hrun & Hfr & Hr); try done.
  - apply (reply_header_of m _ _ _ _ (λ _, DHCP_ACK)); [done|].
    repeat apply Forall_cons_2; try done; by_decision.
  - apply ack_lists.
  - intros r s' E. by apply ack_send_run.
  - exists rv, s'. split; [exact Hrun|]. split; [done|]. unfold ack_dest in Hr.
    rewrite (proj2 (Z.eqb_neq _ _)) in Hr by done.
    destruct Hr as [(-> & Hnf & r & opts & Hty & Hrep & Hc)|Hr]; [left | by right].
    split; [done|]. split; [done|]. by eexists _, opts.
Qed.
(** ** DHCPNAK *)

(** The options of a DHCPNAK come from the configuration alone. *)
Lemma nak_options_run s nak q : server_wf s → m_dhcp_options nak = Some q →
  load_options (s_heap s) q = Ret [] →
  let id := configured_option (default_options (s_allocator s)) (default_options (s_allocator s)) 54 in
  ∃ dest, get_nak_options nak s =
      Ret (match id with None => -1 | Some _ => 0 end,
           set_heap (store_options (s_heap s) q dest) s) ∧ good_options dest ∧
    zlen (encode_all dest) ≤ 3 + 2 * zlen (encode_all (default_options (s_allocator s))) ∧
    (id ≠ None →
     dhcp_option_retrieve dest DHCP_OPTION_DHCP_MESSAGE_TYPE = Some (message_type_option DHCP_NAK) ∧
     dhcp_option_retrieve dest 54 = id).
Proof.
  intros (Hal & _ & Hg & _) Hq Hlq id. set (g := default_options (s_allocator s)) in *.
  destruct (build_options_correct [] [] [54] [] (o_value (numeric_option 55 1 0)) [54; 0] [0] g g DHCP_NAK
    Hg Hg) as (dest & Hb & Hspec).
  { split; [apply not_elem_of_nil|]. by eexists. }
  { split; [by apply (bool_decide_unpack _) | by eexists]. }
  { split; [apply not_elem_of_nil | by eexists]. }
  exists dest. assert (Hgood : good_options dest).
  { eapply build_good; [exact Hg | exact Hg | | exact Hb]. repeat constructor. }
  assert (Hex : Exists (λ t, t ∉ [] ∧ configured_option g g t = None) [54] ↔ id = None).
  { rewrite Exists_cons, Exists_nil. subst id. assert (54 ∉ []) by apply not_elem_of_nil. naive_solver. }
  split; [|split; [done|split]].
  - unfold get_nak_options. rewrite prog_bind_eq. unfold lift at 1.
    change (dhcp_option_new_values _ _ _) with (Ret (Option_ DHCP_OPTION_BIN 55 1 (o_value (numeric_option 55 1 0)))).
    cbv beta iota. rewrite bind_gets, prog_bind_eq, Hq. cbn [deref lift]. cbv beta iota.
    rewrite bind_gets, prog_bind_eq. unfold lift at 1. rewrite Hlq. cbv beta iota.
    rewrite prog_bind_eq. unfold lift. cbn [o_value]. fold g. rewrite Hb. cbv beta iota.
    rewrite bind_modify, if_failed_spec.
    destruct (decide _) as [Hd|Hd]; [rewrite Hex in Hd | rewrite Hex in Hd]; [by rewrite Hd|].
    destruct id; done.
  - etrans; [apply encode_all_submseteq; [apply Hgood | exact (build_members _ _ _ _ _ _ _ _ _ Hg Hg Hb)]|].
    cbn [app]. rewrite zlen_encode_all_cons, zlen_encode_all_app by apply message_type_ok.
    cbn [o_lenght message_type_option]. lia.
  - intros Hid. specialize (Hspec ltac:(by rewrite Hex)). split; rewrite Hspec; [done|].
    cbn [dhcp_option_retrieve]. change (54 =? _) with false. cbv beta iota.
    rewrite decide_True; [done|]. split; [left; set_solver | apply not_elem_of_nil].
Qed.

(** A DHCPNAK that was sent: broadcast, without any address. *)
Definition refused (s s' : dhcp_server) (m : dhcp_message) : Prop :=
  ∃ reply opts, replied s s' (htonl (broadcast_addr (s_config s))) reply opts ∧
    dhcp_option_retrieve opts DHCP_OPTION_DHCP_MESSAGE_TYPE = Some (message_type_option DHCP_NAK) ∧
    m_type reply = DHCP_NAK ∧ m_ciaddr reply = 0 ∧ m_yiaddr reply = 0 ∧ m_xid reply = m_xid m.

Lemma nak_run s m os : server_wf s → received_ok s m os →
  ∃ rv s', message_dhcpnak_build m s = Ret (rv, s') ∧ reply_frame s s' ∧
    (rv = 0 ∧ no_fault s ∧ refused s s' m
     ∨ rv = -1 ∧ unanswered s s' ∧
       (configured_option (default_options (s_allocator s)) (default_options (s_allocator s)) 54 = None ∨
        ¬ no_fault s ∨
        DHCP_PACKET_OPTIONS_SIZE < 3 + 2 * zlen (encode_all (default_options (s_allocator s))))).
Proof.
  intros Hwf Hm. pose proof Hwf as (_ & Hcw & _).
  pose proof Hm as (Hmw & Hck & Hx & _ & Ht & _). destruct (message_wf_addresses m Hmw) as [_ Hgi].
  destruct (new_message_run s) as (m0 & q & h & Hnew & Hq & Hlq & Hty & Hpk & Hsn & Hfn & Hfresh & Hk).
  unfold message_dhcpnak_build. rewrite prog_bind_eq, Hnew. cbv beta iota.
  set (nak := reply_header m0 m 0 0 0 (m_giaddr m) DHCP_NAK). set (s1 := set_heap h s).
  destruct (nak_options_run s1 nak q Hwf Hq Hlq) as (dest & Hopt & Hgood & Hsize & Hspec).
  change (default_options (s_allocator s1)) with (default_options (s_allocator s)) in *.
  rewrite prog_bind_eq, Hopt. cbv beta iota. rewrite if_failed_spec.
  set (h2 := store_options h q dest). change (set_heap _ s1) with (set_heap h2 s).
  assert (Hk2 : heap_keeps (s_heap s) h2) by by apply heap_keeps_store.
  destruct (configured_option _ _ 54) as [o|] eqn:E54; cbn [Z.eqb negb].
  2: { exists (-1), (set_heap h2 s). split; [reflexivity|]. split; [by split_and?|].
       right. split; [done|]. split; [done|]. by left. }
  destruct (Hspec ltac:(done)) as [H53 _].
  destruct (finish_reply message_nak_send (htonl (broadcast_addr (s_config s))) nak q dest s h2)
    as (rv & s' & Hrun & Hfr & Hr); try done.
  - apply reply_header_wf; try done. repeat apply Forall_cons_2; try done; by_decision.
  - unfold load_options, h2, store_options. by rewrite lookup_insert_eq.
  - exists rv, s'. split; [exact Hrun|]. split; [done|].
    destruct Hr as [(-> & Hnf & Hrep)|(-> & Hu & Hwhy)].
    + left. split; [done|]. split; [done|]. by exists nak, dest.
    + right. split; [done|]. split; [done|]. right. destruct Hwhy as [|]; [right; lia | by left].
Qed.
End Messages.

(** ** Witnesses *)
Definition sample_config : config :=
  Config "config.json" "eth0" 3232235777 3232236031 1000 2 60 60 43200 4 0 0 1 1.

(** A server with one pool and the sample DHCPDISCOVER in its cache. *)
Definition sample_server (options : list dhcp_option) : dhcp_server :=
  Server (Allocator sample_global [sample_pool]) sample_added
    (timer_new 1000 TIMER_REPEAT 60 true (Some check_lease_expirations_ptr)) None None sample_config
    1000 {[1%positive := Some options]} (Env ∅ []) [] (Ipc true 0 [] []).

Lemma sample_server_wf options : server_wf (sample_server options).
Proof.
  split; [exact (proj1 sample_allocator_ok)|]. split; [exact sample_added_wf|].
  split; [exact sample_global_sendable|]. split; [|split; by_decision].
  repeat apply Forall_cons_2; try apply Forall_nil_2;
    (split; [by_decision | apply numeric_canonical; solve [done | by left | by right]]).
Qed.

Lemma sample_received options : list_wf options →
  Forall (λ o, o_lenght o ≤ DHCP_OPTION_MAX_LENGHT) options →
  received_ok (sample_server options) sample_message options.
Proof.
  intros Hw Hl. split; [exact sample_message_wf|]. split; [done|]. split; [done|]. split; [done|].
  split; [|by exists 1%positive]. exists sample_transaction. split; [|done].
  apply (list_elem_of_lookup_2 _ 0). vm_compute. reflexivity.
Qed.

Lemma sample_free options : ∃ a, covered (s_allocator (sample_server options)) a ∧
  a ∉ in_use (s_allocator (sample_server options)).
Proof.
  destruct sample_allocator_ok as (_ & Hu & Hc). exists 3232235780. split; [exact Hc|].
  change (in_use _) with (in_use sample_allocator). rewrite Hu. apply not_elem_of_empty.
Qed.

Lemma message_dhcpdiscover_spec_witness : ∃ rv s',
  @message_dhcpdiscover_handle cclog_run sample_message (sample_server sample_options) = Ret (rv, s') ∧
  server_wf s'.
Proof.
  destruct (@message_dhcpdiscover_spec cclog_run (sample_server sample_options) sample_message
    sample_options (bytes_option DHCP_OPTION_PARAMETER_REQUEST_LIST [1; 3; 51]))
    as (rv & s' & H & Hw & _).
  - apply sample_server_wf.
  - apply sample_received; [split; by_decision | by_decision].
  - reflexivity.
  - exists rv, s'. split; [exact H | exact Hw].
Defined.

Lemma message_dhcpdiscover_no_parameters_witness :
  @message_dhcpdiscover_handle cclog_run sample_message
    (sample_server [message_type_option DHCP_DISCOVER]) = Undef NullDeref.
Proof.
  apply (@message_dhcpdiscover_no_parameters cclog_run _ sample_message
    [message_type_option DHCP_DISCOVER]).
  - apply sample_server_wf.
  - apply sample_received; [split; by_decision | by_decision].
  - reflexivity.
  - apply sample_free.
  - vm_compute. discriminate.
Defined.

Lemma message_dhcpdiscover_leak_witness : ∃ s',
  @message_dhcpdiscover_handle cclog_run sample_message (sample_server
    [message_type_option DHCP_DISCOVER; numeric_option DHCP_OPTION_IP_ADDRESS_LEASE_TIME 4 0]) =
    Ret (-1, s') ∧ in_use (s_allocator s') ≠ ∅.
Proof.
  destruct (@message_dhcpdiscover_leak cclog_run (sample_server
    [message_type_option DHCP_DISCOVER; numeric_option DHCP_OPTION_IP_ADDRESS_LEASE_TIME 4 0])
    sample_message [message_type_option DHCP_DISCOVER;
      numeric_option DHCP_OPTION_IP_ADDRESS_LEASE_TIME 4 0]) as (a & s' & H & _ & _ & Hu).
  - apply sample_server_wf.
  - apply sample_received; [split; by_decision | by_decision].
  - apply sample_free.
  - vm_compute. reflexivity.
  - exists s'. split; [exact H|]. rewrite Hu. generalize (in_use (s_allocator (sample_server
      [message_type_option DHCP_DISCOVER; numeric_option DHCP_OPTION_IP_ADDRESS_LEASE_TIME 4 0]))).
    clear. intros S E. set_solver.
Defined.
