(* ===== verification/Request.v ===== *)
(** The handlers of the messages a client sends once it knows its address:
    DHCPREQUEST, [messages/dhcprequest.c], DHCPDECLINE, DHCPRELEASE and
    DHCPINFORM. *)
From Stdlib Require Import Ascii String.
From S2P Require Import Prelude Bytes Xtoy Rfc Options Packet AddressPool Allocator Timer Transaction Acl Json Files Lease Database Server Messages.
Local Open Scope Z_scope.

Definition DHCP_REQUEST_COMMIT_ERROR : Z := -3.
Definition DHCP_REQUEST_INVALID : Z := -2.
Definition DHCP_REQUEST_ERROR : Z := -1.
Definition DHCP_REQUEST_OK : Z := 0.
Definition DHCP_REQUEST_DIFFERENT_SERVER_IDENTIFICATOR : Z := 1.

(** [memcmp(a, b, n)]: 0, or a number with the sign of the first difference. *)
Fixpoint compare_bytes (a b : list Z) : Z :=
  match a, b with
  | x :: a, y :: b => if x =? y then compare_bytes a b else x - y
  | _, _ => 0
  end.

Definition memcmp (a b : list Z) (n : Z) : result Z :=
  a ← slice a 0 n; b ← slice b 0 n; mret (compare_bytes a b).

Section Request.
Context `{CC : !Cclog} `{CJ : !Cjson}.

(** ** DHCPREQUEST *)
Definition dhcp_requst_commit_lease (request : dhcp_message) (lease_time leased_address : Z)
    : prog dhcp_server Z :=
  al ← gets s_allocator;
  match allocator_get_pool_by_address al leased_address with
  | None => mret DHCP_REQUEST_COMMIT_ERROR
  | Some (_, pool) =>
      now ← gets s_now;
      mac ← lift (slice (m_chaddr request) 0 6);
      let lease := Lease leased_address (p_mask pool) (Some (p_name pool)) (u32 now)
                     (u32 now +32 lease_time) (m_xid request) 0 mac in
      rv ← with_env (lease_add lease);
      mret (if if_failed rv then DHCP_REQUEST_COMMIT_ERROR else DHCP_REQUEST_OK)
  end.

(** Two values of an option compared over the length of the first; true when
    one of them is missing. *)
Definition same_value (o d : option dhcp_option) : result bool :=
  match o, d with
  | Some o, Some d =>
      c ← memcmp (o_value o) (o_value d) (o_lenght o);
      mret (negb (if_failed c))
  | _, _ => mret true
  end.

Definition validate_client_id_and_requested_params (request : dhcp_message)
    : prog dhcp_server bool :=
  c ← gets s_trans_cache;
  match trans_cache_retrieve_message c (m_xid request) DHCP_DISCOVER with
  | None => mret false
  | Some discover =>
      request_o61 ← option_of request DHCP_OPTION_CLIENT_IDENTIFIER;
      discover_o61 ← option_of discover DHCP_OPTION_CLIENT_IDENTIFIER;
      same_id ← lift (same_value request_o61 discover_o61);
      if negb same_id then mret false
      else
        request_o55 ← option_of request DHCP_OPTION_PARAMETER_REQUEST_LIST;
        discover_o55 ← option_of discover DHCP_OPTION_PARAMETER_REQUEST_LIST;
        match request_o55, discover_o55 with
        | Some _, Some _ => lift (same_value request_o55 discover_o55)
        | _, _ => mret false
        end
  end.

Definition retrieve_client_address (request : dhcp_message) : prog dhcp_server Z :=
  o50 ← option_of request DHCP_OPTION_REQUESTED_IP_ADDRESS;
  match o50 with
  | Some o => mret (value_ip o)
  | None =>
      c ← gets s_trans_cache;
      match trans_cache_retrieve_message c (m_xid request) DHCP_OFFER with
      | None => mret 0
      | Some offer =>
          o50 ← option_of offer DHCP_OPTION_REQUESTED_IP_ADDRESS;
          match o50 with
          | Some o => mret (value_ip o)
          | None => mret 0
          end
      end
  end.

(** The pool is dereferenced without a test. *)
Definition retrieve_lease_time (address : Z) (al : address_allocator) : result Z :=
  if address =? 0 then mret 0
  else
    '(_, pool) ← deref (allocator_get_pool_by_address al address);
    match configured_option (default_options al) (p_dhcp_option_override pool)
            DHCP_OPTION_IP_ADDRESS_LEASE_TIME with
    | Some o51 => mret (value_number o51)
    | None => mret 0
    end.

Definition dhcp_request_response_to_offer (request : dhcp_message) (o54 : dhcp_option)
    : prog dhcp_server Z :=
  c ← gets s_config;
  if negb (value_ip o54 =? bound_ip c) then mret DHCP_REQUEST_DIFFERENT_SERVER_IDENTIFICATOR
  else if negb (m_ciaddr request =? 0) then mret DHCP_REQUEST_INVALID
  else if negb (m_yiaddr request =? 0) then mret DHCP_REQUEST_INVALID
  else
    valid ← validate_client_id_and_requested_params request;
    if negb valid then mret DHCP_REQUEST_INVALID
    else
      requested_ip ← retrieve_client_address request;
      if if_failed_ne requested_ip then mret DHCP_REQUEST_INVALID
      else
        al ← gets s_allocator;
        available ← lift (allocator_is_address_available al requested_ip);
        if (available : bool) then mret DHCP_REQUEST_INVALID
        else
          lease_time ← lift (retrieve_lease_time requested_ip al);
          if if_failed_ne lease_time then mret DHCP_REQUEST_INVALID
          else
            rv ← dhcp_requst_commit_lease request lease_time requested_ip;
            mret (if if_failed_n rv then DHCP_REQUEST_INVALID else DHCP_REQUEST_OK).

Definition dhcp_request_renew_lease (request : dhcp_message) : prog dhcp_server Z :=
  if m_ciaddr request =? 0 then mret (-1)
  else
    al ← gets s_allocator;
    '(rv, lease) ← with_env (lease_retrieve_address lease_new (m_ciaddr request) (address_pools al));
    if if_failed rv then mret (-1)
    else
      c ← lift (memcmp (l_client_mac_address lease) (m_chaddr request) 6);
      if if_failed c then mret (-1)
      else
        rv ← with_env (lease_remove lease);
        if if_failed rv then mret (-1)
        else
          now ← gets s_now;
          lease_time ← lift (retrieve_lease_time (m_ciaddr request) al);
          let lease := Lease (l_address lease) (l_subnet lease) (l_pool_name lease) (u32 now)
                         (u32 now +32 lease_time) (l_xid lease) (l_flags lease)
                         (l_client_mac_address lease) in
          rv ← with_env (lease_add lease);
          if if_failed rv then mret (-1) else mret 0.

(** The lease time passed to [message_dhcpack_build] is the number of the
    server identifier, which the callee does not use; the requested address is
    dereferenced without a test. *)
Definition message_dhcprequest_handle (request : dhcp_message) : prog dhcp_server Z :=
  o54 ← option_of request DHCP_OPTION_SERVER_IDENTIFIER;
  match o54 with
  | Some o54 =>
      rv ← dhcp_request_response_to_offer request o54;
      if rv <? 0 then
        r ← message_dhcpnak_build request;
        if if_failed_n r then mret rv else mret 0
      else if negb (rv =? DHCP_REQUEST_DIFFERENT_SERVER_IDENTIFICATOR) then
        o50 ← option_of request DHCP_OPTION_REQUESTED_IP_ADDRESS;
        o50 ← lift (deref o50);
        r ← message_dhcpack_build request (value_number o54) (value_ip o50);
        if if_failed_n r then mret rv else mret 0
      else mret 0
  | None =>
      if negb (m_ciaddr request =? 0) then
        _ ← dhcp_request_renew_lease request;
        r ← message_dhcpack_build_lease_renew request;
        if if_failed r then mret (-1) else mret 0
      else mret 0
  end.

(** ** DHCPDECLINE *)
Definition message_dhcpdecline_handle (message : dhcp_message) : prog dhcp_server Z :=
  c ← gets s_trans_cache;
  match trans_cache_retrieve_message_last c (m_xid message) DHCP_ACK with
  | None => mret (-1)
  | Some ack =>
      if m_yiaddr ack =? 0 then mret (-1)
      else
        al ← gets s_allocator;
        available ← lift (allocator_is_address_available al (m_yiaddr ack));
        _ ← (if (available : bool)
             then with_allocator (λ al, '(_, al, _) ← allocator_request_this_address al (m_yiaddr ack);
                                        mret ((), al))
             else mret ());
        mret 0
  end.

(** ** DHCPRELEASE *)
Definition message_dhcprelease_handle (message : dhcp_message) : prog dhcp_server Z :=
  if m_ciaddr message =? 0 then mret (-1)
  else
    al ← gets s_allocator;
    '(rv, lease) ← with_env (lease_retrieve_address lease_new (m_ciaddr message) (address_pools al));
    if if_failed rv then mret (-1)
    else
      rv ← with_env (lease_remove lease);
      if if_failed rv then mret (-1)
      else
        rv ← with_allocator (λ al, allocator_release_address al (l_address lease));
        if if_failed rv then mret (-1) else mret 0.

(** ** DHCPINFORM *)
Definition message_dhcpinform_handle (message : dhcp_message) : prog dhcp_server Z :=
  rv ← message_dhcpack_build_inform_response message;
  if rv <? 0 then mret (-1) else mret 0.

(** ** Specification *)

(** No system call fails and the file of a pool holds the leases [ls]. *)
Definition leases_of (s : dhcp_server) (name : string) (ls : list lease_t) : Prop :=
  e_faults (s_env s) = [] ∧ file_holds (s_env s) name ls.

(** The first lease of an address. *)
Definition lease_at (ls : list lease_t) (a : Z) : option (nat * lease_t) :=
  list_find (λ l, l_address l = a) ls.

(** A lease that starts now. *)
Definition extended (l : lease_t) (now duration : Z) : lease_t :=
  Lease (l_address l) (l_subnet l) (l_pool_name l) (u32 now) (u32 now +32 duration) (l_xid l)
    (l_flags l) (l_client_mac_address l).

(** The lease time of an address of a pool; 0 when there is none. *)
Definition pool_lease_time (s : dhcp_server) (pool : address_pool) : Z :=
  match configured_for s pool DHCP_OPTION_IP_ADDRESS_LEASE_TIME with
  | Some o51 => value_number o51
  | None => 0
  end.

(** The leases after the client of [m] renewed its lease: nothing changes when
    it has none. *)
Definition renewed (s : dhcp_server) (m : dhcp_message) (pool : address_pool) (ls : list lease_t)
    : list lease_t :=
  match lease_at ls (m_ciaddr m) with
  | Some (i, l) =>
      if decide (l_client_mac_address l = take 6 (m_chaddr m))
      then delete i ls ++ [extended (with_pool_name l (Some (p_name pool))) (s_now s)
                             (pool_lease_time s pool)]
      else ls
  | None => ls
  end.

(** ** Steps *)

(** The branch a status selects. *)
Ltac by_status :=
  cbv beta iota; rewrite ?if_failed_spec, ?if_failed_n_spec, ?if_failed_ne_spec;
  cbn [Z.eqb Z.ltb Z.compare negb LEASE_OK LEASE_DOESNT_EXITS LEASE_ERROR LEASE_INVALID_JSON].

Lemma compare_bytes_eq a b : length a = length b → compare_bytes a b = 0 ↔ a = b.
Proof.
  revert b. induction a as [|x a IH]; intros [|y b] Hl; try discriminate; [done|].
  injection Hl as Hl. cbn [compare_bytes]. destruct (Z.eqb_spec x y) as [->|Hne].
  - rewrite IH by done. split; [by intros -> | by intros [= ->]].
  - split; [lia | by intros [= -> ->]].
Qed.

Lemma memcmp_run a b n : 0 ≤ n ≤ zlen a → n ≤ zlen b →
  ∃ c, memcmp a b n = Ret c ∧ (c = 0 ↔ take (Z.to_nat n) a = take (Z.to_nat n) b).
Proof.
  intros Ha Hb. unfold memcmp. rewrite slice_prefix by lia. cbn [mbind result_bind]. rewrite slice_prefix by lia.
  cbn [mbind result_bind]. eexists. split; [reflexivity|]. apply compare_bytes_eq.
  unfold zlen in *. rewrite !length_take. lia.
Qed.


Lemma retrieve_address_eq r a al i pool : allocator_get_pool_by_address al a = Some (i, pool) →
  lease_retrieve_address r a (address_pools al) = lease_retrieve r a (Some (p_name pool)).
Proof. unfold lease_retrieve_address, allocator_get_pool_by_address. by intros ->. Qed.

Lemma lease_time_run al a i pool s : al = s_allocator s →
  allocator_get_pool_by_address al a = Some (i, pool) → a ≠ 0 →
  retrieve_lease_time a al = Ret (pool_lease_time s pool).
Proof.
  intros -> Hp Ha. unfold retrieve_lease_time, pool_lease_time, configured_for.
  rewrite (proj2 (Z.eqb_neq _ _)), Hp by done. cbn [deref mbind result_bind].
  by destruct (configured_option _ _ _).
Qed.

(** Only the files of the environment differ. *)
Definition new_files (s : dhcp_server) (e : env) : dhcp_server := set_env e s.

Lemma lease_wf_at ls e name i l : file_holds e name ls → lease_at ls i = Some l → lease_wf l.2.
Proof.
  unfold lease_at, file_holds. intros Hf Hl. destruct l as [k l]. apply list_find_Some in Hl as [Hk _].
  destruct (e_files e !! lease_path name); [|by rewrite Hf in Hk].
  destruct Hf as (root & arr & rest & _ & _ & H2). destruct (Forall2_lookup_l _ _ _ _ _ H2 Hk) as (j & _ & Hw & _).
  exact Hw.
Qed.

Lemma extended_wf l now d : lease_wf l → lease_wf (extended l now d).
Proof.
  intros (? & ? & ? & ? & ? & ? & ? & ?). unfold lease_wf, extended.
  cbn [l_address l_subnet l_lease_start l_lease_expire l_xid l_flags l_client_mac_address].
  split_and?; auto with dhcp.
Qed.

(** Renewing a lease. *)
Lemma renew_run s m i pool ls :
  allocator_get_pool_by_address (s_allocator s) (m_ciaddr m) = Some (i, pool) →
  m_ciaddr m ≠ 0 → 6 ≤ zlen (m_chaddr m) → leases_of s (p_name pool) ls →
  ∃ rv e', dhcp_request_renew_lease m s = Ret (rv, set_env e' s) ∧ e_faults e' = [] ∧
    file_holds e' (p_name pool) (renewed s m pool ls) ∧ same_other_files (s_env s) e' (p_name pool).
Proof.
  intros Hp Hnz Hch [Hnf Hf]. unfold dhcp_request_renew_lease. rewrite (proj2 (Z.eqb_neq _ _)) by done.
  rewrite bind_gets, prog_bind_eq, (retrieve_address_eq _ _ _ i pool Hp).
  destruct (retrieve_correct (s_env s) (p_name pool) ls lease_new (m_ciaddr m) Hnf Hf)
    as (e1 & Hr & Hn1 & Hf1 & Hs1). rewrite (with_env_run _ _ _ _ Hr).
  unfold renewed, lease_at in *. destruct (list_find _ ls) as [[k l]|] eqn:El; by_status.
  2: { eexists _, e1. split; [reflexivity|]. by split_and?. }
  assert (Hw : lease_wf l) by exact (lease_wf_at ls _ _ _ _ Hf El).
  pose proof Hw as (_ & _ & _ & _ & _ & _ & Hlen & _). pose proof El as [Hk _]%list_find_Some.
  destruct (memcmp_run (l_client_mac_address l) (m_chaddr m) 6) as (c & Hc & Hceq);
    [unfold zlen; lia | done |].
  change (l_client_mac_address (with_pool_name l _)) with (l_client_mac_address l).
  rewrite prog_bind_eq. unfold lift at 1. rewrite Hc. by_status.
  rewrite take_ge in Hceq by (rewrite Hlen; done).
  change (Z.to_nat 6) with 6%nat in Hceq.
  destruct (Z.eqb_spec c 0) as [Ec|Ec]; cbn [negb].
  2: { rewrite decide_False by tauto. eexists _, e1. split; [reflexivity|]. by split_and?. }
  rewrite decide_True by tauto. rewrite prog_bind_eq.
  destruct (remove_correct e1 (p_name pool) ls (with_pool_name l (Some (p_name pool))) eq_refl Hn1 Hf1)
    as (rv2 & e2 & Hr2 & Hn2 & Hs2 & Hfind).
  assert (Haddr : l_address l = m_ciaddr m) by by apply list_find_Some in El as (_ & ? & _).
  cbn [l_address with_pool_name] in Hfind. rewrite Haddr, El in Hfind. destruct Hfind as [-> Hf2].
  rewrite (with_env_run _ (set_env e1 s) _ _ Hr2). by_status.
  rewrite bind_gets, prog_bind_eq. unfold lift at 1.
  rewrite (lease_time_run (s_allocator s) (m_ciaddr m) i pool s) by done. cbv beta iota.
  change (Lease _ _ _ _ _ _ _ _) with
    (extended (with_pool_name l (Some (p_name pool))) (s_now s) (pool_lease_time s pool)).
  destruct (add_correct e2 (p_name pool) (delete k ls) (extended (with_pool_name l (Some (p_name pool)))
    (s_now s) (pool_lease_time s pool))) as (e3 & Hr3 & Hf3 & Hn3 & Hs3); try done.
  { apply extended_wf. destruct Hw as (?&?&?&?&?&?&?&?). by split_and?. }
  rewrite prog_bind_eq, (with_env_run _ (set_env e2 (set_env e1 s)) _ _ Hr3). by_status. eexists _, e3. split; [reflexivity|]. split; [done|]. split; [done|].
  intros path Hne. by rewrite Hs3, Hs2, Hs1.
Qed.

Lemma lease_path_outside pool : ¬ in_database (lease_path pool).
Proof. unfold in_database, lease_path, database_dir. discriminate. Qed.

Lemma outside_holds e e' pool ls : outside_database e e' → file_holds e pool ls → file_holds e' pool ls.
Proof.
  intros Ho. unfold file_holds. by rewrite (proj2 Ho _ (lease_path_outside pool)).
Qed.

(** ** The messages of a transaction that a request is checked against *)

(** Two options have the same value over the length of the first. *)
Definition agree (o d : option dhcp_option) : Prop :=
  match o, d with
  | Some o, Some d =>
      take (Z.to_nat (o_lenght o)) (o_value o) = take (Z.to_nat (o_lenght o)) (o_value d)
  | _, _ => True
  end.

#[export] Instance agree_dec o d : Decision (agree o d).
Proof. unfold agree. destruct o, d; apply _. Defined.

(** Two option lists agree on a tag both have. *)
Definition same_option (os od : list dhcp_option) (tag : Z) : Prop :=
  agree (dhcp_option_retrieve os tag) (dhcp_option_retrieve od tag).

#[export] Instance same_option_dec os od tag : Decision (same_option os od tag).
Proof. unfold same_option. apply _. Defined.

(** The request repeats the client identifier and the parameter list of the
    DHCPDISCOVER. *)
Definition consistent (os od : list dhcp_option) : Prop :=
  same_option os od DHCP_OPTION_CLIENT_IDENTIFIER ∧
  dhcp_option_retrieve os DHCP_OPTION_PARAMETER_REQUEST_LIST ≠ None ∧
  dhcp_option_retrieve od DHCP_OPTION_PARAMETER_REQUEST_LIST ≠ None ∧
  same_option os od DHCP_OPTION_PARAMETER_REQUEST_LIST.

#[export] Instance consistent_dec os od : Decision (consistent os od).
Proof. unfold consistent. apply _. Defined.

Lemma same_value_agree o d : (∀ x, o = Some x → option_wf x) → (∀ x, d = Some x → option_wf x) →
  same_value o d = Ret (bool_decide (agree o d)).
Proof.
  destruct o as [o|], d as [d|]; try done. intros Ho Hd.
  destruct (Ho o eq_refl) as (_ & Hl & _ & Hv & _), (Hd d eq_refl) as (_ & _ & _ & Hv' & _).
  unfold is_u8 in Hl. unfold same_value, agree.
  destruct (memcmp_run (o_value o) (o_value d) (o_lenght o)) as (c & -> & Hc);
    [unfold zlen, VALUE_SIZE in *; lia | unfold zlen, VALUE_SIZE in *; lia |].
  rewrite ret_bind, if_failed_spec, negb_involutive. unfold mret, result_ret. f_equal.
  destruct (Z.eqb_spec c 0); [rewrite bool_decide_true by tauto | rewrite bool_decide_false by tauto]; done.
Qed.

Lemma same_value_run os od tag : list_wf os → list_wf od →
  same_value (dhcp_option_retrieve os tag) (dhcp_option_retrieve od tag) =
  Ret (bool_decide (same_option os od tag)).
Proof.
  intros [Hos _] [Hod _]. rewrite Forall_forall in Hos, Hod.
  apply same_value_agree; intros x [Hx _]%retrieve_Some; auto.
Qed.

Lemma validate_run s m p os d pd od :
  trans_cache_retrieve_message (s_trans_cache s) (m_xid m) DHCP_DISCOVER = Some d →
  m_dhcp_options m = Some p → load_options (s_heap s) p = Ret os →
  m_dhcp_options d = Some pd → load_options (s_heap s) pd = Ret od → list_wf os → list_wf od →
  validate_client_id_and_requested_params m s = Ret (bool_decide (consistent os od), s).
Proof.
  intros Hd Hp Hl Hpd Hld Hos Hod. unfold validate_client_id_and_requested_params.
  rewrite bind_gets, Hd.
  rewrite prog_bind_eq, (option_of_run s m os _ p) by done. cbv beta iota.
  rewrite prog_bind_eq, (option_of_run s d od _ pd) by done. cbv beta iota.
  change (u8 DHCP_OPTION_CLIENT_IDENTIFIER) with DHCP_OPTION_CLIENT_IDENTIFIER.
  rewrite prog_bind_eq. unfold lift at 1. rewrite same_value_run by done. cbv beta iota.
  destruct (bool_decide_reflect (same_option os od DHCP_OPTION_CLIENT_IDENTIFIER)) as [H61|H61]; cbn [negb].
  2: { rewrite bool_decide_false by (intros [? _]; tauto). reflexivity. }
  rewrite prog_bind_eq, (option_of_run s m os _ p) by done. cbv beta iota.
  rewrite prog_bind_eq, (option_of_run s d od _ pd) by done. cbv beta iota.
  change (u8 DHCP_OPTION_PARAMETER_REQUEST_LIST) with DHCP_OPTION_PARAMETER_REQUEST_LIST.
  pose proof (same_value_run os od DHCP_OPTION_PARAMETER_REQUEST_LIST Hos Hod) as H55.
  unfold lift. rewrite H55.
  destruct (dhcp_option_retrieve os DHCP_OPTION_PARAMETER_REQUEST_LIST) as [o|] eqn:Eo;
    [|rewrite bool_decide_false by (intros (_ & Hn & _); congruence); done].
  destruct (dhcp_option_retrieve od DHCP_OPTION_PARAMETER_REQUEST_LIST) as [d'|] eqn:Ed;
    [|rewrite bool_decide_false by (intros (_ & _ & Hn & _); congruence); done].
  do 2 f_equal. apply bool_decide_ext. split; [|by intros (_ & _ & _ & ?)].
  intros H. split; [done|]. split; [congruence|]. by split; [congruence|].
Qed.

(** The lease written for an accepted request. *)
Definition new_lease (s : dhcp_server) (m : dhcp_message) (pool : address_pool) (a : Z) : lease_t :=
  Lease a (p_mask pool) (Some (p_name pool)) (u32 (s_now s))
    (u32 (s_now s) +32 pool_lease_time s pool) (m_xid m) 0 (take 6 (m_chaddr m)).

Lemma new_lease_wf s m pool a : is_u32 a → is_u32 (p_mask pool) → message_wf m →
  lease_wf (new_lease s m pool a).
Proof.
  intros Ha Hm (_ & _ & _ & H32 & Hl & _ & _ & Hb & _). unfold lease_wf, new_lease.
  cbn [l_address l_subnet l_lease_start l_lease_expire l_xid l_flags l_client_mac_address].
  apply Forall_cons in H32 as [Hx _]. apply Forall_app in Hb as [Hb _].
  split_and?; auto with dhcp; [by_decision | rewrite length_take, Hl; reflexivity | by apply Forall_take].
Qed.

Lemma commit_run s m i pool a ls :
  allocator_get_pool_by_address (s_allocator s) a = Some (i, pool) → is_u32 a →
  is_u32 (p_mask pool) → message_wf m → leases_of s (p_name pool) ls →
  ∃ e', dhcp_requst_commit_lease m (pool_lease_time s pool) a s = Ret (DHCP_REQUEST_OK, set_env e' s) ∧
    e_faults e' = [] ∧ file_holds e' (p_name pool) (ls ++ [new_lease s m pool a]).
Proof.
  intros Hp Ha Hm Hw [Hnf Hf]. unfold dhcp_requst_commit_lease. rewrite bind_gets, Hp, bind_gets.
  rewrite prog_bind_eq. unfold lift at 1.
  rewrite slice_prefix by (destruct Hw as (_ & _ & _ & _ & Hl & _); unfold zlen; rewrite Hl; by_decision).
  cbv beta iota zeta. change (Z.to_nat 6) with 6%nat.
  change (Lease _ _ _ _ _ _ _ _) with (new_lease s m pool a).
  destruct (add_correct (s_env s) (p_name pool) ls (new_lease s m pool a)) as (e' & Hr & Hf' & Hn' & _);
    [by apply new_lease_wf | done | done | done |].
  rewrite prog_bind_eq, (with_env_run _ s _ _ Hr). by_status. by exists e'.
Qed.

Lemma reply_frame_wf s s' : server_wf s → reply_frame s s' → server_wf s'.
Proof.
  intros (Hal & _ & Hg & Hp & Hip & Hbc) (Ea & Ec & _ & _ & _ & Hcw). unfold server_wf.
  by rewrite Ea, Ec.
Qed.

Lemma pool_address al a i pool : allocator_wf al → allocator_get_pool_by_address al a = Some (i, pool) →
  is_u32 a ∧ a ≠ 0 ∧ covered al a.
Proof.
  intros (Hpools & _) H. pose proof H as [Hi Hb]%by_address_Some. rewrite Forall_forall in Hpools.
  destruct (Hpools pool) as (Hr & He & _); [by eapply list_elem_of_lookup_2|].
  pose proof Hb as Hb'%address_belongs_to_pool_spec. unfold is_u32. split; [lia|]. split; [lia|].
  by eapply covered_pool.
Qed.

(** A request that is accepted when the server waits for an answer to its
    offer of [a]. *)
Lemma accept_run s m p os d pd od o54 o50 i pool ls :
  server_wf s → message_wf m → m_dhcp_options m = Some p → load_options (s_heap s) p = Ret os →
  trans_cache_retrieve_message (s_trans_cache s) (m_xid m) DHCP_DISCOVER = Some d →
  m_dhcp_options d = Some pd → load_options (s_heap s) pd = Ret od → list_wf os → list_wf od →
  value_ip o54 = bound_ip (s_config s) → m_ciaddr m = 0 → m_yiaddr m = 0 → consistent os od →
  dhcp_option_retrieve os DHCP_OPTION_REQUESTED_IP_ADDRESS = Some o50 →
  allocator_get_pool_by_address (s_allocator s) (value_ip o50) = Some (i, pool) →
  value_ip o50 ∈ in_use (s_allocator s) → is_u32 (p_mask pool) → pool_lease_time s pool ≠ 0 →
  leases_of s (p_name pool) ls →
  ∃ e', dhcp_request_response_to_offer m o54 s = Ret (DHCP_REQUEST_OK, set_env e' s) ∧
    e_faults e' = [] ∧ file_holds e' (p_name pool) (ls ++ [new_lease s m pool (value_ip o50)]).
Proof.
  intros Hwf Hmw Hp Hl Hd Hpd Hld Hos Hod H54 Hci Hyi Hcon H50 Hpool Huse Hmask Hlt Hls.
  pose proof Hwf as [Hal _]. destruct (pool_address _ _ _ _ Hal Hpool) as (Ha & Hnz & Hcov).
  unfold dhcp_request_response_to_offer. rewrite bind_gets, H54, Z.eqb_refl, Hci, Hyi. by_status.
  rewrite prog_bind_eq, (validate_run s m p os d pd od) by done. cbv beta iota.
  rewrite bool_decide_true by done. cbn [negb]. unfold retrieve_client_address.
  rewrite bind_assoc, prog_bind_eq, (option_of_run s m os _ p) by done. cbv beta iota.
  change (u8 DHCP_OPTION_REQUESTED_IP_ADDRESS) with DHCP_OPTION_REQUESTED_IP_ADDRESS.
  rewrite H50, bind_mret. by_status. rewrite (proj2 (Z.eqb_neq _ _)), bind_gets by done.
  rewrite prog_bind_eq. unfold lift at 1. rewrite is_available_correct by done. cbv beta iota.
  rewrite bool_decide_false by tauto. rewrite prog_bind_eq. unfold lift at 1.
  rewrite (lease_time_run _ _ i pool s) by done. by_status. rewrite (proj2 (Z.eqb_neq _ _)) by done.
  destruct (commit_run s m i pool (value_ip o50) ls Hpool Ha Hmask Hmw Hls) as (e' & Hr & Hn & Hf).
  rewrite prog_bind_eq, Hr. by_status. by exists e'.
Qed.

(** The handler apart from the loop that calls it.  A DHCPREQUEST that answers an
    offer of this server, if the options of the DHCPDISCOVER were still in
    memory, while no system call fails and a lease time is configured: the
    address it asks for is leased to the client, from now on for the lease time
    of the pool, the address stays in use, and the client is sent a DHCPACK, or
    nothing when its required options are not configured or too large.  In the
    running server the options of the DHCPDISCOVER are freed when the request is
    parsed ([handshake_use_after_free] in [Exchange]). *)
Theorem message_dhcprequest_select s m os d pd od o54 o50 i pool ls :
  server_wf s → received_ok s m os →
  trans_cache_retrieve_message (s_trans_cache s) (m_xid m) DHCP_DISCOVER = Some d →
  m_dhcp_options d = Some pd → load_options (s_heap s) pd = Ret od → list_wf od →
  dhcp_option_retrieve os DHCP_OPTION_SERVER_IDENTIFIER = Some o54 →
  value_ip o54 = bound_ip (s_config s) → m_ciaddr m = 0 → m_yiaddr m = 0 → consistent os od →
  dhcp_option_retrieve os DHCP_OPTION_REQUESTED_IP_ADDRESS = Some o50 →
  allocator_get_pool_by_address (s_allocator s) (value_ip o50) = Some (i, pool) →
  value_ip o50 ∈ in_use (s_allocator s) → is_u32 (p_mask pool) → pool_lease_time s pool ≠ 0 →
  leases_of s (p_name pool) ls →
  ∃ s', message_dhcprequest_handle m s = Ret (0, s') ∧ server_wf s' ∧
    s_allocator s' = s_allocator s ∧
    file_holds (s_env s') (p_name pool) (ls ++ [new_lease s m pool (value_ip o50)]) ∧
    (acknowledged s s' m pool (value_ip o50) ∨
     unanswered s s' ∧ (Exists (λ t, configured_for s pool t = None) [51; 54] ∨
                        DHCP_PACKET_OPTIONS_SIZE < config_size s pool)).
Proof.
  intros Hwf Hm Hd Hpd Hld Hod H54 Hip Hci Hyi Hcon H50 Hpool Huse Hmask Hlt Hls.
  pose proof Hm as (Hmw & _ & _ & [Hos _] & _ & p & Hp & Hl).
  destruct (accept_run s m p os d pd od o54 o50 i pool ls) as (e' & Hr & Hn & Hf); try done.
  destruct (pool_address _ _ _ _ (proj1 Hwf) Hpool) as (Ha & _).
  destruct (dhcp_option_retrieve os DHCP_OPTION_PARAMETER_REQUEST_LIST) as [o55|] eqn:H55;
    [|destruct Hcon as (_ & Hn55 & _); congruence].
  destruct (ack_build_run (set_env e' s) m os o55 (value_ip o50) i pool (value_number o54))
    as (rv & s' & Hrun & Hfr & Hrep); try done.
  unfold message_dhcprequest_handle. rewrite prog_bind_eq, (option_of_run s m os _ p) by done.
  cbv beta iota. change (u8 DHCP_OPTION_SERVER_IDENTIFIER) with DHCP_OPTION_SERVER_IDENTIFIER.
  rewrite H54, prog_bind_eq, Hr. cbv beta iota. change (DHCP_REQUEST_OK <? 0) with false. cbv iota.
  change (DHCP_REQUEST_OK =? _) with false. cbn [negb].
  rewrite prog_bind_eq, (option_of_run _ m os _ p) by done. cbv beta iota.
  change (u8 DHCP_OPTION_REQUESTED_IP_ADDRESS) with DHCP_OPTION_REQUESTED_IP_ADDRESS.
  rewrite H50, prog_bind_eq. cbn [deref lift]. cbv beta iota. rewrite prog_bind_eq, Hrun. cbv beta iota.
  exists s'. split; [by destruct (if_failed_n rv)|]. split; [exact (reply_frame_wf (set_env e' s) s' Hwf Hfr)|].
  split; [by apply Hfr|].
  split; [destruct Hfr as (_ & _ & _ & Ho & _); by eapply outside_holds|].
  destruct Hrep as [(_ & _ & Hack)|(_ & Hu & [Hc|[Hc|Hc]])]; [by left | right; auto | | right; auto].
  destruct Hc. change (hd_fault (e_faults e') = false). by rewrite Hn.
Qed.

Lemma renew_message_run s m os o55 i pool ls :
  server_wf s → received_ok s m os →
  dhcp_option_retrieve os DHCP_OPTION_SERVER_IDENTIFIER = None →
  dhcp_option_retrieve os DHCP_OPTION_PARAMETER_REQUEST_LIST = Some o55 → m_ciaddr m ≠ 0 →
  allocator_get_pool_by_address (s_allocator s) (m_ciaddr m) = Some (i, pool) →
  leases_of s (p_name pool) ls →
  ∃ rv s', message_dhcprequest_handle m s = Ret (rv, s') ∧ server_wf s' ∧
    heap_keeps (s_heap s) (s_heap s') ∧
    s_allocator s' = s_allocator s ∧
    file_holds (s_env s') (p_name pool) (renewed s m pool ls) ∧
    (rv = 0 ∧ acknowledged s s' m pool (m_ciaddr m) ∨
     rv = -1 ∧ unanswered s s' ∧ (Exists (λ t, configured_for s pool t = None) [51; 54] ∨
                                  DHCP_PACKET_OPTIONS_SIZE < config_size s pool)).
Proof.
  intros Hwf Hm H54 H55 Hci Hpool Hls. pose proof Hm as (Hmw & _ & _ & _ & _ & p & Hp & Hl).
  destruct (renew_run s m i pool ls Hpool Hci) as (rv1 & e' & Hr & Hn & Hf & _); [|done|].
  { destruct Hmw as (_ & _ & _ & _ & Hc & _). unfold zlen. rewrite Hc. by_decision. }
  destruct (ack_renew_run (set_env e' s) m os o55 i pool) as (rv & s' & Hrun & Hfr & Hrep); try done.
  unfold message_dhcprequest_handle. rewrite prog_bind_eq, (option_of_run s m os _ p) by done.
  cbv beta iota. change (u8 DHCP_OPTION_SERVER_IDENTIFIER) with DHCP_OPTION_SERVER_IDENTIFIER.
  rewrite H54, (proj2 (Z.eqb_neq _ _)) by done. cbn [negb]. rewrite prog_bind_eq, Hr. cbv beta iota.
  rewrite prog_bind_eq, Hrun. by_status.
  exists rv, s'. split; [|split; [exact (reply_frame_wf (set_env e' s) s' Hwf Hfr)|]].
  - destruct Hrep as [(-> & _)|(-> & _)]; reflexivity.
  - split; [by apply Hfr|]. split; [by apply Hfr|].
    split; [destruct Hfr as (_ & _ & _ & Ho & _); by eapply outside_holds|].
    destruct Hrep as [(-> & _ & Hack)|(-> & Hu & [Hc|[Hc|Hc]])]; [by left | right; auto | | right; auto].
    destruct Hc. change (hd_fault (e_faults e') = false). by rewrite Hn.
Qed.

Lemma renew_missing_run s m os i pool ls :
  received_ok s m os →
  dhcp_option_retrieve os DHCP_OPTION_SERVER_IDENTIFIER = None →
  dhcp_option_retrieve os DHCP_OPTION_PARAMETER_REQUEST_LIST = None → m_ciaddr m ≠ 0 →
  allocator_get_pool_by_address (s_allocator s) (m_ciaddr m) = Some (i, pool) →
  leases_of s (p_name pool) ls →
  message_dhcprequest_handle m s = Undef NullDeref.
Proof.
  intros Hm H54 H55 Hci Hpool Hls. pose proof Hm as (Hmw & _ & _ & _ & _ & p & Hp & Hl).
  destruct (renew_run s m i pool ls Hpool Hci) as (rv1 & e' & Hr & _); [|done|].
  { destruct Hmw as (_ & _ & _ & _ & Hc & _). unfold zlen. rewrite Hc. by_decision. }
  unfold message_dhcprequest_handle. rewrite prog_bind_eq, (option_of_run s m os _ p) by done.
  cbv beta iota. change (u8 DHCP_OPTION_SERVER_IDENTIFIER) with DHCP_OPTION_SERVER_IDENTIFIER.
  rewrite H54, (proj2 (Z.eqb_neq _ _)) by done. cbn [negb]. rewrite prog_bind_eq, Hr. cbv beta iota.
  rewrite prog_bind_eq. by rewrite (ack_renew_missing (set_env e' s) m os p).
Qed.

(** C9. A DHCPREQUEST without a server identifier, with a client address that
    belongs to a pool whose leases are in order, while no system call fails.
    When it has a parameter request list (option 55), the lease is renewed: if
    the client holds the lease of the address it starts now and ends after the
    lease time of the pool, otherwise the leases stay as they are; and in either
    case the client is sent a DHCPACK for the address, or nothing when the lease
    time or the server identifier is not configured or the options exceed the
    room of a packet.  Without option 55, which a client need not send, the
    handler dereferences NULL. *)
Theorem message_dhcprequest_renew s m os i pool ls :
  server_wf s → received_ok s m os →
  dhcp_option_retrieve os DHCP_OPTION_SERVER_IDENTIFIER = None → m_ciaddr m ≠ 0 →
  allocator_get_pool_by_address (s_allocator s) (m_ciaddr m) = Some (i, pool) →
  leases_of s (p_name pool) ls →
  match dhcp_option_retrieve os DHCP_OPTION_PARAMETER_REQUEST_LIST with
  | None => message_dhcprequest_handle m s = Undef NullDeref
  | Some _ =>
      ∃ rv s', message_dhcprequest_handle m s = Ret (rv, s') ∧ server_wf s' ∧
        s_allocator s' = s_allocator s ∧
        file_holds (s_env s') (p_name pool) (renewed s m pool ls) ∧
        (rv = 0 ∧ acknowledged s s' m pool (m_ciaddr m) ∨
         rv = -1 ∧ unanswered s s' ∧ (Exists (λ t, configured_for s pool t = None) [51; 54] ∨
                                      DHCP_PACKET_OPTIONS_SIZE < config_size s pool))
  end.
Proof.
  intros Hwf Hm H54 Hci Hpool Hls.
  destruct (dhcp_option_retrieve os DHCP_OPTION_PARAMETER_REQUEST_LIST) as [o55|] eqn:H55.
  - destruct (renew_message_run s m os o55 i pool ls) as (rv & s' & Hr & Hw & _ & H); try done.
    by exists rv, s'.
  - by eapply renew_missing_run.
Qed.

(** Why a request for an offer of this server is refused. *)
Definition inadmissible (s : dhcp_server) (m : dhcp_message) (os od : list dhcp_option) : Prop :=
  m_ciaddr m ≠ 0 ∨ m_yiaddr m ≠ 0 ∨ ¬ consistent os od ∨
  ∃ o50, dhcp_option_retrieve os DHCP_OPTION_REQUESTED_IP_ADDRESS = Some o50 ∧
    (value_ip o50 = 0 ∨ covered (s_allocator s) (value_ip o50) ∧ value_ip o50 ∉ in_use (s_allocator s)).

Lemma refuse_run s m p os d pd od o54 : server_wf s →
  m_dhcp_options m = Some p → load_options (s_heap s) p = Ret os →
  trans_cache_retrieve_message (s_trans_cache s) (m_xid m) DHCP_DISCOVER = Some d →
  m_dhcp_options d = Some pd → load_options (s_heap s) pd = Ret od → list_wf os → list_wf od →
  value_ip o54 = bound_ip (s_config s) → inadmissible s m os od →
  dhcp_request_response_to_offer m o54 s = Ret (DHCP_REQUEST_INVALID, s).
Proof.
  intros Hwf Hp Hl Hd Hpd Hld Hos Hod H54 Hbad. pose proof Hwf as [Hal _].
  unfold dhcp_request_response_to_offer. rewrite bind_gets, H54, Z.eqb_refl. cbn [negb].
  destruct (Z.eqb_spec (m_ciaddr m) 0) as [Hci|]; cbn [negb]; [|done].
  destruct (Z.eqb_spec (m_yiaddr m) 0) as [Hyi|]; cbn [negb]; [|done].
  rewrite prog_bind_eq, (validate_run s m p os d pd od) by done. cbv beta iota.
  destruct (bool_decide_reflect (consistent os od)) as [Hc|]; cbn [negb]; [|done].
  destruct Hbad as [|[|[|(o50 & H50 & Hbad)]]]; try done. unfold retrieve_client_address.
  rewrite bind_assoc, prog_bind_eq, (option_of_run s m os _ p) by done. cbv beta iota.
  change (u8 DHCP_OPTION_REQUESTED_IP_ADDRESS) with DHCP_OPTION_REQUESTED_IP_ADDRESS.
  rewrite H50, bind_mret, if_failed_ne_spec.
  destruct (Z.eqb_spec (value_ip o50) 0) as [|Hnz]; [done|]. destruct Hbad as [|Hbad]; [done|].
  rewrite bind_gets, prog_bind_eq. unfold lift at 1. rewrite is_available_correct by done.
  cbv beta iota. by rewrite bool_decide_true.
Qed.

(** A DHCPREQUEST for an offer of this server that carries an address of its
    own, contradicts the DHCPDISCOVER or asks for an address that is not being
    offered writes no lease and changes no allocation; the client is sent a
    DHCPNAK, or nothing when that cannot be done. *)
Theorem message_dhcprequest_refuse s m os d pd od o54 :
  server_wf s → received_ok s m os →
  trans_cache_retrieve_message (s_trans_cache s) (m_xid m) DHCP_DISCOVER = Some d →
  m_dhcp_options d = Some pd → load_options (s_heap s) pd = Ret od → list_wf od →
  dhcp_option_retrieve os DHCP_OPTION_SERVER_IDENTIFIER = Some o54 →
  value_ip o54 = bound_ip (s_config s) → inadmissible s m os od →
  ∃ rv s', message_dhcprequest_handle m s = Ret (rv, s') ∧ server_wf s' ∧
    s_allocator s' = s_allocator s ∧ outside_database (s_env s) (s_env s') ∧
    (rv = 0 ∧ refused s s' m ∨ rv = DHCP_REQUEST_INVALID ∧ unanswered s s').
Proof.
  intros Hwf Hm Hd Hpd Hld Hod H54 Hip Hbad. pose proof Hm as (Hmw & _ & _ & [Hos _] & _ & p & Hp & Hl).
  destruct (nak_run s m os Hwf Hm) as (rv & s' & Hrun & Hfr & Hrep).
  unfold message_dhcprequest_handle. rewrite prog_bind_eq, (option_of_run s m os _ p) by done.
  cbv beta iota. change (u8 DHCP_OPTION_SERVER_IDENTIFIER) with DHCP_OPTION_SERVER_IDENTIFIER.
  rewrite H54, prog_bind_eq, (refuse_run s m p os d pd od) by done. cbv beta iota.
  change (DHCP_REQUEST_INVALID <? 0) with true. cbv iota. rewrite prog_bind_eq, Hrun. by_status.
  assert (Hwf' : server_wf s') by exact (reply_frame_wf s s' Hwf Hfr).
  destruct Hfr as (Ha & _ & _ & Ho & _).
  destruct Hrep as [(-> & _ & Hr)|(-> & Hu & _)]; eexists _, s';
    (split; [reflexivity|]); (split; [done|]); (split; [done|]); (split; [done|]); [by left | by right].
Qed.

Lemma use_after_free_run s m p os d pd o54 :
  m_dhcp_options m = Some p → load_options (s_heap s) p = Ret os →
  trans_cache_retrieve_message (s_trans_cache s) (m_xid m) DHCP_DISCOVER = Some d →
  m_dhcp_options d = Some pd → load_options (s_heap s) pd = Undef UseAfterFree →
  dhcp_option_retrieve os DHCP_OPTION_SERVER_IDENTIFIER = Some o54 →
  value_ip o54 = bound_ip (s_config s) → m_ciaddr m = 0 → m_yiaddr m = 0 →
  message_dhcprequest_handle m s = Undef UseAfterFree.
Proof.
  intros Hp Hl Hd Hpd Hld H54 Hip Hci Hyi.
  unfold message_dhcprequest_handle. rewrite prog_bind_eq, (option_of_run s m os _ p) by done.
  cbv beta iota. change (u8 DHCP_OPTION_SERVER_IDENTIFIER) with DHCP_OPTION_SERVER_IDENTIFIER.
  rewrite H54, prog_bind_eq. unfold dhcp_request_response_to_offer.
  rewrite bind_gets, Hip, Z.eqb_refl, Hci, Hyi. cbn [Z.eqb negb].
  unfold validate_client_id_and_requested_params. rewrite bind_assoc, bind_gets, Hd.
  rewrite bind_assoc, prog_bind_eq, (option_of_run s m os _ p) by done. cbv beta iota.
  rewrite bind_assoc, prog_bind_eq. unfold option_of at 1. rewrite bind_gets. unfold lift, retrieve_option.
  by rewrite Hpd, Hld.
Qed.

(** The options of the DHCPDISCOVER are gone once another packet was parsed
    into the receive buffer, which its copy in the cache shares them with: the
    DHCPREQUEST that follows it reads freed memory. *)
Theorem message_dhcprequest_use_after_free s m os d pd o54 :
  received_ok s m os →
  trans_cache_retrieve_message (s_trans_cache s) (m_xid m) DHCP_DISCOVER = Some d →
  m_dhcp_options d = Some pd → load_options (s_heap s) pd = Undef UseAfterFree →
  dhcp_option_retrieve os DHCP_OPTION_SERVER_IDENTIFIER = Some o54 →
  value_ip o54 = bound_ip (s_config s) → m_ciaddr m = 0 → m_yiaddr m = 0 →
  message_dhcprequest_handle m s = Undef UseAfterFree.
Proof.
  intros (_ & _ & _ & _ & _ & p & Hp & Hl). intros. by eapply use_after_free_run.
Qed.

(** ** DHCPRELEASE, DHCPDECLINE and DHCPINFORM *)

(** C40. A DHCPRELEASE with a client address that belongs to a pool whose leases are in
    order, while no system call fails, takes the first lease of that address out
    of the database and frees the address, whoever sent the message: the sender
    is not compared with the client of the lease.  No reply is sent.  When the address was not in
    use the lease is removed all the same and the handler reports an error;
    without a lease of the address nothing changes. *)
Theorem message_dhcprelease_spec s m i pool ls :
  server_wf s → m_ciaddr m ≠ 0 →
  allocator_get_pool_by_address (s_allocator s) (m_ciaddr m) = Some (i, pool) →
  leases_of s (p_name pool) ls →
  ∃ rv s', message_dhcprelease_handle m s = Ret (rv, s') ∧ server_wf s' ∧ unanswered s s' ∧
    match lease_at ls (m_ciaddr m) with
    | Some (k, _) => file_holds (s_env s') (p_name pool) (delete k ls) ∧
        in_use (s_allocator s') = in_use (s_allocator s) ∖ {[m_ciaddr m]} ∧
        rv = (if decide (m_ciaddr m ∈ in_use (s_allocator s)) then 0 else -1)
    | None => file_holds (s_env s') (p_name pool) ls ∧ s_allocator s' = s_allocator s ∧ rv = -1
    end.
Proof.
  intros Hwf Hci Hpool [Hnf Hf]. pose proof Hwf as [Hal _].
  destruct (pool_address _ _ _ _ Hal Hpool) as (_ & _ & Hcov).
  unfold message_dhcprelease_handle. rewrite (proj2 (Z.eqb_neq _ _)) by done.
  rewrite bind_gets, prog_bind_eq, (retrieve_address_eq _ _ _ i pool Hpool).
  destruct (retrieve_correct (s_env s) (p_name pool) ls lease_new (m_ciaddr m) Hnf Hf)
    as (e1 & Hr & Hn1 & Hf1 & _). rewrite (with_env_run _ s _ _ Hr).
  unfold lease_at in *. destruct (list_find _ ls) as [[k l]|] eqn:El; by_status.
  2: { eexists _, _. split; [reflexivity|]. split; [done|]. split; [done|]. by split_and?. }
  assert (Haddr : l_address l = m_ciaddr m) by by apply list_find_Some in El as (_ & ? & _).
  destruct (remove_correct e1 (p_name pool) ls (with_pool_name l (Some (p_name pool))) eq_refl Hn1 Hf1)
    as (rv2 & e2 & Hr2 & Hn2 & _ & Hfind).
  cbn [l_address with_pool_name] in Hfind. rewrite Haddr, El in Hfind. destruct Hfind as [-> Hf2].
  rewrite prog_bind_eq, (with_env_run _ (set_env e1 s) _ _ Hr2). by_status.
  rewrite prog_bind_eq. unfold with_allocator. cbn [s_allocator set_env with_pool_name l_address].
  rewrite Haddr. destruct (release_correct (s_allocator s) (m_ciaddr m) Hal)
    as (rv & al' & -> & Hs & Hal' & Hopt). unfold release_spec in Hs.
  rewrite bool_decide_true in Hs by done. cbn [negb] in Hs. cbv beta iota. rewrite if_failed_spec.
  assert (Hwf' : server_wf (set_allocator al' (set_env e2 (set_env e1 s))))
    by exact (same_configuration_wf (set_env e2 (set_env e1 s)) al' Hwf Hal' Hopt).
  destruct (decide _) as [Hin|Hni]; injection Hs as -> Hu; cbn [Z.eqb negb ALLOCATOR_OK ALLOCATOR_ADDR_NOT_IN_USE];
    eexists _, _; (split; [reflexivity|]); (split; [done|]); (split; [done|]); (split; [done|]).
  - by split.
  - split; [|done]. cbn [s_allocator set_allocator]. rewrite Hu. set_solver.
Qed.

(** No message of the transaction is known as a DHCPACK. *)
Definition no_ack_cached (s : dhcp_server) (m : dhcp_message) : Prop :=
  ∀ x, x ∈ messages_of (s_trans_cache s) (m_xid m) → m_type x ≠ DHCP_ACK.

(** A DHCPDECLINE is dropped after the server acknowledged the address: the
    DHCPACK it looks for is in the cache with type 0. *)
Theorem message_dhcpdecline_ignored s s' m m' pool a :
  no_ack_cached s m →
  acknowledged s s' m pool a → m_xid m ≠ 0 → m_xid m' = m_xid m →
  message_dhcpdecline_handle m' s' = Ret (-1, s').
Proof.
  intros Hno (reply & opts & (pk & _ & _ & Hmsgs) & _ & Hty & _ & Hx & _) Hnz Hx'.
  unfold message_dhcpdecline_handle. rewrite bind_gets.
  assert (trans_cache_retrieve_message_last (s_trans_cache s') (m_xid m') DHCP_ACK = None) as ->; [|done].
  rewrite Hx'. specialize (Hmsgs (m_xid m) Hnz). rewrite decide_True in Hmsgs by done.
  unfold trans_cache_retrieve_message_last, messages_of in *.
  destruct (trans_cache_retrieve_transaction (s_trans_cache s') (m_xid m)) as [[k t]|]; [|done].
  cbn. rewrite Hmsgs. apply search_for_last_none. intros x [Hin|Hin]%elem_of_app; [by apply Hno|]. apply list_elem_of_singleton in Hin as ->.
  cbn [m_type with_time with_packet]. by rewrite Hty.
Qed.

(** The callback of the timer of a transaction does not recognise the DHCPACK in
    the cache either, whose type is 0 as the builder left it: for a transaction
    with an offer that was acknowledged, it frees the address. *)
Theorem acknowledged_address_released s s' m pool offer a :
  server_wf s → server_wf s' → acknowledged s s' m pool a → m_xid m ≠ 0 →
  no_ack_cached s m →
  search_for (messages_of (s_trans_cache s) (m_xid m)) DHCP_OFFER = Some offer → m_yiaddr offer = a →
  ∃ k t, trans_cache_retrieve_transaction (s_trans_cache s') (m_xid m) = Some (k, t) ∧
    ∀ time, ∃ s'', trans_timer_cb_clear k time s' = Ret (0, s'') ∧
      in_use (s_allocator s'') = in_use (s_allocator s') ∖ {[a]}.
Proof.
  intros Hwf Hwf' (reply & opts & (pk & _ & _ & Hmsgs) & _ & Hty & _ & Hx & _) Hnz Hno Hoffer Hy.
  specialize (Hmsgs (m_xid m) Hnz). rewrite decide_True in Hmsgs by done.
  unfold messages_of at 1 in Hmsgs.
  destruct (trans_cache_retrieve_transaction (s_trans_cache s') (m_xid m)) as [[k t]|] eqn:Et.
  2: { by destruct (messages_of (s_trans_cache s) (m_xid m)). }
  exists k, t. split; [done|]. intros time. apply cache_retrieve_Some in Et as [Hk _].
  change (srv_cache s' !! k = Some t) in Hk.
  destruct (clear_callback s' k t time Hk (proj1 Hwf')) as (s'' & Hrun & _ & _ & Huse).
  exists s''. split; [exact Hrun|].
  change (srv_allocator s'') with (s_allocator s'') in Huse.
  change (srv_allocator s') with (s_allocator s') in Huse. rewrite Huse.
  unfold abandoned. rewrite Hmsgs, (search_for_app _ _ _ offer Hoffer), search_for_none; [by rewrite Hy|].
  intros x [Hin|Hin]%elem_of_app; [by apply Hno|]. apply list_elem_of_singleton in Hin as ->.
  cbn [m_type with_time with_packet]. by rewrite Hty.
Qed.

(** A DHCPINFORM is answered with a DHCPACK sent to the client's own address,
    which carries no address and no lease time, and neither allocates nor
    leases anything. *)
Theorem message_dhcpinform_spec s m os o55 i pool :
  server_wf s → received_ok s m os → m_ciaddr m ≠ 0 →
  dhcp_option_retrieve os DHCP_OPTION_PARAMETER_REQUEST_LIST = Some o55 →
  allocator_get_pool_by_address (s_allocator s) (m_ciaddr m) = Some (i, pool) →
  ∃ rv s', message_dhcpinform_handle m s = Ret (rv, s') ∧ server_wf s' ∧
    s_allocator s' = s_allocator s ∧ outside_database (s_env s) (s_env s') ∧
    (rv = 0 ∧ informed s s' m pool ∨ rv = -1 ∧ unanswered s s' ∧ cannot_reply s pool [54]).
Proof.
  intros Hwf Hm Hci H55 Hpool.
  destruct (ack_inform_run s m os o55 i pool) as (rv & s' & Hrun & Hfr & Hr); try done.
  unfold message_dhcpinform_handle. rewrite prog_bind_eq, Hrun. cbv beta iota.
  assert (Hwf' : server_wf s') by exact (reply_frame_wf s s' Hwf Hfr). destruct Hfr as (Ha & _ & _ & Ho & _).
  destruct Hr as [(-> & _ & Hi)|(-> & Hu & Hc)]; eexists _, s'; (split; [reflexivity|]);
    (split; [done|]); (split; [done|]); (split; [done|]); [by left | by right].
Qed.
End Request.

(** ** Witnesses *)

(** The server after it offered 192.168.1.5, when the DHCPREQUEST arrived. *)
Definition sample_base : address_allocator := Allocator sample_global [sample_pool].

Definition offered_allocator : address_allocator :=
  match @allocator_request_this_address cclog_run sample_base 3232235781 with
  | Ret (_, al, _) => al
  | _ => sample_base
  end.

Definition offered_pool : address_pool :=
  match address_pools offered_allocator with p :: _ => p | [] => sample_pool end.

Definition sample_request (ciaddr : Z) : dhcp_message :=
  Message packet_zero DHCP_REQUEST BOOTREQUEST ETHERNET 6 0 3735928559 0 32768 ciaddr 0 0 0
    ([2; 66; 172; 17; 0; 2] ++ zeros 12) (zeros SNAME_LEN) (zeros FILENAME_LEN) MAGIC_COOKIE
    (Some 2%positive) 0.

Definition request_options : list dhcp_option :=
  [message_type_option DHCP_REQUEST; numeric_option DHCP_OPTION_SERVER_IDENTIFIER 4 3232235777;
   numeric_option DHCP_OPTION_REQUESTED_IP_ADDRESS 4 3232235781;
   bytes_option DHCP_OPTION_PARAMETER_REQUEST_LIST [1; 3; 51]].

Definition renew_options : list dhcp_option :=
  [message_type_option DHCP_REQUEST; bytes_option DHCP_OPTION_PARAMETER_REQUEST_LIST [1; 3; 51]].

Definition request_server (discover : option (list dhcp_option)) (options : list dhcp_option)
    : dhcp_server :=
  Server offered_allocator sample_added
    (timer_new 1000 TIMER_REPEAT 60 true (Some check_lease_expirations_ptr)) None None sample_config
    1000 {[1%positive := discover; 2%positive := Some options]} (Env ∅ []) [] (Ipc true 0 [] []).

Lemma offered_ok : allocator_wf offered_allocator ∧ same_configuration sample_base offered_allocator ∧
  3232235781 ∈ in_use offered_allocator ∧
  allocator_get_pool_by_address offered_allocator 3232235781 = Some (0%nat, offered_pool).
Proof.
  destruct (@request_this_correct cclog_run sample_base 3232235781) as (rv & al & buf & H & Hs & Hw & Ho & _);
    [exact (proj1 sample_allocator_ok)|].
  assert (E : @allocator_request_this_address cclog_run sample_base 3232235781 =
    Ret (0, offered_allocator, Some 3232235781)) by (vm_compute; reflexivity).
  rewrite E in H. injection H as <- <- <-. split; [done|]. split; [done|].
  split; [|vm_compute; reflexivity]. unfold request_spec in Hs.
  destruct (bool_decide _); cbn [negb] in Hs; [|discriminate]. destruct (decide _); [discriminate|].
  assert (Hu : in_use offered_allocator = {[3232235781]} ∪ in_use sample_base)
    by exact (f_equal (λ x, x.1.2) Hs).
  rewrite Hu. apply elem_of_union_l, elem_of_singleton_2. done.
Qed.

Lemma request_server_wf d options : server_wf (request_server d options).
Proof.
  apply (same_configuration_wf (sample_server options)); [apply sample_server_wf | apply offered_ok | apply offered_ok].
Qed.

Lemma request_received d ciaddr options : is_u32 ciaddr → list_wf options →
  Forall (λ o, o_lenght o ≤ DHCP_OPTION_MAX_LENGHT) options →
  received_ok (request_server d options) (sample_request ciaddr) options.
Proof.
  intros Hc Hw Hl. split.
  { destruct sample_message_wf as (H8 & H9 & H10 & H32 & Hrest). split; [exact H8|]. split; [exact H9|].
    split; [exact H10|]. split; [|exact Hrest]. unfold sample_request.
    cbn [m_xid m_ciaddr m_yiaddr m_siaddr m_giaddr m_cookie] in *.
    rewrite !Forall_cons in *. tauto. }
  split; [done|]. split; [done|]. split; [done|]. split; [|by exists 2%positive].
  exists sample_transaction. split; [|done]. apply (list_elem_of_lookup_2 _ 0). vm_compute. reflexivity.
Qed.

Lemma no_leases d options name : leases_of (CJ := TreeJson.tree_json) (request_server d options) name [].
Proof. split; reflexivity. Qed.

Lemma request_lists : list_wf request_options ∧ list_wf renew_options ∧ list_wf sample_options ∧
  Forall (λ o, o_lenght o ≤ DHCP_OPTION_MAX_LENGHT) request_options ∧
  Forall (λ o, o_lenght o ≤ DHCP_OPTION_MAX_LENGHT) renew_options.
Proof. split_and!; by_decision. Qed.

Lemma message_dhcprequest_select_witness : ∃ s',
  @message_dhcprequest_handle cclog_run TreeJson.tree_json (sample_request 0)
    (request_server (Some sample_options) request_options) = Ret (0, s') ∧
  s_allocator s' = offered_allocator.
Proof.
  destruct offered_ok as (_ & _ & Hin & Hpool).
  destruct (@message_dhcprequest_select cclog_run TreeJson.tree_json
    (request_server (Some sample_options) request_options) (sample_request 0) request_options
    (with_time sample_message 1000) 1%positive sample_options
    (numeric_option DHCP_OPTION_SERVER_IDENTIFIER 4 3232235777)
    (numeric_option DHCP_OPTION_REQUESTED_IP_ADDRESS 4 3232235781) 0 offered_pool [])
    as (s' & H & _ & Ha & _).
  - apply request_server_wf.
  - apply request_received; [by_decision | apply request_lists | apply request_lists].
  - vm_compute. reflexivity.
  - reflexivity.
  - reflexivity.
  - apply request_lists.
  - reflexivity.
  - vm_compute. reflexivity.
  - reflexivity.
  - reflexivity.
  - by_decision.
  - reflexivity.
  - exact Hpool.
  - exact Hin.
  - by_decision.
  - vm_compute. discriminate.
  - apply no_leases.
  - exists s'. split; [exact H | exact Ha].
Defined.

Lemma message_dhcprequest_renew_witness : ∃ rv s',
  @message_dhcprequest_handle cclog_run TreeJson.tree_json (sample_request 3232235781)
    (request_server None renew_options) = Ret (rv, s') ∧ s_allocator s' = offered_allocator.
Proof.
  destruct offered_ok as (_ & _ & _ & Hpool).
  destruct (@message_dhcprequest_renew cclog_run TreeJson.tree_json (request_server None renew_options)
    (sample_request 3232235781) renew_options 0 offered_pool [])
    as (rv & s' & H & _ & Ha & _).
  - apply request_server_wf.
  - apply request_received; [by_decision | apply request_lists | apply request_lists].
  - reflexivity.
  - discriminate.
  - exact Hpool.
  - apply no_leases.
  - exists rv, s'. split; [exact H | exact Ha].
Defined.

Lemma message_dhcprequest_refuse_witness : ∃ rv s',
  @message_dhcprequest_handle cclog_run TreeJson.tree_json (sample_request 1)
    (request_server (Some sample_options) request_options) = Ret (rv, s') ∧
  s_allocator s' = offered_allocator.
Proof.
  destruct (@message_dhcprequest_refuse cclog_run TreeJson.tree_json
    (request_server (Some sample_options) request_options) (sample_request 1) request_options
    (with_time sample_message 1000) 1%positive sample_options
    (numeric_option DHCP_OPTION_SERVER_IDENTIFIER 4 3232235777)) as (rv & s' & H & _ & Ha & _).
  - apply request_server_wf.
  - apply request_received; [by_decision | apply request_lists | apply request_lists].
  - vm_compute. reflexivity.
  - reflexivity.
  - reflexivity.
  - apply request_lists.
  - reflexivity.
  - vm_compute. reflexivity.
  - left. discriminate.
  - exists rv, s'. split; [exact H | exact Ha].
Defined.

Lemma message_dhcprequest_use_after_free_witness :
  @message_dhcprequest_handle cclog_run TreeJson.tree_json (sample_request 0)
    (request_server None request_options) = Undef UseAfterFree.
Proof.
  apply (@message_dhcprequest_use_after_free cclog_run TreeJson.tree_json _ _ request_options
    (with_time sample_message 1000) 1%positive
    (numeric_option DHCP_OPTION_SERVER_IDENTIFIER 4 3232235777)).
  - apply request_received; [by_decision | apply request_lists | apply request_lists].
  - vm_compute. reflexivity.
  - reflexivity.
  - reflexivity.
  - reflexivity.
  - vm_compute. reflexivity.
  - reflexivity.
  - reflexivity.
Defined.

Lemma message_dhcprelease_spec_witness : ∃ s',
  @message_dhcprelease_handle cclog_run TreeJson.tree_json (sample_request 3232235781)
    (request_server None renew_options) = Ret (-1, s') ∧ s_allocator s' = offered_allocator.
Proof.
  destruct offered_ok as (_ & _ & _ & Hpool).
  destruct (@message_dhcprelease_spec cclog_run TreeJson.tree_json (request_server None renew_options)
    (sample_request 3232235781) 0 offered_pool []) as (rv & s' & H & _ & _ & Hr).
  - apply request_server_wf.
  - discriminate.
  - exact Hpool.
  - apply no_leases.
  - cbn [lease_at list_find] in Hr. destruct Hr as (_ & Ha & ->). exists s'. split; [exact H | exact Ha].
Defined.

(** The server after it acknowledged the request. *)
Lemma sample_acknowledged : ∃ s',
  acknowledged (request_server None request_options) s' (sample_request 0) offered_pool 3232235781 ∧
  server_wf s'.
Proof.
  destruct offered_ok as (_ & _ & _ & Hpool).
  destruct (@ack_build_run cclog_run (request_server None request_options) (sample_request 0)
    request_options (bytes_option DHCP_OPTION_PARAMETER_REQUEST_LIST [1; 3; 51]) 3232235781 0 offered_pool 0)
    as (rv & s' & _ & Hfr & Hr).
  - apply request_server_wf.
  - apply request_received; [by_decision | apply request_lists | apply request_lists].
  - by_decision.
  - reflexivity.
  - exact Hpool.
  - exists s'. split; [|eapply reply_frame_wf; [apply request_server_wf | exact Hfr]].
    destruct Hr as [(_ & _ & Ha)|(_ & _ & [Hc|[Hc|Hc]])]; [exact Ha | | by destruct Hc |].
    + exfalso. revert Hc. apply (bool_decide_unpack _). vm_compute. exact I.
    + exfalso. revert Hc. apply Z.le_ngt. vm_compute. discriminate.
Qed.

Lemma message_dhcpdecline_ignored_witness : ∃ s',
  @message_dhcpdecline_handle cclog_run (sample_request 0) s' = Ret (-1, s').
Proof.
  destruct sample_acknowledged as (s' & Ha & _). exists s'.
  apply (@message_dhcpdecline_ignored cclog_run (request_server None request_options) s' (sample_request 0)
    (sample_request 0) offered_pool 3232235781).
  - intros x Hx. change (messages_of _ _) with [with_time sample_message 1000] in Hx.
    apply list_elem_of_singleton in Hx as ->. discriminate.
  - exact Ha.
  - discriminate.
  - reflexivity.
Defined.

(** The offer of the sample address, in the cache. *)
Definition sample_offer : dhcp_message :=
  Message packet_zero DHCP_OFFER BOOTREPLY ETHERNET 6 0 3735928559 0 32768 0 3232235781 0 0
    ([2; 66; 172; 17; 0; 2] ++ zeros 12) (zeros SNAME_LEN) (zeros FILENAME_LEN) MAGIC_COOKIE None 0.

Definition sample_offered : transaction_cache :=
  (trans_cache_add_message 1000 sample_added sample_offer).1.2.

Definition offered_server : dhcp_server :=
  set_cache sample_offered (request_server None request_options).

Lemma sample_offered_wf : cache_wf sample_offered.
Proof.
  destruct (trans_cache_add_correct 1000 sample_added sample_offer sample_added_wf ltac:(discriminate))
    as (rv & c' & H & Hw & _). unfold sample_offered. by rewrite H.
Qed.

Lemma offered_server_wf : server_wf offered_server.
Proof.
  destruct (request_server_wf None request_options) as (Ha & _ & Hrest).
  split; [exact Ha|]. split; [exact sample_offered_wf | exact Hrest].
Qed.

Lemma offered_messages : messages_of (s_trans_cache offered_server) 3735928559 =
  [with_time sample_message 1000; with_time sample_offer 1000].
Proof. vm_compute. reflexivity. Qed.

Lemma offered_acknowledged : ∃ s',
  acknowledged offered_server s' (sample_request 0) offered_pool 3232235781 ∧ server_wf s'.
Proof.
  destruct offered_ok as (_ & _ & _ & Hpool).
  destruct (@ack_build_run cclog_run offered_server (sample_request 0)
    request_options (bytes_option DHCP_OPTION_PARAMETER_REQUEST_LIST [1; 3; 51]) 3232235781 0 offered_pool 0)
    as (rv & s' & _ & Hfr & Hr).
  - exact offered_server_wf.
  - destruct (request_received None 0 request_options) as (Hm & Hc & Hx & Ho & _ & Hl);
      [by_decision | apply request_lists | apply request_lists |].
    split; [exact Hm|]. split; [exact Hc|]. split; [exact Hx|]. split; [exact Ho|]. split; [|exact Hl].
    eexists. split; [apply (list_elem_of_lookup_2 _ 0); vm_compute; reflexivity | reflexivity].
  - by_decision.
  - reflexivity.
  - exact Hpool.
  - exists s'. split; [|eapply reply_frame_wf; [exact offered_server_wf | exact Hfr]].
    destruct Hr as [(_ & _ & Ha)|(_ & _ & [Hc|[Hc|Hc]])]; [exact Ha | | by destruct Hc |].
    + exfalso. revert Hc. apply (bool_decide_unpack _). vm_compute. exact I.
    + exfalso. revert Hc. apply Z.le_ngt. vm_compute. discriminate.
Qed.

Lemma acknowledged_address_released_witness : ∃ s' k s'',
  @trans_timer_cb_clear cclog_run dhcp_server dhcp_server_trans k 2000 s' = Ret (0, s'') ∧
  in_use (s_allocator s'') = in_use (s_allocator s') ∖ {[3232235781]}.
Proof.
  destruct offered_acknowledged as (s' & Ha & Hw). exists s'.
  destruct (@acknowledged_address_released cclog_run offered_server s' (sample_request 0) offered_pool
    (with_time sample_offer 1000) 3232235781) as (k & t & _ & H).
  - exact offered_server_wf.
  - exact Hw.
  - exact Ha.
  - discriminate.
  - unfold no_ack_cached. change (m_xid (sample_request 0)) with 3735928559.
    rewrite offered_messages. intros x Hx.
    apply elem_of_cons in Hx as [->|Hx]; [discriminate|]. apply list_elem_of_singleton in Hx as ->.
    discriminate.
  - change (m_xid (sample_request 0)) with 3735928559. rewrite offered_messages. reflexivity.
  - reflexivity.
  - destruct (H 2000) as (s'' & Hrun & Hu). exists k, s''. split; [exact Hrun | exact Hu].
Defined.

Lemma message_dhcpinform_spec_witness : ∃ rv s',
  @message_dhcpinform_handle cclog_run (sample_request 3232235781)
    (request_server None renew_options) = Ret (rv, s') ∧ s_allocator s' = offered_allocator.
Proof.
  destruct offered_ok as (_ & _ & _ & Hpool).
  destruct (@message_dhcpinform_spec cclog_run (request_server None renew_options)
    (sample_request 3232235781) renew_options
    (bytes_option DHCP_OPTION_PARAMETER_REQUEST_LIST [1; 3; 51]) 0 offered_pool)
    as (rv & s' & H & _ & Ha & _).
  - apply request_server_wf.
  - apply request_received; [by_decision | apply request_lists | apply request_lists].
  - discriminate.
  - reflexivity.
  - exact Hpool.
  - exists rv, s'. split; [exact H | exact Ha].
Defined.
