(* ===== verification/Snoop.v ===== *)
(** The search for rogue DHCP servers, [security/dhcp_snooping/dhcp_snoop.c]:
    the server broadcasts a DHCPDISCOVER of its own, listens for ten seconds and
    reports the offers of servers that are not on a list.

    What a scan takes from the outside is a [scan_input]: the random transaction
    id, the uninitialised memory of the address buffer, the descriptor of the
    new socket, and for each turn of the listening loop the time and what [recv]
    finds. *)
From Stdlib Require Import Ascii String.
From stdpp Require Import sorting.
From S2P Require Import Prelude Bytes Xtoy Files Rfc Options Packet Timer Server Messages.
Local Open Scope Z_scope.

(** ** [enum dhcp_snooper_status] *)
Definition DHCP_SNOOP_DISABLED : Z := -2147483648.
Definition DHCP_SNOOP_ERROR : Z := -1.
Definition DHCP_SNOOP_NO_THREAT : Z := 0.
Definition DHCP_SNOOP_POTENTIAL_ROGUE : Z := 1.

Definition STATUS_MSG_LEN : Z := 4096.

Record scan_input := ScanInput {
  si_rand : Z;
  si_mac_buffer : list Z;
  si_socket : Z;
  si_turns : list (Z * recv_result);
}.

Section Snoop.
Context `{CC : !Cclog}.

(** ** The discover *)
Definition discover_send (discover : dhcp_message) : prog dhcp_server Z :=
  rv ← sendto 0xffffffff discover;
  mret (if if_failed_n rv then -1 else 0).

(** [get_dhcp_options(discover)] *)
Definition get_discover_options (discover : dhcp_message) : prog dhcp_server Z :=
  o ← lift (dhcp_option_new_values DHCP_OPTION_DHCP_MESSAGE_TYPE 1 [DHCP_DISCOVER]);
  rv ← add_option discover o;
  mret (if if_failed rv then -1 else 0).

Definition set_xid_used_in_scan (xid : Z) (s : dhcp_server) : dhcp_server :=
  let i := s_ipc s in
  set_ipc (Ipc (server_keep_running i) xid (i_commands i) (i_responses i)) s.

(** The result is the status and the value left in [*xid_buf]. *)
Definition snoop_send_dhcp_discover (rand : Z) (mac_buffer : list Z) (spoofed_mac : string)
    (xid_buf : Z) : prog dhcp_server (Z * Z) :=
  discover ← new_message;
  let xid := u32 rand in
  _ ← modify (set_xid_used_in_scan xid);
  mac_buffer ← lift (mac_to_uint8_array spoofed_mac mac_buffer);
  mac ← lift (slice mac_buffer 0 6);
  chaddr ← lift (blit (m_chaddr discover) 0 mac);
  let discover := Message (m_packet discover) DHCP_DISCOVER BOOTREQUEST ETHERNET 6 0 xid
    (htons 65535) 32768 0 0 0 0 chaddr (m_sname discover) (m_filename discover) MAGIC_COOKIE
    (m_dhcp_options discover) (m_time discover) in
  rv ← get_discover_options discover;
  if if_failed rv then mret (-1, xid_buf)
  else
    h ← gets s_heap;
    '(rv, discover) ← lift (dhcp_packet_build h discover);
    if if_failed rv then mret (-1, xid_buf)
    else
      rv ← discover_send discover;
      if if_failed rv then mret (-1, xid_buf) else mret (0, m_xid discover).

(** ** The offers *)
Definition is_server_whitelisted (list_ : list Z) (m : dhcp_message) : prog dhcp_server bool :=
  o ← option_of m DHCP_OPTION_SERVER_IDENTIFIER;
  match o with
  | None => mret false
  | Some o => mret (existsb (λ a, a =? value_ip o) list_)
  end.

(** [strcat(status, buff)] *)
Definition strcat_status (status buff : string) : result string :=
  if Z.of_nat (String.length status) + Z.of_nat (String.length buff) <? STATUS_MSG_LEN
  then Ret (status ++ buff)%string else Undef OutOfBounds.

(** The second test is on the server identifier, not on the host name. *)
Definition log_threat (msg : dhcp_message) (status : string) : prog dhcp_server string :=
  o_server_id ← option_of msg DHCP_OPTION_SERVER_IDENTIFIER;
  status ← lift (strcat_status status
    match o_server_id with
    | None => "Threat: No_ID - "
    | Some o => "Threat: " ++ uint32_to_ipv4_address (value_ip o) ++ " - "
    end%string);
  o_hostname ← option_of msg DHCP_OPTION_HOST_NAME;
  buff ← match o_server_id with
         | None => mret "No hostname,"%string
         | Some _ =>
             o ← lift (deref o_hostname);
             name ← lift (c_string (o_value o));
             mret ("hostname: " ++ name ++ ",")%string
         end;
  lift (strcat_status status buff).

(** ** [listen_to_offers] *)

(** [cb_turn_off_scanning], called by the timer: the state is the timer and
    [keep_waiting_for_offer]. *)
Definition cb_turn_off_scanning (cb : timer_cb) (time : Z) : prog (timer * bool) Z :=
  λ '(t, _), Ret (0, (t, false)).

Definition put_scan_timer (t : timer) : prog (timer * bool) () :=
  λ '(_, waiting), Ret ((), (t, waiting)).

(** The body of the loop after the timer: a new message, result and report. *)
Definition listen_turn (server_whitelist : list Z) (xid : Z) (r : recv_result)
    (message : dhcp_message) (rv : Z) (status : string)
    : prog dhcp_server (dhcp_message * Z * string) :=
  match r with
  | NoDatagram | RecvError => mret (message, rv, status)
  | Datagram bytes =>
      '(parsed, message) ← parse_message (recv_packet message bytes);
      if parsed <? 0 then mret (message, rv, status)
      else if negb (m_type message =? DHCP_OFFER) || negb (m_xid message =? xid)
      then mret (message, rv, status)
      else
        listed ← is_server_whitelisted server_whitelist message;
        if (listed : bool) then mret (message, rv, status)
        else
          status ← log_threat message status;
          mret (message, DHCP_SNOOP_POTENTIAL_ROGUE, status)
  end.

Fixpoint listen_loop (turns : list (Z * recv_result)) (server_whitelist : list Z) (xid : Z)
    (t : timer) (message : dhcp_message) (rv : Z) (status : string)
    : prog dhcp_server (Z * string) :=
  match turns with
  | [] => λ _, NoFuel
  | (now, r) :: turns =>
      _ ← modify (set_now now);
      '(_, (t, keep_waiting_for_offer)) ←
        lift (timer_update now t put_scan_timer cb_turn_off_scanning (t, true));
      '(message, rv, status) ← listen_turn server_whitelist xid r message rv status;
      if (keep_waiting_for_offer : bool)
      then listen_loop turns server_whitelist xid t message rv status
      else mret (rv, status)
  end.

Definition listen_to_offers (turns : list (Z * recv_result)) (server_whitelist : list Z)
    (status_msg : string) (xid : Z) : prog dhcp_server (Z * string) :=
  now ← gets s_now;
  let timer := timer_new now TIMER_ONCE 10 true (Some cb_turn_off_scanning_ptr) in
  message ← new_message;
  '(rv, status_msg) ←
    listen_loop turns server_whitelist xid timer message DHCP_SNOOP_ERROR status_msg;
  if negb (rv =? DHCP_SNOOP_POTENTIAL_ROGUE) then
    status_msg ← lift (strcat_status status_msg "No threats detected");
    mret (DHCP_SNOOP_NO_THREAT, status_msg)
  else mret (rv, status_msg).

(** ** The scan *)

(** System calls made one after the other until one fails. *)
Fixpoint until_failure (calls : nat) : prog env () :=
  match calls with
  | O => mret ()
  | S n => f ← fails; if (f : bool) then mret () else until_failure n
  end.

(** [socket]; then three calls of [setsockopt], two of [fcntl] and [bind], whose
    failure does not change the result. *)
Definition create_dhcp_client_socket (fd : Z) : prog dhcp_server Z :=
  f ← with_env fails;
  if (f : bool) then mret (-1)
  else _ ← with_env (until_failure 6); mret fd.

(** [snooping] tells whether the server is built with
    [CONFIG_SECURITY_ENABLE_DHCP_SNOOPING]. The result is the status and
    [*status_msg]. *)
Definition dhcp_snooper_perform_scan (snooping : bool) (i : scan_input)
    (spoofed_mac : option string) (server_whitelist : list Z) (status_msg : option string)
    : prog dhcp_server (Z * option string) :=
  if negb snooping then mret (DHCP_SNOOP_DISABLED, status_msg)
  else
    match spoofed_mac with
    | None => mret (DHCP_SNOOP_ERROR, status_msg)
    | Some mac =>
        let status := EmptyString in
        socket ← create_dhcp_client_socket (si_socket i);
        if if_failed_n socket then mret (DHCP_SNOOP_ERROR, Some status)
        else
          '(rv, xid) ← snoop_send_dhcp_discover (si_rand i) (si_mac_buffer i) mac 0;
          if if_failed rv then mret (DHCP_SNOOP_ERROR, Some status)
          else
            '(rv, status) ← listen_to_offers (si_turns i) server_whitelist status xid;
            mret (rv, Some status)
    end.

Definition dhcp_snooper_check_xid (xid : Z) : prog dhcp_server bool :=
  i ← gets s_ipc; mret (xid =? xid_used_in_scan i).
End Snoop.

(** ** Specification *)

(** A timer that ends a scan: it runs, and runs out at [deadline]. *)
Definition scanning (t : timer) : Prop :=
  timer_wf t ∧ ti_type t = TIMER_ONCE ∧ ti_is_running t = true ∧
  ti_cb t = Some cb_turn_off_scanning_ptr ∧ 0 < ti_rtime t.
Definition deadline (t : timer) : Z := ti_ltime t + ti_rtime t.

Section Spec.
Context `{CC : !Cclog}.

(** The turns of a list one after the other. *)
Fixpoint listen_all (turns : list (Z * recv_result)) (server_whitelist : list Z) (xid : Z)
    (message : dhcp_message) (rv : Z) (status : string)
    : prog dhcp_server (Z * string) :=
  match turns with
  | [] => mret (rv, status)
  | (now, r) :: turns =>
      _ ← modify (set_now now);
      '(message, rv, status) ← listen_turn server_whitelist xid r message rv status;
      listen_all turns server_whitelist xid message rv status
  end.

(** The answer of a scan. *)
Definition verdict (rv : Z) (status : string) : result (Z * string) :=
  if rv =? DHCP_SNOOP_POTENTIAL_ROGUE then Ret (rv, status)
  else status ← strcat_status status "No threats detected"; Ret (DHCP_SNOOP_NO_THREAT, status).

(** ** The time a scan takes *)
Lemma scan_timer_update now t : scanning t → is_u32 now → ti_ltime t ≤ now →
  timer_update now t put_scan_timer cb_turn_off_scanning (t, true) =
  if decide (deadline t ≤ now) then Ret (0, (expired t now, false))
  else Ret (TIMER_NOCB, (ticked t now, true)).
Proof.
  intros (Hwf & Hty & Hrun & Hcb & Hpos) Hn Hle. rewrite timer_update_running by done.
  unfold deadline. destruct (decide (now = ti_ltime t)) as [->|Hne].
  - rewrite decide_False, ticked_id by lia. reflexivity.
  - destruct (decide (ti_rtime t ≤ now - ti_ltime t)).
    + rewrite decide_True by lia. rewrite Hcb. reflexivity.
    + rewrite decide_False by lia. reflexivity.
Qed.

Lemma scanning_ticked t now : scanning t → is_u32 now → ti_ltime t ≤ now < deadline t →
  scanning (ticked t now) ∧ deadline (ticked t now) = deadline t.
Proof.
  unfold deadline. intros (Hwf & Hty & Hrun & Hcb & Hpos) Hn Hle.
  split; [|simpl; lia]. split; [apply ticked_wf; [done | done | lia | lia]|].
  split_and?; [done | done | done | simpl; lia].
Qed.

Lemma listen_loop_eq before now r rest wl xid : ∀ t message rv status s,
  scanning t → Sorted Z.le (ti_ltime t :: (before ++ [(now, r)]).*1) →
  Forall (λ u, u.1 < deadline t) before → deadline t ≤ now < 2 ^ 32 →
  listen_loop (before ++ (now, r) :: rest) wl xid t message rv status s =
  listen_all (before ++ [(now, r)]) wl xid message rv status s.
Proof.
  induction before as [|[u ru] before IH]; intros t message rv status s Ht Hs Hb Hn;
    cbn [app fmap list_fmap fst listen_loop listen_all] in *;
    apply Sorted_inv in Hs as [Hs Hh]; apply HdRel_inv in Hh;
    rewrite !bind_modify, prog_bind_eq; unfold lift.
  - assert (is_u32 now) by (destruct Ht as ((_ & _ & [? ?]) & _); unfold is_u32; lia).
    rewrite scan_timer_update by done. rewrite decide_True by lia. cbv beta iota.
    rewrite !prog_bind_eq. by destruct (listen_turn _ _ _ _ _ _ _) as [[[[? ?] ?] ?]| |].
  - apply Forall_cons in Hb as [Hu Hb]. cbn [fst] in Hu.
    assert (Hu32 : is_u32 u) by (destruct Ht as ((_ & _ & [? ?]) & _); unfold is_u32; lia).
    rewrite scan_timer_update by done. rewrite decide_False by lia. cbv beta iota.
    destruct (scanning_ticked t u Ht Hu32 ltac:(lia)) as [Ht' Hd].
    rewrite !prog_bind_eq. destruct (listen_turn _ _ _ _ _ _ _) as [[[[m' rv'] st'] s']| |]; [|done..].
    apply IH; [done | exact Hs | by rewrite Hd | by rewrite Hd].
Qed.

Lemma listen_eq before now r rest wl status xid s :
  Sorted Z.le (s_now s :: (before ++ [(now, r)]).*1) → 0 ≤ s_now s →
  Forall (λ u, u.1 < s_now s + 10) before → s_now s + 10 ≤ now < 2 ^ 32 →
  listen_to_offers (before ++ (now, r) :: rest) wl status xid s =
  (message ← new_message;
   '(rv, status) ← listen_all (before ++ [(now, r)]) wl xid message DHCP_SNOOP_ERROR status;
   lift (verdict rv status)) s.
Proof.
  intros Hs H0 Hb Hn. unfold listen_to_offers. rewrite bind_gets.
  set (t := timer_new _ _ _ _ _).
  assert (Hl : ti_ltime t = s_now s) by (subst t; cbn; apply u32_small; unfold is_u32; lia).
  assert (Ht : scanning t).
  { split; [|split_and?; try done].
    split; [by_decision|]. split; [by_decision|]. rewrite Hl. unfold is_u32. lia. }
  assert (Hd : deadline t = s_now s + 10) by (unfold deadline; rewrite Hl; done).
  rewrite !prog_bind_eq. destruct (new_message s) as [[message s1]| |]; [|done..].
  rewrite !prog_bind_eq, listen_loop_eq by (rewrite ?Hl, ?Hd; done).
  destruct (listen_all _ _ _ _ _ _ _) as [[[rv st] s2]| |]; [|done..].
  unfold verdict. destruct (rv =? DHCP_SNOOP_POTENTIAL_ROGUE); cbn [negb]; [done|].
  rewrite prog_bind_eq. unfold lift. by destruct (strcat_status _ _).
Qed.

(** ** What is reported *)

(** The report on the server that sent an offer with options [os]. *)
Definition threat_report (os : list dhcp_option) : result string :=
  match dhcp_option_retrieve os DHCP_OPTION_SERVER_IDENTIFIER with
  | None => Ret "Threat: No_ID - No hostname,"%string
  | Some o =>
      h ← deref (dhcp_option_retrieve os DHCP_OPTION_HOST_NAME);
      name ← c_string (o_value h);
      mret ("Threat: " ++ uint32_to_ipv4_address (value_ip o) ++ " - hostname: " ++ name ++ ",")%string
  end.

(** A server that the list does not name; one without an identifier never is. *)
Definition unlisted (server_whitelist : list Z) (os : list dhcp_option) : Prop :=
  match dhcp_option_retrieve os DHCP_OPTION_SERVER_IDENTIFIER with
  | None => True
  | Some o => value_ip o ∉ server_whitelist
  end.
#[export] Instance unlisted_dec wl os : Decision (unlisted wl os).
Proof. unfold unlisted. destruct (dhcp_option_retrieve _ _); apply _. Defined.

Lemma whitelisted_run wl m s p os : m_dhcp_options m = Some p → load_options (s_heap s) p = Ret os →
  is_server_whitelisted wl m s = Ret (negb (bool_decide (unlisted wl os)), s).
Proof.
  intros Hp Hl. unfold is_server_whitelisted. rewrite prog_bind_eq.
  rewrite (option_of_run s m os _ p Hp Hl). cbv beta iota.
  change (u8 DHCP_OPTION_SERVER_IDENTIFIER) with DHCP_OPTION_SERVER_IDENTIFIER.
  destruct (bool_decide_reflect (unlisted wl os)) as [H|H]; unfold unlisted in H;
    destruct (dhcp_option_retrieve os _) as [o|]; try done;
    unfold mret, prog_ret; do 2 f_equal; cbn [negb].
  - apply not_true_iff_false. intros (a & Ha & Hv%Z.eqb_eq)%existsb_exists.
    apply H. rewrite <-Hv. by apply list_elem_of_In.
  - apply dec_stable in H. apply existsb_exists. exists (value_ip o).
    split; [by apply list_elem_of_In | apply Z.eqb_refl].
Qed.

Lemma strcat_room status buff :
  Z.of_nat (String.length status) + Z.of_nat (String.length buff) < STATUS_MSG_LEN →
  strcat_status status buff = Ret (status ++ buff)%string.
Proof. intros H. unfold strcat_status. by rewrite (proj2 (Z.ltb_lt _ _)). Qed.

(** The longest report has fewer than 300 characters. *)
Lemma log_threat_run m status s p os : m_dhcp_options m = Some p → load_options (s_heap s) p = Ret os →
  list_wf os → Z.of_nat (String.length status) + 300 ≤ STATUS_MSG_LEN →
  log_threat m status s =
  match threat_report os with
  | Ret text => Ret ((status ++ text)%string, s)
  | Undef f => Undef f
  | NoFuel => NoFuel
  end.
Proof.
  intros Hp Hl [Hw _] Hroom. unfold log_threat, threat_report.
  rewrite prog_bind_eq, (option_of_run s m os _ p Hp Hl). cbv beta iota.
  change (u8 DHCP_OPTION_SERVER_IDENTIFIER) with DHCP_OPTION_SERVER_IDENTIFIER.
  rewrite prog_bind_eq. unfold lift at 1.
  destruct (dhcp_option_retrieve os DHCP_OPTION_SERVER_IDENTIFIER) as [o|].
  - pose proof (ipv4_text_length (value_ip o)). rewrite strcat_room
      by (rewrite !string_length_app; cbn [String.length]; lia). cbv beta iota.
    rewrite prog_bind_eq, (option_of_run s m os _ p Hp Hl). cbv beta iota.
    change (u8 DHCP_OPTION_HOST_NAME) with DHCP_OPTION_HOST_NAME. rewrite !prog_bind_eq. unfold lift.
    destruct (dhcp_option_retrieve os DHCP_OPTION_HOST_NAME) as [h|] eqn:Eh; [|done].
    cbn [deref]. rewrite ret_bind. rewrite prog_bind_eq.
    assert (Hlen : length (o_value h) = VALUE_SIZE).
    { apply retrieve_Some in Eh as [Hin _]. rewrite Forall_forall in Hw. apply (Hw h Hin). }
    destruct (c_string (o_value h)) as [name|f|] eqn:En; cbn [mbind result_bind]; [|done..].
    apply c_string_length in En. rewrite Hlen in En. unfold VALUE_SIZE in En.
    unfold mret, prog_ret, result_ret. cbv beta iota.
    rewrite strcat_room by (rewrite !string_length_app; cbn [String.length]; lia).
    by rewrite <-!string_app_assoc.
  - rewrite strcat_room by (cbn [String.length]; lia). cbv beta iota.
    rewrite prog_bind_eq, (option_of_run s m os _ p Hp Hl). cbv beta iota.
    rewrite bind_mret. unfold lift. rewrite strcat_room by (rewrite string_length_app; cbn [String.length]; lia).
    by rewrite <-string_app_assoc.
Qed.

(** C34. A scan listens for ten seconds: it handles the datagrams of the turns up to
    the first one that is ten seconds later than its start, in their order, and
    no other, and then returns. *)
Theorem listen_to_offers_duration before now r rest wl status xid s :
  Sorted Z.le (s_now s :: (before ++ [(now, r)]).*1) → 0 ≤ s_now s →
  Forall (λ u, u.1 < s_now s + 10) before → s_now s + 10 ≤ now < 2 ^ 32 →
  listen_to_offers (before ++ (now, r) :: rest) wl status xid s =
  (message ← new_message;
   '(rv, status) ← listen_all (before ++ [(now, r)]) wl xid message DHCP_SNOOP_ERROR status;
   lift (verdict rv status)) s.
Proof. apply listen_eq. Qed.
(** An offer in answer to the scan is reported exactly when its server is not
    on the list, with the server's identifier and host name; nothing else is.
    An offer that carries an identifier but no host name makes the server read
    through a NULL pointer: the test on the host name looks at the identifier. *)
Theorem listen_turn_spec wl xid bytes m rv status s m' s' p os :
  parse_message (recv_packet m bytes) s = Ret ((0, m'), s') →
  m_dhcp_options m' = Some p → load_options (s_heap s') p = Ret os → list_wf os →
  Z.of_nat (String.length status) + 300 ≤ STATUS_MSG_LEN →
  listen_turn wl xid (Datagram bytes) m rv status s =
  if decide (m_type m' = DHCP_OFFER ∧ m_xid m' = xid ∧ unlisted wl os) then
    match threat_report os with
    | Ret text => Ret ((m', DHCP_SNOOP_POTENTIAL_ROGUE, (status ++ text)%string), s')
    | Undef f => Undef f
    | NoFuel => NoFuel
    end
  else Ret ((m', rv, status), s').
Proof.
  intros Hparse Hp Hl Hw Hroom. unfold listen_turn. rewrite prog_bind_eq, Hparse.
  cbv beta iota. cbn [Z.ltb Z.compare].
  destruct (Z.eqb_spec (m_type m') DHCP_OFFER) as [Ht|Ht]; cbn [negb orb];
    [|by rewrite decide_False by (by intros (? & _))].
  destruct (Z.eqb_spec (m_xid m') xid) as [Hx|Hx]; cbn [negb];
    [|by rewrite decide_False by (by intros (_ & ? & _))].
  rewrite prog_bind_eq, (whitelisted_run wl m' s' p os Hp Hl). cbv beta iota.
  destruct (bool_decide_reflect (unlisted wl os)) as [Hu|Hu]; cbn [negb];
    [|by rewrite decide_False by (by intros (_ & _ & ?))].
  rewrite decide_True by done. rewrite prog_bind_eq, (log_threat_run m' status s' p os Hp Hl Hw Hroom).
  by destruct (threat_report os).
Qed.

(** ** The discover of a scan *)

(** The message a scan broadcasts for a client address and a transaction id. *)
Definition scan_discover (chaddr : list Z) (xid : Z) : dhcp_message :=
  Message packet_zero DHCP_DISCOVER BOOTREQUEST ETHERNET 6 0 xid 65535 32768 0 0 0 0
    (chaddr ++ zeros 12) (zeros SNAME_LEN) (zeros FILENAME_LEN) MAGIC_COOKIE None 0.

Lemma scan_discover_wf chaddr xid q t : length chaddr = 6%nat → is_bytes chaddr → is_u32 xid →
  message_wf (with_time (with_options (scan_discover chaddr xid) q) t).
Proof.
  intros Hl Hb Hx. unfold message_wf, scan_discover, with_options, with_time.
  cbn [m_packet m_type m_opcode m_htype m_hlen m_hops m_xid m_secs m_flags m_ciaddr m_yiaddr m_siaddr
    m_giaddr m_chaddr m_sname m_filename m_cookie].
  split; [by_decision|]. split; [by_decision|]. split; [by_decision|].
  split; [repeat apply Forall_cons_2; try done; by_decision|].
  split; [rewrite length_app, Hl; done|]. split; [done|]. split; [done|].
  split; [|split; [done | by_decision]].
  rewrite <-app_assoc. apply Forall_app. split; [done | by_decision].
Qed.

Lemma discover_send_run m s : discover_send m s = send_to 0xffffffff m s.
Proof.
  unfold discover_send, send_to. rewrite !prog_bind_eq.
  destruct (sendto _ m s) as [[rv s']| |]; [|done..]. by destruct (if_failed_n rv).
Qed.

Lemma add_message_type_run m q s : m_dhcp_options m = Some q → load_options (s_heap s) q = Ret [] →
  get_discover_options m s =
  Ret (0, set_heap (store_options (s_heap s) q [message_type_option DHCP_DISCOVER]) s).
Proof.
  intros Hq Hl. unfold get_discover_options. rewrite prog_bind_eq. unfold lift at 1.
  change [DHCP_DISCOVER] with [u8 DHCP_DISCOVER]. rewrite new_message_type_option. cbv beta iota.
  unfold add_option. rewrite prog_bind_eq, prog_bind_eq, Hq. cbn [deref lift]. cbv beta iota.
  rewrite bind_gets, prog_bind_eq. unfold lift. rewrite Hl. cbv beta iota.
  cbn [dhcp_option_add dhcp_option_retrieve app]. rewrite bind_modify. cbv beta iota.
  unfold mret, prog_ret. cbv beta iota. by rewrite if_failed_spec.
Qed.

(** Six octets fill the buffer whatever it held, and so the address field. *)
Lemma spoofed_address mac buf chaddr : scan_mac 6 mac = chaddr → length chaddr = 6%nat →
  is_bytes chaddr → length buf = 6%nat →
  mac_to_uint8_array mac buf = Ret chaddr ∧ slice chaddr 0 6 = Ret chaddr ∧
  blit (zeros CHADDR_LEN) 0 chaddr = Ret (chaddr ++ zeros 12).
Proof.
  intros Hm Hl Hb Hbuf. split_and?.
  - unfold mac_to_uint8_array. rewrite Hm, blit_in by (unfold zlen; rewrite ?length_fmap; lia).
    unfold splice. cbn [Z.to_nat take app Nat.add]. rewrite length_fmap, Hl, drop_ge, app_nil_r by lia.
    f_equal. rewrite <-(list_fmap_id chaddr) at 2. apply list_fmap_ext. intros i b Hi.
    apply u8_small. eapply Forall_lookup_1; done.
  - rewrite slice_prefix by (unfold zlen; lia). f_equal. apply take_ge. lia.
  - rewrite (blit_zeros CHADDR_LEN) by (unfold zlen, CHADDR_LEN; lia). by rewrite Hl.
Qed.

(** A scan broadcasts one DHCPDISCOVER with the address it was given and no
    option but the message type, and remembers its transaction id, by which the
    server recognises the datagram when it receives it itself. *)
Theorem snoop_send_dhcp_discover_spec rand mac_buffer mac chaddr xid_buf s :
  scan_mac 6 mac = chaddr → length chaddr = 6%nat → is_bytes chaddr → length mac_buffer = 6%nat →
  no_fault s →
  ∃ s' rest, snoop_send_dhcp_discover rand mac_buffer mac xid_buf s = Ret ((0, u32 rand), s') ∧
    s_sent s' = s_sent s ++ [(0xffffffff, wire_format (scan_discover chaddr (u32 rand))
      (encode_all [message_type_option DHCP_DISCOVER] ++ DHCP_OPTION_END :: rest))] ∧
    dhcp_snooper_check_xid (u32 rand) s' = Ret (true, s') ∧
    s_allocator s' = s_allocator s ∧ s_trans_cache s' = s_trans_cache s ∧
    ∀ p os, load_options (s_heap s) p = Ret os → load_options (s_heap s') p = Ret os.
Proof.
  intros Hmac Hlen Hb Hbuf Hok. unfold snoop_send_dhcp_discover. rewrite prog_bind_eq.
  unfold new_message, dhcp_message_new, new_options. cbv zeta.
  assert (Hf : s_heap s !! fresh (dom (s_heap s)) = None) by apply not_elem_of_dom, is_fresh.
  generalize dependent (fresh (dom (s_heap s))). intros q Hf. cbv beta iota.
  destruct (spoofed_address mac mac_buffer chaddr Hmac Hlen Hb Hbuf) as (Ha & Hsl & Hbl).
  rewrite bind_modify, prog_bind_eq. unfold lift at 1. rewrite Ha. cbv beta iota.
  rewrite prog_bind_eq. unfold lift at 1. rewrite Hsl. cbv beta iota.
  rewrite prog_bind_eq. unfold lift at 1. cbn [m_chaddr]. rewrite Hbl. cbv beta iota.
  cbn [m_packet m_sname m_filename m_dhcp_options m_time].
  change (Message _ _ _ _ _ _ _ _ _ _ _ _ _ _ _ _ _ _ _) with
    (with_options (scan_discover chaddr (u32 rand)) (Some q)).
  set (m := with_options _ _). set (s1 := set_xid_used_in_scan _ _).
  assert (Hl : load_options (s_heap s1) q = Ret []) by (unfold load_options; cbn; by rewrite lookup_insert_eq).
  rewrite prog_bind_eq, (add_message_type_run m q s1 eq_refl Hl). cbv beta iota.
  rewrite if_failed_spec. cbn [Z.eqb negb]. rewrite bind_gets, prog_bind_eq. unfold lift at 1.
  set (s2 := set_heap _ s1).
  destruct (packet_build_correct (s_heap s2) m q [message_type_option DHCP_DISCOVER]) as (-> & _ & _).
  { apply (scan_discover_wf chaddr (u32 rand) (Some q) 0); auto with dhcp. }
  { reflexivity. } { reflexivity. }
  { unfold load_options. cbn. unfold store_options. by rewrite lookup_insert_eq. }
  { by apply Forall_singleton, message_type_ok. } { by vm_compute. }
  cbv beta iota. rewrite if_failed_spec. cbn [Z.eqb negb].
  rewrite prog_bind_eq, discover_send_run, send_to_run.
  change (hd_fault _) with (hd_fault (e_faults (s_env s))). rewrite Hok. cbv beta iota.
  rewrite if_failed_spec. cbn [Z.eqb negb].
  cbn [m_packet with_packet]. rewrite build_wire. eexists _, _. split; [reflexivity|].
  split; [reflexivity|]. split; [|split; [done|split; [done|]]].
  - unfold dhcp_snooper_check_xid. rewrite bind_gets. unfold mret, prog_ret. cbn. by rewrite Z.eqb_refl.
  - intros p os Hp. unfold load_options in *. cbn. unfold store_options.
    rewrite !lookup_insert_ne; [done|..]; intros ->; by rewrite Hf in Hp.
Qed.
End Spec.

(** ** Witnesses *)

(** The datagram of an offer with a server identifier and no host name. *)
Definition rogue_message : dhcp_message :=
  Message packet_zero DHCP_OFFER BOOTREPLY ETHERNET 6 0 77 0 32768 0 3232235999 0 0
    ([2; 66; 172; 17; 0; 2] ++ zeros 12) (zeros SNAME_LEN) (zeros FILENAME_LEN) MAGIC_COOKIE
    (Some 1%positive) 0.
Definition rogue_options : list dhcp_option :=
  [message_type_option DHCP_OFFER; numeric_option DHCP_OPTION_SERVER_IDENTIFIER 4 3232235900].
Definition rogue_datagram : list Z :=
  match @dhcp_packet_build cclog_run {[1%positive := Some rogue_options]} rogue_message with
  | Ret (_, m) => packet_encode (m_packet m)
  | _ => []
  end.

Definition scan_server : dhcp_server := sample_server [].
Definition scan_buffer : dhcp_message := with_options receiver (Some 1%positive).
Definition rogue_parsed : (Z * dhcp_message) * dhcp_server :=
  match @parse_message cclog_run (recv_packet scan_buffer rogue_datagram) scan_server with
  | Ret r => r
  | _ => ((-1, scan_buffer), scan_server)
  end.
Definition rogue_list : positive * list dhcp_option :=
  match m_dhcp_options rogue_parsed.1.2 with
  | Some p => match load_options (s_heap rogue_parsed.2) p with Ret os => (p, os) | _ => (p, []) end
  | None => (1%positive, [])
  end.

Lemma listen_to_offers_duration_witness : ∃ s',
  @listen_to_offers cclog_run [(1000, NoDatagram); (1009, RecvError); (1010, NoDatagram); (1011, NoDatagram)]
    [] "" 77 scan_server = Ret ((DHCP_SNOOP_NO_THREAT, "No threats detected"%string), s').
Proof.
  eexists. rewrite (@listen_to_offers_duration cclog_run [(1000, NoDatagram); (1009, RecvError)] 1010
    NoDatagram [(1011, NoDatagram)]).
  - reflexivity.
  - change (s_now scan_server) with 1000. repeat constructor; simpl; lia.
  - change (s_now scan_server) with 1000. lia.
  - change (s_now scan_server) with 1000. repeat constructor; simpl; lia.
  - change (s_now scan_server) with 1000. lia.
Defined.

Lemma listen_turn_spec_witness :
  @listen_turn cclog_run [3232235777] 77 (Datagram rogue_datagram) scan_buffer DHCP_SNOOP_ERROR ""
    scan_server = Undef NullDeref.
Proof.
  rewrite (@listen_turn_spec cclog_run [3232235777] 77 rogue_datagram scan_buffer DHCP_SNOOP_ERROR ""
    scan_server rogue_parsed.1.2 rogue_parsed.2 rogue_list.1 rogue_list.2).
  - vm_compute. reflexivity.
  - vm_compute. reflexivity.
  - vm_compute. reflexivity.
  - vm_compute. reflexivity.
  - by_decision.
  - vm_compute. discriminate.
Defined.

Lemma snoop_send_dhcp_discover_spec_witness : ∃ s' rest,
  @snoop_send_dhcp_discover cclog_run 77 (repeat 170 6) "02:42:ac:11:00:02" 0 scan_server =
    Ret ((0, 77), s') ∧
  s_sent s' = [(0xffffffff, wire_format (scan_discover [2; 66; 172; 17; 0; 2] 77)
    (encode_all [message_type_option DHCP_DISCOVER] ++ DHCP_OPTION_END :: rest))].
Proof.
  destruct (@snoop_send_dhcp_discover_spec cclog_run 77 (repeat 170 6) "02:42:ac:11:00:02"
    [2; 66; 172; 17; 0; 2] 0 scan_server) as (s' & rest & H & Hs & _);
    [reflexivity | reflexivity | by_decision | reflexivity | reflexivity |].
  exists s', rest. split; [exact H | exact Hs].
Defined.
