(* ===== verification/Unix.v ===== *)
(** The command interface, [unix_server.c] and [commands.c]: a client of the
    UNIX socket sends a JSON object with a command and its parameters, and
    receives a JSON array of lines.

    One call of [unix_server_handle] takes one [unix_request] from the outside.
    The descriptors are left out; every [send] is recorded in [i_responses]. *)
From Stdlib Require Import Ascii String.
From S2P Require Import Prelude Bytes Xtoy Json Files Options AddressPool Allocator Lease Server Messages Snoop.
Local Open Scope Z_scope.

(** ** [enum unix_svr_status] *)
Definition UNIX_STATUS_BAD_COMMAND : Z := -2.
Definition UNIX_STATUS_ERROR : Z := -1.
Definition UNIX_STATUS_OK : Z := 0.
Definition UNIX_STATUS_OK_NO_REQUEST : Z := 1.

(** [BUFSIZ] of [stdio.h] *)
Definition BUFSIZ : nat := Z.to_nat 8192.

(** What [accept] and [recv] find: no client ([EWOULDBLOCK]), an error of
    either call, or the bytes a client sent. *)
Inductive unix_request := NoClient | AcceptError | ClientError | ClientRequest (bytes : list Z).

(** An array of one string, as the string literals of the file write it. *)
Definition quote : string := String (ascii_of_nat 34) EmptyString.
Definition one_line (s : string) : string := ("[" ++ quote ++ s ++ quote ++ "]")%string.

Section Unix.
Context `{CC : !Cclog} `{CJ : !Cjson}.

(** ** The commands *)
Definition command_echo (params : json) : prog dhcp_server string :=
  mret (cJSON_PrintUnformatted params).

Definition set_keep_running (b : bool) (s : dhcp_server) : dhcp_server :=
  let i := s_ipc s in
  set_ipc (Ipc b (xid_used_in_scan i) (i_commands i) (i_responses i)) s.

(** [stop_running], the handler of SIGINT. *)
Definition stop_running : prog dhcp_server () := modify (set_keep_running false).

Definition command_stop (params : json) : prog dhcp_server string :=
  _ ← stop_running; mret (one_line "Stopping server").

(** The addresses of the trusted servers, from the second parameter on. *)
Fixpoint whitelist_of (params : list json) : result (list Z) :=
  match params with
  | [] => mret []
  | e :: params =>
      s ← deref (cJSON_GetStringValue e);
      ll ← whitelist_of params;
      mret (ipv4_address_to_uint32 s :: ll)
  end.

(** The tokens [strtok] finds between commas. *)
Fixpoint strtok_commas (s token : string) : list string :=
  let flush := match token with EmptyString => [] | _ => [token] end in
  match s with
  | EmptyString => flush
  | String c s =>
      if Ascii.eqb c "," then flush ++ strtok_commas s EmptyString
      else strtok_commas s (token ++ String c EmptyString)%string
  end.

Definition json_lines (lines : list string) : json :=
  foldl (λ a s, cJSON_AddItemToArray a (cJSON_CreateString s)) cJSON_CreateArray lines.

(** Without parameters [mac] is used as it was left by the declaration. *)
Definition command_rogue_scan (snooping : bool) (i : scan_input) (params : json)
    : prog dhcp_server string :=
  if negb snooping
  then mret (one_line "DHCP snooping is not supported. Please read the manual.")
  else
    match cJSON_children params with
    | [] => lift (Undef Uninitialised)
    | mac :: rest =>
        ll ← lift (whitelist_of rest);
        '(rv, res) ← dhcp_snooper_perform_scan snooping i (cJSON_GetStringValue mac) ll None;
        if rv <? 0 then mret (one_line "Error")
        else
          res ← lift (deref res);
          mret (cJSON_PrintUnformatted (json_lines (strtok_commas res EmptyString)))
    end.

(** [snprintf(buff, BUFSIZ, ...)] *)
Definition pool_line (p : address_pool) : string :=
  str_take (BUFSIZ - 1)
    (p_name p ++ " (" ++ uint32_to_ipv4_address (p_start_address p) ++ " to " ++
     uint32_to_ipv4_address (p_end_address p) ++ "): " ++ print_u (p_available_addresses p) ++
     " available leases")%string.

Definition command_pool_status (params : json) : prog dhcp_server string :=
  al ← gets s_allocator;
  mret (cJSON_PrintUnformatted (json_lines (pool_line <$> address_pools al))).

(** A call through the function pointer of a command. *)
Definition call_command (snooping : bool) (i : scan_input) (f : command_func) (params : json)
    : prog dhcp_server string :=
  match f with
  | command_echo_ptr => command_echo params
  | command_stop_ptr => command_stop params
  | command_rogue_scan_ptr => command_rogue_scan snooping i params
  | command_pool_status_ptr => command_pool_status params
  end.

(** ** The server *)
Fixpoint find_command (commands : list (string * command_func)) (command : string)
    : option command_func :=
  match commands with
  | [] => None
  | (name, f) :: commands => if String.eqb name command then Some f else find_command commands command
  end.

Definition handle_command (snooping : bool) (i : scan_input) (j : json)
    : prog dhcp_server (option string) :=
  match get_string (cJSON_GetObjectItem j "command"), cJSON_GetObjectItem j "parameters" with
  | Some command, Some params =>
      commands ← gets (λ s, i_commands (s_ipc s));
      match find_command commands command with
      | Some f => r ← call_command snooping i f params; mret (Some r)
      | None => mret (Some (one_line "ERROR: Unknown command"))
      end
  | _, _ => mret None
  end.

Definition add_response (r : string) (s : dhcp_server) : dhcp_server :=
  let i := s_ipc s in
  set_ipc (Ipc (server_keep_running i) (xid_used_in_scan i) (i_commands i) (i_responses i ++ [r])) s.

(** [send(client_sock, text, strlen(text), 0)] *)
Definition send_client (text : string) : prog dhcp_server Z :=
  f ← with_env fails;
  if (f : bool) then mret (-1)
  else _ ← modify (add_response text); mret (Z.of_nat (String.length text)).

(** [error_respond]: [bytes] is the length of the request, not of the text. *)
Definition error_respond (bytes : nat) : prog dhcp_server Z :=
  let text := (one_line "ERROR" ++ str_zeros 1)%string in
  if (String.length text <? bytes)%nat then lift (Undef OutOfBounds)
  else _ ← send_client (str_take bytes text); mret UNIX_STATUS_OK.

Definition unix_server_handle (snooping : bool) (i : scan_input) (r : unix_request)
    : prog dhcp_server Z :=
  match r with
  | NoClient => mret UNIX_STATUS_OK
  | AcceptError => mret (-1)
  | ClientError => mret UNIX_STATUS_ERROR
  | ClientRequest bytes =>
      let bytes := take BUFSIZ bytes in
      text ← lift (c_string (splice 0 bytes (zeros BUFSIZ)));
      match cJSON_Parse text with
      | None => error_respond (length bytes)
      | Some j =>
          response ← handle_command snooping i j;
          match response with
          | None => error_respond (length bytes)
          | Some response =>
              rv ← send_client response;
              if if_failed_n rv then mret UNIX_STATUS_ERROR else mret UNIX_STATUS_OK
          end
      end
  end.
End Unix.

(** ** Specification *)

(** The addresses of a pool that are free. *)
Definition free_addresses (p : address_pool) : list Z :=
  filter (λ a, a ∉ leased p) (addresses p).

(** A request the server cannot answer: no JSON, or without the two members. *)
Definition unanswerable `{CJ : !Cjson} (text : string) : Prop :=
  match cJSON_Parse text with
  | None => True
  | Some j => get_string (cJSON_GetObjectItem j "command") = None ∨
              cJSON_GetObjectItem j "parameters" = None
  end.

(** What a client is told about a pool. *)
Definition pool_report (p : address_pool) : string :=
  str_take (BUFSIZ - 1)
    (p_name p ++ " (" ++ uint32_to_ipv4_address (p_start_address p) ++ " to " ++
     uint32_to_ipv4_address (p_end_address p) ++ "): " ++
     print_u (Z.of_nat (length (free_addresses p))) ++ " available leases")%string.

Section Spec.
Context `{CC : !Cclog} `{CJ : !Cjson}.

Lemma free_count p : pool_wf p → p_available_addresses p = Z.of_nat (length (free_addresses p)).
Proof.
  intros (Hr & _ & _ & _ & ->).
  assert (Hin : length (filter (λ a, a ∈ leased p) (addresses p)) = size (leased p)).
  { rewrite <-(size_list_to_set (C := gset Z)) by apply NoDup_filter, NoDup_seqZ. f_equal.
    apply set_eq. intros a. rewrite elem_of_list_to_set, list_elem_of_filter.
    split; [by intros [? _]|]. intros Ha. split; [done|]. unfold leased in Ha.
    by apply elem_of_list_to_set, list_elem_of_filter in Ha as [_ ?]. }
  unfold free_addresses. pose proof (filter_length_neg (λ a, a ∈ leased p) (addresses p)) as H.
  unfold addresses in H at 3. rewrite length_seqZ in H. lia.
Qed.

Lemma json_lines_children lines :
  cJSON_children (json_lines lines) = cJSON_CreateString <$> lines.
Proof.
  unfold json_lines. assert (H : ∀ a, cJSON_children
    (foldl (λ a s, cJSON_AddItemToArray a (cJSON_CreateString s)) a lines) =
    cJSON_children a ++ (cJSON_CreateString <$> lines)).
  { induction lines as [|l lines IH]; intros a; cbn [foldl fmap list_fmap]; [by rewrite app_nil_r|].
    rewrite IH, children_add_spec, <-app_assoc. reflexivity. }
  by rewrite H, children_empty_spec.
Qed.

Lemma pool_line_report p : pool_wf p → pool_line p = pool_report p.
Proof. intros Hp. unfold pool_line, pool_report. by rewrite (free_count p Hp). Qed.

(** The pool-status command answers with one line for each pool, in the order
    of the configuration, that names the number of addresses a client can
    still obtain from it, and changes nothing. *)
Theorem command_pool_status_spec params s : allocator_wf (s_allocator s) →
  ∃ a, command_pool_status params s = Ret (cJSON_PrintUnformatted a, s) ∧
    cJSON_children a =
      (λ p, cJSON_CreateString (pool_report p)) <$> address_pools (s_allocator s).
Proof.
  intros (Hps & _). unfold command_pool_status. rewrite bind_gets. eexists. split; [reflexivity|].
  rewrite json_lines_children, <-list_fmap_compose. apply list_fmap_ext. intros i p Hi. cbn.
  f_equal. apply pool_line_report. by eapply Forall_lookup_1.
Qed.

(** A request of more than ten bytes that the server cannot answer makes it
    send that many bytes of a string of ten. *)
Theorem unix_server_handle_overread snooping i bytes text s :
  (10 < length bytes ≤ BUFSIZ)%nat → c_string (splice 0 bytes (zeros BUFSIZ)) = Ret text →
  unanswerable text →
  unix_server_handle snooping i (ClientRequest bytes) s = Undef OutOfBounds.
Proof.
  intros Hlen Htext Hun. unfold unix_server_handle. rewrite take_ge by lia.
  rewrite prog_bind_eq. unfold lift at 1. rewrite Htext. cbv beta iota.
  assert (He : error_respond (length bytes) s = Undef OutOfBounds).
  { unfold error_respond. change (String.length _) with 10%nat.
    by rewrite (proj2 (Nat.ltb_lt _ _)) by lia. }
  unfold unanswerable in Hun. destruct (cJSON_Parse text) as [j|]; [|exact He].
  rewrite prog_bind_eq. unfold handle_command.
  destruct (get_string _) as [c|]; [|exact He].
  destruct (cJSON_GetObjectItem j "parameters"); [|exact He]. by destruct Hun.
Qed.

Lemma send_client_run text s : ∃ rv e rs, send_client text s =
  Ret (rv, set_ipc (Ipc (server_keep_running (s_ipc s)) (xid_used_in_scan (s_ipc s))
             (i_commands (s_ipc s)) (i_responses (s_ipc s) ++ rs)) (set_env e s)).
Proof.
  destruct s as [al c ti acl dacl cfg now h [files fs] sent [k x cs rs]]. unfold send_client.
  rewrite prog_bind_eq. unfold with_env. cbn [s_env]. rewrite fails_eq. cbv beta iota.
  destruct (hd_fault fs); unfold mbind, prog_bind, modify, mret, prog_ret, add_response, set_env, set_ipc; cbn.
  - eexists _, _, []. rewrite app_nil_r. reflexivity.
  - by eexists _, _, [text].
Qed.

(** The command that stops the server is answered and clears the flag that
    keeps it running, even when the answer cannot be sent. *)
Theorem unix_server_handle_stop snooping i bytes text j params s :
  (length bytes ≤ BUFSIZ)%nat → c_string (splice 0 bytes (zeros BUFSIZ)) = Ret text →
  cJSON_Parse text = Some j → get_string (cJSON_GetObjectItem j "command") = Some "stop-server"%string →
  cJSON_GetObjectItem j "parameters" = Some params →
  find_command (i_commands (s_ipc s)) "stop-server" = Some command_stop_ptr →
  ∃ rv s', unix_server_handle snooping i (ClientRequest bytes) s = Ret (rv, s') ∧
    server_keep_running (s_ipc s') = false ∧ s_allocator s' = s_allocator s ∧
    s_trans_cache s' = s_trans_cache s.
Proof.
  intros Hlen Htext Hj Hc Hp Hf. unfold unix_server_handle. rewrite take_ge by lia.
  rewrite prog_bind_eq. unfold lift at 1. rewrite Htext. cbv beta iota. rewrite Hj.
  rewrite prog_bind_eq. unfold handle_command. rewrite Hc, Hp, bind_gets, Hf.
  cbn [call_command]. unfold command_stop, stop_running. rewrite prog_bind_eq, bind_modify.
  unfold mret, prog_ret. cbv beta iota. rewrite prog_bind_eq.
  destruct (send_client_run (one_line "Stopping server") (set_keep_running false s))
    as (rv & e & rs & ->). cbv beta iota.
  destruct (if_failed_n rv); eexists _, _; (split; [reflexivity|]); done.
Qed.
End Spec.

(** ** Witnesses *)
Definition text_bytes (s : string) : list Z := code <$> list_ascii_of_string s.

Definition stop_request : TreeJson.tree :=
  GenNode 1 [TreeJson.member "command" (GenLeaf (inl "stop-server"%string));
             TreeJson.member "parameters" (GenNode 0 [])].

Definition command_server : dhcp_server :=
  set_ipc (Ipc true 0 [("echo"%string, command_echo_ptr); ("stop-server"%string, command_stop_ptr)] [])
    scan_server.

Definition no_scan : scan_input := ScanInput 0 (repeat 0 6) 3 [].

Lemma command_pool_status_spec_witness : ∃ a,
  @command_pool_status TreeJson.tree_json (GenNode 0 []) command_server =
    Ret (TreeJson.print a, command_server) ∧
  TreeJson.elements a = [GenLeaf (inl (pool_report sample_pool))].
Proof.
  destruct (@command_pool_status_spec TreeJson.tree_json (GenNode 0 []) command_server)
    as (a & H & Ha); [apply (sample_server_wf [])|].
  exists a. split; [exact H | exact Ha].
Defined.

Lemma unix_server_handle_overread_witness :
  @unix_server_handle cclog_run TreeJson.tree_json true no_scan
    (ClientRequest (text_bytes "pool-status")) command_server = Undef OutOfBounds.
Proof.
  apply (@unix_server_handle_overread cclog_run TreeJson.tree_json true no_scan
    (text_bytes "pool-status") "pool-status").
  - split; [apply Nat.ltb_lt; reflexivity | apply Nat.leb_le; reflexivity].
  - vm_compute. reflexivity.
  - exact I.
Defined.

Lemma unix_server_handle_stop_witness : ∃ rv s',
  @unix_server_handle cclog_run TreeJson.tree_json true no_scan
    (ClientRequest (text_bytes (TreeJson.print stop_request))) command_server = Ret (rv, s') ∧
  server_keep_running (s_ipc s') = false.
Proof.
  destruct (@unix_server_handle_stop cclog_run TreeJson.tree_json true no_scan
    (text_bytes (TreeJson.print stop_request)) (TreeJson.print stop_request) stop_request
    (GenNode 0 []) command_server) as (rv & s' & H & Hk & _).
  - apply Nat.leb_le. vm_compute. reflexivity.
  - vm_compute. reflexivity.
  - vm_compute. reflexivity.
  - reflexivity.
  - reflexivity.
  - reflexivity.
  - exists rv, s'. split; [exact H | exact Hk].
Defined.
