(* ===== verification/Console.v ===== *)
(** The Commands tab of the configuration interface, [gui/src/tab_command.cpp] and
    [gui/src/commands.cpp]: commands the tab runs itself, and commands it sends to
    the socket of the server ([Unix]) and whose answer it prints. *)
From Stdlib Require Import Ascii String.
From S2P Require Import Prelude Bytes Xtoy Scanf Json Files Options AddressPool Allocator Lease Server TabInspect TabLeases TabConfig Messages Snoop Unix.
Local Open Scope Z_scope.

(** ** Text *)

(** The words an [istringstream] holds. *)
Fixpoint words_from (s token : string) : list string :=
  let flush := match token with EmptyString => [] | _ => [token] end in
  match s with
  | EmptyString => flush
  | String c s =>
      if is_space c then flush ++ words_from s EmptyString
      else words_from s (token ++ String c EmptyString)%string
  end.
Definition words (s : string) : list string := words_from s "".

(** What [std::getline] finds between delimiters; nothing after the last one. *)
Fixpoint getline_from (d : ascii) (s token : string) : list string :=
  match s with
  | EmptyString => match token with EmptyString => [] | _ => [token] end
  | String c s =>
      if Ascii.eqb c d then token :: getline_from d s EmptyString
      else getline_from d s (token ++ String c EmptyString)%string
  end.
Definition getline_words (d : ascii) (s : string) : list string := getline_from d s "".

(** The text before the first space, or all of it. *)
Fixpoint before_space (s : string) : string :=
  match s with
  | EmptyString => EmptyString
  | String c s => if Ascii.eqb c " " then EmptyString else String c (before_space s)
  end.

Fixpoint all_digits (s : string) : bool :=
  match s with
  | EmptyString => true
  | String c s => match digit_val c with Some _ => all_digits s | None => false end
  end.
Definition is_number (s : string) : bool := negb (String.eqb s "") && all_digits s.

(** ** State *)
Inductive local_command := CLEAR | HELP | CONFIG.

(** [struct Command]; [c_func]: the member function, [None] when [ipc] is set. *)
Record gui_command := Command {
  c_name : string;
  c_ipc : bool;
  c_func : option local_command;
  c_help : string;
  c_usage : string;
}.

Record tab_command := TabM {
  output : list string;
  output_selected : Z;
  input : string;
}.

Definition push (t : tab_command) (line : string) : tab_command :=
  TabM (output t ++ [line]) (output_selected t) (input t).

Definition initialize_commands : list gui_command :=
  [Command "clear" false (Some CLEAR) "Deletes all output" "clear";
   Command "help" false (Some HELP) "Shows short help page for each command" "help | ?";
   Command "?" false (Some HELP) "" "";
   Command "config" false (Some CONFIG) "Set or get value of a config entry. For arrays use 0 base indexing"
     "config get/set path.to.config.entry [new_value]";
   Command "echo" true None "Echoes back what the user types in arguments" "echo param1 param2 ...";
   Command "stop-server" true None "Stops the running dhcp server" "stop-server";
   Command "rogue-scan" true None
     "Perform a scan for potential dhcp rogue servers (running server must have support for scanning)"
     "rogue-scan <mac-address> [legit-server-ip ...]";
   Command "pool-status" true None "See the current number of available addresses in each pool"
     "pool-status"].

(** The constructor. *)
Definition TabCommand : tab_command := TabM [] 0 "".

(** What the system calls on the socket find: the text that is sent is answered by
    the other side. *)
Inductive answer := SendFailed | NotReceived | Received (bytes : list Z).
Inductive connection := NoSocket | NotConnected | Connected (respond : string → answer).

Section Console.
Context `{CJ : !Cjson}.

(** ** The server's commands *)
Definition json_error (error : string) : json :=
  cJSON_AddItemToArray cJSON_CreateArray (cJSON_CreateString error).

(** [words.front()] of no words is undefined. *)
Definition json_create_command (input : string) : result string :=
  match words input with
  | [] => Undef OutOfBounds
  | command :: parameters =>
      let json := cJSON_AddItemToObject cJSON_CreateObject "command" (cJSON_CreateString command) in
      let array := foldl (λ a s, cJSON_AddItemToArray a (cJSON_CreateString s)) cJSON_CreateArray parameters in
      mret (cJSON_PrintUnformatted (cJSON_AddItemToObject json "parameters" array))
  end.

(** A buffer that the answer fills has no NUL. *)
Definition send_command (conn : connection) (t : tab_command) : result (option json) :=
  match conn with
  | NoSocket => mret (Some (json_error "Failed to create socket"))
  | NotConnected => mret (Some (json_error "Connection failed"))
  | Connected respond =>
      json_string ← json_create_command (input t);
      match respond json_string with
      | SendFailed => mret (Some (json_error "Send failed"))
      | NotReceived => mret (Some (json_error "Receive failed or connection closed"))
      | Received bytes =>
          let bytes := take BUFSIZ bytes in
          if (length bytes =? 0)%nat then mret (Some (json_error "Receive failed or connection closed"))
          else text ← c_string (splice 0 bytes (zeros BUFSIZ)); mret (cJSON_Parse text)
      end
  end.

Fixpoint print_loop (elements : list json) (t : tab_command) : result tab_command :=
  match elements with
  | [] => mret t
  | e :: elements =>
      line ← (if negb (cJSON_IsString e) then mret "ERROR: This value is not a string"%string
              else deref (cJSON_GetStringValue e));
      print_loop elements (push t line)
  end.

Definition print_response (j : option json) (t : tab_command) : result tab_command :=
  match j with
  | None => mret (push t "ERROR: Invalid JSON retuned")
  | Some j =>
      if negb (cJSON_IsArray j) then mret (push t "ERROR: returned value is not a JSON array")
      else print_loop (cJSON_children j) t
  end.

(** ** The tab's commands *)
Definition command_clear (t : tab_command) : tab_command := TabM [] 0 (input t).

Definition help_lines (entry : gui_command) : list string :=
  if String.eqb (c_name entry) "?" then []
  else [("  " ++ c_name entry ++ " : " ++ c_help entry)%string; ("    Usage: " ++ c_usage entry)%string].

Definition command_help (t : tab_command) : tab_command :=
  foldl push t ("Short description of each command"%string :: (initialize_commands ≫= help_lines)).

(** [config_get_path]: a number is an index, another word a key; a number that is
    too large throws. *)
Fixpoint get_path (j : option json) (words : list string) : result (option json) :=
  match words with
  | [] => mret j
  | word :: words =>
      if is_number word then
        n ← stoi word; get_path (j ≫= λ j, cJSON_children j !! Z.to_nat n) words
      else get_path (get_item j word) words
  end.
Definition config_get_path (root : json) (path : string) : result (option json) :=
  get_path (Some root) (getline_words "." path).

(** The tree after the item of a path was changed. *)
Fixpoint set_path (j : json) (words : list string) (v : json) : json :=
  match words with
  | [] => v
  | word :: words =>
      if is_number word then
        match stoi word with
        | Ret n =>
            match cJSON_children j !! Z.to_nat n with
            | Some e => cJSON_update_element j (Z.to_nat n) (set_path e words v)
            | None => j
            end
        | _ => j
        end
      else
        match cJSON_GetObjectItem j word with
        | Some e => cJSON_update_member j word (set_path e words v)
        | None => j
        end
  end.

(** [valueint] of a number. *)
Definition valueint (j : json) : result Z :=
  n ← deref (cJSON_GetNumberValue j); mret (Z.max (- 2 ^ 31) (Z.min n (2 ^ 31 - 1))).

Definition config_value (conf : json) : result string :=
  if cJSON_IsString conf then deref (cJSON_GetStringValue conf)
  else if cJSON_IsNumber conf then n ← valueint conf; mret (print_int n)
  else if cJSON_IsBool conf then mret (if cJSON_IsTrue conf then "True" else "False")%string
  else mret "Error: Cannot show value of this object"%string.

(** The switch of "set": the item, a line, and whether the file is written. *)
Definition config_new_value (conf : json) (text : string) : result (json * list string * bool) :=
  if cJSON_IsString conf then mret (cJSON_CreateString text, [], true)
  else if cJSON_IsNumber conf then
    if negb (is_number text) then mret (conf, ["Error: expected number"%string], true)
    else n ← stoi text; mret (cJSON_CreateNumber n, [], true)
  else if cJSON_IsBool conf then
    match text with
    | String c _ =>
        if Ascii.eqb c "0" then mret (cJSON_CreateBool false, [], true)
        else if Ascii.eqb c "1" then mret (cJSON_CreateBool true, [], true)
        else mret (conf, ["Error: expected boolean (0|1)"%string], true)
    | EmptyString => mret (conf, ["Error: expected boolean (0|1)"%string], true)
    end
  else mret (conf, ["Error: Cannot set value of this object"%string], false).

(** The lines and the tree that is written, if any. *)
Definition config_run (root : json) (substrings : list string) : result (list string * option json) :=
  match substrings with
  | _ :: action :: path :: rest =>
      conf ← config_get_path root path;
      match conf with
      | None => mret ([("Error: Could not find config entry " ++ path)%string], None)
      | Some conf =>
          shown ← (if String.eqb action "get" then line ← config_value conf; mret [line] else mret []);
          if String.eqb action "set" then
            match rest with
            | [text] =>
                '(v, lines, write) ← config_new_value conf text;
                mret (shown ++ lines,
                      if (write : bool) then Some (set_path root (getline_words "." path) v) else None)
            | _ => mret (shown ++ ["Error: Missing new value, check command usage"%string], None)
            end
          else mret (shown, None)
      end
  | _ => mret (["Error: Bad input format, check usage"%string], None)
  end.

(** [errno]: what a failed call leaves. *)
Definition command_config (errno : Z) (t : tab_command) : prog env tab_command :=
  fd ← sys_open default_config_path;
  match fd with
  | Opened path _ =>
      e ← get_state;
      root ← lift (parse_buffer (contents e path));
      match root with
      | None => mret (push t "Erorr: failed to parse JSON")
      | Some root =>
          '(lines, written) ← lift (config_run root (take 4 (getline_words " " (input t))));
          let t := foldl push t lines in
          match written with
          | None => mret t
          | Some root =>
              ok ← write_file default_config_path (cJSON_Print root ++ String "010" "")%string;
              mret (if (ok : bool) then t else push t ("Failed to open config file: " ++ print_int errno)%string)
          end
      end
  | _ => mret (push t "Error opening config file")
  end.

(** ** The input *)
Definition find_gui_command (commands : list gui_command) (name : string) : option gui_command :=
  List.find (λ c, String.eqb (c_name c) name) commands.

Definition handle_command (conn : connection) (errno : Z) (t : tab_command) : prog env tab_command :=
  match find_gui_command initialize_commands (before_space (input t)) with
  | Some entry =>
      let t := push t ("$ " ++ input t)%string in
      if c_ipc entry then lift (r ← send_command conn t; print_response r t)
      else
        match c_func entry with
        | Some CLEAR => mret (command_clear t)
        | Some HELP => mret (command_help t)
        | Some CONFIG => command_config errno t
        | None => lift (Undef NullDeref)
        end
  | None => mret (push t ("Unknown command: " ++ input t ++ ". Use command 'help' to show all commands")%string)
  end.

(** The return key; the last line is selected. *)
Definition on_return (conn : connection) (errno : Z) (t : tab_command) : prog env tab_command :=
  if (String.length (input t) =? 0)%nat then mret t
  else
    t ← handle_command conn errno t;
    mret (TabM (output t) (Z.of_nat (length (output t)) - 1) "").
End Console.

(** ** Text *)
Section Text.

(** A word holds no space. *)
Fixpoint is_word (s : string) : bool :=
  match s with EmptyString => true | String c s => negb (is_space c) && is_word s end.

Lemma words_from_word w : ∀ s token, is_word w = true →
  words_from (w ++ s) token = words_from s (token ++ w).
Proof.
  induction w as [|c w IH]; intros s token Hw; [by rewrite string_app_nil|].
  cbn in Hw. apply andb_true_iff in Hw as [Hc Hw]. apply negb_true_iff in Hc.
  rewrite string_app_cons. cbn [words_from]. rewrite Hc, IH by done.
  by rewrite <-string_app_assoc, string_app_cons.
Qed.

Lemma words_word w : is_word w = true → w ≠ ""%string → words w = [w].
Proof.
  intros Hw Hne. unfold words. rewrite <-(string_app_nil w) at 1. rewrite words_from_word by done.
  change ("" ++ w)%string with w. by destruct w.
Qed.

Lemma before_space_word w : is_word w = true → before_space w = w.
Proof.
  induction w as [|c w IH]; intros Hw; [done|]. cbn in *. apply andb_true_iff in Hw as [Hc Hw].
  apply negb_true_iff in Hc. destruct (Ascii.eqb_spec c " ") as [->|]; [done|]. by rewrite IH.
Qed.

(** Text without a NUL is read back from the buffer it was put into. *)
Lemma c_string_text s n : Forall (λ c, c ≠ zero) (list_ascii_of_string s) →
  c_string (text_bytes s ++ zeros (S n)) = Ret s.
Proof.
  unfold text_bytes. induction s as [|c s IH]; intros Hs; [done|].
  cbn [list_ascii_of_string] in Hs |- *. rewrite fmap_cons. cbn [app c_string].
  apply Forall_cons in Hs as [Hc Hs]. destruct (Z.eqb_spec (code c) 0) as [E|_].
  - exfalso. apply Hc. unfold code in E. rewrite <-(ascii_N_embedding c). by replace (N_of_ascii c) with 0%N by lia.
  - rewrite IH by done. cbn. do 2 f_equal. unfold byte_char, code. by rewrite N2Z.id, ascii_N_embedding.
Qed.

Lemma length_text_bytes s : length (text_bytes s) = String.length s.
Proof. unfold text_bytes. by rewrite length_fmap, length_list_ascii. Qed.

(** The buffer of [BUFSIZ] bytes after a text was received in it. *)
Lemma buffer_text s : Forall (λ c, c ≠ zero) (list_ascii_of_string s) → (String.length s < BUFSIZ)%nat →
  c_string (splice 0 (text_bytes s) (zeros BUFSIZ)) = Ret s.
Proof.
  intros Hs Hl. unfold splice, zeros. rewrite take_0, app_nil_l, drop_replicate, length_text_bytes.
  replace (BUFSIZ - (0 + String.length s))%nat with (S (BUFSIZ - String.length s - 1)) by lia.
  by apply c_string_text.
Qed.
End Text.

(** ** Theorems *)
Section ConsoleTheorems.
Context `{CC : !Cclog} `{CJ : !Cjson}.

(** The server at the other end of the socket. *)
Definition server_answers (snooping : bool) (i : scan_input) (s : dhcp_server) (text : string) : answer :=
  match unix_server_handle snooping i (ClientRequest (text_bytes text)) s with
  | Ret (_, s') =>
      match drop (length (i_responses (s_ipc s))) (i_responses (s_ipc s')) with
      | r :: _ => Received (text_bytes r)
      | [] => NotReceived
      end
  | _ => NotReceived
  end.

(** The object that is sent. *)
Definition request (command : string) (parameters : list string) : json :=
  cJSON_AddItemToObject (cJSON_AddItemToObject cJSON_CreateObject "command" (cJSON_CreateString command))
    "parameters" (json_lines parameters).

Lemma request_members command parameters :
  cJSON_GetObjectItem (request command parameters) "command" = Some (cJSON_CreateString command) ∧
  cJSON_GetObjectItem (request command parameters) "parameters" = Some (json_lines parameters).
Proof.
  pose proof (object_lookup [("command", cJSON_CreateString command); ("parameters", json_lines parameters)]%string)
    as H.
  split; (etrans; [apply H; by apply (bool_decide_unpack _) | reflexivity]).
Qed.

Lemma send_client_sent text s : e_faults (s_env s) = [] →
  send_client text s = Ret (Z.of_nat (String.length text), add_response text s).
Proof.
  intros Hf. destruct s as [al c ti acl dacl cfg now h [files fs] sent ipc]. cbn in Hf. subst fs.
  unfold send_client. rewrite prog_bind_eq. unfold with_env. cbn [s_env]. by rewrite fails_eq.
Qed.

(** A request that the server knows is answered with the text of the command. *)
Lemma server_answers_run snooping i s command parameters f reply s1 :
  (String.length (cJSON_PrintUnformatted (request command parameters)) < BUFSIZ)%nat →
  find_command (i_commands (s_ipc s)) command = Some f →
  call_command snooping i f (json_lines parameters) s = Ret (reply, s1) →
  e_faults (s_env s1) = [] → i_responses (s_ipc s1) = i_responses (s_ipc s) →
  server_answers snooping i s (cJSON_PrintUnformatted (request command parameters)) =
    Received (text_bytes reply).
Proof.
  intros Hl Hf Hcall Hfaults Hresp. destruct (request_members command parameters) as [Hc Hp].
  unfold server_answers, unix_server_handle. rewrite take_ge by (rewrite length_text_bytes; lia).
  rewrite prog_bind_eq. unfold lift at 1. rewrite buffer_text by (done || apply unformatted_text_spec).
  cbv beta iota. rewrite parse_unformatted_spec by (right; by eexists _, _).
  rewrite prog_bind_eq. unfold Unix.handle_command. rewrite Hc, Hp. unfold get_string.
  cbn [mbind option_bind]. rewrite get_string_spec, bind_gets, Hf, prog_bind_eq, Hcall.
  unfold mret at 1, prog_ret. cbv beta iota. rewrite prog_bind_eq, send_client_sent by done.
  cbv beta iota. rewrite if_failed_n_spec, (proj2 (Z.ltb_ge _ _)) by lia.
  unfold mret, prog_ret. cbn [add_response s_ipc set_ipc i_responses]. by rewrite Hresp, drop_app_length.
Qed.

Lemma print_loop_run lines : ∀ t,
  print_loop (cJSON_CreateString <$> lines) t = Ret (TabM (output t ++ lines) (output_selected t) (input t)).
Proof.
  induction lines as [|l lines IH]; intros t; [by rewrite app_nil_r; destruct t|].
  rewrite fmap_cons. cbn [print_loop]. rewrite (is_string_spec _ l) by apply get_string_spec. cbn [negb].
  rewrite get_string_spec. cbn [deref]. rewrite ret_bind, IH. cbn. by rewrite <-app_assoc.
Qed.

Lemma json_lines_array lines : cJSON_IsArray (json_lines lines) = true.
Proof.
  unfold json_lines. assert (H : ∀ a, cJSON_IsArray a = true →
    cJSON_IsArray (foldl (λ a s, cJSON_AddItemToArray a (cJSON_CreateString s)) a lines) = true).
  { induction lines as [|l lines IH]; intros a Ha; [done|]. cbn [foldl]. by apply IH, is_array_add_spec. }
  apply H, is_array_spec.
Qed.

(** What a command of one word prints: the lines the server answered with. *)
Lemma send_command_run snooping i s t command f lines s1 :
  is_word command = true → command ≠ ""%string → input t = command →
  (String.length (cJSON_PrintUnformatted (request command [])) < BUFSIZ)%nat →
  (String.length (cJSON_PrintUnformatted (json_lines lines)) < BUFSIZ)%nat →
  find_command (i_commands (s_ipc s)) command = Some f →
  call_command snooping i f (json_lines []) s = Ret (cJSON_PrintUnformatted (json_lines lines), s1) →
  e_faults (s_env s1) = [] → i_responses (s_ipc s1) = i_responses (s_ipc s) →
  (r ← send_command (Connected (server_answers snooping i s)) t; print_response r t) =
    Ret (TabM (output t ++ lines) (output_selected t) (input t)).
Proof.
  intros Hw Hne Hin Hreq Hrep Hf Hcall Hfaults Hresp. unfold send_command, json_create_command.
  rewrite Hin, words_word by done. unfold mret, result_ret. rewrite ret_bind.
  change (cJSON_PrintUnformatted _) with (cJSON_PrintUnformatted (request command [])).
  rewrite (server_answers_run snooping i s command [] f _ s1) by done.
  rewrite take_ge by (rewrite length_text_bytes; lia). cbv zeta.
  assert (Hempty : (length (text_bytes (cJSON_PrintUnformatted (json_lines lines))) =? 0)%nat = false).
  { apply Nat.eqb_neq. rewrite length_text_bytes. intros E.
    pose proof (parse_unformatted_spec (json_lines lines) (or_introl (json_lines_array lines))) as Hp.
    destruct (cJSON_PrintUnformatted (json_lines lines)); [by rewrite parse_empty_spec in Hp | done]. }
  rewrite Hempty, buffer_text by (done || apply unformatted_text_spec).
  rewrite !ret_bind, parse_unformatted_spec by (left; apply json_lines_array).
  unfold print_response. rewrite json_lines_array. cbn [negb].
  by rewrite json_lines_children, print_loop_run, Hin.
Qed.
(** C13. The pools are shown: "pool-status" typed in the interface prints, under the
    command, a line for each pool of the running server, in the order of its
    configuration, with the number of addresses that are still free; requests and
    answers that fit the buffers are assumed. *)
Theorem pool_status_shown snooping i errno t s e : input t = "pool-status"%string →
  allocator_wf (s_allocator s) → e_faults (s_env s) = [] →
  find_command (i_commands (s_ipc s)) "pool-status" = Some command_pool_status_ptr →
  (String.length (cJSON_PrintUnformatted (request "pool-status" [])) < BUFSIZ)%nat →
  (String.length (cJSON_PrintUnformatted (json_lines (pool_report <$> address_pools (s_allocator s)))) < BUFSIZ)%nat →
  handle_command (Connected (server_answers snooping i s)) errno t e =
  Ret (TabM (output t ++ "$ pool-status"%string :: (pool_report <$> address_pools (s_allocator s)))
         (output_selected t) (input t), e).
Proof.
  intros Hin Hwf Hfaults Hcmd Hreq Hrep. unfold handle_command. rewrite Hin.
  assert (Hfind : find_gui_command initialize_commands (before_space "pool-status") =
    Some (Command "pool-status" true None "See the current number of available addresses in each pool"
            "pool-status")) by (vm_compute; reflexivity).
  rewrite Hfind. cbv iota zeta. cbn [c_ipc]. unfold lift.
  set (t1 := push t _).
  assert (Hcall : call_command snooping i command_pool_status_ptr (json_lines []) s =
    Ret (cJSON_PrintUnformatted (json_lines (pool_report <$> address_pools (s_allocator s))), s)).
  { cbn [call_command]. unfold command_pool_status. rewrite bind_gets. unfold mret, prog_ret.
    destruct Hwf as (Hps & _).
    rewrite (list_fmap_ext pool_line pool_report); [reflexivity|]. intros k p Hk.
    apply pool_line_report. by eapply Forall_lookup_1. }
  rewrite (send_command_run snooping i s t1 "pool-status" command_pool_status_ptr _ s
    eq_refl ltac:(discriminate) Hin Hreq Hrep Hcmd Hcall Hfaults eq_refl).
  unfold t1. cbn [output output_selected input push]. by rewrite <-app_assoc, Hin.
Qed.

(** ** The configuration file *)
Lemma get_path_None words : ∀ conf, get_path None words ≠ Ret (Some conf).
Proof.
  induction words as [|w words IH]; intros conf; cbn [get_path]; [done|].
  destruct (is_number w); [|apply IH]. destruct (stoi w); [|done..]. rewrite ret_bind. apply IH.
Qed.

Lemma get_set_path words : ∀ root conf v, get_path (Some root) words = Ret (Some conf) →
  get_path (Some (set_path root words v)) words = Ret (Some v).
Proof.
  induction words as [|w words IH]; intros root conf v H; [done|]. cbn [get_path set_path] in *.
  destruct (is_number w) eqn:En.
  - apply bind_Ret in H as (n & -> & H). cbn [mbind option_bind] in *. rewrite ret_bind.
    destruct (cJSON_children root !! Z.to_nat n) as [e|] eqn:E; [|by apply get_path_None in H].
    rewrite children_update_spec, list_lookup_insert_eq by (by eapply lookup_lt_Some).
    by eapply IH.
  - unfold get_item in *. cbn [mbind option_bind] in *.
    destruct (cJSON_GetObjectItem root w) as [e|] eqn:E; [|by apply get_path_None in H].
    erewrite get_updated_spec by exact E. by eapply IH.
Qed.

(** What "config set" stores is what "config get" shows: of an entry that is a
    text, wherever it is in the tree. *)
Theorem config_set_get root command path text conf old : config_get_path root path = Ret (Some conf) →
  cJSON_GetStringValue conf = Some old →
  ∃ root', config_run root [command; "set"%string; path; text] = Ret ([], Some root') ∧
    config_run root' [command; "get"%string; path] = Ret ([text], None).
Proof.
  intros Hpath Hold. exists (set_path root (getline_words "." path) (cJSON_CreateString text)).
  unfold config_run. rewrite Hpath, ret_bind. cbn [String.eqb Ascii.eqb Bool.eqb]. split.
  - unfold config_new_value. by rewrite (is_string_spec _ _ Hold).
  - unfold config_get_path in *. rewrite (get_set_path _ _ _ _ Hpath), ret_bind. unfold config_value.
    by rewrite (is_string_spec _ text) by apply get_string_spec; rewrite get_string_spec.
Qed.

(** A configuration file without a NUL is read past the end of its buffer. *)
Lemma command_config_overread errno t text files : files !! default_config_path = Some text →
  c_text text = None → command_config errno t (Env files []) = Undef OutOfBounds.
Proof.
  intros Hfile Htext. unfold command_config, sys_open, mbind, prog_bind, get_state.
  cbn -[default_config_path]. rewrite Hfile. cbn -[default_config_path]. unfold lift, contents.
  cbn -[default_config_path]. rewrite Hfile. by rewrite parse_buffer_overread.
Qed.
End ConsoleTheorems.

(** ** Witnesses *)
Definition console_server : dhcp_server :=
  set_ipc (Ipc true 0 [("pool-status"%string, command_pool_status_ptr)] []) scan_server.

Definition asked : tab_command := TabM [] 0 "pool-status".

Lemma pool_status_shown_witness :
  @handle_command TreeJson.tree_json
    (Connected (@server_answers cclog_run TreeJson.tree_json true no_scan console_server)) 0 asked (Env ∅ []) =
  Ret (TabM ["$ pool-status"%string; pool_report sample_pool] 0 "pool-status", Env ∅ []).
Proof.
  apply (@pool_status_shown cclog_run TreeJson.tree_json true no_scan 0 asked console_server (Env ∅ [])).
  - reflexivity.
  - apply (sample_server_wf []).
  - reflexivity.
  - reflexivity.
  - apply Nat.ltb_lt. vm_compute. reflexivity.
  - apply Nat.ltb_lt. vm_compute. reflexivity.
Defined.

Definition sample_config : @json TreeJson.tree_json :=
  @in_section TreeJson.tree_json (@empty_config TreeJson.tree_json) "server" (λ s,
    @cJSON_AddItemToObject TreeJson.tree_json s "interface" (@cJSON_CreateString TreeJson.tree_json "eth0")).

Lemma config_set_get_witness :
  ∃ root', @config_run TreeJson.tree_json sample_config ["config"; "set"; "server.interface"; "eth1"]%string =
      Ret ([], Some root') ∧
    @config_run TreeJson.tree_json root' ["config"; "get"; "server.interface"]%string = Ret (["eth1"%string], None).
Proof.
  apply (@config_set_get TreeJson.tree_json sample_config "config" "server.interface" "eth1"
    (GenLeaf (inl "eth0"%string)) "eth0").
  - vm_compute. reflexivity.
  - reflexivity.
Defined.
