(* ===== verification/TabLogs.v ===== *)
(** The Logs tab of the configuration interface, [gui/src/tab_logs.cpp]: the log files
    of the server and the lines of the selected one, wrapped to the terminal. *)
From Stdlib Require Import Ascii String.
From S2P Require Import Prelude Bytes Scanf Files Archive TabInspect TabLeases Console.
Local Open Scope Z_scope.

(** ** State *)
Record tab_logs := TabO {
  log_entries : list string;
  log_content : list string;
  selected : Z;
  log_selected : Z;
  log_selected_last : Z;
}.

Definition logs_path : string := "/var/log/dhcps/".

(** ** Operations *)

(** The times in the names of the files; a name that is too short throws, and so does a
    directory that is not there. *)
Fixpoint log_names (names : list string) : result (list string) :=
  match names with
  | [] => mret []
  | name :: names =>
      entry ← substr (logs_path ++ name) 24 19;
      entries ← log_names names;
      mret (entry :: entries)
  end.

Definition load_entries (dir : option (list string)) (t : tab_logs) : result tab_logs :=
  match dir with
  | None => Undef Uncaught
  | Some names =>
      entries ← log_names names;
      mret (TabO entries (log_content t) (selected t) (log_selected t) (log_selected_last t))
  end.

(** The constructor. *)
Definition TabLogs (dir : option (list string)) : result tab_logs := load_entries dir (TabO [] [] 0 0 (-1)).

(** A length that is given as an [int]: a negative one is larger than any text. *)
Definition width (s : string) (dimx : Z) : nat :=
  if dimx <? 0 then String.length s else Z.to_nat dimx.

(** The loop over the rest of a line; [i] is an [unsigned]. *)
Fixpoint wrap_loop (fuel : nat) (i dimx : Z) (s : string) : result (list string) :=
  match fuel with
  | O => NoFuel
  | S fuel =>
      if i <? Z.of_nat (String.length s) then
        piece ← substr s (Z.to_nat i) (width s dimx);
        pieces ← wrap_loop fuel (u32 (i + dimx)) dimx s;
        mret (("    " ++ piece)%string :: pieces)
      else mret []
  end.

(** One line of the file on a terminal of [columns]. *)
Definition wrap_line (fuel : nat) (columns : Z) (s : string) : result (list string) :=
  let dimx := columns - 25 in
  let first := str_take (width s dimx) s in
  pieces ← wrap_loop fuel (u32 dimx) (dimx - 4) s;
  mret (first :: pieces).

Fixpoint wrap_lines (fuel : nat) (columns : Z) (lines : list string) : result (list string) :=
  match lines with
  | [] => mret []
  | s :: lines =>
      l ← wrap_line fuel columns s;
      ls ← wrap_lines fuel columns lines;
      mret (l ++ ls)
  end.

Definition with_content (t : tab_logs) (content : list string) : tab_logs :=
  TabO (log_entries t) content (selected t) (log_selected t) (log_selected_last t).

Definition load_file (fuel : nat) (columns : Z) (t : tab_logs) : prog env tab_logs :=
  if (length (log_entries t) =? 0)%nat then mret (with_content t [])
  else
    entry ← lift (rd (log_entries t) (selected t));
    fd ← sys_open (logs_path ++ "dhcp-log-" ++ entry ++ ".log")%string;
    match fd with
    | Opened path _ =>
        e ← get_state;
        content ← lift (wrap_lines fuel columns (getline_words "010" (contents e path)));
        mret (with_content t content)
    | _ => mret (with_content t [])
    end.

Definition refresh_logs (fuel : nat) (columns : Z) (dir : option (list string)) (t : tab_logs)
    : prog env tab_logs :=
  if selected t =? log_selected_last t then mret t
  else
    t ← lift (load_entries dir t);
    t ← load_file fuel columns t;
    mret (TabO (log_entries t) (log_content t) (selected t) (log_selected t) (selected t)).

(** ** Theorems *)
Fixpoint concat_all (l : list string) : string :=
  match l with [] => "" | s :: l => (s ++ concat_all l)%string end.

Lemma str_take_drop n : ∀ s, (str_take n s ++ str_drop n s)%string = s.
Proof.
  induction n as [|n IH]; intros s; [done|]. destruct s as [|c s]; [done|].
  cbn [str_take str_drop]. by rewrite string_app_cons, IH.
Qed.

Lemma str_drop_drop n : ∀ m s, str_drop m (str_drop n s) = str_drop (n + m) s.
Proof.
  induction n as [|n IH]; intros m s; [done|]. destruct s as [|c s]; cbn [str_drop Nat.add]; [by destruct m|].
  apply IH.
Qed.

Lemma length_str_take n : ∀ s, (String.length (str_take n s) ≤ n)%nat.
Proof.
  induction n as [|n IH]; intros s; [by destruct s|]. destruct s as [|c s]; cbn; [lia|]. specialize (IH s). lia.
Qed.

Lemma str_drop_all n : ∀ s, (String.length s ≤ n)%nat → str_drop n s = ""%string.
Proof.
  induction n as [|n IH]; intros [|c s] H; cbn in *; [done | lia | done|]. apply IH. lia.
Qed.

(** The pieces behind a position: each fits, and together they are the rest of the line. *)
Lemma wrap_loop_run s dimx : 0 < dimx < 2 ^ 31 → Z.of_nat (String.length s) < 2 ^ 31 → ∀ fuel i,
  0 ≤ i → Z.of_nat (String.length s) - i < Z.of_nat fuel → (0 < fuel)%nat →
  ∃ pieces, wrap_loop fuel i dimx s = Ret ((λ p, ("    " ++ p)%string) <$> pieces) ∧
    concat_all pieces = str_drop (Z.to_nat i) s ∧
    Forall (λ p, Z.of_nat (String.length p) ≤ dimx) pieces.
Proof.
  intros Hd Hs. induction fuel as [|fuel IH]; intros i Hi Hf Hpos; [lia|]. cbn [wrap_loop].
  destruct (Z.ltb_spec i (Z.of_nat (String.length s))) as [Hlt|Hge].
  - unfold substr, width. rewrite (proj2 (Nat.leb_le _ _)), (proj2 (Z.ltb_ge dimx 0)) by lia.
    unfold mret at 1, result_ret. rewrite ret_bind, u32_small by (unfold is_u32; lia).
    destruct (IH (i + dimx)) as (pieces & -> & Hc & Hp); [lia..|]. rewrite ret_bind.
    exists (str_take (Z.to_nat dimx) (str_drop (Z.to_nat i) s) :: pieces).
    split; [done|]. split.
    + cbn [concat_all]. rewrite Hc. replace (Z.to_nat (i + dimx)) with (Z.to_nat i + Z.to_nat dimx)%nat by lia.
      by rewrite <-str_drop_drop, str_take_drop.
    + constructor; [|done]. pose proof (length_str_take (Z.to_nat dimx) (str_drop (Z.to_nat i) s)). lia.
  - exists []. split; [done|]. split; [|constructor]. cbn. by rewrite str_drop_all by lia.
Qed.

(** Nothing of a log line is lost: on a terminal of at least 30 columns it is cut into
    pieces that fit and that together are the line. *)
Theorem wrap_line_spec fuel columns s : 30 ≤ columns < 2 ^ 31 → Z.of_nat (String.length s) < 2 ^ 31 →
  (String.length s < fuel)%nat →
  ∃ first pieces, wrap_line fuel columns s = Ret (first :: ((λ p, ("    " ++ p)%string) <$> pieces)) ∧
    (first ++ concat_all pieces)%string = s ∧ Z.of_nat (String.length first) ≤ columns - 25 ∧
    Forall (λ p, Z.of_nat (String.length p) ≤ columns - 29) pieces.
Proof.
  intros Hc Hs Hf. unfold wrap_line. cbv zeta. unfold width. rewrite (proj2 (Z.ltb_ge _ 0)) by lia.
  rewrite u32_small by (unfold is_u32; lia).
  destruct (wrap_loop_run s (columns - 25 - 4) ltac:(lia) Hs fuel (columns - 25)) as (pieces & -> & Hcat & Hp); [lia..|].
  rewrite ret_bind. exists (str_take (Z.to_nat (columns - 25)) s), pieces. split; [done|].
  split; [by rewrite Hcat, str_take_drop|]. split.
  - pose proof (length_str_take (Z.to_nat (columns - 25)) s). lia.
  - eapply Forall_impl; [exact Hp|]. intros p H. cbn in *. lia.
Qed.

(** On a terminal of 29 columns the loop does not advance: a line of more than four
    characters is wrapped for ever. *)
Theorem wrap_line_hangs fuel s : (4 < String.length s)%nat → wrap_line fuel 29 s = NoFuel.
Proof.
  intros Hs. unfold wrap_line. cbv zeta. change (29 - 25) with 4. change (4 - 4) with 0.
  assert (H : wrap_loop fuel 4 0 s = NoFuel).
  { induction fuel as [|fuel IH]; [done|]. cbn [wrap_loop]. rewrite (proj2 (Z.ltb_lt _ _)) by lia.
    unfold substr. rewrite (proj2 (Nat.leb_le _ _)) by lia. unfold mret at 1, result_ret.
    change (u32 (4 + 0)) with 4. by rewrite ret_bind, IH. }
  change (u32 4) with 4. by rewrite H.
Qed.

(** ** Witnesses *)
Lemma wrap_line_spec_witness : ∃ first pieces,
  wrap_line 100 40 "dhcp server: received DHCPDISCOVER from 02:42:ac:11:00:02" =
    Ret (first :: ((λ p, ("    " ++ p)%string) <$> pieces)) ∧
  (first ++ concat_all pieces)%string = "dhcp server: received DHCPDISCOVER from 02:42:ac:11:00:02"%string ∧
  Z.of_nat (String.length first) ≤ 15 ∧ Forall (λ p, Z.of_nat (String.length p) ≤ 11) pieces.
Proof. apply wrap_line_spec; [lia | by vm_compute | apply Nat.ltb_lt; reflexivity]. Defined.

Lemma wrap_line_hangs_witness : wrap_line 1000 29 "received" = NoFuel.
Proof. apply wrap_line_hangs. apply Nat.ltb_lt. reflexivity. Defined.
