(* ===== verification/Serve.v ===== *)
(** The server loop, [dhcp_server.c]: timers, commands and one datagram per
    turn; with the loading of the lease files at the start, the end of
    [lease.c], and the removal of expired leases.

    A turn takes one [serve_input] from the outside: whether SIGINT arrived, the
    time, what the UNIX socket and the datagram socket hold, and what a scan for
    rogue servers would receive. *)
From Stdlib Require Import Ascii String.
From S2P Require Import Prelude Bytes Xtoy Json Files Rfc Options Packet AddressPool Allocator Timer Transaction Acl Lease Database Server Messages Request Snoop Unix.
Local Open Scope Z_scope.

Record serve_input := ServeInput {
  si_sigint : bool;
  si_now : Z;
  si_unix : unix_request;
  si_scan : scan_input;
  si_recv : recv_result;
}.

Section Serve.
Context `{CC : !Cclog} `{CJ : !Cjson}.

(** ** Sockets and timers *)

(** System calls made one after the other: 0 when all succeed, -1 at the first
    failure. *)
Fixpoint all_succeed (calls : nat) : prog env Z :=
  match calls with
  | O => mret 0
  | S n => f ← fails; if (f : bool) then mret (-1) else all_succeed n
  end.

(** [socket], two calls of [setsockopt], two of [fcntl], [bind] and [signal]. *)
Definition init_dhcp_server : prog dhcp_server Z := with_env (all_succeed 7).

Definition init_dhcp_server_timers : prog dhcp_server Z :=
  now ← gets s_now;
  c ← gets s_config;
  _ ← modify (set_lease_timer (timer_new now TIMER_REPEAT (lease_expiration_check c) true
                                 (Some check_lease_expirations_ptr)));
  mret 0.

(** ** Expired leases *)

(** The loop of [check_lease]; [fuel] bounds its turns. *)
Fixpoint check_lease_loop (fuel : nat) (a end_address : Z) (name : string) (current_time : Z)
    (lease : lease_t) (released_leases : Z) : prog dhcp_server Z :=
  if negb (a <? end_address) then mret released_leases
  else
    match fuel with
    | O => λ _, NoFuel
    | S fuel =>
        let continue := check_lease_loop fuel (a +32 1) end_address name current_time in
        al ← gets s_allocator;
        available ← lift (allocator_is_address_available al a);
        if (available : bool) then continue lease released_leases
        else
          '(rv, lease) ← with_env (lease_retrieve lease a (Some name));
          if rv <? 0 then continue lease released_leases
          else if current_time <? l_lease_expire lease then continue lease released_leases
          else
            rv ← with_env (lease_remove lease);
            if rv <? 0 then continue lease released_leases
            else
              _ ← with_allocator (λ al, allocator_release_address al a);
              continue lease (released_leases + 1)
    end.

(** The lease the loop starts with is not read before it was retrieved. *)
Definition check_lease (current_time : Z) (pool : address_pool) : prog dhcp_server Z :=
  check_lease_loop (Z.to_nat (p_end_address pool - p_start_address pool)) (p_start_address pool)
    (p_end_address pool) (p_name pool) current_time lease_new 0.

Fixpoint check_pools (check_time : Z) (pools : list address_pool) (released_leases : Z)
    : prog dhcp_server Z :=
  match pools with
  | [] => mret released_leases
  | pool :: pools =>
      n ← check_lease check_time pool;
      check_pools check_time pools (released_leases + n)
  end.

(** The range and the name of a pool never change, so the list of pools can be
    read before the loop. *)
Definition check_lease_expirations (check_time : Z) : prog dhcp_server Z :=
  al ← gets s_allocator;
  check_pools check_time (address_pools al) 0.

(** ** [update_timers] *)
Fixpoint update_transactions (n i : nat) : prog dhcp_server () :=
  match n with
  | O => mret ()
  | S n =>
      now ← gets s_now;
      t ← get_transaction i;
      _ ← (if ti_is_running (t_timer t) then _ ← trans_update_timer now i; mret () else mret ());
      update_transactions n (S i)
  end.

Definition update_timers : prog dhcp_server () :=
  c ← gets s_trans_cache;
  _ ← update_transactions (length c) 0;
  now ← gets s_now;
  t ← gets s_lease_timer;
  _ ← timer_update now t (λ t, modify (set_lease_timer t)) (λ _, check_lease_expirations);
  mret ().

(** ** One message *)

(** The message that was received, from the checks to the handlers; [snooping]
    tells whether the server is built with
    [CONFIG_SECURITY_ENABLE_DHCP_SNOOPING]. *)
Definition serve_message (snooping : bool) (dhcp_msg : dhcp_message)
    : prog dhcp_server dhcp_message :=
  own ← (if snooping then dhcp_snooper_check_xid (m_xid dhcp_msg) else mret false);
  if (own : bool) then mret dhcp_msg
  else
    acl ← gets s_acl;
    allowed ← lift (ACL_check_client acl (m_chaddr dhcp_msg));
    if negb (allowed =? ACL_ALLOW) then mret dhcp_msg
    else
      dacl ← gets s_dacl;
      cache ← gets s_trans_cache;
      '(allowed, dacl) ← lift (dynamic_ACL_check dacl (m_chaddr dhcp_msg) cache);
      _ ← modify (set_dacl dacl);
      if negb (allowed =? ACL_ALLOW) then mret dhcp_msg
      else if (m_type dhcp_msg =? DHCP_OFFER) || (m_type dhcp_msg =? DHCP_ACK)
              || (m_type dhcp_msg =? DHCP_NAK) then mret dhcp_msg
      else
        '(rv, dhcp_msg) ← cache_message dhcp_msg;
        if rv <? 0 then mret dhcp_msg
        else
          _ ← store_if_enabled dhcp_msg;
          _ ← (if m_type dhcp_msg =? DHCP_DISCOVER then message_dhcpdiscover_handle dhcp_msg
               else if m_type dhcp_msg =? DHCP_REQUEST then message_dhcprequest_handle dhcp_msg
               else if m_type dhcp_msg =? DHCP_DECLINE then message_dhcpdecline_handle dhcp_msg
               else if m_type dhcp_msg =? DHCP_INFORM then message_dhcpinform_handle dhcp_msg
               else if m_type dhcp_msg =? DHCP_RELEASE then message_dhcprelease_handle dhcp_msg
               else mret 0);
          mret dhcp_msg.

(** ** The loop *)

(** The body of the loop, up to the call of [recv]: timers and commands. *)
Definition serve_begin (snooping : bool) (i : serve_input) : prog dhcp_server () :=
  _ ← modify (set_now (si_now i));
  _ ← (if si_sigint i then stop_running else mret ());
  _ ← update_timers;
  _ ← unix_server_handle snooping (si_scan i) (si_unix i);
  mret ().

(** The rest of it: the message is the receive buffer. *)
Definition serve_receive (snooping : bool) (r : recv_result) (dhcp_msg : dhcp_message)
    : prog dhcp_server dhcp_message :=
  match r with
  | NoDatagram | RecvError => mret dhcp_msg
  | Datagram bytes =>
      '(parsed, dhcp_msg) ← parse_message (recv_packet dhcp_msg bytes);
      if parsed <? 0 then mret dhcp_msg else serve_message snooping dhcp_msg
  end.

Definition serve_turn (snooping : bool) (i : serve_input) (dhcp_msg : dhcp_message)
    : prog dhcp_server dhcp_message :=
  _ ← serve_begin snooping i;
  serve_receive snooping (si_recv i) dhcp_msg.

Fixpoint serve_loop (snooping : bool) (inputs : list serve_input) (dhcp_msg : dhcp_message)
    : prog dhcp_server Z :=
  match inputs with
  | [] => λ _, NoFuel
  | i :: inputs =>
      dhcp_msg ← serve_turn snooping i dhcp_msg;
      running ← gets (λ s, server_keep_running (s_ipc s));
      if (running : bool) then serve_loop snooping inputs dhcp_msg else mret 0
  end.

Definition dhcp_server_serve (snooping : bool) (inputs : list serve_input) : prog dhcp_server Z :=
  dhcp_msg ← new_message;
  serve_loop snooping inputs dhcp_msg.

(** ** Loading the leases *)
Definition put_pool (i : nat) (p : address_pool) (s : dhcp_server) : dhcp_server :=
  set_allocator (with_pools (s_allocator s) (<[i := p]> (address_pools (s_allocator s)))) s.

(** One entry of the file: [lease] is the structure all entries are read into,
    and keeps what it held when an entry cannot be read. *)
Definition load_lease (current_time : Z) (i : nat) (pool : address_pool) (lease : lease_t)
    (element : json) : prog dhcp_server (address_pool * lease_t) :=
  '(_, lease) ← lift (json_to_lease lease element (p_name pool));
  if l_lease_expire lease <=? current_time then
    _ ← with_env (lease_remove lease); mret (pool, lease)
  else
    '(_, pool) ← lift (address_pool_set_address_allocation pool (l_address lease));
    _ ← modify (put_pool i pool);
    mret (pool, lease).

Fixpoint load_leases (current_time : Z) (i : nat) (pool : address_pool) (lease : lease_t)
    (elements : list json) : prog dhcp_server () :=
  match elements with
  | [] => mret ()
  | element :: elements =>
      '(pool, lease) ← load_lease current_time i pool lease element;
      load_leases current_time i pool lease elements
  end.

Definition load_pool_leases (i : nat) (pool : address_pool) : prog dhcp_server Z :=
  fd ← with_env (lease_open_lease_file (Some (p_name pool)));
  match fd with
  | Opened path pos =>
      root ← with_env (lease_load_lease_fila path pos);
      match root, get_item root "leases" with
      | Some _, Some leases_array =>
          current_time ← gets s_now;
          _ ← load_leases (u32 current_time) i pool lease_new (cJSON_children leases_array);
          mret 0
      | _, _ => mret (-1)
      end
  | _ => mret (-1)
  end.

Fixpoint load_all_pools (i n : nat) : prog dhcp_server () :=
  match n with
  | O => mret ()
  | S n =>
      al ← gets s_allocator;
      match address_pools al !! i with
      | None => mret ()
      | Some pool => _ ← load_pool_leases i pool; load_all_pools (S i) n
      end
  end.

Definition init_load_persisten_leases : prog dhcp_server Z :=
  al ← gets s_allocator;
  _ ← load_all_pools 0 (length (address_pools al));
  mret 0.
End Serve.

(** ** One message *)
Section Messages.
Context `{CC : !Cclog} `{CJ : !Cjson}.

(** The message is not the server's own discover and both lists let it pass. *)
Definition admitted (snooping : bool) (m : dhcp_message) (s : dhcp_server) : Prop :=
  (snooping = true → m_xid m ≠ xid_used_in_scan (s_ipc s)) ∧
  ACL_check_client (s_acl s) (m_chaddr m) = Ret ACL_ALLOW ∧
  dynamic_ACL_check (s_dacl s) (m_chaddr m) (s_trans_cache s) = Ret (ACL_ALLOW, s_dacl s).

(** The handler of a message type. *)
Definition handler (m : dhcp_message) : prog dhcp_server Z :=
  if m_type m =? DHCP_DISCOVER then message_dhcpdiscover_handle m
  else if m_type m =? DHCP_REQUEST then message_dhcprequest_handle m
  else if m_type m =? DHCP_DECLINE then message_dhcpdecline_handle m
  else if m_type m =? DHCP_INFORM then message_dhcpinform_handle m
  else if m_type m =? DHCP_RELEASE then message_dhcprelease_handle m
  else mret 0.

(** A message that passes and that fits the cache goes to its handler, with
    itself as the last message of its transaction. *)
Lemma serve_message_run snooping m s :
  cache_wf (s_trans_cache s) → 6 ≤ zlen (m_chaddr m) → admitted snooping m s →
  m_type m ∉ [DHCP_OFFER; DHCP_ACK; DHCP_NAK] →
  has_transaction (s_trans_cache s) (m_xid m) ∨ has_free_slot (s_trans_cache s) →
  let m' := with_time m (u32 (s_now s)) in
  ∃ c e, cache_wf c ∧ stored_if_enabled m' s e ∧
    (∀ x, x ≠ 0 ∨ m_xid m = 0 → messages_of c x =
      if decide (x = m_xid m) then messages_of (s_trans_cache s) x ++ [m']
      else messages_of (s_trans_cache s) x) ∧
    serve_message snooping m s = (_ ← handler m'; mret m') (set_env e (set_cache c s)).
Proof.
  intros Hc Hl (Hown & Hacl & Hdacl) Hty Hroom m'.
  destruct (trans_cache_add_any (s_now s) (s_trans_cache s) m Hc) as (rv & c & Hadd & Hc' & _ & Hr).
  destruct Hr as [(-> & _ & Hmsgs)|(_ & _ & Hno & Hfull)]; [|by destruct Hroom].
  destruct (store_if_enabled_stored m' (set_cache c s) Hl) as (e & Hst & He).
  exists c, e. split; [done|]. split; [done|]. split; [done|].
  unfold serve_message. rewrite prog_bind_eq.
  assert ((if snooping then dhcp_snooper_check_xid (m_xid m) else mret false) s = Ret (false, s)) as ->.
  { destruct snooping; [|done]. unfold dhcp_snooper_check_xid. rewrite bind_gets.
    unfold mret, prog_ret. by rewrite (proj2 (Z.eqb_neq _ _)) by auto. }
  cbv beta iota. rewrite bind_gets, prog_bind_eq. unfold lift at 1. rewrite Hacl. cbv beta iota.
  rewrite Z.eqb_refl. cbn [negb]. rewrite !bind_gets, prog_bind_eq. unfold lift at 1. rewrite Hdacl.
  cbv beta iota. rewrite bind_modify, Z.eqb_refl. cbn [negb].
  assert ((m_type m =? DHCP_OFFER) || (m_type m =? DHCP_ACK) || (m_type m =? DHCP_NAK) = false) as ->.
  { rewrite !not_elem_of_cons in Hty. destruct Hty as (H2 & H5 & H6 & _).
    by rewrite !(proj2 (Z.eqb_neq _ _)). }
  assert (set_dacl (s_dacl s) s = s) as -> by (by destruct s).
  rewrite prog_bind_eq. unfold cache_message. rewrite Hadd. cbv beta iota. cbn [Z.ltb Z.compare].
  rewrite prog_bind_eq. fold m'. rewrite Hst. reflexivity.
Qed.

(** Why a message is dropped. *)
Definition dropped (snooping : bool) (m : dhcp_message) (s : dhcp_server) : Prop :=
  snooping = true ∧ m_xid m = xid_used_in_scan (s_ipc s) ∨
  (∃ rv, ACL_check_client (s_acl s) (m_chaddr m) = Ret rv ∧ rv ≠ ACL_ALLOW) ∨
  admitted snooping m s ∧
    (m_type m ∈ [DHCP_OFFER; DHCP_ACK; DHCP_NAK] ∨
     m_xid m ≠ 0 ∧ ¬ has_transaction (s_trans_cache s) (m_xid m) ∧ ¬ has_free_slot (s_trans_cache s)).


(** C5. A message of a client that the lists admit and the cache has room for is
    stamped and appended to the messages of its transaction.  When the packet
    database is enabled and no system call fails, its record is appended to the
    file of its transaction and client, whose other records and all other files
    stay; when it is not enabled, no file changes.  Then the handler of its type
    runs, on the state with this cache and these files. *)
Theorem serve_message_dispatch snooping m s :
  cache_wf (s_trans_cache s) → 6 ≤ zlen (m_chaddr m) → admitted snooping m s →
  m_type m ∉ [DHCP_OFFER; DHCP_ACK; DHCP_NAK] →
  has_transaction (s_trans_cache s) (m_xid m) ∨ has_free_slot (s_trans_cache s) →
  let m' := with_time m (u32 (s_now s)) in
  ∃ c e, cache_wf c ∧ stored_if_enabled m' s e ∧
    (∀ x, x ≠ 0 ∨ m_xid m = 0 → messages_of c x =
      if decide (x = m_xid m) then messages_of (s_trans_cache s) x ++ [m']
      else messages_of (s_trans_cache s) x) ∧
    serve_message snooping m s = (_ ← handler m'; mret m') (set_env e (set_cache c s)).
Proof. apply serve_message_run. Qed.

(** The exchange of DHCPDISCOVER, DHCPOFFER and DHCPREQUEST cannot be completed:
    the DHCPREQUEST is parsed into the receive buffer that the cached copy of
    the DHCPDISCOVER shares its options with, so the comparison of the two
    messages reads the options of the DHCPDISCOVER after they were freed. *)
Theorem serve_request_use_after_free snooping m bytes s m1 s1 p p1 d os o54 :
  m_dhcp_options m = Some p →
  parse_message (recv_packet m bytes) s = Ret ((0, m1), s1) →
  cache_wf (s_trans_cache s1) → m_xid m1 ≠ 0 → 6 ≤ zlen (m_chaddr m1) →
  trans_cache_retrieve_message (s_trans_cache s) (m_xid m1) DHCP_DISCOVER = Some d →
  m_dhcp_options d = m_dhcp_options m →
  admitted snooping m1 s1 → m_type m1 = DHCP_REQUEST → m_ciaddr m1 = 0 → m_yiaddr m1 = 0 →
  m_dhcp_options m1 = Some p1 → load_options (s_heap s1) p1 = Ret os →
  dhcp_option_retrieve os DHCP_OPTION_SERVER_IDENTIFIER = Some o54 →
  value_ip o54 = bound_ip (s_config s1) →
  serve_message snooping m1 s1 = Undef UseAfterFree.
Proof.
  intros Hp Hparse Hc Hx Hl Hd Hdp Hadm Hty Hci Hyi Hp1 Hl1 H54 Hip.
  unfold parse_message in Hparse.
  destruct (dhcp_packet_parse (s_heap s) (recv_packet m bytes)) as [[[rv m2] h]| |] eqn:E; [|done..].
  injection Hparse as -> <- <-.
  cbn [s_trans_cache s_heap s_config set_heap] in *.
  assert (Hgone : load_options h p = Undef UseAfterFree).
  { pose proof (parse_frees (s_heap s) (recv_packet m bytes) p m2 h Hp E) as H. exact H. }
  pose proof Hd as Hd'. rewrite retrieve_message_of in Hd.
  assert (Htr : has_transaction (s_trans_cache s) (m_xid m2)).
  { unfold messages_of in Hd.
    destruct (trans_cache_retrieve_transaction (s_trans_cache s) (m_xid m2)) as [[k t]|] eqn:Et; [|done].
    apply cache_retrieve_Some in Et as [Hk Ht]. exists t. split; [by eapply list_elem_of_lookup_2 | done]. }
  destruct (serve_message_run snooping m2 (set_heap h s)) as (c & e & _ & _ & Hmsgs & ->); try done.
  { rewrite Hty. by_decision. } { by left. }
  cbv zeta. rewrite prog_bind_eq. unfold handler. cbn [m_type with_time]. rewrite Hty. change (DHCP_REQUEST =? DHCP_DISCOVER) with false. change (DHCP_REQUEST =? DHCP_REQUEST) with true. cbv beta iota.
  rewrite (use_after_free_run _ _ p1 os d p o54); try done.
  - rewrite retrieve_message_of. cbn [s_trans_cache set_env set_cache set_heap m_xid with_time].
    rewrite Hmsgs, decide_True by auto. by apply search_for_app.
  - by rewrite Hdp.
Qed.
End Messages.

(** ** Witnesses: empty lists of denied clients *)
Definition admitting (s : dhcp_server) : dhcp_server :=
  set_dacl (Some dynamic_ACL_new) (set_acl (Some (Acl [] true true)) s).

Definition serving : dhcp_server := admitting (sample_server request_options).

Lemma serving_admits m : m_chaddr m = [2; 66; 172; 17; 0; 2] ++ zeros 12 → m_xid m ≠ 0 →
  admitted true m serving.
Proof.
  intros Hc Hx. split; [done|]. by rewrite Hc.
Qed.


Lemma serve_message_dispatch_witness : ∃ c e,
  messages_of c 3735928559 = [with_time sample_message 1000; with_time (sample_request 0) 1000] ∧
  @serve_message cclog_run TreeJson.tree_json true (sample_request 0) serving =
    (_ ← @message_dhcprequest_handle cclog_run TreeJson.tree_json (with_time (sample_request 0) 1000);
     mret (with_time (sample_request 0) 1000)) (set_env e (set_cache c serving)).
Proof.
  destruct (@serve_message_dispatch cclog_run TreeJson.tree_json true (sample_request 0) serving)
    as (c & e & _ & _ & Hm & H).
  - exact sample_added_wf.
  - by_decision.
  - apply serving_admits; [reflexivity | discriminate].
  - by_decision.
  - left. exists sample_transaction. split; [|reflexivity]. apply (list_elem_of_lookup_2 _ 0).
    vm_compute. reflexivity.
  - exists c, e. split; [|exact H]. rewrite Hm by (left; discriminate). vm_compute. reflexivity.
Defined.

Definition request_datagram : list Z :=
  match @dhcp_packet_build cclog_run {[2%positive := Some request_options]} (sample_request 0) with
  | Ret (_, m) => packet_encode (m_packet m)
  | _ => []
  end.
Definition request_parsed : (Z * dhcp_message) * dhcp_server :=
  match @parse_message cclog_run (recv_packet (with_options receiver (Some 1%positive)) request_datagram)
    serving with
  | Ret r => r
  | _ => ((-1, receiver), serving)
  end.
Definition request_list : positive * list dhcp_option :=
  match m_dhcp_options request_parsed.1.2 with
  | Some p => match load_options (s_heap request_parsed.2) p with Ret os => (p, os) | _ => (p, []) end
  | None => (1%positive, [])
  end.

(** The second message of the usual exchange, received after its
    DHCPDISCOVER. *)
Lemma serve_request_use_after_free_witness :
  @serve_message cclog_run TreeJson.tree_json true request_parsed.1.2 request_parsed.2 =
    Undef UseAfterFree.
Proof.
  apply (@serve_request_use_after_free cclog_run TreeJson.tree_json true
    (with_options receiver (Some 1%positive)) request_datagram serving
    request_parsed.1.2 request_parsed.2 1%positive request_list.1 (with_time sample_message 1000)
    request_list.2 (numeric_option DHCP_OPTION_SERVER_IDENTIFIER 4 3232235777)).
  - reflexivity.
  - vm_compute. reflexivity.
  - exact sample_added_wf.
  - vm_compute. discriminate.
  - by_decision.
  - vm_compute. reflexivity.
  - reflexivity.
  - split; [vm_compute; discriminate | split; vm_compute; reflexivity].
  - vm_compute. reflexivity.
  - vm_compute. reflexivity.
  - vm_compute. reflexivity.
  - vm_compute. reflexivity.
  - vm_compute. reflexivity.
  - vm_compute. reflexivity.
  - vm_compute. reflexivity.
Defined.
