(* ===== verification/Interface.v ===== *)
(** The configuration interface as a whole, [gui/src/main.cpp] and
    [gui/src/main_renderer.cpp]: its six tabs, the one that is shown, and the loop
    that hands it what the user does and refreshes it before it is drawn.

    [view] is what the interface finds outside at one turn: the directories, the
    width of the terminal, the socket of the server and the file system's last
    error. *)
From Stdlib Require Import Ascii String.
From S2P Require Import Prelude Bytes Xtoy Json Files Options Database Inspect TabInspect TabLeases TabConfig TabEditor Serve Console TabLogs.
Local Open Scope Z_scope.

Record view := View {
  v_logs : option (list string);
  v_leases : option (list string);
  v_database : option (list string);
  v_columns : Z;
  v_socket : connection;
  v_errno : Z;
  v_fuel : nat;              (* turns for the wrapping of a log line *)
}.

(** What a user does: the tab menu, and the parts of each tab that take input. *)
Inductive user_input `{CJ : !Cjson} :=
  | ChooseTab (i : Z)
  | ConfigAction (a : action)
  | TypeSetting (i : nat) (text : string)
  | ToggleSetting (i : nat) (v : Z)
  | TypePool (i : nat) (name start_addr end_addr subnet : string)
  | TypeAclEntry (i : nat) (text : string)
  | Apply
  | ChooseLog (i : Z)
  | ChooseLeasePool (i : Z)
  | ChooseLease (i : Z)
  | SetFilter (toggle : Z) (text : string)
  | ChooseTransaction (i : Z)
  | ChooseMessage (i : Z)
  | ChooseDetail (i : Z)
  | DeleteTransaction
  | TypeCommand (text : string)
  | Return.

Section Interface.
Context `{CC : !Cclog} `{CJ : !Cjson}.

Record interface := Tabs {
  tab_index : Z;
  tab_logs_ : tab_logs;
  tab_lease_ : tab_leases;
  tab_inspect_ : tab_inspect;
  tab_config_ : tab_editor;
  tab_command_ : tab_command;
}.

Definition with_index (t : interface) (i : Z) : interface :=
  Tabs i (tab_logs_ t) (tab_lease_ t) (tab_inspect_ t) (tab_config_ t) (tab_command_ t).
Definition with_logs (t : interface) (l : tab_logs) : interface :=
  Tabs (tab_index t) l (tab_lease_ t) (tab_inspect_ t) (tab_config_ t) (tab_command_ t).
Definition with_lease (t : interface) (l : tab_leases) : interface :=
  Tabs (tab_index t) (tab_logs_ t) l (tab_inspect_ t) (tab_config_ t) (tab_command_ t).
Definition with_inspect (t : interface) (l : tab_inspect) : interface :=
  Tabs (tab_index t) (tab_logs_ t) (tab_lease_ t) l (tab_config_ t) (tab_command_ t).
Definition with_editor (t : interface) (l : tab_editor) : interface :=
  Tabs (tab_index t) (tab_logs_ t) (tab_lease_ t) (tab_inspect_ t) l (tab_command_ t).
Definition with_command (t : interface) (l : tab_command) : interface :=
  Tabs (tab_index t) (tab_logs_ t) (tab_lease_ t) (tab_inspect_ t) (tab_config_ t) l.

(** ** Input to the tabs *)

(** The menus of the logs, of the leases and of the stored messages. *)
Definition choose_log (i : Z) (t : tab_logs) : tab_logs :=
  TabO (log_entries t) (log_content t) i (log_selected t) (log_selected_last t).

Definition choose_lease_pool (i : Z) (t : tab_leases) : tab_leases :=
  TabL (tl_pools t) (tl_leased_addresses t) (tl_leases t) (tl_details t) i (pool_selected_last t)
    (lease_selected t) (lease_selected_last t).
Definition choose_lease (i : Z) (t : tab_leases) : tab_leases :=
  TabL (tl_pools t) (tl_leased_addresses t) (tl_leases t) (tl_details t) (pool_selected t)
    (pool_selected_last t) i (lease_selected_last t).

Definition set_filter (toggle : Z) (text : string) (t : tab_inspect) : tab_inspect :=
  Tab (Filter toggle text (filter_content_last (t_filter t))) (t_entries t) (t_loaded t) (t_options t).
Definition choose_transaction (i : Z) (t : tab_inspect) : tab_inspect :=
  let e := t_entries t in
  Tab (t_filter t) (Entries (transaction_entries_xid e) (transaction_entries_mac e) i
                      (transaction_entry_selected_last e)) (t_loaded t) (t_options t).
Definition choose_message (i : Z) (t : tab_inspect) : tab_inspect :=
  let l := t_loaded t in
  Tab (t_filter t) (t_entries t) (Loaded (loaded_transaction l) (loaded_transaction_msg_types l) i
                      (loaded_transaction_selected_last l) (loaded_message l)) (t_options t).
Definition choose_detail (i : Z) (t : tab_inspect) : tab_inspect :=
  let o := t_options t in
  Tab (t_filter t) (t_entries t) (t_loaded t)
    (OptionsView (loaded_dhcp_options o) (dhcp_option_entries o) (selected_dhcp_option o) i
       (option_detail_selected_last o)).

(** The fields of the configuration tab: a text, a toggle, the four fields of a
    pool, an entry of the access control list. *)
Definition edit_config (f : tab_config → tab_config) (t : interface) : interface :=
  with_editor t (with_config (tab_config_ t) (f (ed_config (tab_config_ t)))).
Definition type_setting (i : nat) (text : string) (c : tab_config) : tab_config :=
  with_entries c (alter (λ e, set_val e text) i (config_entries c)).
Definition toggle_setting (i : nat) (v : Z) (c : tab_config) : tab_config :=
  with_entries c (alter (λ e, set_val_i e v) i (config_entries c)).
Definition type_pool (i : nat) (name start_addr end_addr subnet : string) (c : tab_config) : tab_config :=
  with_pools c (alter (λ p, GuiPool name start_addr end_addr subnet (gp_options_json p)) i (pools_pools c)).
Definition type_acl_entry (i : nat) (text : string) (c : tab_config) : tab_config :=
  with_acl c (alter (λ _, text) i (security_acl_entries c)).

Definition type_command (text : string) (t : tab_command) : tab_command :=
  TabM (output t) (output_selected t) text.

(** Input reaches the tab that is shown. *)
Definition on_tab (n : Z) (m : interface → prog env interface) (t : interface) : prog env interface :=
  if tab_index t =? n then m t else mret t.

Definition handle (v : view) (i : user_input) : interface → prog env interface :=
  match i with
  | ChooseTab n => λ t, mret (with_index t n)
  | ConfigAction a => on_tab 1 (λ t, e ← lift (perform a (tab_config_ t)); mret (with_editor t e))
  | TypeSetting n text => on_tab 1 (λ t, mret (edit_config (type_setting n text) t))
  | ToggleSetting n x => on_tab 1 (λ t, mret (edit_config (toggle_setting n x) t))
  | TypePool n name a b m => on_tab 1 (λ t, mret (edit_config (type_pool n name a b m) t))
  | TypeAclEntry n text => on_tab 1 (λ t, mret (edit_config (type_acl_entry n text) t))
  | Apply => on_tab 1 (λ t, '(_, c) ← apply_settings (ed_config (tab_config_ t));
                            mret (with_editor t (with_config (tab_config_ t) c)))
  | ChooseLog n => on_tab 2 (λ t, mret (with_logs t (choose_log n (tab_logs_ t))))
  | ChooseLeasePool n => on_tab 3 (λ t, mret (with_lease t (choose_lease_pool n (tab_lease_ t))))
  | ChooseLease n => on_tab 3 (λ t, mret (with_lease t (choose_lease n (tab_lease_ t))))
  | SetFilter n text => on_tab 4 (λ t, mret (with_inspect t (set_filter n text (tab_inspect_ t))))
  | ChooseTransaction n => on_tab 4 (λ t, mret (with_inspect t (choose_transaction n (tab_inspect_ t))))
  | ChooseMessage n => on_tab 4 (λ t, mret (with_inspect t (choose_message n (tab_inspect_ t))))
  | ChooseDetail n => on_tab 4 (λ t, mret (with_inspect t (choose_detail n (tab_inspect_ t))))
  | DeleteTransaction => on_tab 4 (λ t, _ ← remove_database_entry (v_database v) (tab_inspect_ t); mret t)
  | TypeCommand text => on_tab 5 (λ t, mret (with_command t (type_command text (tab_command_ t))))
  | Return => on_tab 5 (λ t, c ← on_return (v_socket v) (v_errno v) (tab_command_ t);
                             mret (with_command t c))
  end.

(** ** The loop *)

(** The renderer: the tab that is shown is refreshed; Help and Command have
    nothing to refresh. *)
Definition draw (v : view) (t : interface) : prog env interface :=
  if tab_index t =? 1 then e ← lift (TabEditor.refresh (tab_config_ t)); mret (with_editor t e)
  else if tab_index t =? 2 then
    l ← refresh_logs (v_fuel v) (v_columns v) (v_logs v) (tab_logs_ t); mret (with_logs t l)
  else if tab_index t =? 3 then
    l ← refresh_leases (v_leases v) (tab_lease_ t); mret (with_lease t l)
  else if tab_index t =? 4 then
    i ← TabInspect.refresh (v_database v) (tab_inspect_ t); mret (with_inspect t i)
  else mret t.

Fixpoint handle_all (v : view) (l : list user_input) (t : interface) : prog env interface :=
  match l with
  | [] => mret t
  | i :: l => t ← handle v i t; handle_all v l t
  end.

(** One frame: the drawing library may hand over any number of inputs before it
    draws. *)
Definition tui_step (v : view) (l : list user_input) (t : interface) : prog env interface :=
  t ← handle_all v l t; draw v t.

Fixpoint tui_steps (l : list (view * list user_input)) (t : interface) : prog env interface :=
  match l with
  | [] => mret t
  | (v, i) :: l => t ← tui_step v i t; tui_steps l t
  end.

(** The tabs are made in the order of their declarations. *)
Definition tui_start (v : view) : prog env interface :=
  logs ← lift (TabLogs (v_logs v));
  config ← TabConfig;
  mret (Tabs 0 logs TabLease TabInspect (editor_of config) TabCommand).

(** The loop, until the Exit button ends it. *)
Definition tui_loop (v : view) (l : list (view * list user_input)) : prog env Z :=
  t ← tui_start v;
  t ← draw v t;
  _ ← tui_steps l t;
  mret 0.

(** [create_directory] of four directories, which throws when it fails; the user
    without root privileges is asked to press a key. *)
Definition gui_main (v : view) (l : list (view * list user_input)) : prog env Z :=
  rv ← all_succeed 4;
  if rv <? 0 then mret 1 else tui_loop v l.
End Interface.

(** ** Specification *)
Section Sessions.
Context `{CC : !Cclog} `{CJ : !Cjson}.

(** The [n]-th tab is in the same state. *)
Definition same_tab (n : Z) (t t' : interface) : Prop :=
  (n = 1 → tab_config_ t' = tab_config_ t) ∧ (n = 2 → tab_logs_ t' = tab_logs_ t) ∧
  (n = 3 → tab_lease_ t' = tab_lease_ t) ∧ (n = 4 → tab_inspect_ t' = tab_inspect_ t) ∧
  (n = 5 → tab_command_ t' = tab_command_ t).

(** What the Config tab offers, without "Apply". *)
Definition offered_input (i : user_input) (t : interface) : bool :=
  match i with
  | ConfigAction a => offered a (tab_config_ t)
  | TypeSetting _ _ | ToggleSetting _ _ | TypePool _ _ _ _ _ | TypeAclEntry _ _ => true
  | _ => false
  end.

(** One input for each frame. *)
Definition one_each (l : list (view * user_input)) : list (view * list user_input) :=
  (λ p, (p.1, [p.2])) <$> l.

Fixpoint session_offered (l : list (view * user_input)) (t : interface) (e : env) : bool :=
  match l with
  | [] => true
  | (v, i) :: l =>
      offered_input i t &&
      match tui_step v [i] t e with Ret (t', e') => session_offered l t' e' | _ => true end
  end.

(** The first mistake of a session, as in [TabEditor]. *)
Definition input_mishap (i : user_input) (t : interface) : option fault :=
  match i with ConfigAction a => mishap a (tab_config_ t) | _ => None end.

Fixpoint session_mishap (l : list (view * user_input)) (t : interface) (e : env) : option fault :=
  match l with
  | [] => None
  | (v, i) :: l =>
      match input_mishap i t with
      | Some f => Some f
      | None => match tui_step v [i] t e with Ret (t', e') => session_mishap l t' e' | _ => None end
      end
  end.

(** ** Tabs do not disturb each other *)
Lemma same_tab_trans n t1 t2 t3 : same_tab n t1 t2 → same_tab n t2 t3 → same_tab n t1 t3.
Proof.
  intros (A1 & A2 & A3 & A4 & A5) (B1 & B2 & B3 & B4 & B5).
  split_and!; intros E; [rewrite B1, A1 | rewrite B2, A2 | rewrite B3, A3 | rewrite B4, A4 | rewrite B5, A5];
    done.
Qed.

(** Code for the tab that is shown only changes that tab. *)
Definition local (t t' : interface) : Prop :=
  tab_index t' = tab_index t ∧ ∀ n, n ≠ tab_index t → same_tab n t t'.

Ltac local_tab k :=
  match goal with
  | H : tab_index ?t = k |- local ?t _ =>
      split; [done|]; let m := fresh "m" in let Hm := fresh "Hm" in
      intros m Hm; rewrite H in Hm; split_and!; by intros ->
  end.

Ltac open_step H :=
  repeat match type of H with
  | (_ ≫= _) _ = Ret _ =>
      let a := fresh "a" in let s := fresh "s" in let H1 := fresh "H1" in
      apply prog_bind_Ret in H as (a & s & H1 & H);
      match type of a with (_ * _)%type => destruct a | _ => idtac end; cbv beta iota in H
  | mret _ _ = Ret _ => injection H as <- <-
  end.

Lemma local_refl t : local t t.
Proof. split; [done|]. intros n _. by split_and!. Qed.

Lemma draw_local v t e t' e' : draw v t e = Ret (t', e') → local t t'.
Proof.
  unfold draw. intros H.
  destruct (Z.eqb_spec (tab_index t) 1); [open_step H; local_tab 1|].
  destruct (Z.eqb_spec (tab_index t) 2); [open_step H; local_tab 2|].
  destruct (Z.eqb_spec (tab_index t) 3); [open_step H; local_tab 3|].
  destruct (Z.eqb_spec (tab_index t) 4); [open_step H; local_tab 4|].
  injection H as <- <-. apply local_refl.
Qed.

Lemma on_tab_local k m t e t' e' :
  (tab_index t = k → m t e = Ret (t', e') → local t t') → on_tab k m t e = Ret (t', e') → local t t'.
Proof.
  intros Hm. unfold on_tab. destruct (Z.eqb_spec (tab_index t) k) as [E|E]; [by apply Hm|].
  intros [= <- <-]. apply local_refl.
Qed.

Lemma handle_local v i t e t' e' : (∀ n, i ≠ ChooseTab n) → handle v i t e = Ret (t', e') → local t t'.
Proof.
  intros Hi. destruct i; cbn [handle]; [by destruct (Hi i)|..];
    apply on_tab_local; intros E H; open_step H;
    first [local_tab 1 | local_tab 2 | local_tab 3 | local_tab 4 | local_tab 5 | apply local_refl].
Qed.
Lemma handle_all_unopened v n l : ∀ t e t' e', tab_index t ≠ n → ChooseTab n ∉ l →
  handle_all v l t e = Ret (t', e') → same_tab n t t' ∧ tab_index t' ≠ n.
Proof.
  induction l as [|i l IH]; intros t e t' e' Hn Hl H; cbn [handle_all] in H.
  { injection H as <- <-. split; [by split_and! | done]. }
  apply not_elem_of_cons in Hl as [Hi Hl]. apply prog_bind_Ret in H as (t1 & e1 & H1 & H).
  assert (H2 : same_tab n t t1 ∧ tab_index t1 ≠ n).
  { assert (Hc : (∃ k, i = ChooseTab k) ∨ ∀ k, i ≠ ChooseTab k)
      by (destruct i; first [by right | by left; eexists]).
    destruct Hc as [[k ->]|Hc].
    - injection H1 as <- <-. split; [by split_and!|]. cbn. congruence.
    - apply handle_local in H1 as [E H1]; [|done]. rewrite E. split; [by apply H1 | done]. }
  destruct H2 as [Hs Hn1]. destruct (IH t1 e1 t' e' Hn1 Hl H) as [Hs' Hn'].
  split; [by eapply same_tab_trans | done].
Qed.

(** Tabs are independent: whatever a user does in the other tabs, with any number
    of inputs for each frame, a tab that is not opened stays as it is, although all
    of them share the file system. *)
Theorem unopened_tab_unchanged n l : ∀ t e t' e', tab_index t ≠ n →
  Forall (λ p, ChooseTab n ∉ p.2) l → tui_steps l t e = Ret (t', e') → same_tab n t t'.
Proof.
  induction l as [|[v i] l IH]; intros t e t' e' Hn Hl H.
  - injection H as <- <-. by split_and!.
  - apply Forall_cons in Hl as [Hi Hl]. cbn [snd tui_steps] in *.
    apply prog_bind_Ret in H as (t1 & e1 & (t2 & e2 & H2 & H1)%prog_bind_Ret & H).
    apply handle_all_unopened with (n := n) in H2 as [Hs2 Hn2]; [|done..].
    apply draw_local in H1 as [E H1].
    eapply same_tab_trans; [exact Hs2|]. eapply same_tab_trans; [by apply H1|].
    eapply IH; [by rewrite E | done | exact H].
Qed.

(** ** Editing in the interface *)
Lemma edited_ready f t : settled t →
  options_config_entries (f (ed_config t)) = options_config_entries (ed_config t) →
  length (pools_pools (f (ed_config t))) = length (pools_pools (ed_config t)) →
  ready (with_config t (f (ed_config t))).
Proof.
  intros ((Hlen & Hpool & Hi & os & Hos & Hl) & _) Ho Hp.
  unfold ready, pool_in_range, option_lists in *. cbn [with_config ed_config options_list_selected
    options_list_selected_last pools_pool_selected]. rewrite Ho, Hp. split; [done|].
  split; [|split; [done|]; by exists os]. unfold zlen in *. rewrite Hp.
  destruct Hpool as [E|]; [|by right]. left. rewrite E in Hp. by apply length_zero_iff_nil.
Qed.

Lemma edit_run v i t e : tab_index t = 1 → settled (tab_config_ t) → offered_input i t = true →
  match input_mishap i t with
  | None => ∃ c, handle v i t e = Ret (with_editor t c, e) ∧ ready c
  | Some f => handle v i t e = Undef f
  end.
Proof.
  intros Ht Hs Hi. destruct i; try discriminate Hi; cbn [handle offered_input input_mishap] in *; unfold on_tab;
    rewrite Ht, Z.eqb_refl; [|eexists; (split; [reflexivity|]); apply edited_ready; try done..].
  - pose proof (perform_run _ _ Hs Hi) as H. unfold mbind, prog_bind, lift.
    destruct (mishap a (tab_config_ t)); [by rewrite H|]. destruct H as (c & -> & Hr). by exists c.
  - apply length_alter.
Qed.

Lemma edit_step v i t e : tab_index t = 1 → settled (tab_config_ t) → offered_input i t = true →
  match input_mishap i t with
  | None => ∃ t', tui_step v [i] t e = Ret (t', e) ∧ tab_index t' = 1 ∧ settled (tab_config_ t')
  | Some f => tui_step v [i] t e = Undef f
  end.
Proof.
  intros Ht Hs Hi. pose proof (edit_run v i t e Ht Hs Hi) as H. unfold tui_step. cbn [handle_all].
  rewrite bind_assoc, prog_bind_eq. destruct (input_mishap i t); [by rewrite H|].
  destruct H as (c & -> & Hr). destruct (refresh_run c Hr) as (c' & Hc & Hs').
  exists (with_editor t c'). split; [|done]. rewrite bind_mret. unfold draw. cbn [with_editor tab_index tab_config_].
  rewrite Ht. cbn [Z.eqb Pos.eqb]. unfold mbind, prog_bind, lift. by rewrite Hc.
Qed.

Lemma edit_steps l : ∀ t e, tab_index t = 1 → settled (tab_config_ t) →
  session_offered l t e = true →
  match session_mishap l t e with
  | None => ∃ t', tui_steps (one_each l) t e = Ret (t', e)
  | Some f => tui_steps (one_each l) t e = Undef f
  end.
Proof.
  induction l as [|[v i] l IH]; intros t e Ht Hs Hl; [by exists t|].
  cbn [session_offered session_mishap one_each fmap list_fmap tui_steps fst snd] in *.
  apply andb_true_iff in Hl as [Hi Hl]. pose proof (edit_step v i t e Ht Hs Hi) as H.
  rewrite prog_bind_eq. destruct (input_mishap i t); [by rewrite H|].
  destruct H as (t1 & H1 & Ht1 & Hs1). rewrite H1 in *. by apply IH.
Qed.

Lemma loaded_tree e c e' : load_config_file opened e = Ret ((0, c), e') →
  ∃ root, load_tree root opened = Ret (0, c).
Proof.
  unfold load_config_file. intros (fd & e1 & _ & H)%prog_bind_Ret.
  assert (Hlift : ∀ root s, lift (load_tree root opened) s = Ret ((0, c), e') →
    ∃ root, load_tree root opened = Ret (0, c)).
  { intros root s. unfold lift. destruct (load_tree root opened) as [[rv t]| |] eqn:E; [|done..].
    intros [= -> -> _]. by exists root. }
  destruct fd as [path pos| |]; [|by eapply Hlift..].
  apply prog_bind_Ret in H as (e2 & e3 & _ & H). apply prog_bind_Ret in H as ([root|] & e4 & _ & H).
  - by eapply Hlift.
  - discriminate H.
Qed.

(** C33. An editing session in the interface: its four directories can be made, the
    log directory only holds names of log files and the configuration is
    accepted.  The user opens the Config tab and then does, one input for each
    frame, whatever its buttons, menus and fields offer, "Apply" apart.  The
    program ends with status 0 when the user leaves, and nothing was written; but
    if one of the two mistakes of C26 is made, it ends there: in an access out of
    bounds when a pool is removed and there is none, in an uncaught exception when
    an option is added or removed by a text that is no number. *)
Theorem gui_main_editing v v1 l logs e e1 e2 c :
  all_succeed 4 e = Ret (0, e1) → TabLogs (v_logs v) = Ret logs →
  load_config_file opened e1 = Ret ((0, c), e2) →
  (∀ t0, refresh (editor_of c) = Ret t0 →
    session_offered l (Tabs 1 logs TabLease TabInspect t0 TabCommand) e2 = true) →
  ∃ t0, refresh (editor_of c) = Ret t0 ∧
    gui_main v ((v1, [ChooseTab 1]) :: one_each l) e =
      match session_mishap l (Tabs 1 logs TabLease TabInspect t0 TabCommand) e2 with
      | None => Ret (0, e2)
      | Some f => Undef f
      end.
Proof.
  intros He Hlogs Hload Hall. destruct (loaded_tree _ _ _ Hload) as [root Htree].
  destruct (refresh_run _ (loaded_ready root c Htree)) as (t0 & Ht0 & Hs). exists t0. split; [done|].
  pose proof (edit_steps l (Tabs 1 logs TabLease TabInspect t0 TabCommand) e2 eq_refl Hs (Hall t0 Ht0)) as Hsteps.
  unfold gui_main. rewrite prog_bind_eq, He. cbn [Z.ltb Z.compare]. unfold tui_loop, tui_start.
  rewrite bind_assoc, prog_bind_eq. unfold lift. rewrite Hlogs. cbv beta iota.
  rewrite bind_assoc, prog_bind_eq. unfold TabConfig. rewrite prog_bind_eq.
  change (TabC None initialize [] [] [] false) with opened. rewrite Hload. cbv beta iota.
  unfold mret at 1, prog_ret at 1. cbv beta iota. rewrite bind_mret, prog_bind_eq.
  change (draw v _ e2) with (Ret (Tabs 0 logs TabLease TabInspect (editor_of c) TabCommand, e2)).
  cbv beta iota. cbn [tui_steps]. rewrite prog_bind_eq. unfold tui_step at 1.
  cbn [handle_all handle]. rewrite bind_assoc, bind_assoc, bind_mret, bind_mret, prog_bind_eq.
  unfold draw. cbn [with_index tab_index Z.eqb Pos.eqb tab_config_].
  rewrite prog_bind_eq. unfold lift. rewrite Ht0. cbv beta iota.
  unfold mret at 1, prog_ret at 1. cbv beta iota.
  change (with_editor _ t0) with (Tabs 1 logs TabLease TabInspect t0 TabCommand).
  destruct (session_mishap _ _ _); [by rewrite Hsteps|]. by destruct Hsteps as [t' ->].
Qed.
End Sessions.

(** ** Witnesses: the first start, and a session in the Config tab *)
Definition office_view : view :=
  View (Some ["dhcp-log-2024-05-01_10:00:00.log"%string]) (Some []) (Some []) 80 NoSocket 2 10.

Definition first_config := after (@load_tree TreeJson.tree_json (@empty_config TreeJson.tree_json) opened).

Definition office_session : list (view * @user_input TreeJson.tree_json) :=
  (office_view, TypeSetting CONF_INTERFACE "eth0") ::
  ((λ a, (office_view, ConfigAction a)) <$> session) ++
  [(office_view, TypeAclEntry 0 "02:42:ac:11:00:02"); (office_view, ConfigAction AddPool);
   (office_view, TypePool 0 "office" "10.0.0.10" "10.0.0.90" "255.255.255.0")].

Definition office_logs : tab_logs :=
  match TabLogs (v_logs office_view) with Ret logs => logs | _ => TabO [] [] 0 0 (-1) end.

(** The session, and the same with a word for an option number at its end. *)
Lemma gui_main_editing_witness :
  @gui_main TreeJson.tree_json office_view ((office_view, [ChooseTab 1]) :: one_each office_session) (Env ∅ []) =
    Ret (0, Env ∅ []) ∧
  @gui_main TreeJson.tree_json office_view ((office_view, [ChooseTab 1]) ::
      one_each (office_session ++ [(office_view, ConfigAction (OptionCtl "router" false))])) (Env ∅ []) =
    Undef Uncaught.
Proof.
  set (l2 := office_session ++ [(office_view, ConfigAction (OptionCtl "router" false))]).
  assert (Hload : load_config_file opened (Env ∅ []) = Ret ((0, first_config), Env ∅ [])).
  { assert (H : @load_tree TreeJson.tree_json (@empty_config TreeJson.tree_json) opened = Ret (0, first_config))
      by (apply accepted_after; vm_compute; reflexivity).
    unfold load_config_file. rewrite prog_bind_eq.
    change (sys_open default_config_path (Env ∅ [])) with (Ret (NoEntry, Env ∅ [])).
    cbv beta iota. unfold lift. by rewrite H. }
  assert (Hb : match refresh (editor_of first_config) with
    | Ret t0 => let t := Tabs 1 office_logs TabLease TabInspect t0 TabCommand in
        session_offered office_session t (Env ∅ []) && session_offered l2 t (Env ∅ []) &&
        bool_decide (session_mishap office_session t (Env ∅ []) = None) &&
        bool_decide (session_mishap l2 t (Env ∅ []) = Some Uncaught)
    | _ => false end = true) by (vm_compute; reflexivity).
  assert (Hall : ∀ t0, refresh (editor_of first_config) = Ret t0 →
    let t := Tabs 1 office_logs TabLease TabInspect t0 TabCommand in
    session_offered office_session t (Env ∅ []) = true ∧ session_offered l2 t (Env ∅ []) = true ∧
    session_mishap office_session t (Env ∅ []) = None ∧ session_mishap l2 t (Env ∅ []) = Some Uncaught).
  { intros t0 H0. rewrite H0 in Hb. cbv zeta in Hb |- *.
    apply andb_prop in Hb as [Hb H4]. apply andb_prop in Hb as [Hb H3]. apply andb_prop in Hb as [H1 H2].
    split; [exact H1|]. split; [exact H2|]. split; [exact (bool_decide_eq_true_1 _ H3)|].
    exact (bool_decide_eq_true_1 _ H4). }
  clear Hb. destruct (@gui_main_editing TreeJson.tree_json office_view office_view office_session office_logs
    (Env ∅ []) (Env ∅ []) (Env ∅ []) first_config) as (t0 & H0 & H);
    [reflexivity | vm_compute; reflexivity | exact Hload | intros t0 H0; exact (proj1 (Hall t0 H0)) |].
  destruct (@gui_main_editing TreeJson.tree_json office_view office_view l2 office_logs
    (Env ∅ []) (Env ∅ []) (Env ∅ []) first_config) as (t0' & H0' & H');
    [reflexivity | vm_compute; reflexivity | exact Hload | intros t0' H0'; exact (proj1 (proj2 (Hall t0' H0'))) |].
  destruct (Hall t0 H0) as (_ & _ & Hm & _). destruct (Hall t0' H0') as (_ & _ & _ & Hm'). clear Hall.
  rewrite Hm in H. rewrite Hm' in H'. split; [exact H | exact H'].
Defined.

Lemma unopened_tab_unchanged_witness : ∃ t' e',
  tui_steps [(office_view, [TypeCommand "help"; Return])]
    (Tabs 5 office_logs TabLease TabInspect (editor_of first_config) TabCommand) (Env ∅ []) =
    Ret (t', e') ∧ tab_config_ t' = editor_of first_config.
Proof.
  set (t := Tabs 5 office_logs TabLease TabInspect (editor_of first_config) TabCommand).
  set (l := [(office_view, [TypeCommand "help"; Return])]).
  assert (Hb : match tui_steps l t (Env ∅ []) with Ret _ => true | _ => false end = true)
    by (vm_compute; reflexivity).
  destruct (tui_steps l t (Env ∅ [])) as [[t' e']| |] eqn:E; [|discriminate Hb..].
  exists t', e'. split; [reflexivity|].
  apply (@unopened_tab_unchanged TreeJson.tree_json 1 l t (Env ∅ []) t' e');
    [discriminate | | exact E | reflexivity].
  constructor; [|constructor]. intros H. repeat (apply elem_of_cons in H as [H|H]; [discriminate H|]).
  by apply elem_of_nil in H.
Defined.
