(* ===== verification/Expiry.v ===== *)
(** What the lease timer and the start of the server do to the leases: the
    theorems on [check_lease] of [dhcp_server.c] and [load_pool_leases] of
    [lease.c], with no failing system call. *)
From Stdlib Require Import Ascii String.
From S2P Require Import Prelude Bytes Xtoy Json Files Rfc Options AddressPool Allocator Timer Transaction Lease Server Messages Request Serve.
Local Open Scope Z_scope.

(** ** Overdue leases *)

(** A lease on an address of the range [lo] to [hi] that is in use and that
    has expired. *)
Definition overdue (time lo hi : Z) (used : gset Z) (l : lease_t) : Prop :=
  lo ≤ l_address l < hi ∧ l_address l ∈ used ∧ l_lease_expire l ≤ time.
#[export] Instance overdue_dec time lo hi used l : Decision (overdue time lo hi used l).
Proof. unfold overdue. apply _. Defined.

Notation addresses_of ls := (list_to_set (l_address <$> ls) : gset Z).

Section Overdue.
Context (time hi : Z).

(** Nothing is overdue in an empty range. *)
Lemma overdue_empty lo used ls : hi ≤ lo →
  filter (overdue time lo hi used) ls = [] ∧ filter (λ l, ¬ overdue time lo hi used l) ls = ls.
Proof.
  intros Hlo. induction ls as [|l ls [IH1 IH2]]; [done|]. rewrite !filter_cons.
  assert (¬ overdue time lo hi used l) as Hn by (unfold overdue; lia).
  rewrite decide_False, decide_True by done. by rewrite IH1, IH2.
Qed.

(** Nothing is overdue at the first address of the range. *)
Lemma overdue_skip lo used ls : NoDup (l_address <$> ls) →
  (∀ i l, list_find (λ x, l_address x = lo) ls = Some (i, l) → ¬ overdue time lo hi used l) →
  ∀ l, l ∈ ls → overdue time lo hi used l ↔ overdue time (lo + 1) hi used l.
Proof.
  intros Hnd Hno l Hl. unfold overdue. destruct (decide (l_address l = lo)) as [Ha|]; [|intuition lia].
  split; [|intuition lia]. intros H. exfalso.
  destruct (list_find (λ x, l_address x = lo) ls) as [[i l']|] eqn:E.
  - specialize (Hno i l' eq_refl). apply list_find_Some in E as (Hi & Ha' & _).
    apply list_elem_of_lookup in Hl as [j Hj].
    assert (j = i) as ->.
    { eapply (NoDup_lookup _ _ _ lo Hnd); rewrite list_lookup_fmap; [by rewrite Hj, <-Ha | by rewrite Hi, <-Ha']. }
    rewrite Hi in Hj. injection Hj as ->. done.
  - apply list_find_None in E. rewrite Forall_forall in E. by apply (E l).
Qed.

(** The lease at the first address of the range is overdue and is taken out. *)
Lemma overdue_remove lo used ls i l : NoDup (l_address <$> ls) →
  ls !! i = Some l → l_address l = lo → overdue time lo hi used l →
  filter (λ x, ¬ overdue time lo hi used x) ls =
    filter (λ x, ¬ overdue time (lo + 1) hi (used ∖ {[lo]}) x) (delete i ls) ∧
  ∃ l1 l2, filter (overdue time (lo + 1) hi (used ∖ {[lo]})) (delete i ls) = l1 ++ l2 ∧
    filter (overdue time lo hi used) ls = l1 ++ l :: l2.
Proof.
  intros Hnd Hi Ha Ho. apply list_elem_of_split_length in Hi as (l1 & l2 & -> & ->).
  rewrite delete_middle, !filter_app, !filter_cons. rewrite fmap_app, fmap_cons in Hnd.
  apply NoDup_app in Hnd as (_ & H1 & [H2 _]%NoDup_cons).
  assert (Hne : ∀ x, x ∈ l1 ∨ x ∈ l2 → l_address x ≠ lo).
  { intros x [Hx|Hx] E; rewrite <-Ha in E.
    - apply (H1 (l_address x)); [by apply list_elem_of_fmap_2 | rewrite E; by left].
    - apply H2. rewrite <-E. by apply list_elem_of_fmap_2. }
  assert (Hiff : ∀ x, x ∈ l1 ∨ x ∈ l2 →
    overdue time lo hi used x ↔ overdue time (lo + 1) hi (used ∖ {[lo]}) x).
  { intros x Hx. specialize (Hne x Hx). unfold overdue. rewrite elem_of_difference, elem_of_singleton.
    intuition lia. }
  rewrite (decide_False (P := ¬ overdue _ _ _ _ l)) by tauto.
  rewrite (decide_True (P := overdue _ _ _ _ l)) by done.
  split; [f_equal; apply filter_ext_in; intros x Hx; rewrite Hiff by auto; done|].
  eexists _, _. split; [reflexivity|].
  f_equal; [|f_equal]; apply filter_ext_in; intros x Hx; by rewrite Hiff by auto.
Qed.
End Overdue.

Section CheckLease.
Context `{CC : !Cclog} `{CJ : !Cjson}.

(** The lease file of a pool holds the leases [ls], one for each address, and
    no system call fails. *)
Definition lease_file (e : env) (name : string) (ls : list lease_t) : Prop :=
  e_faults e = [] ∧ file_holds e name ls ∧ NoDup (l_address <$> ls).

(** The state after the leases of a list were released. *)
Definition released (s s' : dhcp_server) (name : string) (gone kept : list lease_t) : Prop :=
  ∃ al e, s' = set_allocator al (set_env e s) ∧ allocator_wf al ∧
    same_configuration (s_allocator s) al ∧
    in_use al = in_use (s_allocator s) ∖ addresses_of gone ∧
    lease_file e name kept ∧ same_other_files (s_env s) e name.

Lemma released_none s e name ls : allocator_wf (s_allocator s) → lease_file e name ls →
  same_other_files (s_env s) e name → released s (set_env e s) name [] ls.
Proof.
  intros Hw Hf Ho. exists (s_allocator s), e. split; [by destruct s|]. split; [done|].
  split; [reflexivity|]. split; [set_solver | done].
Qed.

Lemma released_trans s s1 s2 name gone1 gone2 kept1 kept2 :
  released s s1 name gone1 kept1 → released s1 s2 name gone2 kept2 →
  released s s2 name (gone1 ++ gone2) kept2.
Proof.
  intros (al1 & e1 & -> & Hw1 & Hc1 & Hu1 & Hf1 & Ho1) (al2 & e2 & -> & Hw2 & Hc2 & Hu2 & Hf2 & Ho2).
  cbn [s_allocator s_env set_allocator set_env] in *.
  exists al2, e2. split; [done|]. split; [done|]. split; [by etrans|].
  split; [|split; [done | intros path Hp; rewrite Ho2 by done; by apply Ho1]].
  rewrite Hu2, Hu1, fmap_app, list_to_set_app_L. set_solver.
Qed.

Lemma released_perm s s' name gone gone' kept : gone' ≡ₚ gone →
  released s s' name gone kept → released s s' name gone' kept.
Proof.
  intros Hp (al & e & -> & Hw & Hc & Hu & H). exists al, e. split; [done|]. split; [done|].
  split; [done|]. split; [|done]. rewrite Hu. f_equal. by rewrite Hp.
Qed.

(** The turn of the loop at an address that is in use, after its lease was
    looked up. *)
Definition release_overdue (name : string) (time lo hi : Z) (rv : Z) (lease : lease_t) (fuel : nat)
    (n : Z) : prog dhcp_server Z :=
  let continue := check_lease_loop fuel (lo +32 1) hi name time lease in
  if rv <? 0 then continue n
  else if time <? l_lease_expire lease then continue n
  else
    rv ← with_env (lease_remove lease);
    if rv <? 0 then continue n
    else _ ← with_allocator (λ al, allocator_release_address al lo); continue (n + 1).

Lemma check_used_turn name time hi lo ls s lease :
  allocator_wf (s_allocator s) → lease_file (s_env s) name ls → lo < hi →
  lo ∈ in_use (s_allocator s) →
  let found := list_find (λ x, l_address x = lo) ls in
  ∃ e, lease_file e name ls ∧ same_other_files (s_env s) e name ∧
    ∀ fuel n, check_lease_loop (S fuel) lo hi name time lease n s =
      release_overdue name time lo hi
        (if found then LEASE_OK else LEASE_DOESNT_EXITS)
        (with_pool_name (match found with Some (_, l) => l | None => lease end) (Some name))
        fuel n (set_env e s).
Proof.
  intros Hw (Hnf & Hf & Hnd) Hlo Hin found.
  destruct (retrieve_correct (s_env s) name ls lease lo Hnf Hf) as (e1 & Hr & Hnf1 & Hf1 & Ho1).
  exists e1. split; [done|]. split; [done|]. intros fuel n.
  cbn [check_lease_loop]. rewrite (proj2 (Z.ltb_lt _ _)) by done. cbn [negb].
  rewrite bind_gets, prog_bind_eq. unfold lift at 1. rewrite is_available_correct by done.
  rewrite bool_decide_false by tauto. cbv beta iota.
  rewrite prog_bind_eq, (with_env_run _ s _ _ Hr). fold found. by destruct found as [[i l]|].
Qed.

(** An overdue lease leaves the file, and its address the set in use. *)
Lemma remove_overdue_run name time lo hi ls i l s fuel n :
  allocator_wf (s_allocator s) → lease_file (s_env s) name ls →
  list_find (λ x, l_address x = lo) ls = Some (i, l) → l_lease_expire l ≤ time →
  ∃ s1, released s s1 name [l] (delete i ls) ∧
    release_overdue name time lo hi LEASE_OK (with_pool_name l (Some name)) fuel n s =
    check_lease_loop fuel (lo +32 1) hi name time (with_pool_name l (Some name)) (n + 1) s1.
Proof.
  intros Hw (Hnf & Hf & Hnd) Hfind Hexp. pose proof Hfind as (Hi & Ha & _)%list_find_Some.
  destruct (remove_correct (s_env s) name ls (with_pool_name l (Some name)) eq_refl Hnf Hf)
    as (rv & e & Hrem & Hnf' & Ho & Hres).
  change (l_address (with_pool_name l (Some name))) with (l_address l) in Hres.
  rewrite Ha, Hfind in Hres. destruct Hres as [-> Hf'].
  destruct (release_difference (s_allocator s) lo Hw) as (rv & al & Hal & Hwal & Hc & Hu).
  exists (set_allocator al (set_env e s)). split.
  - exists al, e. split; [done|]. split; [done|]. split; [done|]. split; [|split; [|done]].
    + rewrite Hu. cbn. rewrite Ha. f_equal. set_solver.
    + split; [done|]. split; [done|]. rewrite list_fmap_delete.
      eapply sublist_NoDup; [exact Hnd | apply sublist_delete].
  - unfold release_overdue. change (LEASE_OK <? 0) with false. cbv iota.
    change (l_lease_expire (with_pool_name l (Some name))) with (l_lease_expire l).
    rewrite (proj2 (Z.ltb_ge _ _)) by lia.
    rewrite prog_bind_eq, (with_env_run _ s _ _ Hrem). cbv beta iota.
    change (LEASE_OK <? 0) with false. cbv iota. rewrite prog_bind_eq. unfold with_allocator.
    cbn [s_allocator set_env]. by rewrite Hal.
Qed.

(** What the loop does from an address on. *)
Definition loop_spec (name : string) (time hi : Z) (fuel : nat) (lo : Z) (ls : list lease_t)
    (lease : lease_t) (n : Z) (s : dhcp_server) : Prop :=
  let P := overdue time lo hi (in_use (s_allocator s)) in
  ∃ s', check_lease_loop fuel lo hi name time lease n s = Ret (n + zlen (filter P ls), s') ∧
    released s s' name (filter P ls) (filter (λ l, ¬ P l) ls).

Lemma loop_spec_skip name time hi fuel lo ls lease lease' n s e :
  (∀ i l, list_find (λ x, l_address x = lo) ls = Some (i, l) →
     ¬ overdue time lo hi (in_use (s_allocator s)) l) →
  allocator_wf (s_allocator s) → NoDup (l_address <$> ls) → lease_file e name ls →
  same_other_files (s_env s) e name →
  check_lease_loop (S fuel) lo hi name time lease n s =
    check_lease_loop fuel (lo + 1) hi name time lease' n (set_env e s) →
  loop_spec name time hi fuel (lo + 1) ls lease' n (set_env e s) →
  loop_spec name time hi (S fuel) lo ls lease n s.
Proof.
  intros Hno Hw Hnd Hf Ho Hstep (s' & Hrun & Hrel). cbn [s_allocator set_env] in *.
  pose proof (overdue_skip time hi lo (in_use (s_allocator s)) ls Hnd Hno) as Hiff.
  exists s'.
  rewrite (filter_ext_in _ _ ls Hiff), (filter_ext_in (λ l, ¬ overdue time lo hi _ l)
    (λ l, ¬ overdue time (lo + 1) hi (in_use (s_allocator s)) l) ls) by (intros l Hl; by rewrite Hiff).
  split; [by rewrite Hstep|].
  exact (released_trans _ _ _ _ [] _ _ _ (released_none s e name ls Hw Hf Ho) Hrel).
Qed.

Lemma loop_spec_remove name time hi fuel lo ls i l lease n s e :
  allocator_wf (s_allocator s) → NoDup (l_address <$> ls) → lease_file e name ls →
  same_other_files (s_env s) e name → 0 ≤ lo < hi → is_u32 hi → lo ∈ in_use (s_allocator s) →
  list_find (λ x, l_address x = lo) ls = Some (i, l) → l_lease_expire l ≤ time →
  (∀ fuel n, check_lease_loop (S fuel) lo hi name time lease n s =
     release_overdue name time lo hi LEASE_OK (with_pool_name l (Some name)) fuel n (set_env e s)) →
  (∀ ls' lease' n' s', allocator_wf (s_allocator s') → lease_file (s_env s') name ls' →
     same_configuration (s_allocator s) (s_allocator s') →
     loop_spec name time hi fuel (lo + 1) ls' lease' n' s') →
  loop_spec name time hi (S fuel) lo ls lease n s.
Proof.
  intros Hw Hnd Hf Ho Hlo Hhi Hin Hfind Hexp Hturn Hnext.
  destruct (remove_overdue_run name time lo hi ls i l (set_env e s) fuel n Hw Hf Hfind Hexp)
    as (s1 & Hrel1 & Hrun1).
  pose proof Hfind as (Hi & Ha & _)%list_find_Some.
  assert (Hover : overdue time lo hi (in_use (s_allocator s)) l)
    by (unfold overdue; rewrite Ha; split; [lia | done]).
  destruct (overdue_remove time hi lo (in_use (s_allocator s)) ls i l Hnd Hi Ha Hover)
    as (Hkeep & l1 & l2 & H12 & Hgone).
  pose proof Hrel1 as (al1 & e1 & -> & Hw1 & Hc1 & Hu1 & Hf1 & _).
  cbn [s_allocator set_env] in Hu1, Hc1.
  destruct (Hnext (delete i ls) (with_pool_name l (Some name)) (n + 1)
    (set_allocator al1 (set_env e1 (set_env e s))) Hw1 Hf1 Hc1) as (s' & Hrun & Hrel).
  cbn [s_allocator set_allocator] in Hrun, Hrel.
  assert (Hu : in_use al1 = in_use (s_allocator s) ∖ {[lo]}).
  { rewrite Hu1. cbn. rewrite Ha. f_equal. set_solver. }
  rewrite Hu, H12, <-Hkeep in Hrel. rewrite Hu, H12 in Hrun.
  exists s'. split.
  - rewrite Hturn, Hrun1. change (lo +32 1) with (u32 (lo + 1)).
    rewrite u32_small by (unfold is_u32 in *; lia). rewrite Hrun, Hgone.
    do 2 f_equal. rewrite !zlen_app, zlen_cons. lia.
  - pose proof (released_trans _ _ _ _ [] _ _ _
      (released_none s e name ls Hw Hf Ho) (released_trans _ _ _ _ _ _ _ _ Hrel1 Hrel)) as Hall.
    cbn [app] in Hall. eapply released_perm; [|exact Hall]. rewrite Hgone.
    by rewrite Permutation_middle.
Qed.

Lemma check_loop_run name time hi fuel : ∀ lo ls lease n s,
  allocator_wf (s_allocator s) → lease_file (s_env s) name ls → is_u32 hi → 0 ≤ lo ≤ hi →
  fuel = Z.to_nat (hi - lo) → (∀ a, lo ≤ a < hi → covered (s_allocator s) a) →
  loop_spec name time hi fuel lo ls lease n s.
Proof.
  induction fuel as [|fuel IH]; intros lo ls lease n s Hw Hf Hhi Hlo Hfuel Hcov.
  - exists (set_env (s_env s) s).
    destruct (overdue_empty time hi lo (in_use (s_allocator s)) ls) as [-> ->]; [lia|].
    split; [|by apply released_none]. cbn [check_lease_loop].
    rewrite (proj2 (Z.ltb_ge _ _)) by lia. cbn [negb]. unfold mret, prog_ret. rewrite Z.add_0_r.
    by destruct s.
  - assert (Hu : lo +32 1 = lo + 1) by (apply u32_small; unfold is_u32 in *; lia).
    assert (Hnext : ∀ ls' lease' n' s', allocator_wf (s_allocator s') → lease_file (s_env s') name ls' →
      same_configuration (s_allocator s) (s_allocator s') → loop_spec name time hi fuel (lo + 1) ls' lease' n' s').
    { intros ls' lease' n' s' Hw' Hf' Hsc. apply IH; try done; [lia | lia |]. intros a Ha.
      apply (same_configuration_covered _ _ a Hsc), Hcov. lia. }
    destruct (decide (lo ∈ in_use (s_allocator s))) as [Hin|Hin].
    2: { apply (loop_spec_skip name time hi fuel lo ls lease lease n s (s_env s)); try done.
         - intros i l (_ & Ha & _)%list_find_Some (_ & H & _). by rewrite Ha in H.
         - by destruct Hf as (_ & _ & ?).
         - cbn [check_lease_loop]. rewrite (proj2 (Z.ltb_lt _ _)) by lia. cbn [negb].
           rewrite bind_gets, prog_bind_eq. unfold lift at 1. rewrite is_available_correct by done.
           rewrite bool_decide_true by (split; [apply Hcov; lia | done]). cbv beta iota. rewrite Hu.
           by destruct s.
         - by apply Hnext. }
    destruct (check_used_turn name time hi lo ls s lease Hw Hf ltac:(lia) Hin) as (e & He & Ho & Hturn).
    destruct (list_find (λ x, l_address x = lo) ls) as [[i l]|] eqn:Efind; cbv iota beta in Hturn.
    2: { apply (loop_spec_skip name time hi fuel lo ls lease (with_pool_name lease (Some name)) n s e);
           try done; [by rewrite Efind | by destruct Hf as (_ & _ & ?) | by rewrite Hturn, <-Hu |].
         by apply Hnext. }
    destruct (decide (l_lease_expire l ≤ time)) as [Hexp|Hexp].
    2: { apply (loop_spec_skip name time hi fuel lo ls lease (with_pool_name l (Some name)) n s e);
           try done; [| by destruct Hf as (_ & _ & ?) | | by apply Hnext].
         - rewrite Efind. by intros ? ? [= <- <-] (_ & _ & ?).
         - rewrite Hturn, <-Hu. unfold release_overdue.
           change (LEASE_OK <? 0) with false. cbv iota.
           change (l_lease_expire (with_pool_name l (Some name))) with (l_lease_expire l).
           by rewrite (proj2 (Z.ltb_lt _ _)) by lia. }
    apply (loop_spec_remove name time hi fuel lo ls i l lease n s e); try done; [|lia].
    by destruct Hf as (_ & _ & ?).
Qed.

(** ** Loading the leases of a pool *)

(** The lease is still valid, and on an address of the pool. *)
Definition held (time : Z) (pool : address_pool) (l : lease_t) : Prop :=
  time < l_lease_expire l ∧ p_start_address pool ≤ l_address l ≤ p_end_address pool.
#[local] Instance held_dec time pool l : Decision (held time pool l).
Proof. unfold held. apply _. Defined.

(** The state after the leases [ls] between [before] and [rest] in the file of
    a pool were loaded: the valid ones are left in the file and their addresses
    are in use. *)
Definition loaded (s s' : dhcp_server) (time : Z) (pool : address_pool)
    (before ls rest : list lease_t) : Prop :=
  ∃ al e, s' = set_allocator al (set_env e s) ∧ allocator_wf al ∧
    same_configuration (s_allocator s) al ∧
    in_use al = in_use (s_allocator s) ∪ addresses_of (filter (held time pool) ls) ∧
    lease_file e (p_name pool) (before ++ filter (λ l, time < l_lease_expire l) ls ++ rest) ∧
    same_other_files (s_env s) e (p_name pool).

Lemma loaded_app s s1 s2 time pool before ls1 ls2 rest :
  loaded s s1 time pool before ls1 (ls2 ++ rest) →
  loaded s1 s2 time pool (before ++ filter (λ l, time < l_lease_expire l) ls1) ls2 rest →
  loaded s s2 time pool before (ls1 ++ ls2) rest.
Proof.
  intros (al1 & e1 & -> & Hw1 & Hc1 & Hu1 & Hf1 & Ho1) (al2 & e2 & -> & Hw2 & Hc2 & Hu2 & Hf2 & Ho2).
  cbn [s_allocator s_env set_allocator set_env] in *.
  exists al2, e2. split; [done|]. split; [done|]. split; [by etrans|].
  rewrite !filter_app, fmap_app, list_to_set_app_L. split; [rewrite Hu2, Hu1; set_solver|].
  split; [by rewrite <-!app_assoc in * | intros path Hp; rewrite Ho2 by done; by apply Ho1].
Qed.

Lemma held_same time pool pool' (ls : list lease_t) : same_pool pool pool' →
  filter (held time pool') ls = filter (held time pool) ls.
Proof.
  intros (_ & Hs & He & _). apply filter_ext_in. intros l _. unfold held. by rewrite Hs, He.
Qed.

(** The lease that is removed is the only one with its address. *)
Lemma find_middle (before ls : list lease_t) l : NoDup (l_address <$> before ++ l :: ls) →
  list_find (λ x, l_address x = l_address l) (before ++ l :: ls) = Some (length before, l).
Proof.
  intros Hnd. apply list_find_Some. split; [by apply list_lookup_middle|]. split; [done|].
  intros j y Hj Hlt Ha. rewrite lookup_app_l in Hj by done.
  rewrite fmap_app, fmap_cons in Hnd. apply NoDup_app in Hnd as (_ & H & _).
  apply (H (l_address y)); [apply list_elem_of_fmap_2; by eapply list_elem_of_lookup_2|].
  rewrite Ha. left.
Qed.

Lemma load_lease_run time i pool r before l ls j s :
  allocator_wf (s_allocator s) → address_pools (s_allocator s) !! i = Some pool →
  lease_file (s_env s) (p_name pool) (before ++ l :: ls) → lease_wf l → lease_to_cjson l = Ret j →
  ∃ pool' r' s', load_lease time i pool r j s = Ret ((pool', r'), s') ∧ same_pool pool pool' ∧
    address_pools (s_allocator s') !! i = Some pool' ∧ loaded s s' time pool before [l] ls.
Proof.
  intros Hw Hi (Hnf & Hf & Hnd) Hl Hj.
  destruct (lease_json_correct l Hl) as (j' & Hj' & _ & Hback). rewrite Hj in Hj'. injection Hj' as <-.
  unfold load_lease. rewrite prog_bind_eq. unfold lift at 1. rewrite Hback. cbv beta iota.
  set (l' := with_pool_name l (Some (p_name pool))). change (l_lease_expire l') with (l_lease_expire l).
  unfold loaded. rewrite !filter_cons, !filter_nil. destruct (Z.leb_spec (l_lease_expire l) time) as [Hexp|Hexp].
  - destruct (remove_correct (s_env s) (p_name pool) _ l' eq_refl Hnf Hf) as (rv & e & Hrem & Hnf' & Ho & Hres).
    change (l_address l') with (l_address l) in Hres. rewrite find_middle, delete_middle in Hres by done.
    destruct Hres as [-> Hf']. rewrite prog_bind_eq, (with_env_run _ s _ _ Hrem). cbv beta iota.
    exists pool, l', (set_env e s). split; [done|]. split; [reflexivity|]. split; [done|].
    exists (s_allocator s), e. split; [by destruct s|]. split; [done|]. split; [reflexivity|].
    rewrite !decide_False by (unfold held; lia). split; [set_solver|]. split; [|done].
    split; [done|]. split; [done|]. rewrite fmap_app, fmap_cons in Hnd. rewrite fmap_app.
    apply NoDup_app in Hnd as (H1 & H2 & [_ H3]%NoDup_cons). apply NoDup_app. split; [done|].
    split; [|done]. intros x Hx1 Hx2. apply (H2 x Hx1). by right.
  - assert (Hp : pool_wf pool) by (by eapply (proj1 (Forall_lookup _ _) (proj1 Hw))).
    destruct (ctl_correct pool (l_address l) ACTION_SET Hp) as (rv & pool' & Hctl & Hs & Hwp & Hsp & Hsame).
    rewrite prog_bind_eq. unfold lift at 1, address_pool_set_address_allocation.
    change (l_address l') with (l_address l). rewrite Hctl. cbv beta iota. rewrite bind_modify.
    exists pool', l', (put_pool i pool' s). split; [done|]. split; [done|].
    split; [by apply list_lookup_insert_eq; eapply lookup_lt_Some|].
    exists (with_pools (s_allocator s) (<[i := pool']> (address_pools (s_allocator s)))), (s_env s).
    split; [by destruct s|]. split; [by apply (replace_pool_wf _ _ pool)|]. split; [by apply (replace_same_configuration _ _ pool)|].
    rewrite (decide_True (P := time < _)) by done. split; [|by repeat split].
    unfold ctl_spec in Hs. destruct (address_belongs_to_pool pool (l_address l)) eqn:Hb; cbn [negb] in Hs.
    + apply address_belongs_to_pool_spec in Hb as Hb'. rewrite decide_True by (unfold held; lia).
      change (ACTION_SET =? ACTION_SET) with true in Hs. cbv iota in Hs.
      assert (leased pool' = {[l_address l]} ∪ leased pool) as Hlp.
      { destruct (decide (l_address l ∈ leased pool)); injection Hs as _ ->; [|done]. set_solver. }
      rewrite (replace_set _ _ pool pool' (l_address l) Hi Hlp). set_solver.
    + rewrite decide_False. 2: { intros [_ H]. apply address_belongs_to_pool_spec in H. congruence. }
      injection Hs as -> _. rewrite (Hsame ltac:(discriminate)), list_insert_id by done.
      destruct (s_allocator s). cbn [with_pools]. set_solver.
Qed.

Lemma loaded_same s s' time pool pool' before ls rest : same_pool pool pool' →
  loaded s s' time pool' before ls rest → loaded s s' time pool before ls rest.
Proof.
  intros Hs (al & e & H). exists al, e. rewrite (held_same time pool pool' ls Hs) in H.
  by rewrite (proj1 Hs) in H.
Qed.

Lemma load_leases_run time i ls js :
  Forall2 (λ l j, lease_wf l ∧ lease_to_cjson l = Ret j) ls js → ∀ before pool r s,
  allocator_wf (s_allocator s) → address_pools (s_allocator s) !! i = Some pool →
  lease_file (s_env s) (p_name pool) (before ++ ls) →
  ∃ s', load_leases time i pool r js s = Ret ((), s') ∧ loaded s s' time pool before ls [].
Proof.
  induction 1 as [|l j ls js [Hl Hj] _ IH]; intros before pool r s Hw Hi Hf.
  - exists s. split; [done|]. exists (s_allocator s), (s_env s). split; [by destruct s|]. split; [done|].
    split; [reflexivity|]. rewrite !filter_nil. split; [set_solver | done].
  - destruct (load_lease_run time i pool r before l ls j s Hw Hi Hf Hl Hj)
      as (pool' & r' & s1 & Hrun & Hsp & Hi1 & Hload).
    cbn [load_leases]. rewrite prog_bind_eq, Hrun. cbv beta iota.
    pose proof Hload as (al & e & -> & Hw1 & _ & _ & Hf1 & _).
    destruct (IH (before ++ filter (λ l, time < l_lease_expire l) [l]) pool' r'
      (set_allocator al (set_env e s)) Hw1 Hi1) as (s' & Hrun' & Hload').
    { cbn [s_env set_allocator set_env]. by rewrite (proj1 Hsp), <-app_assoc. }
    exists s'. split; [done|]. change (l :: ls) with ([l] ++ ls).
    eapply loaded_app; [by rewrite app_nil_r|]. by eapply loaded_same.
Qed.

Lemma load_pool_run i pool ls s :
  allocator_wf (s_allocator s) → address_pools (s_allocator s) !! i = Some pool →
  lease_file (s_env s) (p_name pool) ls →
  ∃ s', load_pool_leases i pool s = Ret (0, s') ∧
    loaded s s' (u32 (s_now s)) pool [] ls [].
Proof.
  intros Hw Hi (Hnf & Hf & Hnd). unfold load_pool_leases.
  destruct (open_correct (s_env s) (p_name pool) ls Hnf Hf) as (e1 & Hopen & Hnf1 & Hsome & Hf1 & Ho1).
  destruct (load_correct e1 (p_name pool) ls Hnf1 Hsome Hf1) as (root & arr & Hroot & Hg & Hl).
  rewrite prog_bind_eq, (with_env_run _ s _ _ Hopen). cbv beta iota.
  rewrite prog_bind_eq, (with_env_run _ (set_env e1 s) _ _ Hroot). cbv beta iota.
  unfold get_item. cbn [mbind option_bind]. rewrite Hg, bind_gets. cbv beta iota.
  change (s_now (set_env e1 (set_env e1 s))) with (s_now s).
  destruct (load_leases_run (u32 (s_now s)) i ls _ Hl [] pool lease_new (set_env e1 (set_env e1 s)) Hw Hi)
    as (s' & Hrun & al & e & -> & Hw' & Hsc & Hu & Hf' & Ho'); [done|].
  eexists. split; [by rewrite prog_bind_eq, Hrun|].
  exists al, e. split; [done|]. split; [done|]. split; [done|]. split; [done|]. split; [done|].
  intros path Hp. rewrite Ho' by done. by apply Ho1.
Qed.

Lemma list_ascii_of_string_app s t :
  list_ascii_of_string (s ++ t)%string = list_ascii_of_string s ++ list_ascii_of_string t.
Proof. induction s as [|c s IH]; [done|]. simpl. by rewrite <-IH. Qed.

Lemma lease_path_inj name name' : lease_path name = lease_path name' → name = name'.
Proof.
  unfold lease_path. intros H. apply (inj (String.append _)) in H.
  apply (f_equal list_ascii_of_string) in H. rewrite !list_ascii_of_string_app in H.
  apply app_inv_tail in H. by rewrite <-(string_of_list_ascii_of_string name), H, string_of_list_ascii_of_string.
Qed.

(** A file that is not touched keeps its leases. *)
Lemma lease_file_kept e e' name ls : lease_file e name ls → e_faults e' = [] →
  e_files e' !! lease_path name = e_files e !! lease_path name → lease_file e' name ls.
Proof. intros (_ & Hf & Hnd) Hnf Ho. split; [done|]. split; [|done]. unfold file_holds in *. by rewrite Ho. Qed.

(** The pools from the index [i] on were loaded. *)
Definition all_loaded (s s' : dhcp_server) (time : Z) (i : nat) (ls : string → list lease_t) : Prop :=
  let pools := address_pools (s_allocator s) in
  ∃ al e, s' = set_allocator al (set_env e s) ∧ allocator_wf al ∧
    same_configuration (s_allocator s) al ∧
    (∀ a, a ∈ in_use al ↔ a ∈ in_use (s_allocator s) ∨
       ∃ k p l, (i ≤ k)%nat ∧ pools !! k = Some p ∧ l ∈ ls (p_name p) ∧ held time p l ∧ l_address l = a) ∧
    e_faults e = [] ∧
    (∀ k p, (i ≤ k)%nat → pools !! k = Some p →
      lease_file e (p_name p) (filter (λ l, time < l_lease_expire l) (ls (p_name p)))) ∧
    ∀ path, (∀ k p, (i ≤ k)%nat → pools !! k = Some p → path ≠ lease_path (p_name p)) →
      e_files e !! path = e_files (s_env s) !! path.

Lemma same_configuration_pool al al' k p : same_configuration al al' →
  address_pools al !! k = Some p → ∃ p', address_pools al' !! k = Some p' ∧ same_pool p p'.
Proof. intros [_ H] Hk. exact (Forall2_lookup_l _ _ _ _ _ H Hk). Qed.

Lemma held_iff time p p' l : same_pool p p' → held time p l ↔ held time p' l.
Proof. intros (_ & Hs & He & _). unfold held. by rewrite Hs, He. Qed.

Lemma names_distinct al k k' p p' : allocator_wf al → address_pools al !! k = Some p →
  address_pools al !! k' = Some p' → k ≠ k' → p_name p ≠ p_name p'.
Proof.
  intros (_ & _ & Hnd) Hk Hk' Hne E. apply Hne.
  eapply (NoDup_lookup _ _ _ (p_name p) Hnd); rewrite list_lookup_fmap; [by rewrite Hk|].
  by rewrite Hk', E.
Qed.

(** Loading one pool and then the ones after it. *)
Lemma all_loaded_step s s1 s' time i pool ls :
  allocator_wf (s_allocator s) → address_pools (s_allocator s) !! i = Some pool →
  loaded s s1 time pool [] (ls (p_name pool)) [] → all_loaded s1 s' time (S i) ls →
  all_loaded s s' time i ls.
Proof.
  intros Hw Hi (al1 & e1 & -> & Hw1 & Hc1 & Hu1 & Hf1 & Ho1)
    (al & e & -> & Hw' & Hc & Hu & Hnf & Hf & Ho).
  cbn [s_allocator s_env set_allocator set_env] in *.
  exists al, e. split; [done|]. split; [done|]. split; [by etrans|]. split; [|split; [done|split]].
  - intros a. rewrite Hu, Hu1, elem_of_union, elem_of_list_to_set, list_elem_of_fmap. split.
    + intros [[?|(l & -> & [Hh Hl]%list_elem_of_filter)]|(k & p' & l & Hk & Hp' & Hl & Hh & Ha)]; [by left| |].
      * right. by exists i, pool, l.
      * right. destruct Hc1 as [_ Hp]. destruct (Forall2_lookup_r _ _ _ _ _ Hp Hp') as (p & Hkp & Hs).
        exists k, p, l. rewrite <-(proj1 Hs). split_and!; try done; [lia | by apply (held_iff _ _ _ _ Hs)].
    + intros [?|(k & p & l & Hk & Hp & Hl & Hh & Ha)]; [by left; left|].
      destruct (decide (k = i)) as [->|Hne].
      * left. right. rewrite Hi in Hp. injection Hp as ->. exists l. by rewrite list_elem_of_filter.
      * right. destruct (same_configuration_pool _ _ k p Hc1 Hp) as (p' & Hp' & Hs).
        exists k, p', l. rewrite (proj1 Hs). split_and!; try done; [lia | by apply (held_iff _ _ _ _ Hs)].
  - intros k p Hk Hp. destruct (decide (k = i)) as [->|Hne].
    + rewrite Hi in Hp. injection Hp as ->. rewrite app_nil_r in Hf1.
      apply (lease_file_kept e1); [done..|]. apply Ho. intros k p' Hk' Hp' E%lease_path_inj.
      destruct (same_configuration_pool _ _ i p Hc1 Hi) as (q & Hq & Hs). rewrite <-(proj1 Hs) in E.
      eapply (names_distinct al1 i k); eauto; lia.
    + destruct (same_configuration_pool _ _ k p Hc1 Hp) as (q & Hq & Hs).
      rewrite <-(proj1 Hs). apply (Hf k); [lia | done].
  - intros path Hp. rewrite Ho, Ho1; [done | by apply (Hp i) |].
    intros k q Hk Hq. destruct Hc1 as [_ Hps]. destruct (Forall2_lookup_r _ _ _ _ _ Hps Hq) as (p & Hkp & Hs).
    rewrite (proj1 Hs). apply (Hp k); [lia | done].
Qed.

Lemma load_all_run ls n : ∀ i s,
  allocator_wf (s_allocator s) → (i + n = length (address_pools (s_allocator s)))%nat →
  e_faults (s_env s) = [] →
  (∀ k p, (i ≤ k)%nat → address_pools (s_allocator s) !! k = Some p →
    lease_file (s_env s) (p_name p) (ls (p_name p))) →
  ∃ s', load_all_pools i n s = Ret ((), s') ∧ all_loaded s s' (u32 (s_now s)) i ls.
Proof.
  induction n as [|n IH]; intros i s Hw Hn Hnf Hf.
  - exists s. split; [done|]. exists (s_allocator s), (s_env s). split; [by destruct s|]. split; [done|].
    assert (Hnone : ∀ k p, (i ≤ k)%nat → address_pools (s_allocator s) !! k = Some p → False).
    { intros k p Hk Hp%lookup_lt_Some. lia. }
    split; [reflexivity|]. split; [|split; [done|split; [|done]]].
    + intros a. split; [by left|]. intros [?|(k & p & l & Hk & Hp & _)]; [done|]. by destruct (Hnone k p).
    + intros k p Hk Hp. by destruct (Hnone k p).
  - destruct (lookup_lt_is_Some_2 (address_pools (s_allocator s)) i) as [pool Hi]; [lia|].
    destruct (load_pool_run i pool (ls (p_name pool)) s Hw Hi (Hf i pool ltac:(lia) Hi)) as (s1 & Hrun & Hl).
    cbn [load_all_pools]. rewrite bind_gets, Hi, prog_bind_eq, Hrun. cbv beta iota.
    pose proof Hl as (al1 & e1 & -> & Hw1 & Hc1 & _ & Hf1 & Ho1).
    destruct (IH (S i) (set_allocator al1 (set_env e1 s))) as (s' & Hrun' & Hl'); try done.
    + cbn [s_allocator set_allocator]. rewrite <-(Forall2_length _ _ _ (proj2 Hc1)). lia.
    + by destruct Hf1.
    + cbn [s_allocator s_env set_allocator set_env]. intros k q Hk Hq. destruct Hc1 as [_ Hps].
      destruct (Forall2_lookup_r _ _ _ _ _ Hps Hq) as (p & Hkp & Hs). rewrite (proj1 Hs).
      apply (lease_file_kept (s_env s)); [apply (Hf k); [lia | done] | by destruct Hf1 |].
      apply Ho1. intros E%lease_path_inj. eapply (names_distinct (s_allocator s) k i); eauto. lia.
    + exists s'. split; [done|]. by eapply all_loaded_step.
Qed.


(** C20. The check of a pool whose lease file is in order, with at most one lease
    of each address, while no system call fails: the overdue leases of the
    addresses of the pool that are in use, but for its last address, leave the
    file and their addresses can be given out again; every other lease stays, and
    so do the other addresses; the result is the number of the leases released.
    So an overdue lease stays when it is on the last address of the pool, at
    which the loop stops, or on an address that is not in use, which the loop
    skips. *)
Theorem check_lease_spec time i pool ls s :
  allocator_wf (s_allocator s) → address_pools (s_allocator s) !! i = Some pool →
  lease_file (s_env s) (p_name pool) ls →
  let P := overdue time (p_start_address pool) (p_end_address pool) (in_use (s_allocator s)) in
  ∃ s', check_lease time pool s = Ret (zlen (filter P ls), s') ∧
    released s s' (p_name pool) (filter P ls) (filter (λ l, ¬ P l) ls).
Proof.
  intros Hw Hi Hf P. assert (Hp : pool_wf pool) by (by eapply (proj1 (Forall_lookup _ _) (proj1 Hw))).
  destruct Hp as (Hr & He & _).
  apply (check_loop_run (p_name pool) time (p_end_address pool) _ (p_start_address pool) ls lease_new 0 s);
    try done; [unfold is_u32; lia | lia |].
  intros a Ha. eapply covered_pool; [exact Hi|]. apply address_belongs_to_pool_spec. lia.
Qed.
End CheckLease.

(** ** Witnesses: one lease, of 192.168.1.4 until the time 4600 *)

(** The server with the lease file of its pool. *)
Definition expiry_server (files : gmap string string) (al : address_allocator) (now : Z) : dhcp_server :=
  set_now now (set_env (Env files []) (set_allocator al (sample_server []))).

Definition leased_allocator : address_allocator :=
  match @allocator_request_this_address cclog_run sample_base 3232235780 with
  | Ret (_, al, _) => al
  | _ => sample_base
  end.
Definition leased_pool : address_pool :=
  match address_pools leased_allocator with p :: _ => p | [] => sample_pool end.

Lemma leased_allocator_ok : allocator_wf leased_allocator ∧ 3232235780 ∈ in_use leased_allocator.
Proof.
  destruct (@request_this_correct cclog_run sample_base 3232235780) as (rv & al & buf & H & Hs & Hw & _);
    [exact (proj1 sample_allocator_ok)|].
  assert (E : @allocator_request_this_address cclog_run sample_base 3232235780 =
    Ret (0, leased_allocator, Some 3232235780)) by (vm_compute; reflexivity).
  rewrite E in H. injection H as <- <- <-. split; [done|]. unfold request_spec in Hs.
  destruct (bool_decide _); cbn [negb] in Hs; [|discriminate]. destruct (decide _); [discriminate|].
  assert (Hu : in_use leased_allocator = {[3232235780]} ∪ in_use sample_base)
    by exact (f_equal (λ x, x.1.2) Hs).
  rewrite Hu. apply elem_of_union_l, elem_of_singleton_2. done.
Qed.

Lemma check_lease_spec_witness : ∃ files s',
  @check_lease cclog_run TreeJson.tree_json 4600 leased_pool
    (expiry_server files leased_allocator 4600) = Ret (1, s') ∧
  lease_file (CJ := TreeJson.tree_json) (s_env s') "Pool" [].
Proof.
  destruct sample_db as (files & Hf & _). exists files. destruct leased_allocator_ok as [Hw Hin].
  destruct (@check_lease_spec cclog_run TreeJson.tree_json 4600 0 leased_pool [sample_lease]
    (expiry_server files leased_allocator 4600)) as (s' & H & al & e & -> & _ & _ & _ & He & _).
  - exact Hw.
  - vm_compute. reflexivity.
  - split; [reflexivity|]. split; [exact Hf | apply NoDup_singleton].
  - assert (Ho : overdue 4600 (p_start_address leased_pool) (p_end_address leased_pool)
      (in_use (s_allocator (expiry_server files leased_allocator 4600))) sample_lease).
    { split; [vm_compute; split; [discriminate | reflexivity]|]. split; [exact Hin | discriminate]. }
    rewrite !filter_cons, !filter_nil in H, He. rewrite !decide_True in H by exact Ho.
    rewrite decide_False in He by (intros Hn; apply Hn; exact Ho).
    eexists. split; [exact H | exact He].
Defined.

