(* ===== verification/Invariant.v ===== *)
(** The invariant of the server loop: the state stays well formed whatever the
    clients send, whatever system calls fail and whenever the timers run out. *)
From Stdlib Require Import Ascii String.
From S2P Require Import Prelude Bytes Xtoy Json Files Rfc Options Packet AddressPool Allocator Timer Transaction Acl Lease Database Server Messages Request Snoop Unix Serve.
Local Open Scope Z_scope.

Section Invariant.
Context `{CC : !Cclog} `{CJ : !Cjson}.
Context (cfg : config).

(** The state is well formed and the configuration is [cfg]. *)
Definition invariant (s : dhcp_server) : Prop := server_wf s ∧ s_config s = cfg.

(** ** The parts of the state *)
Lemma invariant_now n s : invariant s → invariant (set_now n s).
Proof. done. Qed.
Lemma invariant_heap h s : invariant s → invariant (set_heap h s).
Proof. done. Qed.
Lemma invariant_env e s : invariant s → invariant (set_env e s).
Proof. done. Qed.
Lemma invariant_sent l s : invariant s → invariant (set_sent l s).
Proof. done. Qed.
Lemma invariant_dacl d s : invariant s → invariant (set_dacl d s).
Proof. done. Qed.
Lemma invariant_ipc i s : invariant s → invariant (set_ipc i s).
Proof. done. Qed.
Lemma invariant_lease_timer t s : invariant s → invariant (set_lease_timer t s).
Proof. done. Qed.

Lemma invariant_allocator al s : invariant s → allocator_wf al → same_configuration (s_allocator s) al →
  invariant (set_allocator al s).
Proof. intros [Hw Hc] Ha Ho. split; [by apply same_configuration_wf | done]. Qed.

Lemma invariant_cache c s : invariant s → cache_wf c → invariant (set_cache c s).
Proof. intros [(Ha & _ & Hr) Hc] Hw. by split; [split; [|split]|]. Qed.

Lemma preserves_with_env {A} (m : prog env A) : preserves invariant (with_env m).
Proof.
  intros s a s' Hs. unfold with_env. destruct (m (s_env s)) as [[b e]| |]; [|done..].
  intros [= <- <-]. by apply invariant_env.
Qed.

#[local] Hint Resolve invariant_now invariant_heap invariant_env invariant_sent invariant_dacl
  invariant_ipc invariant_lease_timer preserves_with_env : preserve.
#[local] Hint Extern 2 (preserves _ (modify _)) => apply preserves_modify; intros ? : preserve.
#[local] Hint Unfold set_xid_used_in_scan set_keep_running add_response : preserve.

(** What code on the allocator has to keep. *)
Lemma preserves_with_allocator {A} (f : address_allocator → result (A * address_allocator)) :
  (∀ al a al', allocator_wf al → f al = Ret (a, al') → allocator_wf al' ∧ same_configuration al al') →
  preserves invariant (with_allocator f).
Proof.
  intros Hf s a s' Hs. unfold with_allocator. destruct (f (s_allocator s)) as [[b al]| |] eqn:E; [|done..].
  intros [= <- <-]. destruct (Hf _ _ _ (proj1 (proj1 Hs)) E). by apply invariant_allocator.
Qed.

Lemma preserves_request_this {A} (g : option Z → A) a :
  preserves invariant (with_allocator (λ al,
    '(rv, al, buf) ← allocator_request_this_address al a; mret (g buf, al))).
Proof.
  apply preserves_with_allocator. intros al b al' Hw.
  destruct (request_this_correct al a Hw) as (rv & al1 & buf & -> & _ & Hw1 & Ho & _).
  rewrite ret_bind. by intros [= <- <-].
Qed.

Lemma preserves_request_any :
  preserves invariant (with_allocator (λ al,
    '(rv, al, buf) ← allocator_request_any_address al; mret (buf, al))).
Proof.
  apply preserves_with_allocator. intros al b al' Hw.
  destruct (request_any_correct al Hw) as (al1 & buf & -> & Hw1 & Ho & _).
  rewrite ret_bind. by intros [= <- <-].
Qed.

Lemma preserves_release a :
  preserves invariant (with_allocator (λ al, allocator_release_address al a)).
Proof.
  apply preserves_with_allocator. intros al b al' Hw.
  destruct (release_difference al a Hw) as (rv & al1 & -> & Hw1 & Ho & _). by intros [= <- <-].
Qed.

Lemma preserves_cache_message m : preserves invariant (cache_message m).
Proof.
  intros s b s' Hs. unfold cache_message.
  pose proof (trans_cache_add_wf (s_now s) (s_trans_cache s) m (proj1 (proj2 (proj1 Hs)))) as Hc.
  destruct (trans_cache_add_message _ _ _) as [[rv c] m']. intros [= <- <-]. by apply invariant_cache.
Qed.

Lemma preserves_parse_message m : preserves invariant (parse_message m).
Proof.
  intros s b s' Hs. unfold parse_message. destruct (dhcp_packet_parse _ _) as [[[rv m'] h]| |]; [|done..].
  intros [= <- <-]. by apply invariant_heap.
Qed.

Lemma preserves_new_message : preserves invariant new_message.
Proof.
  intros s b s' Hs. unfold new_message. destruct (dhcp_message_new _). intros [= <- <-].
  by apply invariant_heap.
Qed.

#[local] Hint Resolve preserves_request_any preserves_release preserves_cache_message
  preserves_parse_message preserves_new_message : preserve.

(** ** Replies *)
Lemma preserves_option_of m t : preserves invariant (option_of m t).
Proof. unfold option_of. preserve. Qed.
Lemma preserves_sendto d m : preserves invariant (sendto d m).
Proof. unfold sendto. preserve. Qed.
Lemma preserves_store m : preserves invariant (store_if_enabled m).
Proof. unfold store_if_enabled. preserve. Qed.
#[local] Hint Resolve preserves_option_of preserves_sendto preserves_store : preserve.

Lemma preserves_requested_options m a r req black t :
  preserves invariant (get_requested_dhcp_options m a r req black t).
Proof. unfold get_requested_dhcp_options. preserve. Qed.
#[local] Hint Resolve preserves_requested_options : preserve.

Lemma preserves_add_option m o : preserves invariant (add_option m o).
Proof. unfold add_option. preserve. Qed.
Lemma preserves_offer_send m : preserves invariant (message_dhcpoffer_send m).
Proof. unfold message_dhcpoffer_send. preserve. Qed.
Lemma preserves_ack_send m : preserves invariant (message_dhcpack_send m).
Proof. unfold message_dhcpack_send. preserve. Qed.
Lemma preserves_nak_send m : preserves invariant (message_nak_send m).
Proof. unfold message_nak_send. preserve. Qed.
Lemma preserves_nak_options m : preserves invariant (get_nak_options m).
Proof. unfold get_nak_options. preserve. Qed.
#[local] Hint Resolve preserves_add_option preserves_offer_send preserves_ack_send preserves_nak_send preserves_nak_options : preserve.

Lemma preserves_offer_options d a o : preserves invariant (get_offer_options d a o).
Proof. unfold get_offer_options. preserve. Qed.
Lemma preserves_build_send_cache send reply : (∀ m, preserves invariant (send m)) →
  preserves invariant (build_send_cache send reply).
Proof. intros H. unfold build_send_cache. preserve. Qed.
#[local] Hint Resolve preserves_offer_options preserves_build_send_cache : preserve.

Lemma preserves_offer_build d a l : preserves invariant (message_dhcpoffer_build d a l).
Proof. unfold message_dhcpoffer_build. preserve. Qed.
Lemma preserves_ack_build m d a : preserves invariant (message_dhcpack_build m d a).
Proof. unfold message_dhcpack_build. preserve. Qed.
Lemma preserves_ack_renew m : preserves invariant (message_dhcpack_build_lease_renew m).
Proof. unfold message_dhcpack_build_lease_renew. preserve. Qed.
Lemma preserves_inform_options m a : preserves invariant (get_requested_dhcp_options_inform_response m a).
Proof. unfold get_requested_dhcp_options_inform_response. preserve. Qed.
#[local] Hint Resolve preserves_inform_options : preserve.

Lemma preserves_ack_inform m : preserves invariant (message_dhcpack_build_inform_response m).
Proof. unfold message_dhcpack_build_inform_response. preserve. Qed.
Lemma preserves_nak_build m : preserves invariant (message_dhcpnak_build m).
Proof. unfold message_dhcpnak_build. preserve. Qed.
#[local] Hint Resolve preserves_offer_build preserves_ack_build preserves_ack_renew preserves_ack_inform preserves_nak_build : preserve.

(** ** Handlers *)
Lemma preserves_allocate_particular m : preserves invariant (allocate_particular_address m).
Proof. unfold allocate_particular_address. preserve. apply (preserves_request_this id). Qed.
Lemma preserves_allocate_random : preserves invariant (allocate_random_address).
Proof. unfold allocate_random_address. preserve. Qed.
Lemma preserves_lease_duration m : preserves invariant (get_lease_duration m).
Proof. unfold get_lease_duration. preserve. Qed.
#[local] Hint Resolve preserves_allocate_particular preserves_allocate_random preserves_lease_duration : preserve.

Lemma preserves_choose_address m : preserves invariant (choose_address m).
Proof. unfold choose_address. preserve. Qed.
#[local] Hint Resolve preserves_choose_address : preserve.

Lemma preserves_discover m : preserves invariant (message_dhcpdiscover_handle m).
Proof. unfold message_dhcpdiscover_handle. preserve. Qed.
Lemma preserves_commit m t a : preserves invariant (dhcp_requst_commit_lease m t a).
Proof. unfold dhcp_requst_commit_lease. preserve. Qed.
Lemma preserves_validate m : preserves invariant (validate_client_id_and_requested_params m).
Proof. unfold validate_client_id_and_requested_params. preserve. Qed.
Lemma preserves_client_address m : preserves invariant (retrieve_client_address m).
Proof. unfold retrieve_client_address. preserve. Qed.
#[local] Hint Resolve preserves_commit preserves_validate preserves_client_address : preserve.

Lemma preserves_response_to_offer m o : preserves invariant (dhcp_request_response_to_offer m o).
Proof. unfold dhcp_request_response_to_offer. preserve. Qed.
Lemma preserves_renew m : preserves invariant (dhcp_request_renew_lease m).
Proof. unfold dhcp_request_renew_lease. preserve. Qed.
#[local] Hint Resolve preserves_response_to_offer preserves_renew : preserve.

Lemma preserves_request m : preserves invariant (message_dhcprequest_handle m).
Proof. unfold message_dhcprequest_handle. preserve. Qed.
Lemma preserves_decline m : preserves invariant (message_dhcpdecline_handle m).
Proof. unfold message_dhcpdecline_handle. preserve. apply (preserves_request_this (λ _, ())). Qed.
Lemma preserves_release_message m : preserves invariant (message_dhcprelease_handle m).
Proof. unfold message_dhcprelease_handle. preserve. Qed.
Lemma preserves_inform m : preserves invariant (message_dhcpinform_handle m).
Proof. unfold message_dhcpinform_handle. preserve. Qed.
#[local] Hint Resolve preserves_discover preserves_request preserves_decline preserves_release_message preserves_inform : preserve.

(** ** Scans and commands *)
Lemma preserves_check_xid x : preserves invariant (dhcp_snooper_check_xid x).
Proof. unfold dhcp_snooper_check_xid. preserve. Qed.
Lemma preserves_discover_send m : preserves invariant (discover_send m).
Proof. unfold discover_send. preserve. Qed.
Lemma preserves_discover_options m : preserves invariant (get_discover_options m).
Proof. unfold get_discover_options. preserve. Qed.
#[local] Hint Resolve preserves_check_xid preserves_discover_send preserves_discover_options : preserve.

Lemma preserves_send_discover r b m x : preserves invariant (snoop_send_dhcp_discover r b m x).
Proof. unfold snoop_send_dhcp_discover. preserve. Qed.
Lemma preserves_whitelisted l m : preserves invariant (is_server_whitelisted l m).
Proof. unfold is_server_whitelisted. preserve. Qed.
Lemma preserves_log_threat m st : preserves invariant (log_threat m st).
Proof. unfold log_threat. preserve. Qed.
#[local] Hint Resolve preserves_send_discover preserves_whitelisted preserves_log_threat : preserve.

Lemma preserves_listen_turn l x r m rv st : preserves invariant (listen_turn l x r m rv st).
Proof. unfold listen_turn. preserve. Qed.
#[local] Hint Resolve preserves_listen_turn : preserve.

Lemma preserves_listen_loop turns l x : ∀ t m rv st,
  preserves invariant (listen_loop turns l x t m rv st).
Proof. induction turns as [|[now r] turns IH]; intros; cbn [listen_loop]; preserve. Qed.
#[local] Hint Resolve preserves_listen_loop : preserve.

Lemma preserves_listen turns l st x : preserves invariant (listen_to_offers turns l st x).
Proof. unfold listen_to_offers. preserve. Qed.
Lemma preserves_client_socket fd : preserves invariant (create_dhcp_client_socket fd).
Proof. unfold create_dhcp_client_socket. preserve. Qed.
#[local] Hint Resolve preserves_listen preserves_client_socket : preserve.

Lemma preserves_scan b i m l st : preserves invariant (dhcp_snooper_perform_scan b i m l st).
Proof. unfold dhcp_snooper_perform_scan. preserve. Qed.
#[local] Hint Resolve preserves_scan : preserve.

Lemma preserves_call_command b i f p : preserves invariant (call_command b i f p).
Proof. unfold call_command, command_echo, command_stop, stop_running, command_rogue_scan, command_pool_status. preserve. Qed.
Lemma preserves_send_client t : preserves invariant (send_client t).
Proof. unfold send_client. preserve. Qed.
#[local] Hint Resolve preserves_call_command preserves_send_client : preserve.

Lemma preserves_handle_command b i j : preserves invariant (handle_command b i j).
Proof. unfold handle_command. preserve. Qed.
Lemma preserves_error_respond n : preserves invariant (error_respond n).
Proof. unfold error_respond. preserve. Qed.
#[local] Hint Resolve preserves_handle_command preserves_error_respond : preserve.

Lemma preserves_unix b i r : preserves invariant (unix_server_handle b i r).
Proof. unfold unix_server_handle. preserve. Qed.
#[local] Hint Resolve preserves_unix : preserve.

(** ** Timers *)
Lemma preserves_timer_update now t put call : (∀ t, preserves invariant (put t)) →
  (∀ cb time, preserves invariant (call cb time)) → preserves invariant (timer_update now t put call).
Proof. intros Hp Hc. unfold timer_update. preserve. Qed.

(** The slot is not well formed between the assignment of its timer and the
    callback, so both are looked at together. *)
Lemma preserves_update_slot now i : preserves invariant (trans_update_timer now i).
Proof.
  intros s a s' Hs. unfold trans_update_timer. rewrite prog_bind_eq.
  destruct (s_trans_cache s !! i) as [t|] eqn:Hi.
  2: { unfold get_transaction. rewrite bind_gets. cbn. by rewrite Hi. }
  rewrite (get_transaction_eq s i t (Hi : srv_cache s !! i = Some t)). cbv beta iota.
  pose proof (proj1 (proj2 (proj1 Hs))) as Hc. pose proof (proj1 (proj1 Hs)) as Hal.
  assert (Ht : trans_wf t) by (by eapply (proj1 (Forall_lookup _ _) (proj1 Hc))).
  pose proof Ht as (Hnum & Hms & Hty & Hcb & Hrun).
  unfold timer_update, put_transaction. destruct (ti_is_running (t_timer t)) eqn:Hr; cbn [negb].
  2: { intros [= <- <-]. done. }
  destruct (_ =? 0); [intros [= <- <-]; done|].
  destruct (_ <=? _); rewrite bind_modify.
  - rewrite Hcb. set (t1 := Trans _ _ _ _ _).
    destruct (clear_run (srv_set_cache (<[i := t1]> (srv_cache s)) s) i t1 (u32 now)) as (s1 & -> & Hs1 & Hw1 & _).
    { apply list_lookup_insert_eq. by eapply lookup_lt_Some. } { exact Hal. }
    intros [= <- <-].
    assert (Hkeep : cache_wf (<[i := trans_clear (u32 now) t1]> (s_trans_cache s))).
    { eapply keep_slot_wf; [done | exact Hi | by apply trans_clear_wf | by right]. }
    assert (Hi1 : invariant (set_cache (<[i := trans_clear (u32 now) t1]> (s_trans_cache s)) s))
      by (by apply invariant_cache).
    destruct Hs1 as [->|(al' & -> & Ho)];
      cbn [srv_set_cache srv_cache srv_set_allocator dhcp_server_trans s_trans_cache set_cache set_allocator];
      rewrite list_insert_insert_eq; [exact Hi1|].
    exact (invariant_allocator al' _ Hi1 Hw1 Ho).
  - intros [= <- <-]. apply invariant_cache; [done|]. eapply keep_slot_wf; [done | exact Hi | | by left].
    unfold trans_wf. cbn [t_num_of_messages t_messages t_xid t_timer t_begin ti_type ti_cb ti_is_running].
    by split_and?.
Qed.
#[local] Hint Resolve preserves_timer_update preserves_update_slot : preserve.

Lemma preserves_update_transactions n : ∀ i, preserves invariant (update_transactions n i).
Proof.
  induction n as [|n IH]; intros i; cbn [update_transactions]; preserve.
Qed.

Lemma preserves_check_lease_loop fuel e name time : ∀ a lease n,
  preserves invariant (check_lease_loop fuel a e name time lease n).
Proof. induction fuel as [|fuel IH]; intros; cbn [check_lease_loop]; preserve. Qed.
#[local] Hint Resolve preserves_update_transactions preserves_check_lease_loop : preserve.

Lemma preserves_check_pools time pools : ∀ n, preserves invariant (check_pools time pools n).
Proof. induction pools; intros; cbn [check_pools]; unfold check_lease; preserve. Qed.
#[local] Hint Resolve preserves_check_pools : preserve.

Lemma preserves_check_expirations time : preserves invariant (check_lease_expirations time).
Proof. unfold check_lease_expirations. preserve. Qed.
#[local] Hint Resolve preserves_check_expirations : preserve.

Lemma preserves_update_timers : preserves invariant update_timers.
Proof.
  unfold update_timers. preserve. apply preserves_timer_update; intros; preserve.
Qed.

(** ** The turn *)
Lemma preserves_serve_message b m : preserves invariant (serve_message b m).
Proof. unfold serve_message. preserve. Qed.
#[local] Hint Resolve preserves_update_timers preserves_serve_message : preserve.

Lemma preserves_serve_begin b i : preserves invariant (serve_begin b i).
Proof. unfold serve_begin, stop_running. preserve. Qed.
Lemma preserves_serve_receive b r m : preserves invariant (serve_receive b r m).
Proof. unfold serve_receive. preserve. Qed.
#[local] Hint Resolve preserves_serve_begin preserves_serve_receive : preserve.

Lemma preserves_serve_turn b i m : preserves invariant (serve_turn b i m).
Proof. unfold serve_turn. preserve. Qed.
End Invariant.

(** The states the server goes through: the receive buffer and the state before
    and after any number of turns. *)
Inductive served `{CC : !Cclog} `{CJ : !Cjson} (snooping : bool)
    : dhcp_message → dhcp_server → dhcp_message → dhcp_server → Prop :=
  | served_none m s : served snooping m s m s
  | served_turn i m s m1 s1 m2 s2 :
      serve_turn snooping i m s = Ret (m1, s1) → served snooping m1 s1 m2 s2 →
      served snooping m s m2 s2.

Section Theorems.
Context `{CC : !Cclog} `{CJ : !Cjson}.

(** C2. From a well-formed state the server only reaches well-formed states,
    whatever datagrams and commands arrive, whatever system calls fail and
    whatever the clock shows: the pools stay disjoint, with counters that agree
    with their bitmaps, every slot of the cache holds messages of one id in order or
    is empty, no two slots hold the same id unless it is 0 (the mark of an empty
    slot, which the code does not keep from being used as an id:
    [zero_id_two_slots]), and the configuration is never changed. *)
Theorem served_well_formed snooping m s m' s' :
  server_wf s → served snooping m s m' s' → server_wf s' ∧ s_config s' = s_config s.
Proof.
  intros Hw Hs. assert (Hi : invariant (s_config s) s) by done. clear Hw.
  revert Hi. generalize (s_config s) as cfg. induction Hs as [|i m s m1 s1 m2 s2 Ht _ IH]; intros cfg Hi.
  - exact Hi.
  - apply IH. eapply preserves_serve_turn; [exact Hi | exact Ht].
Qed.
End Theorems.

(** ** Witness: the DHCPREQUEST of the usual exchange, denied by a list *)
Definition denying : dhcp_server := set_acl (Some sample_acl) serving.

Definition request_turn : serve_input :=
  ServeInput false 1001 NoClient no_scan (Datagram request_datagram).

Lemma served_well_formed_witness : ∃ m' s',
  served (CC := cclog_run) (CJ := TreeJson.tree_json) true (with_options receiver (Some 1%positive)) denying m' s' ∧
  m_xid m' = 3735928559 ∧ server_wf s'.
Proof.
  destruct (@serve_turn cclog_run TreeJson.tree_json true request_turn
    (with_options receiver (Some 1%positive)) denying) as [[m' s']| |] eqn:E;
    [| vm_compute in E; discriminate E ..].
  assert (Hs : served (CC := cclog_run) (CJ := TreeJson.tree_json) true
    (with_options receiver (Some 1%positive)) denying m' s').
  { eapply served_turn; [exact E | apply served_none]. }
  exists m', s'. split; [exact Hs|]. split.
  - vm_compute in E. injection E as <- _. reflexivity.
  - apply (@served_well_formed cclog_run TreeJson.tree_json true (with_options receiver (Some 1%positive))
      denying m' s'); [|exact Hs]. exact (sample_server_wf request_options).
Defined.
