(* ===== verification/Exchange.v ===== *)
(** Whole turns of the server, from the datagram of a client to the datagram it
    gets back: the composition of the receive buffer and the parser ([Packet]),
    the checks of the loop ([Serve]), the handlers ([Messages], [Request]) and the
    packets they build. *)
From Stdlib Require Import Ascii String.
From S2P Require Import Prelude Bytes Xtoy Json Files Rfc Options Packet AddressPool Allocator Timer Transaction Acl Lease Database Server Messages Request Snoop Unix Serve Invariant.
Local Open Scope Z_scope.

(** The receive buffer: its list of options is allocated. *)
Definition buffer_ok (r : dhcp_message) (s : dhcp_server) : Prop :=
  length (m_chaddr r) = CHADDR_LEN ∧ is_bytes (m_chaddr r) ∧
  ∃ p os, m_dhcp_options r = Some p ∧ load_options (s_heap s) p = Ret os.

(** Every receiver of [bytes] accepts them and finds a message and options with
    the property [P]. *)
Definition delivers `{CC : !Cclog} (bytes : list Z) (P : dhcp_message → list dhcp_option → Prop) : Prop :=
  length bytes = PACKET_SIZE ∧
  ∀ h r p0 os0, length (m_chaddr r) = CHADDR_LEN → m_dhcp_options r = Some p0 →
    load_options h p0 = Ret os0 →
    ∃ r' h' p os, dhcp_packet_parse h (recv_packet r bytes) = Ret (0, r', h') ∧
      m_dhcp_options r' = Some p ∧ load_options h' p = Ret os ∧ P r' os.

Section Exchange.
Context `{CC : !Cclog} `{CJ : !Cjson}.

(** ** The wire *)
Lemma recv_whole r bytes : length bytes = 576%nat →
  recv_packet r bytes = with_packet r (packet_decode bytes).
Proof.
  intros Hl. unfold recv_packet, PACKET_SIZE. rewrite firstn_all2 by lia.
  by rewrite packet_decode_app.
Qed.

Lemma datagram_length m os bytes : datagram_of m os bytes → length bytes = 576%nat.
Proof. intros (rest & _ & _ & Hl)%datagram_packet. exact Hl. Qed.

Lemma message_type_value type : is_u8 type → value_number (message_type_option type) = type.
Proof.
  intros Ht. unfold value_number, message_type_option. cbn -[u8 Z.mul].
  rewrite u8_small by done. lia.
Qed.

Lemma datagram_delivers m os bytes type :
  datagram_of m os bytes → is_u8 type →
  dhcp_option_retrieve os DHCP_OPTION_DHCP_MESSAGE_TYPE = Some (message_type_option type) →
  delivers bytes (λ r os', same_header m r ∧ os' = os ∧ m_type r = type).
Proof.
  intros Hd Htype H53. pose proof (datagram_length _ _ _ Hd) as Hlen. split; [exact Hlen|].
  intros h r p0 os0 Hc Hp0 Hl0. rewrite recv_whole by done.
  destruct (datagram_parsed h r p0 os0 m os bytes _ Hd H53 Hc Hp0 Hl0)
    as (r' & h' & p & Hr & Hh & Hp & Hl & Hty & _).
  exists r', h', p, os. rewrite message_type_value in Hty by done. by split_and!.
Qed.

Lemma delivers_mono bytes (P Q : dhcp_message → list dhcp_option → Prop) :
  (∀ r os, P r os → Q r os) → delivers bytes P → delivers bytes Q.
Proof.
  intros H [Hl Hd]. split; [done|]. intros h r p0 os0 Hc Hp0 Hl0.
  destruct (Hd h r p0 os0 Hc Hp0 Hl0) as (r' & h' & p & os & ? & ? & ? & ?).
  exists r', h', p, os. auto.
Qed.

(** ** The checks only look at the id and the hardware address *)
Lemma mac_same a b : 6 ≤ zlen a → 6 ≤ zlen b → take 6 a = take 6 b →
  uint8_array_to_mac a = uint8_array_to_mac b.
Proof.
  intros Ha Hb E. by rewrite <-(uint8_array_to_mac_take a), <-(uint8_array_to_mac_take b), E by done.
Qed.

Lemma count_same cache a b : take 6 a = take 6 b →
  count_transactions cache a = count_transactions cache b.
Proof.
  intros E. induction cache as [|t cache IH]; [done|]. cbn [count_transactions].
  by rewrite IH, E.
Qed.

Lemma admitted_same snooping m m' s : m_xid m' = m_xid m → 6 ≤ zlen (m_chaddr m) →
  6 ≤ zlen (m_chaddr m') → take 6 (m_chaddr m') = take 6 (m_chaddr m) →
  admitted snooping m s → admitted snooping m' s.
Proof.
  intros Hx Hl Hl' E (H1 & H2 & H3). pose proof (mac_same _ _ Hl' Hl E) as Hm.
  unfold admitted, dynamic_ACL_check, ACL_check_client in *. rewrite Hx.
  split; [done|]. rewrite Hm. split; [done|]. by rewrite (count_same _ _ _ E).
Qed.

(** ** From the datagram to the handler *)

(** The state a handler starts in: the same but for the cache, the option lists
    and the packet database. *)
Definition handed_over (s s' : dhcp_server) : Prop :=
  s_allocator s' = s_allocator s ∧ s_config s' = s_config s ∧ s_sent s' = s_sent s ∧
  s_now s' = s_now s ∧ outside_database (s_env s) (s_env s').

(** What a server must accept: a client's message of the given type, with the
    room to remember it. *)
Definition acceptable (snooping : bool) (type : Z) (d : dhcp_message) (os : list dhcp_option)
    (s : dhcp_server) : Prop :=
  dhcp_option_retrieve os DHCP_OPTION_DHCP_MESSAGE_TYPE = Some (message_type_option type) ∧
  m_xid d ≠ 0 ∧ admitted snooping d s ∧
  (has_transaction (s_trans_cache s) (m_xid d) ∨ has_free_slot (s_trans_cache s)).

Lemma datagram_options m os bytes : datagram_of m os bytes →
  list_wf os ∧ Forall (λ o, o_lenght o ≤ DHCP_OPTION_MAX_LENGHT) os.
Proof.
  intros (_ & _ & [Hs Hn] & _). split; [split; [|done]|]; (eapply Forall_impl; [exact Hs|]).
  - by intros o [[Ho _] _].
  - by intros o [_ (_ & _ & Hl & _)].
Qed.

Lemma chaddr_same (a b : list Z) : take PACKET_CHADDR_LEN a = take PACKET_CHADDR_LEN b →
  take 6 a = take 6 b.
Proof.
  intros E. apply (f_equal (take 6)) in E. by rewrite !take_take in E.
Qed.

Lemma parse_run snooping type r s d os bytes :
  buffer_ok r s → datagram_of d os bytes → is_u8 type → acceptable snooping type d os s →
  ∃ m h p, parse_message (recv_packet r bytes) s = Ret ((0, m), set_heap h s) ∧
    same_header d m ∧ m_dhcp_options m = Some p ∧ load_options h p = Ret os ∧ m_type m = type ∧
    message_wf m ∧ admitted snooping m (set_heap h s).
Proof.
  intros (Hrl & Hrb & p0 & os0 & Hp0 & Hl0) Hd Htype (H53 & _ & Hadm & _).
  pose proof Hd as (Hdw & _).
  destruct (datagram_parsed (s_heap s) r p0 os0 d os bytes _ Hd H53 Hrl Hp0 Hl0)
    as (m & h & p & Hparse & Hh & Hp & Hl & Hty & Hmw). specialize (Hmw Hrb).
  rewrite message_type_value in Hty by done.
  pose proof Hh as (_ & _ & _ & _ & Hxid & _ & _ & _ & _ & _ & _ & Hch & _).
  exists m, h, p. unfold parse_message.
  rewrite recv_whole, Hparse by (by eapply datagram_length). split_and!; try done.
  assert (Hlen : ∀ x, message_wf x → 6 ≤ zlen (m_chaddr x)).
  { intros x (_ & _ & _ & _ & E & _). unfold zlen. by rewrite E. }
  apply (admitted_same snooping d); [done | by apply Hlen.. | by apply chaddr_same | done].
Qed.

(** The handler starts with the message at the end of its transaction. *)
Lemma receive_run snooping type r s d os bytes :
  server_wf s → buffer_ok r s → datagram_of d os bytes → is_u8 type →
  acceptable snooping type d os s → type ∉ [DHCP_OFFER; DHCP_ACK; DHCP_NAK] →
  ∃ m s1, serve_receive snooping (Datagram bytes) r s = (_ ← handler m; mret m) s1 ∧
    server_wf s1 ∧ handed_over s s1 ∧ received_ok s1 m os ∧ same_header d m ∧ m_type m = type ∧
    messages_of (s_trans_cache s1) (m_xid d) = messages_of (s_trans_cache s) (m_xid d) ++ [m].
Proof.
  intros Hwf Hr Hd Htype Hacc Hnot. pose proof Hacc as (_ & Hx & _ & Hroom).
  pose proof Hd as (Hdw & Hck & _).
  destruct (parse_run snooping type r s d os bytes Hr Hd Htype Hacc)
    as (m & h & p & Hparse & Hh & Hp & Hl & Hty & Hmw & Hadm).
  pose proof Hh as (_ & _ & _ & _ & Hxid & _ & _ & _ & _ & _ & _ & Hch & _ & _ & Hcookie).
  unfold serve_receive. rewrite prog_bind_eq, Hparse. cbv beta iota. cbn [Z.ltb Z.compare].
  set (s0 := set_heap h s) in *.
  assert (Hlen : 6 ≤ zlen (m_chaddr m)).
  { destruct Hmw as (_ & _ & _ & _ & E & _). unfold zlen. by rewrite E. }
  assert (Hx' : m_xid m ≠ 0) by congruence.
  destruct (serve_message_run snooping m s0) as (c & e & Hcw & He & Hmsgs & Hrun);
    [apply Hwf | done | done | by rewrite Hty | by rewrite Hxid |].
  apply stored_outside in He.
  specialize (Hmsgs (m_xid m) (or_introl Hx')). rewrite decide_True in Hmsgs by done.
  eexists _, _. split; [exact Hrun|]. split; [|split; [|split; [|split; [|split; [exact Hty|]]]]].
  - destruct Hwf as (? & _ & ?). by split; [|split].
  - by split_and!.
  - destruct (datagram_options d os bytes Hd) as [Hlw Hmax].
    split_and!; try done; [by rewrite <-Hck | | by exists p].
    unfold messages_of at 1 in Hmsgs.
    destruct (trans_cache_retrieve_transaction c (m_xid m)) as [[k t]|] eqn:Et;
      [|by destruct (messages_of (s_trans_cache s0) (m_xid m))].
    apply cache_retrieve_Some in Et as [Hk Ht]. exists t.
    split; [by eapply list_elem_of_lookup_2 | done].
  - done.
  - cbn [s_trans_cache set_env set_cache]. by rewrite <-Hxid, Hmsgs.
Qed.

(** The buffer after the handler, which keeps its options. *)
Lemma buffer_kept m s1 s2 os : received_ok s1 m os → heap_keeps (s_heap s1) (s_heap s2) →
  buffer_ok m s2.
Proof.
  intros ((_ & _ & _ & _ & Hc & _ & _ & Hb & _) & _ & _ & _ & _ & p & Hp & Hl) Hk.
  split; [done|]. split; [by apply Forall_app in Hb as [? _]|]. exists p, os. auto.
Qed.

Lemma replied_delivers s s' dest reply opts type :
  replied s s' dest reply opts → is_u8 type →
  dhcp_option_retrieve opts DHCP_OPTION_DHCP_MESSAGE_TYPE = Some (message_type_option type) →
  ∃ out, s_sent s' = s_sent s ++ [(dest, out)] ∧
    delivers out (λ m os, same_header reply m ∧ os = opts ∧ m_type m = type).
Proof.
  intros (pk & Hd & Hs & _) Ht H53. exists (packet_encode (m_packet (with_packet reply pk))).
  split; [exact Hs|]. by apply datagram_delivers.
Qed.

(** ** Turns *)
Lemma turn_run snooping i r s s1 bytes : serve_begin snooping i s = Ret ((), s1) →
  si_recv i = Datagram bytes →
  serve_turn snooping i r s = serve_receive snooping (Datagram bytes) r s1.
Proof. intros Hb Hr. unfold serve_turn. by rewrite prog_bind_eq, Hb, Hr. Qed.

Lemma begin_wf snooping i s s1 : serve_begin snooping i s = Ret ((), s1) → server_wf s →
  server_wf s1.
Proof.
  intros Hb Hw. by apply (preserves_serve_begin (s_config s) snooping i s () s1).
Qed.

(** C3. A turn that receives a DHCPDISCOVER which lists its parameters ends with
    one broadcast datagram that any client parses as a DHCPOFFER of its own
    transaction, for an address of a pool that was free and is in use from
    then on, with the configured lease time and server identifier; unless no
    address is free or no offer can be made, when nothing is sent.  The server
    and its receive buffer are ready for the next turn. *)
Theorem discover_turn_offers snooping i r s s1 d os o55 bytes :
  serve_begin snooping i s = Ret ((), s1) → si_recv i = Datagram bytes →
  server_wf s → buffer_ok r s1 → datagram_of d os bytes →
  acceptable snooping DHCP_DISCOVER d os s1 →
  dhcp_option_retrieve os DHCP_OPTION_PARAMETER_REQUEST_LIST = Some o55 →
  ∃ r' s2, serve_turn snooping i r s = Ret (r', s2) ∧ server_wf s2 ∧ buffer_ok r' s2 ∧
    (s_sent s2 = s_sent s1 ∧
       ((∀ a, covered (s_allocator s1) a → a ∈ in_use (s_allocator s1)) ∨
        ∃ s3, handed_over s1 s3 ∧ stuck_after s3 os) ∨
     ∃ a j pool out,
       covered (s_allocator s1) a ∧ a ∉ in_use (s_allocator s1) ∧
       in_use (s_allocator s2) = {[a]} ∪ in_use (s_allocator s1) ∧
       allocator_get_pool_by_address (s_allocator s2) a = Some (j, pool) ∧
       s_sent s2 = s_sent s1 ++ [(htonl (broadcast_addr (s_config s1)), out)] ∧
       delivers out (λ m opts, m_type m = DHCP_OFFER ∧ m_xid m = m_xid d ∧ m_yiaddr m = a ∧
         take PACKET_CHADDR_LEN (m_chaddr m) = take PACKET_CHADDR_LEN (m_chaddr d) ∧
         carries s2 pool DHCP_OFFER opts)).
Proof.
  intros Hb Hi Hwf Hr Hd Hacc H55. rewrite (turn_run _ _ _ _ _ _ Hb Hi).
  pose proof (begin_wf _ _ _ _ Hb Hwf) as Hwf1.
  destruct (receive_run snooping DHCP_DISCOVER r s1 d os bytes) as (m & s3 & -> & Hwf3 & Hho & Hm & Hh & Hty & _);
    try done; [by_decision|].
  pose proof Hh as (_ & _ & _ & _ & Hxid & _ & _ & _ & _ & _ & _ & Hch & _).
  pose proof Hho as (Ea & Ec & Es & _).
  unfold handler. rewrite Hty, Z.eqb_refl.
  destruct (discover_run s3 m os o55 Hwf3 Hm H55) as (rv & s2 & Hrun & Hw2 & Hk & Hout).
  exists m, s2. rewrite prog_bind_eq, Hrun. split; [done|]. split; [done|].
  split; [by eapply buffer_kept|]. rewrite <-Es, <-Ea, <-Ec.
  destruct Hout as [(_ & [Hu _] & Hwhy)|(_ & a & j & pool & reply & opts & Hcov & Hfree & _ & Huse & Hrep & Hy & _ & Hx & Hc & Hpool & Hcar)].
  - left. split; [done|]. destruct Hwhy; [by left | right; by exists s3].
  - right. destruct (replied_delivers _ _ _ _ _ DHCP_OFFER Hrep) as (out & Hs & Hdel);
      [by_decision | apply Hcar|].
    exists a, j, pool, out. split_and!; try done. eapply delivers_mono; [|exact Hdel].
    intros m' opts' (Hh' & -> & Hty').
    destruct Hh' as (_ & _ & _ & _ & Hxid' & _ & _ & _ & Hy' & _ & _ & Hch' & _).
    split_and!; try done; congruence.
Qed.

Lemma renewed_same s s' m m' pool ls : handed_over s s' →
  m_ciaddr m' = m_ciaddr m → take 6 (m_chaddr m') = take 6 (m_chaddr m) →
  renewed s' m' pool ls = renewed s m pool ls.
Proof.
  intros (Ea & _ & _ & En & _) Hc Hch. unfold renewed, pool_lease_time, configured_for.
  by rewrite Ea, En, Hc, Hch.
Qed.

(** C4. A turn that receives the DHCPREQUEST of a client that renews its address,
    of a transaction id other than 0, which the access control lists let pass and
    the cache has room for, for an address of a pool whose leases are in order,
    while the system calls succeed.  When the request lists its parameters, the
    turn ends with the lease extended, if the client holds it, and with one
    datagram that the client parses as the DHCPACK of its transaction and address,
    with the configured lease time and server identifier; the addresses in use
    stay the same; and nothing is sent instead only when these options are not
    configured or too large.  A request without a parameter request list ends the
    server: the builder of the DHCPACK dereferences NULL. *)
Theorem renew_turn_acknowledges snooping i r s s1 d os j pool ls bytes :
  serve_begin snooping i s = Ret ((), s1) → si_recv i = Datagram bytes →
  server_wf s → buffer_ok r s1 → datagram_of d os bytes →
  acceptable snooping DHCP_REQUEST d os s1 →
  dhcp_option_retrieve os DHCP_OPTION_SERVER_IDENTIFIER = None → m_ciaddr d ≠ 0 →
  allocator_get_pool_by_address (s_allocator s1) (m_ciaddr d) = Some (j, pool) →
  leases_of s1 (p_name pool) ls →
  match dhcp_option_retrieve os DHCP_OPTION_PARAMETER_REQUEST_LIST with
  | None => serve_turn snooping i r s = Undef NullDeref
  | Some _ =>
      ∃ r' s2, serve_turn snooping i r s = Ret (r', s2) ∧ server_wf s2 ∧ buffer_ok r' s2 ∧
        s_allocator s2 = s_allocator s1 ∧
        file_holds (s_env s2) (p_name pool) (renewed s1 d pool ls) ∧
        ((∃ out, s_sent s2 = s_sent s1 ++ [(ack_dest (s_config s1) (m_ciaddr d), out)] ∧
           delivers out (λ m opts, m_type m = DHCP_ACK ∧ m_xid m = m_xid d ∧ m_yiaddr m = m_ciaddr d ∧
             take PACKET_CHADDR_LEN (m_chaddr m) = take PACKET_CHADDR_LEN (m_chaddr d) ∧
             carries_all s1 pool DHCP_ACK [51; 54] opts)) ∨
         s_sent s2 = s_sent s1 ∧ (Exists (λ t, configured_for s1 pool t = None) [51; 54] ∨
                                  DHCP_PACKET_OPTIONS_SIZE < config_size s1 pool))
  end.
Proof.
  intros Hb Hi Hwf Hr Hd Hacc H54 Hci Hpool [Hnf Hfile]. rewrite (turn_run _ _ _ _ _ _ Hb Hi).
  pose proof (begin_wf _ _ _ _ Hb Hwf) as Hwf1.
  destruct (receive_run snooping DHCP_REQUEST r s1 d os bytes) as (m & s3 & -> & Hwf3 & Hho & Hm & Hh & Hty & _);
    try done; [by_decision|].
  pose proof Hh as (_ & _ & _ & _ & Hxid & _ & _ & Hca & _ & _ & _ & Hch & _).
  pose proof Hho as (Ea & Ec & Es & En & Ho).
  assert (Hls3 : leases_of s3 (p_name pool) ls) by (split; [by apply Ho | by eapply outside_holds]).
  assert (Hci3 : m_ciaddr m ≠ 0) by (by rewrite Hca).
  assert (Hpool3 : allocator_get_pool_by_address (s_allocator s3) (m_ciaddr m) = Some (j, pool))
    by (by rewrite Hca, Ea).
  unfold handler. rewrite Hty. change (DHCP_REQUEST =? DHCP_DISCOVER) with false.
  rewrite Z.eqb_refl. cbv iota. rewrite prog_bind_eq.
  destruct (dhcp_option_retrieve os DHCP_OPTION_PARAMETER_REQUEST_LIST) as [o55|] eqn:H55.
  2: { by rewrite (renew_missing_run s3 m os j pool ls). }
  destruct (renew_message_run s3 m os o55 j pool ls) as (rv & s2 & Hrun & Hw2 & Hk & Ha2 & Hf2 & Hout);
    try done.
  rewrite (renewed_same s1 s3 d m pool ls) in Hf2 by (try done; by apply chaddr_same).
  unfold config_size, carries_all, configured_for in *. rewrite Ea in *.
  exists m, s2. rewrite Hrun. split; [done|]. split; [done|].
  split; [by eapply buffer_kept|]. split; [done|]. split; [done|]. rewrite <-Es, <-Ec, <-Hca.
  destruct Hout as [(_ & reply & opts & Hrep & Hcar & _ & Hy & Hx & Hc)|(_ & [Hu _] & Hwhy)];
    [left | by right].
  unfold carries_all, configured_for in Hcar. rewrite Ea in Hcar.
  destruct (replied_delivers _ _ _ _ _ DHCP_ACK Hrep) as (out & Hs & Hdel); [by_decision | apply Hcar|].
  exists out. split; [done|]. eapply delivers_mono; [|exact Hdel].
  intros m' opts' (Hh' & -> & Hty').
  destruct Hh' as (_ & _ & _ & _ & Hxid' & _ & _ & _ & Hy' & _ & _ & Hch' & _).
  split_and!; try done; try congruence; apply Hcar.
Qed.

(** The cache after a DHCPDISCOVER was handled: at most the offer was added. *)
Lemma discover_messages s m os o55 rv s' : server_wf s → received_ok s m os →
  dhcp_option_retrieve os DHCP_OPTION_PARAMETER_REQUEST_LIST = Some o55 →
  message_dhcpdiscover_handle m s = Ret (rv, s') →
  messages_of (s_trans_cache s) (m_xid m) `prefix_of` messages_of (s_trans_cache s') (m_xid m).
Proof.
  intros Hwf Hm H55 Hrun. pose proof Hm as (_ & _ & Hx & _).
  destruct (discover_run s m os o55 Hwf Hm H55) as (rv' & s2 & Hrun' & _ & _ & Hout).
  rewrite Hrun in Hrun'. injection Hrun' as <- <-.
  destruct Hout as [(_ & [_ ->] & _)|(_ & a & i & pool & reply & opts & _ & _ & _ & _ &
    (pk & _ & _ & Hmsgs) & _ & _ & Hxr & _)]; [done|].
  rewrite Hmsgs, Hxr, decide_True by done. by apply prefix_app_r.
Qed.

(** C8. The usual exchange ends the server.  After a turn that received the
    DHCPDISCOVER of a new transaction, with its parameters listed, whether an
    offer was made or not, the next turn receives the DHCPREQUEST for the offer:
    of the same transaction, with the server identifier of this server and
    without a client address.  Nothing else happened to the transaction in
    between.  To check the request the server reads the options of the
    DHCPDISCOVER, which are those of the receive buffer and were freed when the
    request was parsed into it. *)
Theorem handshake_use_after_free snooping i1 i2 r s s1 r' s2 s3 d os o55 bytes e eos o54 ebytes :
  serve_begin snooping i1 s = Ret ((), s1) → si_recv i1 = Datagram bytes →
  server_wf s → buffer_ok r s1 → datagram_of d os bytes →
  acceptable snooping DHCP_DISCOVER d os s1 → ¬ has_transaction (s_trans_cache s1) (m_xid d) →
  dhcp_option_retrieve os DHCP_OPTION_PARAMETER_REQUEST_LIST = Some o55 →
  serve_turn snooping i1 r s = Ret (r', s2) →
  serve_begin snooping i2 s2 = Ret ((), s3) → si_recv i2 = Datagram ebytes →
  buffer_ok r' s3 → messages_of (s_trans_cache s3) (m_xid d) = messages_of (s_trans_cache s2) (m_xid d) →
  datagram_of e eos ebytes → acceptable snooping DHCP_REQUEST e eos s3 →
  m_xid e = m_xid d → m_ciaddr e = 0 → m_yiaddr e = 0 →
  dhcp_option_retrieve eos DHCP_OPTION_SERVER_IDENTIFIER = Some o54 →
  value_ip o54 = bound_ip (s_config s3) →
  serve_turn snooping i2 r' s2 = Undef UseAfterFree.
Proof.
  intros Hb Hi Hwf Hr Hd Hacc Hnew H55 Hturn Hb2 Hi2 Hr2 Hkeep He Hacc2 Hxe Hci Hyi H54 Hip.
  assert (Hwf3 : server_wf s3).
  { eapply begin_wf; [exact Hb2|]. by eapply (preserves_serve_turn (s_config s)). }
  pose proof (begin_wf _ _ _ _ Hb Hwf) as Hwf1.
  rewrite (turn_run _ _ _ _ _ _ Hb Hi) in Hturn. rewrite (turn_run _ _ _ _ _ _ Hb2 Hi2).
  destruct (receive_run snooping DHCP_DISCOVER r s1 d os bytes)
    as (m & s1' & Hrun & Hwf1' & _ & Hm & Hh & Hty & Hms); try done; [by_decision|].
  rewrite Hrun in Hturn. unfold handler in Hturn. rewrite Hty, Z.eqb_refl, prog_bind_eq in Hturn.
  destruct (message_dhcpdiscover_handle m s1') as [[rv s2']| |] eqn:Hdisc; [|done..].
  injection Hturn as <- <-.
  pose proof (discover_messages s1' m os o55 rv s2' Hwf1' Hm H55 Hdisc) as Hpre.
  pose proof Hh as (_ & _ & _ & _ & Hxid & _). rewrite Hxid, Hms in Hpre.
  assert (Hnone : messages_of (s_trans_cache s1) (m_xid d) = []).
  { unfold messages_of. destruct (trans_cache_retrieve_transaction _ _) as [[k t]|] eqn:Et; [|done].
    apply cache_retrieve_Some in Et as [Hk Ht]. destruct Hnew. exists t.
    split; [by eapply list_elem_of_lookup_2 | done]. }
  rewrite Hnone in Hpre. destruct Hpre as [rest Hpre]. rewrite <-Hkeep in Hpre.
  destruct (parse_run snooping DHCP_REQUEST m s3 e eos ebytes) as
    (m2 & h & p2 & Hparse & Hh2 & Hp2 & Hl2 & Hty2 & Hmw2 & Hadm2); try done.
  pose proof Hh2 as (_ & _ & _ & _ & Hxid2 & _ & _ & Hci2 & Hyi2 & _).
  pose proof Hacc2 as (_ & Hx2 & _). pose proof Hm as (_ & _ & _ & _ & _ & p & Hp & _).
  unfold serve_receive. rewrite prog_bind_eq, Hparse. cbv beta iota. cbn [Z.ltb Z.compare].
  eapply (serve_request_use_after_free snooping m ebytes s3 m2 _ p p2 m eos o54);
    try done; try (by apply Hwf3); try congruence.
  - destruct Hmw2 as (_ & _ & _ & _ & E & _). unfold zlen. by rewrite E.
  - rewrite retrieve_message_of, Hxid2, Hxe, Hpre. cbn. by rewrite Hty.
Qed.
End Exchange.

(** ** Witnesses: a client that begins, and one that renews *)
Definition datagram (os : list dhcp_option) (m : dhcp_message) : list Z :=
  match @dhcp_packet_build cclog_run {[1%positive := Some os]} (with_options m (Some 1%positive)) with
  | Ret (_, m) => packet_encode (m_packet m)
  | _ => []
  end.

Lemma datagram_built os m : message_wf m → m_cookie m = MAGIC_COOKIE → good_options os →
  zlen (encode_all os) ≤ DHCP_PACKET_OPTIONS_SIZE → datagram_of m os (datagram os m).
Proof.
  intros Hw Hc Hg Hl. unfold datagram.
  destruct (@built_datagram cclog_run {[1%positive := Some os]} (with_options m (Some 1%positive))
    1%positive os) as (pk & -> & Hd); done.
Qed.

Lemma sample_options_good : good_options sample_options ∧ good_options renew_options ∧ good_options request_options.
Proof.
  split_and!; (split; [|by_decision]); repeat apply Forall_cons_2; try apply Forall_nil_2;
    (split; [by_decision |
      first [apply message_type_canonical |
             apply numeric_canonical; solve [done | by left | by right] |
             apply bytes_canonical; solve [done | by left | by right]]]).
Qed.

Definition buffer (p : positive) : dhcp_message := with_options receiver (Some p).

Definition turn (bytes : list Z) : serve_input := ServeInput false 1001 NoClient no_scan (Datagram bytes).

(** The state after the timers and the commands. *)
Definition begun (i : serve_input) (s : dhcp_server) : dhcp_server :=
  match @serve_begin cclog_run TreeJson.tree_json true i s with Ret (_, s) => s | _ => s end.

Definition discovering : dhcp_server := admitting (sample_server sample_options).
Definition renewing : dhcp_server := admitting (request_server None renew_options).
Definition discover_input : serve_input := turn (datagram sample_options sample_message).
Definition renew_input : serve_input := turn (datagram renew_options (sample_request 3232235781)).

Lemma discover_turn_offers_witness : ∃ r' s2,
  @serve_turn cclog_run TreeJson.tree_json true discover_input (buffer 1) discovering = Ret (r', s2) ∧
  server_wf s2 ∧ buffer_ok r' s2.
Proof.
  destruct (@discover_turn_offers cclog_run TreeJson.tree_json true discover_input (buffer 1)
    discovering (begun discover_input discovering) sample_message sample_options
    (bytes_option DHCP_OPTION_PARAMETER_REQUEST_LIST [1; 3; 51])
    (datagram sample_options sample_message)) as (r' & s2 & H & Hw & Hb & _).
  - vm_compute. reflexivity.
  - reflexivity.
  - apply (sample_server_wf sample_options).
  - split; [reflexivity|]. split; [by_decision|]. exists 1%positive, sample_options.
    split; [reflexivity | vm_compute; reflexivity].
  - apply datagram_built; [exact sample_message_wf | reflexivity | apply sample_options_good | by_decision].
  - split; [vm_compute; reflexivity|]. split; [discriminate|].
    split; [split; [vm_compute; discriminate | split; vm_compute; reflexivity]|].
    left. eexists. split; [apply (list_elem_of_lookup_2 _ 0); vm_compute; reflexivity|].
    vm_compute. reflexivity.
  - vm_compute. reflexivity.
  - exists r', s2. split; [exact H|]. split; [exact Hw | exact Hb].
Defined.

Lemma renew_turn_acknowledges_witness : ∃ r' s2,
  @serve_turn cclog_run TreeJson.tree_json true renew_input (buffer 2) renewing = Ret (r', s2) ∧
  server_wf s2 ∧ s_allocator s2 = s_allocator (begun renew_input renewing).
Proof.
  destruct offered_ok as (_ & _ & _ & Hpool).
  destruct (@renew_turn_acknowledges cclog_run TreeJson.tree_json true renew_input (buffer 2)
    renewing (begun renew_input renewing) (sample_request 3232235781) renew_options 0 offered_pool []
    (datagram renew_options (sample_request 3232235781))) as (r' & s2 & H & Hw & _ & Ha & _).
  - vm_compute. reflexivity.
  - reflexivity.
  - apply (request_server_wf None renew_options).
  - split; [reflexivity|]. split; [by_decision|]. exists 2%positive, renew_options.
    split; [reflexivity | vm_compute; reflexivity].
  - apply datagram_built; [by_decision | reflexivity | apply sample_options_good | by_decision].
  - split; [vm_compute; reflexivity|]. split; [discriminate|].
    split; [split; [vm_compute; discriminate | split; vm_compute; reflexivity]|].
    left. eexists. split; [apply (list_elem_of_lookup_2 _ 0); vm_compute; reflexivity|].
    vm_compute. reflexivity.
  - vm_compute. reflexivity.
  - discriminate.
  - vm_compute. reflexivity.
  - split; vm_compute; reflexivity.
  - exists r', s2. split; [exact H|]. split; [exact Hw | exact Ha].
Defined.

(** A new client: the turn that offers it an address, and the one that receives
    its request. *)
Definition fresh_client : dhcp_server := set_cache sample_cache discovering.
Definition request_input : serve_input := turn (datagram request_options (sample_request 0)).

Definition after_offer : dhcp_message * dhcp_server :=
  match @serve_turn cclog_run TreeJson.tree_json true discover_input (buffer 1) fresh_client with
  | Ret x => x
  | _ => (buffer 1, fresh_client)
  end.

Lemma after_offer_run :
  @serve_turn cclog_run TreeJson.tree_json true discover_input (buffer 1) fresh_client = Ret after_offer.
Proof.
  unfold after_offer. destruct (serve_turn _ _ _ _) as [x| |] eqn:E; [done | vm_compute in E; discriminate E..].
Qed.

Lemma handshake_use_after_free_witness :
  @serve_turn cclog_run TreeJson.tree_json true request_input (fst after_offer) (snd after_offer) =
    Undef UseAfterFree.
Proof.
  apply (@handshake_use_after_free cclog_run TreeJson.tree_json true discover_input request_input
    (buffer 1) fresh_client (begun discover_input fresh_client) (fst after_offer) (snd after_offer)
    (begun request_input (snd after_offer)) sample_message sample_options
    (bytes_option DHCP_OPTION_PARAMETER_REQUEST_LIST [1; 3; 51])
    (datagram sample_options sample_message) (sample_request 0) request_options
    (numeric_option DHCP_OPTION_SERVER_IDENTIFIER 4 3232235777) (datagram request_options (sample_request 0))).
  - vm_compute. reflexivity.
  - reflexivity.
  - destruct (sample_server_wf sample_options) as (? & _ & ?). split; [done|]. split; [apply trans_cache_new_wf | done].
  - split; [reflexivity|]. split; [by_decision|]. exists 1%positive, sample_options.
    split; [reflexivity | vm_compute; reflexivity].
  - apply datagram_built; [exact sample_message_wf | reflexivity | apply sample_options_good | by_decision].
  - split; [vm_compute; reflexivity|]. split; [discriminate|].
    split; [split; [vm_compute; discriminate | split; vm_compute; reflexivity]|].
    right. eexists. split; [apply (list_elem_of_lookup_2 _ 0); vm_compute; reflexivity|].
    vm_compute. reflexivity.
  - intros (t & Ht & Hx). assert (E : s_trans_cache (begun discover_input fresh_client) = sample_cache)
      by (vm_compute; reflexivity).
    rewrite E in Ht. unfold sample_cache, trans_cache_new in Ht. apply elem_of_replicate in Ht as [-> _].
    discriminate Hx.
  - vm_compute. reflexivity.
  - rewrite <-surjective_pairing. exact after_offer_run.
  - vm_compute. reflexivity.
  - reflexivity.
  - split; [vm_compute; reflexivity|]. split; [by_decision|]. eexists _, _.
    split; vm_compute; reflexivity.
  - vm_compute. reflexivity.
  - apply datagram_built; [by_decision | reflexivity | apply sample_options_good | by_decision].
  - split; [vm_compute; reflexivity|]. split; [discriminate|].
    split; [split; [vm_compute; discriminate | split; vm_compute; reflexivity]|].
    left. eexists. split; [apply (list_elem_of_lookup_2 _ 0); vm_compute; reflexivity|].
    vm_compute. reflexivity.
  - reflexivity.
  - reflexivity.
  - reflexivity.
  - vm_compute. reflexivity.
  - vm_compute. reflexivity.
Defined.
