(* ===== verification/Config.v ===== *)
(** The configuration, [config.c] and [config.h]: the command line, the
    configuration file and the defaults, in this order of precedence.

    [getopt_long] and [getifaddrs] are library calls: what they return is an
    input, a list of options with their arguments and a list of interfaces. *)
From Stdlib Require Import Ascii String.
From S2P Require Import Prelude Bytes Xtoy Json Files Rfc Options AddressPool Allocator Timer Acl Lease Server.
Local Open Scope Z_scope.

(** ** Constants *)
Definition CONFIG_EXIT_PROGRAM : Z := 1.
Definition CONFIG_UNTOUCHED : Z := 2.
Definition CONFIG_BOOL_FALSE : Z := 0.
Definition CONFIG_BOOL_TRUE : Z := 1.

Definition CONFIG_DEFAULT_PATH : string := "/etc/dhcp/config.json".
Definition CONFIG_DEFAULT_TICK_DELAY : Z := 1000.
Definition CONFIG_DEFAULT_CACHE_SIZE : Z := 25.
Definition CONFIG_DEFAULT_TRANS_DURATION : Z := 60.
Definition CONFIG_DEFAULT_LEASE_EXPIRATION_CHECK : Z := 60.
Definition CONFIG_DEFAULT_LOG_VERBOSITY : Z := 4.
Definition CONFIG_DEFAULT_LEASE_TIME : Z := 43200.
Definition CONFIG_DEFAULT_POOL_NAME : string := "Pool".
Definition CONFIG_DEFAULT_POOL_START : string := "192.168.1.1".
Definition CONFIG_DEFAULT_POOL_END : string := "192.168.1.100".
Definition CONFIG_DEFAULT_POOL_MASK : string := "255.255.255.0".
Definition CONFIG_DEFAULT_ACL_ENABLE : Z := CONFIG_BOOL_TRUE.
Definition CONFIG_DEFAULT_ACL_BLACKLIST : Z := CONFIG_BOOL_TRUE.
Definition CONFIG_DEFAULT_DB_ENABLE : Z := CONFIG_BOOL_TRUE.
Definition CONFIG_DEFAULT_DACL : Z := CONFIG_BOOL_TRUE.

(** ** Assignments to the fields of [server->config] *)
Definition set_config_path (v : string) (c : config) : config :=
  Config v (interface c) (bound_ip c) (broadcast_addr c) (tick_delay c) (cache_size c)
    (trans_duration c) (lease_expiration_check c) (lease_time c) (log_verbosity c) (acl_enable c)
    (dynamic_acl_enable c) (acl_blacklist c) (db_enable c).
Definition set_interface (v : string) (c : config) : config :=
  Config (config_path c) v (bound_ip c) (broadcast_addr c) (tick_delay c) (cache_size c)
    (trans_duration c) (lease_expiration_check c) (lease_time c) (log_verbosity c) (acl_enable c)
    (dynamic_acl_enable c) (acl_blacklist c) (db_enable c).
Definition set_addresses (ip broadcast : Z) (c : config) : config :=
  Config (config_path c) (interface c) ip broadcast (tick_delay c) (cache_size c)
    (trans_duration c) (lease_expiration_check c) (lease_time c) (log_verbosity c) (acl_enable c)
    (dynamic_acl_enable c) (acl_blacklist c) (db_enable c).
(** The six numbers of the server section. *)
Definition set_numbers (tick cache trans check lease log : Z) (c : config) : config :=
  Config (config_path c) (interface c) (bound_ip c) (broadcast_addr c) tick cache trans check lease
    log (acl_enable c) (dynamic_acl_enable c) (acl_blacklist c) (db_enable c).
(** The four switches. *)
Definition set_switches (acl dacl blacklist db : Z) (c : config) : config :=
  Config (config_path c) (interface c) (bound_ip c) (broadcast_addr c) (tick_delay c) (cache_size c)
    (trans_duration c) (lease_expiration_check c) (lease_time c) (log_verbosity c) acl dacl blacklist db.

Definition set_tick_delay (v : Z) (c : config) : config :=
  set_numbers v (cache_size c) (trans_duration c) (lease_expiration_check c) (lease_time c)
    (log_verbosity c) c.
Definition set_cache_size (v : Z) (c : config) : config :=
  set_numbers (tick_delay c) v (trans_duration c) (lease_expiration_check c) (lease_time c)
    (log_verbosity c) c.
Definition set_trans_duration (v : Z) (c : config) : config :=
  set_numbers (tick_delay c) (cache_size c) v (lease_expiration_check c) (lease_time c)
    (log_verbosity c) c.
Definition set_lease_expiration_check (v : Z) (c : config) : config :=
  set_numbers (tick_delay c) (cache_size c) (trans_duration c) v (lease_time c) (log_verbosity c) c.
Definition set_lease_time (v : Z) (c : config) : config :=
  set_numbers (tick_delay c) (cache_size c) (trans_duration c) (lease_expiration_check c) v
    (log_verbosity c) c.
Definition set_log_verbosity (v : Z) (c : config) : config :=
  set_numbers (tick_delay c) (cache_size c) (trans_duration c) (lease_expiration_check c)
    (lease_time c) v c.
Definition set_acl_enable (v : Z) (c : config) : config :=
  set_switches v (dynamic_acl_enable c) (acl_blacklist c) (db_enable c) c.
Definition set_dynamic_acl_enable (v : Z) (c : config) : config :=
  set_switches (acl_enable c) v (acl_blacklist c) (db_enable c) c.
Definition set_acl_blacklist (v : Z) (c : config) : config :=
  set_switches (acl_enable c) (dynamic_acl_enable c) v (db_enable c) c.
Definition set_db_enable (v : Z) (c : config) : config :=
  set_switches (acl_enable c) (dynamic_acl_enable c) (acl_blacklist c) v c.

Definition assign (f : config → config) : prog dhcp_server () :=
  modify (λ s, set_config (f (s_config s)) s).

(** [strncpy(field, s, size)] or [strcpy(field, s)] into a field of [size]
    characters.  A string that leaves no room for its end is used past the
    field later, by [strncpy], or written past it, by [strcpy]. *)
Definition copy_field (size : nat) (s : string) : result string :=
  if (String.length s <? size)%nat then Ret s else Undef OutOfBounds.

Definition PATH_MAX : nat := Z.to_nat 4096.
Definition INTERFACE_SIZE : nat := 256.

(** ** The interface *)

(** An entry of [getifaddrs]; a socket address is its family and, for
    [AF_INET], [sin_addr.s_addr]. *)
Record ifaddrs := Ifaddrs {
  ifa_name : string;
  ifa_addr : option (Z * Z);
  ifa_broadaddr : option (Z * Z);
}.

Definition AF_INET : Z := 2.

Fixpoint interface_loop (ifap : list ifaddrs) (c : config) : config :=
  match ifap with
  | [] => c
  | ifa :: ifap =>
      match ifa_addr ifa with
      | None => interface_loop ifap c
      | Some (sa_family, s_addr) =>
          if negb (String.eqb (ifa_name ifa) (interface c)) then interface_loop ifap c
          else
            let c := if sa_family =? AF_INET
                     then set_addresses (ntohl s_addr) (broadcast_addr c) c else c in
            let c := match ifa_broadaddr ifa with
                     | Some (_, broadcast) =>
                         if sa_family =? AF_INET then set_addresses (bound_ip c) (ntohl broadcast) c else c
                     | None => c
                     end in
            if negb (bound_ip c =? 0) && negb (broadcast_addr c =? 0) then c
            else interface_loop ifap c
      end
  end.

(** [None]: [getifaddrs] failed, which leaves the list uninitialised. *)
Definition config_get_interface_info (ifap : option (list ifaddrs)) : prog dhcp_server Z :=
  match ifap with
  | None => lift (Undef Uninitialised)
  | Some ifap =>
      _ ← assign (interface_loop ifap);
      c ← gets s_config;
      if (bound_ip c =? 0) || (broadcast_addr c =? 0) then mret (-1) else mret 0
  end.

Section Config.
Context `{CC : !Cclog} `{CJ : !Cjson}.

(** ** The configuration file *)
Definition config_load_json_file (path : string) : prog env (option json) :=
  config ← read_file path;
  mret (config ≫= cJSON_Parse).

Definition truth (j : json) : Z := if cJSON_IsTrue j then 1 else 0.

(** [(object) ? cJSON_IsTrue(object) : d] *)
Definition switch_value (object : option json) (d : Z) : Z :=
  match object with Some j => truth j | None => d end.

(** [(object) ? cJSON_GetNumberValue(object) : d], as an integer of [w] bits *)
Definition number_value (w : Z) (object : option json) (d : Z) : result Z :=
  match object with Some j => to_unsigned w (cJSON_GetNumberValue j) | None => mret d end.

(** [object = cJSON_GetObjectItem(section, key)] and the assignment of a switch
    that the command line did not set. *)
Definition load_switch (get : config → Z) (set : Z → config → config) (section : option json)
    (key : string) (d : Z) : prog dhcp_server () :=
  c ← gets s_config;
  if get c =? CONFIG_UNTOUCHED then assign (set (switch_value (get_item section key) d)) else mret ().

(** The same for a number that the command line left at 0. *)
Definition load_number (w : Z) (get : config → Z) (set : Z → config → config)
    (section : option json) (key : string) (d : Z) : prog dhcp_server () :=
  c ← gets s_config;
  if get c =? 0 then n ← lift (number_value w (get_item section key) d); assign (set n) else mret ().

Definition config_load_security_config (security_config : option json) : prog dhcp_server Z :=
  _ ← load_switch acl_enable set_acl_enable security_config "acl_enable" CONFIG_DEFAULT_ACL_ENABLE;
  _ ← load_switch acl_blacklist set_acl_blacklist security_config "acl_blacklist"
        CONFIG_DEFAULT_ACL_BLACKLIST;
  _ ← load_switch dynamic_acl_enable set_dynamic_acl_enable security_config "dynamic_acl"
        CONFIG_DEFAULT_DACL;
  mret 0.

(** The interface of the file is only used when the command line has none. *)
Definition load_interface (ifap : option (list ifaddrs)) (server_config : option json)
    : prog dhcp_server Z :=
  c ← gets s_config;
  if (String.length (interface c) =? 0)%nat then
    match get_item server_config "interface" with
    | None => mret (-1)
    | Some object =>
        s ← lift (deref (cJSON_GetStringValue object));
        _ ← assign (set_interface (str_take 255 s));
        rv ← config_get_interface_info ifap;
        if rv <? 0 then mret (-1) else mret 0
    end
  else mret 0.

Definition config_load_server_config (ifap : option (list ifaddrs)) (server_config : option json)
    : prog dhcp_server Z :=
  rv ← load_interface ifap server_config;
  if rv <? 0 then mret (-1)
  else
    _ ← load_number 32 tick_delay set_tick_delay server_config "tick_delay" CONFIG_DEFAULT_TICK_DELAY;
    _ ← load_number 32 cache_size set_cache_size server_config "cache_size" CONFIG_DEFAULT_CACHE_SIZE;
    _ ← load_number 32 trans_duration set_trans_duration server_config "trans_duration"
          CONFIG_DEFAULT_TRANS_DURATION;
    _ ← load_number 32 lease_expiration_check set_lease_expiration_check server_config
          "lease_expiration_check" CONFIG_DEFAULT_LEASE_EXPIRATION_CHECK;
    _ ← load_number 8 log_verbosity set_log_verbosity server_config "log_verbosity"
          CONFIG_DEFAULT_LOG_VERBOSITY;
    _ ← load_number 32 lease_time set_lease_time server_config "lease_time" CONFIG_DEFAULT_LEASE_TIME;
    _ ← load_switch db_enable set_db_enable server_config "db_enable" CONFIG_DEFAULT_DB_ENABLE;
    mret 0.

(** ** Options of the file *)

(** The memory of a C string. *)
Definition string_memory (s : string) : list Z := (code <$> list_ascii_of_string s) ++ [0].

(** The switch over the type of the tag: [None] is the jump to [exit]. *)
Definition option_of_value (tag len : Z) (value : json) : result (option dhcp_option) :=
  match dhcp_option_tag_to_type tag with
  | DHCP_OPTION_IP =>
      if negb (cJSON_IsString value) then mret None
      else
        val_num ← address_value (Some value);
        if val_num =? 0 then mret None
        else o ← dhcp_option_new_values tag len (le_bytes 4 val_num); mret (Some o)
  | DHCP_OPTION_NUMERIC =>
      if negb (cJSON_IsNumber value) then mret None
      else
        val_num ← to_unsigned 32 (cJSON_GetNumberValue value);
        o ← dhcp_option_new_values tag len (le_bytes 4 val_num); mret (Some o)
  | DHCP_OPTION_BIN | DHCP_OPTION_STRING =>
      if negb (cJSON_IsString value) then mret None
      else
        match cJSON_GetStringValue value with
        | None => mret None
        | Some val_string =>
            o ← dhcp_option_new_values tag len (string_memory val_string); mret (Some o)
        end
  | DHCP_OPTION_BOOL =>
      if negb (cJSON_IsBool value) then mret None
      else o ← dhcp_option_new_values tag len [truth value]; mret (Some o)
  end.

(** The loop; an absent tag or length is NaN, which no [uint8_t] holds. *)
Fixpoint load_options_loop (dest : list dhcp_option) (options : list json)
    : result (Z * list dhcp_option) :=
  match options with
  | [] => mret (0, dest)
  | opt :: options =>
      tag ← to_unsigned 8 (get_number (cJSON_GetObjectItem opt "tag"));
      len ← to_unsigned 8 (get_number (cJSON_GetObjectItem opt "lenght"));
      match cJSON_GetObjectItem opt "value" with
      | Some value =>
          if (tag =? 0) || (len =? 0) then load_options_loop dest options
          else
            new_opt ← option_of_value tag len value;
            match new_opt with
            | None => mret (-1, dest)
            | Some o => load_options_loop (dhcp_option_add dest (Some o)).2 options
            end
      | None => load_options_loop dest options
      end
  end.

Definition config_load_dhcp_options (dest : list dhcp_option) (options : option json)
    : result (Z * list dhcp_option) :=
  match options with
  | None => mret (0, dest)
  | Some options => load_options_loop dest (cJSON_children options)
  end.

(** ** Pools of the file *)

(** The variables of [config_load_pools_config] that are declared before the
    loop: an entry that lacks a field finds the value of the entry before. *)
Record pool_fields := PoolFields {
  pool_name : option string;
  pool_start : Z;
  pool_end : Z;
  pool_mask : Z;
}.

(** [object = cJSON_GetObjectItem(pool, key); if (object) ...] for an address *)
Definition address_field (pool : json) (key : string) (before : Z) : result Z :=
  match cJSON_GetObjectItem pool key with
  | Some object => address_value (Some object)
  | None => mret before
  end.

Definition name_field (pool : json) (before : option string) : option string :=
  match cJSON_GetObjectItem pool "name" with
  | Some object => cJSON_GetStringValue object
  | None => before
  end.

(** From the fields to the end of the body of the loop. *)
Definition add_configured_pool (f : pool_fields) (pool : json) (al : address_allocator)
    : result address_allocator :=
  match address_pool_new (pool_name f) (pool_start f) (pool_end f) (pool_mask f) with
  | None => mret al
  | Some new_pool =>
      match cJSON_GetObjectItem pool "options" with
      | None => mret (allocator_add_pool al (Some new_pool)).2
      | Some object =>
          '(rv, options) ← config_load_dhcp_options (p_dhcp_option_override new_pool) (Some object);
          if rv <? 0 then mret al
          else
            mret (allocator_add_pool al
              (Some (Pool (p_name new_pool) (p_start_address new_pool) (p_end_address new_pool)
                       (p_mask new_pool) (p_leases_bm new_pool) (p_available_addresses new_pool)
                       options))).2
      end
  end.

(** The body of the loop; each test on a field that is still missing goes on
    with the next entry. *)
Definition load_pool (f : pool_fields) (pool : json) (al : address_allocator)
    : result (pool_fields * address_allocator) :=
  let f := PoolFields (name_field pool (pool_name f)) (pool_start f) (pool_end f) (pool_mask f) in
  match pool_name f with
  | None => mret (f, al)
  | Some _ =>
      start ← address_field pool "start" (pool_start f);
      let f := PoolFields (pool_name f) start (pool_end f) (pool_mask f) in
      if start =? 0 then mret (f, al)
      else
        end_ ← address_field pool "end" (pool_end f);
        let f := PoolFields (pool_name f) start end_ (pool_mask f) in
        if end_ =? 0 then mret (f, al)
        else
          mask ← address_field pool "subnet" (pool_mask f);
          let f := PoolFields (pool_name f) start end_ mask in
          if mask =? 0 then mret (f, al)
          else al ← add_configured_pool f pool al; mret (f, al)
  end.

Fixpoint load_pools_loop (f : pool_fields) (pools : list json) (al : address_allocator)
    : result address_allocator :=
  match pools with
  | [] => mret al
  | pool :: pools => '(f, al) ← load_pool f pool al; load_pools_loop f pools al
  end.

Definition config_load_pools_config (pools_config : option json) (al : address_allocator)
    : result (Z * address_allocator) :=
  match pools_config with
  | None => mret (0, al)
  | Some pools_config =>
      al ← load_pools_loop (PoolFields None 0 0 0) (cJSON_children pools_config) al;
      mret (0, al)
  end.

(** ** [config_load_configuration] *)
Definition config_load_configuration (ifap : option (list ifaddrs)) : prog dhcp_server Z :=
  c ← gets s_config;
  config ← with_env (config_load_json_file
             (if (String.length (config_path c) =? 0)%nat then CONFIG_DEFAULT_PATH else config_path c));
  match config with
  | None => if (String.length (interface c) =? 0)%nat then mret (-1) else mret 0
  | Some _ => mret 0
  end ≫= λ rv,
  if rv <? 0 then mret (-1)
  else
    rv ← config_load_server_config ifap (get_item config "server");
    if rv <? 0 then mret (-1)
    else
      rv ← with_allocator (config_load_pools_config (get_item config "pools"));
      if rv <? 0 then mret (-1)
      else
        rv ← with_allocator (λ al,
               '(rv, options) ← config_load_dhcp_options (default_options al) (get_item config "options");
               mret (rv, Allocator options (address_pools al)));
        if rv <? 0 then mret (-1)
        else
          rv ← config_load_security_config (get_item config "security");
          if rv <? 0 then mret (-1) else mret 0.

(** ** The command line *)

(** [config_load_defaults]; [optarg] is the interface. *)
Definition config_load_defaults (ifap : option (list ifaddrs)) (optarg : string) : prog dhcp_server Z :=
  _ ← assign (set_config_path CONFIG_DEFAULT_PATH);
  name ← lift (copy_field INTERFACE_SIZE optarg);
  _ ← assign (set_interface name);
  _ ← assign (set_numbers CONFIG_DEFAULT_TICK_DELAY CONFIG_DEFAULT_CACHE_SIZE CONFIG_DEFAULT_TRANS_DURATION
                CONFIG_DEFAULT_LEASE_EXPIRATION_CHECK CONFIG_DEFAULT_LEASE_TIME
                CONFIG_DEFAULT_LOG_VERBOSITY);
  _ ← assign (set_switches CONFIG_BOOL_FALSE CONFIG_DEFAULT_DACL CONFIG_BOOL_FALSE
                CONFIG_DEFAULT_DB_ENABLE);
  o ← lift (dhcp_option_new_values DHCP_OPTION_IP_ADDRESS_LEASE_TIME 4
              (le_bytes 4 CONFIG_DEFAULT_LEASE_TIME));
  rv ← with_allocator (λ al,
         let '(rv, options) := dhcp_option_add (default_options al) (Some o) in
         mret (rv, Allocator options (address_pools al)));
  if rv <? 0 then mret (-1)
  else
    rv ← with_allocator (λ al, mret (allocator_add_pool al
           (address_pool_new_str (Some CONFIG_DEFAULT_POOL_NAME) CONFIG_DEFAULT_POOL_START
              CONFIG_DEFAULT_POOL_END CONFIG_DEFAULT_POOL_MASK)));
    if negb (rv =? ALLOCATOR_OK) then mret (-1)
    else
      rv ← config_get_interface_info ifap;
      if rv <? 0 then mret (-1) else mret 0.

(** [%[^\n]] into 256 characters *)
Fixpoint span_chars (p : ascii → bool) (s : string) : string * string :=
  match s with
  | EmptyString => (EmptyString, EmptyString)
  | String c s' => if p c then let '(a, b) := span_chars p s' in (String c a, b) else (EmptyString, s)
  end.

(** [sscanf(optarg, "%hhu:%hhu:%[^\n]", ...)]: tag, length and value, [None]
    when a conversion fails. *)
Definition scan_option (optarg : string) : result (option (Z * Z * string)) :=
  match ('(tag, s) ← scan_u optarg; s ← scan_char ":" s;
         '(len, s) ← scan_u s; s ← scan_char ":" s; Some (tag, len, s)) with
  | None => mret None
  | Some (tag, len, s) =>
      let '(value, _) := span_chars (λ c, negb (code c =? 10)) s in
      if (String.length value =? 0)%nat then mret None
      else value ← copy_field 256 value; mret (Some (u8 tag, u8 len, value))
  end.

(** The switch over the type: the value in the new option, [None] for the jump
    to [exit]. *)
Definition option_of_text (o : dhcp_option) (value : string) : option dhcp_option :=
  match o_type o with
  | DHCP_OPTION_NUMERIC => '(n, _) ← scan_u value; Some (set_value_number o n)
  | DHCP_OPTION_IP =>
      let ip := ipv4_address_to_uint32 value in
      if ip =? 0 then None else Some (set_value_ip o ip)
  | DHCP_OPTION_BOOL =>
      '(n, _) ← scan_u value;
      if (u8 n =? 0) || (u8 n =? 1) then Some (set_value_boolean o (u8 n)) else None
  | DHCP_OPTION_STRING =>
      Some (with_value o ((code <$> list_ascii_of_string value) ++ zeros (256 - String.length value)))
  | DHCP_OPTION_BIN => None
  end.

Definition config_add_dhcp_option (optarg : string) (al : address_allocator)
    : result (Z * address_allocator) :=
  if (String.length optarg =? 0)%nat then mret (-1, al)
  else
    scanned ← scan_option optarg;
    match scanned with
    | None => mret (-1, al)
    | Some (tag, len, value) =>
        match option_of_text (Option_ (dhcp_option_tag_to_type tag) tag len (o_value dhcp_option_new)) value with
        | None => mret (-1, al)
        | Some o =>
            let '(rv, options) := dhcp_option_add (default_options al) (Some o) in
            mret (if rv <? 0 then -1 else 0, Allocator options (address_pools al))
        end
    end.

(** [%15[^:]]: at most 15 characters, and one at least. *)
Definition scan_field (p : ascii → bool) (s : string) : option (string * string) :=
  let '(a, b) := span_chars p (str_take 15 s) in
  if (String.length a =? 0)%nat then None else Some (a, (b ++ str_drop 15 s)%string).

(** [sscanf(optarg, "%15[^:]:%15[^:]:%15s", ...)] *)
Definition scan_pool (optarg : string) : option (string * string * string) :=
  let no_colon := λ c, negb (code c =? 58) in
  '(start, s) ← scan_field no_colon optarg; s ← scan_char ":" s;
  '(end_, s) ← scan_field no_colon s; s ← scan_char ":" s;
  '(mask, _) ← scan_field (λ c, negb (is_space c)) (skip_space s);
  Some (start, end_, mask).

Definition config_add_pool (optarg : string) (al : address_allocator) : result (Z * address_allocator) :=
  if (String.length optarg =? 0)%nat then mret (-1, al)
  else
    match scan_pool optarg with
    | None => mret (-1, al)
    | Some (start, end_, mask) =>
        match address_pool_new_str (Some "pool"%string) start end_ mask with
        | None => mret (-1, al)
        | Some pool =>
            let '(rv, al) := allocator_add_pool al (Some pool) in
            mret (if negb (rv =? ALLOCATOR_OK) then rv else 0, al)
        end
    end.

(** [sscanf(optarg, "%u", &field) != 1] *)
Definition scan_number (set : Z → config → config) (optarg : option string) : prog dhcp_server Z :=
  s ← lift (deref optarg);
  match scan_u s with
  | Some (n, _) => _ ← assign (set n); mret 0
  | None => mret (-1)
  end.

(** The switch over the option [getopt_long] returned: the value of [rv] and
    whether the loop is left by a jump. *)
Definition parse_argument (ifap : option (list ifaddrs)) (argc : Z) (opt : Z) (optarg : option string)
    : prog dhcp_server (Z * bool) :=
  let go (m : prog dhcp_server Z) : prog dhcp_server (Z * bool) := rv ← m; mret (rv, false) in
  let on_argument (f : string → prog dhcp_server Z) := s ← lift (deref optarg); f s in
  if (opt =? code "v") || (opt =? code "h") then mret (CONFIG_EXIT_PROGRAM, true)
  else if opt =? code "c" then
    go (on_argument (λ s, v ← lift (copy_field PATH_MAX s); _ ← assign (set_config_path v); mret 0))
  else if opt =? code "i" then
    go (on_argument (λ s, v ← lift (copy_field INTERFACE_SIZE s); _ ← assign (set_interface v); mret 0))
  else if opt =? code "d" then go (scan_number set_tick_delay optarg)
  else if opt =? code "s" then go (scan_number set_cache_size optarg)
  else if opt =? code "t" then go (scan_number set_trans_duration optarg)
  else if opt =? code "e" then go (scan_number set_lease_expiration_check optarg)
  else if opt =? code "l" then go (scan_number set_lease_time optarg)
  else if opt =? code "p" then go (on_argument (λ s, with_allocator (config_add_pool s)))
  else if opt =? code "o" then go (on_argument (λ s, with_allocator (config_add_dhcp_option s)))
  else if opt =? 1 then
    if negb (argc =? 3) then mret (-1, true)
    else go (on_argument (λ s, _ ← config_load_defaults ifap s; mret 0))
  else if opt =? 2 then go (scan_number (λ n, set_log_verbosity (u8 n)) optarg)
  else if opt =? 3 then go (_ ← assign (set_acl_enable CONFIG_BOOL_FALSE); mret 0)
  else if opt =? 4 then go (_ ← assign (set_acl_blacklist CONFIG_BOOL_FALSE); mret 0)
  else if opt =? 5 then go (_ ← assign (set_dynamic_acl_enable CONFIG_BOOL_FALSE); mret 0)
  else if opt =? 6 then go (_ ← assign (set_db_enable CONFIG_BOOL_FALSE); mret 0)
  else mret (-1, false).

Fixpoint parse_loop (ifap : option (list ifaddrs)) (argc : Z) (args : list (Z * option string))
    : prog dhcp_server Z :=
  match args with
  | [] => mret 0
  | (opt, optarg) :: args =>
      '(rv, exit) ← parse_argument ifap argc opt optarg;
      if (exit : bool) || negb (rv =? 0) then mret rv else parse_loop ifap argc args
  end.

(** [args]: what the calls of [getopt_long] return before -1. *)
Definition config_parse_arguments (ifap : option (list ifaddrs)) (argc : Z)
    (args : list (Z * option string)) : prog dhcp_server Z :=
  _ ← assign (set_acl_enable CONFIG_UNTOUCHED);
  _ ← assign (set_acl_blacklist CONFIG_UNTOUCHED);
  _ ← assign (set_db_enable CONFIG_UNTOUCHED);
  _ ← assign (set_dynamic_acl_enable CONFIG_UNTOUCHED);
  parse_loop ifap argc args.
End Config.

(** ** The options of the file *)
Section OptionTheorems.
Context `{CC : !Cclog} `{CJ : !Cjson}.

Lemma code_u8 c : is_u8 (code c).
Proof. unfold code, is_u8. pose proof (N_ascii_bounded c). lia. Qed.

Lemma string_memory_bytes s : is_bytes (string_memory s).
Proof.
  apply Forall_app. split; [|by apply Forall_singleton].
  apply Forall_fmap, Forall_true. intros c. apply code_u8.
Qed.

Lemma to_unsigned_Ret w x n : to_unsigned w x = Ret n → x = Some n ∧ 0 ≤ n < 2 ^ w.
Proof.
  unfold to_unsigned. destruct x as [m|]; [|done].
  destruct (Z.leb_spec 0 m), (Z.ltb_spec m (2 ^ w)); cbn [andb]; try done. intros [= ->]. by split.
Qed.

(** An option made from a value in memory: the length is within the value, and
    the rest of the union is 0. *)
Lemma new_values_Ret tag len v o : is_u8 tag → is_u8 len → dhcp_option_new_values tag len v = Ret o →
  len ≤ zlen v ∧ o = Option_ (dhcp_option_tag_to_type tag) tag len
    (take (Z.to_nat len) v ++ zeros (VALUE_SIZE - Z.to_nat len)).
Proof.
  intros Ht Hl H. assert (Hle : len ≤ zlen v).
  { unfold dhcp_option_new_values in H. destruct (slice v 0 len) as [bs| |] eqn:E; [|done..].
    apply slice_Ret in E as (_ & _ & ? & _). lia. }
  split; [done|]. rewrite new_values_pad, !u8_small in H by (unfold is_u8, VALUE_SIZE in *; lia).
  by injection H.
Qed.

(** A number from the bytes of an integer. *)
Lemma number_bytes v l : is_bytes v → (l ≤ length v)%nat → (l ≤ 4)%nat →
  ∃ n, 0 ≤ n < 256 ^ Z.of_nat l ∧
    take l v ++ zeros (VALUE_SIZE - l) = le_bytes 4 n ++ zeros (VALUE_SIZE - 4).
Proof.
  intros Hv Hl H4. assert (Hb : is_bytes (take l v)) by (by apply Forall_take).
  assert (Hlen : length (take l v) = l) by (rewrite length_take; lia).
  exists (le_val (take l v)). pose proof (le_val_range _ Hb) as Hr. rewrite Hlen in Hr.
  split; [done|]. replace 4%nat with (l + (4 - l))%nat by lia.
  rewrite le_bytes_pad by done. rewrite <-Hlen at 3. rewrite le_bytes_val by done.
  rewrite <-app_assoc. f_equal. unfold zeros. rewrite <-replicate_add. f_equal. unfold VALUE_SIZE. lia.
Qed.

Lemma new_values_sendable tag len v o :
  is_u8 tag → 0 < len ≤ DHCP_OPTION_MAX_LENGHT → tag ≠ DHCP_OPTION_PAD → tag ≠ DHCP_OPTION_END →
  is_bytes v → dhcp_option_new_values tag len v = Ret o →
  match dhcp_option_tag_to_type tag with
  | DHCP_OPTION_NUMERIC | DHCP_OPTION_IP => zlen v = 4
  | DHCP_OPTION_BOOL => v = [0] ∨ v = [1]
  | _ => True
  end → option_ok o ∧ option_canonical o.
Proof.
  unfold DHCP_OPTION_MAX_LENGHT. intros Ht Hlen Hpad Hend Hv H Hty.
  assert (Hl8 : is_u8 len) by (unfold is_u8; lia).
  destruct (new_values_Ret tag len v o Ht Hl8 H) as [Hle ->].
  assert (Hlv : (Z.to_nat len ≤ length v)%nat) by (unfold zlen in Hle; lia).
  split; split.
  - split; [done|]. split; [done|]. split; [done|]. cbn [o_value]. split.
    + rewrite length_app, length_take, length_zeros. unfold VALUE_SIZE. lia.
    + apply Forall_app. split; [by apply Forall_take | apply zeros_bytes].
  - cbn [o_type o_lenght]. intros [E|E]; rewrite E in Hty; lia.
  - done.
  - split; [done|]. split; [unfold DHCP_OPTION_MAX_LENGHT; cbn [o_lenght]; lia|].
    cbn [o_type o_lenght o_value]. destruct (dhcp_option_tag_to_type tag).
    + destruct (number_bytes v (Z.to_nat len) Hv Hlv ltac:(unfold zlen in Hty; lia)) as (n & Hn & ->).
      rewrite Z2Nat.id in Hn by lia. by exists n.
    + exists (take (Z.to_nat len) v). rewrite length_take, Nat.min_l by done.
      split; [|done]. unfold zlen. rewrite length_take. lia.
    + destruct (number_bytes v (Z.to_nat len) Hv Hlv ltac:(unfold zlen in Hty; lia)) as (n & Hn & ->).
      rewrite Z2Nat.id in Hn by lia. by exists n.
    + assert (len = 1) as -> by (destruct Hty as [-> | ->]; unfold zlen in Hle; simpl in Hle; lia).
      destruct Hty as [-> | ->]; [exists 0 | exists 1]; (split; [lia | done]).
    + exists (take (Z.to_nat len) v). rewrite length_take, Nat.min_l by done.
      split; [|done]. unfold zlen. rewrite length_take. lia.
Qed.

(** An entry of the file that names a tag and a length an option can be sent
    with. *)
Definition sendable_entry (opt : json) : Prop :=
  get_number (cJSON_GetObjectItem opt "tag") ≠ Some DHCP_OPTION_END ∧
  ∀ n, get_number (cJSON_GetObjectItem opt "lenght") = Some n → n ≤ DHCP_OPTION_MAX_LENGHT.

Lemma option_of_value_sendable tag len value o :
  is_u8 tag → 0 < len ≤ DHCP_OPTION_MAX_LENGHT → tag ≠ DHCP_OPTION_PAD → tag ≠ DHCP_OPTION_END →
  option_of_value tag len value = Ret (Some o) → option_ok o ∧ option_canonical o.
Proof.
  intros Ht Hl Hpad Hend. unfold option_of_value.
  assert (Hnew : ∀ v, is_bytes v →
    (match dhcp_option_tag_to_type tag with
     | DHCP_OPTION_NUMERIC | DHCP_OPTION_IP => zlen v = 4
     | DHCP_OPTION_BOOL => v = [0] ∨ v = [1]
     | _ => True
     end) → (o ← dhcp_option_new_values tag len v; mret (Some o)) = Ret (Some o) →
    option_ok o ∧ option_canonical o).
  { intros v Hv Hty. destruct (dhcp_option_new_values tag len v) as [o'| |] eqn:E; [|done..].
    intros [= ->]. by eapply new_values_sendable. }
  destruct (dhcp_option_tag_to_type tag).
  - destruct (negb _); [done|]. destruct (to_unsigned 32 _) as [n| |]; [|done..].
    apply Hnew; [apply le_bytes_is_bytes | by unfold zlen; rewrite length_le_bytes].
  - destruct (negb _); [done|]. destruct (cJSON_GetStringValue value) as [s|]; [|done].
    apply Hnew; [apply string_memory_bytes | done].
  - destruct (negb _); [done|]. destruct (address_value _) as [n| |]; [|done..].
    cbn [mbind result_bind]. destruct (n =? 0); [done|].
    apply Hnew; [apply le_bytes_is_bytes | by unfold zlen; rewrite length_le_bytes].
  - destruct (negb _); [done|]. unfold truth.
    destruct (cJSON_IsTrue value); (apply Hnew; [by_decision | auto]).
  - destruct (negb _); [done|]. destruct (cJSON_GetStringValue value) as [s|]; [|done].
    apply Hnew; [apply string_memory_bytes | done].
Qed.

Lemma add_sendable dest o : sendable dest → option_ok o → option_canonical o →
  sendable (dhcp_option_add dest (Some o)).2.
Proof.
  intros Hd Ho Hc. simpl. destruct (dhcp_option_retrieve _ _); [done|].
  apply Forall_app. split; [done|]. by apply Forall_singleton.
Qed.

Lemma load_options_sendable options : ∀ dest rv dest', sendable dest →
  Forall sendable_entry options → load_options_loop dest options = Ret (rv, dest') →
  sendable dest' ∧ ∀ t o, dhcp_option_retrieve dest t = Some o → dhcp_option_retrieve dest' t = Some o.
Proof.
  induction options as [|opt options IH]; intros dest rv dest' Hd He H; cbn [load_options_loop] in H.
  { by injection H as _ <-. }
  apply Forall_cons in He as [[Hend Hmax] He].
  destruct (to_unsigned 8 (get_number (cJSON_GetObjectItem opt "tag"))) as [tag| |] eqn:Et; [|done..]. cbn [mbind result_bind] in H.
  destruct (to_unsigned 8 (get_number (cJSON_GetObjectItem opt "lenght"))) as [len| |] eqn:El; [|done..].
  cbn [mbind result_bind] in H. apply to_unsigned_Ret in Et as [Et Ht], El as [El Hl].
  destruct (cJSON_GetObjectItem opt "value") as [value|]; [|by eapply IH].
  destruct (Z.eqb_spec tag 0) as [|Ht0]; [by eapply IH|].
  destruct (Z.eqb_spec len 0) as [|Hl0]; cbn [orb] in H; [by eapply IH|].
  destruct (option_of_value tag len value) as [[o|]| |] eqn:Eo; [| |done..]; cbn [mbind result_bind] in H.
  2: { by injection H as _ <-. }
  apply option_of_value_sendable in Eo as [Ho Hc]; [|done|specialize (Hmax len El); lia|done|congruence].
  apply IH in H as [H1 H2]; [|by apply add_sendable|done]. split; [done|].
  intros t x Hx. apply H2. by rewrite retrieve_add, Hx.
Qed.

(** What makes the loader leave defined behaviour at an entry: a tag or a length
    that is missing or no byte, or a number that is no [uint32_t]; a length beyond
    the memory of the value; a string without text, which cJSON does not have. *)
Definition value_room (tag : Z) (value : json) : Z :=
  match dhcp_option_tag_to_type tag with
  | DHCP_OPTION_IP | DHCP_OPTION_NUMERIC => 4
  | DHCP_OPTION_BOOL => 1
  | DHCP_OPTION_STRING | DHCP_OPTION_BIN =>
      zlen (string_memory (default "" (cJSON_GetStringValue value)))
  end.

Definition entry_fault (opt : json) (f : fault) : Prop :=
  let number key := get_number (cJSON_GetObjectItem opt key) in
  let value := cJSON_GetObjectItem opt "value" in
  match f with
  | BadConversion =>
      (∃ key, key ∈ ["tag"; "lenght"] ∧ ∀ n, number key = Some n → ¬ is_u8 n) ∨
      ∃ v, value = Some v ∧ ∀ n, cJSON_GetNumberValue v = Some n → ¬ is_u32 n
  | OutOfBounds => ∃ tag len v, number "tag" = Some tag ∧ number "lenght" = Some len ∧
      value = Some v ∧ value_room tag v < len
  | NullDeref => ∃ v, value = Some v ∧ cJSON_IsString v = true ∧ cJSON_GetStringValue v = None
  | _ => False
  end.

Lemma to_unsigned_Undef w x f : to_unsigned w x = Undef f →
  f = BadConversion ∧ ∀ n, x = Some n → ¬ 0 ≤ n < 2 ^ w.
Proof.
  unfold to_unsigned. destruct x as [m|]; [|intros [= <-]; by split].
  destruct (Z.leb_spec 0 m), (Z.ltb_spec m (2 ^ w)); cbn [andb]; try done; intros [= <-];
    (split; [done|]); intros n [= <-]; lia.
Qed.

Lemma to_unsigned_in w n : 0 ≤ n < 2 ^ w → to_unsigned w (Some n) = Ret n.
Proof. intros Hn. unfold to_unsigned. case_if E; [done | lia]. Qed.

Lemma to_unsigned_total w x : to_unsigned w x ≠ NoFuel.
Proof. unfold to_unsigned. destruct x as [n|]; [|done]. by destruct (_ && _). Qed.

Lemma new_values_faults tag len v : 0 ≤ len ≤ DHCP_OPTION_MAX_LENGHT →
  match (o ← dhcp_option_new_values tag len v; mret (Some o)) with
  | Ret _ => True
  | Undef f => f = OutOfBounds ∧ zlen v < len
  | NoFuel => False
  end.
Proof.
  intros Hl. unfold dhcp_option_new_values. cbv zeta. unfold slice. case_if E.
  - rewrite !ret_bind, blit_in; [done | lia|].
    cbn [o_value dhcp_option_new]. unfold zlen in *. rewrite length_take, length_zeros.
    unfold DHCP_OPTION_MAX_LENGHT, VALUE_SIZE in *. lia.
  - cbn. split; [done|]. lia.
Qed.

Lemma option_of_value_faults tag len value : 0 ≤ len ≤ DHCP_OPTION_MAX_LENGHT →
  match option_of_value tag len value with
  | Ret _ => True
  | Undef f =>
      f = BadConversion ∧ (∀ n, cJSON_GetNumberValue value = Some n → ¬ is_u32 n) ∨
      f = OutOfBounds ∧ value_room tag value < len ∨
      f = NullDeref ∧ cJSON_IsString value = true ∧ cJSON_GetStringValue value = None
  | NoFuel => False
  end.
Proof.
  intros Hl. pose proof (λ v, new_values_faults tag len v Hl) as Hnew.
  unfold option_of_value, value_room.
  destruct (dhcp_option_tag_to_type tag); destruct (negb _) eqn:En; try done.
  - destruct (to_unsigned 32 _) as [n|f|] eqn:E; cbn [mbind result_bind].
    + specialize (Hnew (le_bytes 4 n)). destruct (_ ← _; _) as [|f|]; [done| |done]. right. by left.
    + apply to_unsigned_Undef in E as [-> E]. by left.
    + by apply to_unsigned_total in E.
  - destruct (cJSON_GetStringValue value) as [t|]; [|done].
    specialize (Hnew (string_memory t)). destruct (_ ← _; _) as [|f|]; [done| |done]. right. by left.
  - unfold address_value, get_string. cbn [mbind option_bind].
    destruct (cJSON_GetStringValue value) as [t|] eqn:Et; cbn [deref].
    + rewrite ret_bind, ret_bind. destruct (_ =? 0); [done|].
      specialize (Hnew (le_bytes 4 (ipv4_address_to_uint32 t))).
      destruct (_ ← _; _) as [|f|]; [done| |done]. right. by left.
    + right. right. split; [done|]. by apply negb_false_iff in En.
  - specialize (Hnew [truth value]). destruct (_ ← _; _) as [|f|]; [done| |done]. right. by left.
  - destruct (cJSON_GetStringValue value) as [t|]; [|done].
    specialize (Hnew (string_memory t)). destruct (_ ← _; _) as [|f|]; [done| |done]. right. by left.
Qed.

Lemma load_options_faults options : ∀ dest, Forall sendable_entry options →
  match load_options_loop dest options with
  | Ret _ => True
  | Undef f => ∃ opt, opt ∈ options ∧ entry_fault opt f
  | NoFuel => False
  end.
Proof.
  induction options as [|opt options IH]; intros dest He; [done|].
  apply Forall_cons in He as [[_ Hmax] He]. cbn [load_options_loop].
  assert (Hrest : ∀ dest, match load_options_loop dest options with
    | Ret _ => True | Undef f => ∃ o, o ∈ opt :: options ∧ entry_fault o f | NoFuel => False end).
  { intros dest'. specialize (IH dest' He). destruct (load_options_loop dest' options) as [|f|]; [done| |done].
    destruct IH as (o & Ho & Hf). exists o. split; [by right | done]. }
  assert (Hhere : ∀ f, entry_fault opt f → ∃ o, o ∈ opt :: options ∧ entry_fault o f)
    by (intros f Hf; exists opt; split; [left | done]).
  assert (Hconv : ∀ key, key ∈ ["tag"; "lenght"]%string →
    match to_unsigned 8 (get_number (cJSON_GetObjectItem opt key)) with
    | Ret n => get_number (cJSON_GetObjectItem opt key) = Some n ∧ 0 ≤ n
    | Undef f => ∃ o, o ∈ opt :: options ∧ entry_fault o f | NoFuel => False end).
  { intros key Hk. destruct (to_unsigned _ _) as [n|f|] eqn:E.
    - apply to_unsigned_Ret in E as [E Hn]. split; [done | lia].
    - apply to_unsigned_Undef in E as [-> E]. apply Hhere. left. exists key. split; [done | exact E].
    - by apply to_unsigned_total in E. }
  pose proof (Hconv "tag"%string ltac:(left)) as Ht. pose proof (Hconv "lenght"%string ltac:(right; left)) as Hl.
  destruct (to_unsigned 8 (get_number (cJSON_GetObjectItem opt "tag"))) as [tag| |]; [|done..].
  destruct (to_unsigned 8 (get_number (cJSON_GetObjectItem opt "lenght"))) as [len| |]; [|done..].
  cbn [mbind result_bind]. destruct Ht as [Ht _], Hl as [Hl Hl0].
  destruct (cJSON_GetObjectItem opt "value") as [value|] eqn:Ev; [|apply Hrest].
  destruct (_ || _); [apply Hrest|].
  pose proof (option_of_value_faults tag len value) as Ho. specialize (Ho (conj Hl0 (Hmax len Hl))).
  destruct (option_of_value tag len value) as [[o|]|f|]; cbn [mbind result_bind]; [apply Hrest | done | | done].
  apply Hhere. destruct Ho as [[-> Ho]|[[-> Ho]|[-> Ho]]]; cbn.
  - right. by exists value.
  - by exists tag, len, value.
  - by exists value.
Qed.

(** C23. For a file whose entries do not name the END tag or a length over 253,
    which the code does not refuse and no option can have on the wire: when
    the loader returns, every option of the list can be sent, with a length within
    its value, a number of at most four bytes and the rest of its memory 0, and
    none replaced an option of the same tag that was there before, from the
    command line.  The loader does not check the length itself: it does not return
    only when an entry of the file has a length beyond the memory of its value,
    which is then read past its end, a tag or a length that is missing or no byte,
    or a number over 32 bits. *)
Theorem config_load_dhcp_options_sendable dest options :
  sendable dest → Forall sendable_entry (cJSON_children options) →
  match config_load_dhcp_options dest (Some options) with
  | Ret (rv, dest') => sendable dest' ∧
      ∀ t o, dhcp_option_retrieve dest t = Some o → dhcp_option_retrieve dest' t = Some o
  | Undef f => ∃ opt, opt ∈ cJSON_children options ∧ entry_fault opt f
  | NoFuel => False
  end.
Proof.
  intros Hd He. pose proof (load_options_faults (cJSON_children options) dest He) as Hf.
  unfold config_load_dhcp_options.
  destruct (load_options_loop dest (cJSON_children options)) as [[rv dest']|f|] eqn:H; [|done..].
  by eapply load_options_sendable.
Qed.

(** A number longer than four bytes is not refused: it is copied from the four
    bytes of a variable, past their end. *)
Theorem config_load_dhcp_options_overread dest options opt rest tag len value n :
  cJSON_children options = opt :: rest →
  get_number (cJSON_GetObjectItem opt "tag") = Some tag → is_u8 tag → tag ≠ 0 →
  dhcp_option_tag_to_type tag = DHCP_OPTION_NUMERIC →
  get_number (cJSON_GetObjectItem opt "lenght") = Some len → 4 < len < 256 →
  cJSON_GetObjectItem opt "value" = Some value → cJSON_GetNumberValue value = Some n → is_u32 n →
  config_load_dhcp_options dest (Some options) = Undef OutOfBounds.
Proof.
  intros Hc Ht Ht8 Ht0 Hty Hl Hlen Hv Hn Hn32. unfold config_load_dhcp_options, is_u8, is_u32 in *.
  rewrite Hc. cbn [load_options_loop]. rewrite Ht, Hl, !to_unsigned_in, !ret_bind by lia.
  rewrite Hv, !(proj2 (Z.eqb_neq _ _)) by lia. cbn [orb]. unfold option_of_value.
  rewrite Hty, (is_number_spec _ n Hn). cbn [negb]. rewrite Hn, to_unsigned_in, ret_bind by lia.
  unfold dhcp_option_new_values, slice, zlen. rewrite length_le_bytes.
  rewrite (proj2 (Z.leb_gt (0 + len) (Z.of_nat 4))) by lia. by rewrite andb_false_r.
Qed.
End OptionTheorems.

(** ** The addresses of the interface *)
Section InterfaceTheorems.
Context `{CC : !Cclog} `{CJ : !Cjson}.

(** What is preserved is a property of [server->config]. *)
Section OnConfig.
Context (I : config → Prop).
Notation holds := (λ s, I (s_config s)).

Lemma preserves_assign f : (∀ c, I c → I (f c)) → preserves holds (assign f).
Proof. intros Hf. apply preserves_modify. intros s. apply Hf. Qed.

Lemma preserves_config_env {A} (m : prog env A) : preserves holds (with_env m).
Proof. intros s a s' Hs. unfold with_env. destruct (m _) as [[b e]| |]; [|done..]. by intros [= <- <-]. Qed.

Lemma preserves_config_allocator {A} (f : address_allocator → result (A * address_allocator)) :
  preserves holds (with_allocator f).
Proof. intros s a s' Hs. unfold with_allocator. destruct (f _) as [[b al]| |]; [|done..]. by intros [= <- <-]. Qed.
End OnConfig.

#[local] Hint Resolve preserves_assign preserves_config_env preserves_config_allocator : preserve.

(** The server has these addresses. *)
Definition has_addresses (ip broadcast : Z) (c : config) : Prop :=
  bound_ip c = ip ∧ broadcast_addr c = broadcast.
Definition has_interface (ip broadcast : Z) (c : config) : Prop :=
  String.length (interface c) ≠ O ∧ has_addresses ip broadcast c.

Section Fixed.
Context (ip broadcast : Z).
Notation addresses := (λ s, has_addresses ip broadcast (s_config s)).
Notation interfaced := (λ s, has_interface ip broadcast (s_config s)).

Lemma preserves_scan_number set arg : (∀ n c, has_addresses ip broadcast c → has_addresses ip broadcast (set n c)) →
  preserves addresses (scan_number set arg).
Proof.
  intros Hs. unfold scan_number. preserve.
  apply (preserves_assign (has_addresses ip broadcast)). by apply Hs.
Qed.

Lemma preserves_parse_argument ifap argc opt arg : opt ≠ 1 →
  preserves addresses (parse_argument ifap argc opt arg).
Proof.
  intros Hopt. unfold parse_argument.
  destruct (Z.eqb_spec opt 1) as [->|_]; [done|].
  assert (Ha : ∀ f, (∀ c, has_addresses ip broadcast c → has_addresses ip broadcast (f c)) →
    preserves addresses (assign f)) by apply preserves_assign.
  preserve; try (apply preserves_scan_number; intros n c; exact id);
    try (apply Ha; intros c; exact id).
  all: try apply (preserves_config_allocator (has_addresses ip broadcast)).
Qed.

Lemma preserves_parse_loop ifap argc args : 1 ∉ args.*1 →
  preserves addresses (parse_loop ifap argc args).
Proof.
  induction args as [|[opt arg] args IH]; intros Hno; cbn [parse_loop]; [preserve|].
  cbn [fmap list_fmap fst] in Hno. apply not_elem_of_cons in Hno as [Hne Hno].
  apply preserves_bind; [by apply preserves_parse_argument|]. intros [rv exit].
  destruct (_ || _); [preserve | by apply IH].
Qed.

Lemma parse_keeps_addresses ifap argc args : 1 ∉ args.*1 →
  preserves addresses (config_parse_arguments ifap argc args).
Proof.
  intros Hno. unfold config_parse_arguments.
  do 4 (apply preserves_bind; [apply (preserves_assign (has_addresses ip broadcast)); intros c; exact id | intros _]).
  by apply preserves_parse_loop.
Qed.

Lemma preserves_load_switch get set section key d :
  (∀ n c, has_interface ip broadcast c → has_interface ip broadcast (set n c)) →
  preserves interfaced (load_switch get set section key d).
Proof.
  intros Hs. unfold load_switch. preserve. apply (preserves_assign (has_interface ip broadcast)), Hs.
Qed.

Lemma preserves_load_number w get set section key d :
  (∀ n c, has_interface ip broadcast c → has_interface ip broadcast (set n c)) →
  preserves interfaced (load_number w get set section key d).
Proof.
  intros Hs. unfold load_number. preserve. apply (preserves_assign (has_interface ip broadcast)), Hs.
Qed.

Lemma load_interface_skips ifap section s : String.length (interface (s_config s)) ≠ O →
  load_interface ifap section s = Ret (0, s).
Proof.
  intros Hi. unfold load_interface. rewrite bind_gets.
  by destruct (Nat.eqb_spec (String.length (interface (s_config s))) 0).
Qed.

Lemma load_keeps_interface ifap : preserves interfaced (config_load_configuration ifap).
Proof.
  unfold config_load_configuration, config_load_server_config, config_load_security_config.
  pose proof (λ A, preserves_config_env (has_interface ip broadcast) (A := A)) as He.
  pose proof (λ A, preserves_config_allocator (has_interface ip broadcast) (A := A)) as Hal.
  assert (Hi : ∀ section, preserves interfaced (load_interface ifap section)).
  { intros section s a s' Hs. rewrite load_interface_skips by apply Hs. by intros [= <- <-]. }
  preserve; try apply Hi; try (apply preserves_load_number; intros n c; exact id);
    try (apply preserves_load_switch; intros n c; exact id); try apply He; try apply Hal.
Qed.
End Fixed.

(** A server whose interface is named on the command line never learns the
    addresses of that interface: they are only looked up for the interface of
    the configuration file and for the default configuration.  Its server
    identifier and its broadcast address stay 0. *)
Theorem config_interface_argument ifap argc args s s1 ifap' rv s2 :
  bound_ip (s_config s) = 0 → broadcast_addr (s_config s) = 0 → 1 ∉ args.*1 →
  config_parse_arguments ifap argc args s = Ret (0, s1) →
  String.length (interface (s_config s1)) ≠ O →
  config_load_configuration ifap' s1 = Ret (rv, s2) →
  bound_ip (s_config s2) = 0 ∧ broadcast_addr (s_config s2) = 0.
Proof.
  intros Hip Hbc Hno Hparse Hlen Hload.
  assert (H1 : has_addresses 0 0 (s_config s1)) by (by eapply parse_keeps_addresses; [exact Hno | split | exact Hparse]).
  assert (H2 : has_interface 0 0 (s_config s2)) by (by eapply load_keeps_interface; [split; [exact Hlen | exact H1] | exact Hload]).
  apply H2.
Qed.
End InterfaceTheorems.

(** ** The precedence of the sources *)
Section ServerTheorems.
Context `{CC : !Cclog} `{CJ : !Cjson}.

(** The value of a number: the command line's, or the file's, or the default. *)
Definition chosen (argument : Z) (object : option json) (d : Z) : Z :=
  if argument =? 0 then match object with Some j => default 0 (cJSON_GetNumberValue j) | None => d end
  else argument.

Definition chosen_switch (argument : Z) (object : option json) (d : Z) : Z :=
  if argument =? CONFIG_UNTOUCHED then switch_value object d else argument.

(** The file holds a number that fits, or nothing. *)
Definition fits (w : Z) (object : option json) : Prop :=
  match object with
  | Some j => ∃ n, cJSON_GetNumberValue j = Some n ∧ 0 ≤ n < 2 ^ w
  | None => True
  end.

Lemma load_number_run w get set section key d s : fits w (get_item section key) →
  set (get (s_config s)) (s_config s) = s_config s →
  load_number w get set section key d s =
    Ret ((), set_config (set (chosen (get (s_config s)) (get_item section key) d) (s_config s)) s).
Proof.
  intros Hf Hid. unfold load_number, chosen. rewrite bind_gets.
  destruct (Z.eqb_spec (get (s_config s)) 0) as [E|E].
  - unfold number_value. destruct (get_item section key) as [j|]; [|done].
    destruct Hf as (n & Hn & Hr). rewrite Hn. rewrite prog_bind_eq. unfold lift at 1, to_unsigned.
    destruct (Z.leb_spec 0 n), (Z.ltb_spec n (2 ^ w)); try lia. done.
  - unfold mret, prog_ret. rewrite Hid. by destruct s.
Qed.

Lemma load_switch_run get set section key d s :
  set (get (s_config s)) (s_config s) = s_config s →
  load_switch get set section key d s =
    Ret ((), set_config (set (chosen_switch (get (s_config s)) (get_item section key) d) (s_config s)) s).
Proof.
  intros Hid. unfold load_switch, chosen_switch. rewrite bind_gets.
  destruct (Z.eqb_spec (get (s_config s)) CONFIG_UNTOUCHED) as [E|E]; [done|].
  unfold mret, prog_ret. rewrite Hid. by destruct s.
Qed.

Lemma load_server_run ifap section s :
  let c := s_config s in
  let value key := get_item section key in
  String.length (interface c) ≠ O →
  fits 32 (value "tick_delay"%string) → fits 32 (value "cache_size"%string) →
  fits 32 (value "trans_duration"%string) → fits 32 (value "lease_expiration_check"%string) →
  fits 8 (value "log_verbosity"%string) → fits 32 (value "lease_time"%string) →
  config_load_server_config ifap section s = Ret (0, set_config (Config
    (config_path c) (interface c) (bound_ip c) (broadcast_addr c)
    (chosen (tick_delay c) (value "tick_delay"%string) CONFIG_DEFAULT_TICK_DELAY)
    (chosen (cache_size c) (value "cache_size"%string) CONFIG_DEFAULT_CACHE_SIZE)
    (chosen (trans_duration c) (value "trans_duration"%string) CONFIG_DEFAULT_TRANS_DURATION)
    (chosen (lease_expiration_check c) (value "lease_expiration_check"%string)
       CONFIG_DEFAULT_LEASE_EXPIRATION_CHECK)
    (chosen (lease_time c) (value "lease_time"%string) CONFIG_DEFAULT_LEASE_TIME)
    (chosen (log_verbosity c) (value "log_verbosity"%string) CONFIG_DEFAULT_LOG_VERBOSITY)
    (acl_enable c) (dynamic_acl_enable c) (acl_blacklist c)
    (chosen_switch (db_enable c) (value "db_enable"%string) CONFIG_DEFAULT_DB_ENABLE)) s).
Proof.
  intros c value Hi H1 H2 H3 H4 H5 H6. unfold config_load_server_config.
  rewrite prog_bind_eq, load_interface_skips by done. cbv beta iota. change (0 <? 0) with false. cbv iota.
  assert (Hc : ∀ c, Config (config_path c) (interface c) (bound_ip c) (broadcast_addr c) (tick_delay c)
    (cache_size c) (trans_duration c) (lease_expiration_check c) (lease_time c) (log_verbosity c)
    (acl_enable c) (dynamic_acl_enable c) (acl_blacklist c) (db_enable c) = c) by (by intros []).
  do 6 (rewrite prog_bind_eq, load_number_run by (done || apply Hc); cbv beta iota).
  rewrite prog_bind_eq, load_switch_run by apply Hc. reflexivity.
Qed.

(** Every setting of the server section is the one of the command line when it
    was given there, otherwise the one of the file, otherwise the default; the
    interface was named on the command line. *)
Theorem config_load_server_config_spec ifap section s :
  let c := s_config s in
  let value key := get_item section key in
  String.length (interface c) ≠ O →
  fits 32 (value "tick_delay"%string) → fits 32 (value "cache_size"%string) →
  fits 32 (value "trans_duration"%string) → fits 32 (value "lease_expiration_check"%string) →
  fits 8 (value "log_verbosity"%string) → fits 32 (value "lease_time"%string) →
  config_load_server_config ifap section s = Ret (0, set_config (Config
    (config_path c) (interface c) (bound_ip c) (broadcast_addr c)
    (chosen (tick_delay c) (value "tick_delay"%string) CONFIG_DEFAULT_TICK_DELAY)
    (chosen (cache_size c) (value "cache_size"%string) CONFIG_DEFAULT_CACHE_SIZE)
    (chosen (trans_duration c) (value "trans_duration"%string) CONFIG_DEFAULT_TRANS_DURATION)
    (chosen (lease_expiration_check c) (value "lease_expiration_check"%string)
       CONFIG_DEFAULT_LEASE_EXPIRATION_CHECK)
    (chosen (lease_time c) (value "lease_time"%string) CONFIG_DEFAULT_LEASE_TIME)
    (chosen (log_verbosity c) (value "log_verbosity"%string) CONFIG_DEFAULT_LOG_VERBOSITY)
    (acl_enable c) (dynamic_acl_enable c) (acl_blacklist c)
    (chosen_switch (db_enable c) (value "db_enable"%string) CONFIG_DEFAULT_DB_ENABLE)) s).
Proof. apply load_server_run. Qed.
End ServerTheorems.

(** ** The pools of the file *)
Section PoolTheorems.
Context `{CC : !Cclog} `{CJ : !Cjson}.

(** An entry of the file with all its fields; the options are the ones of the
    pool, with the subnet mask it always has. *)
Record pool_entry := PoolEntry {
  pe_name : string;
  pe_start : Z;
  pe_end : Z;
  pe_mask : Z;
  pe_options : list dhcp_option;
}.

Definition describes (j : json) (e : pool_entry) : Prop :=
  get_string (cJSON_GetObjectItem j "name") = Some (pe_name e) ∧
  address_value (cJSON_GetObjectItem j "start") = Ret (pe_start e) ∧
  address_value (cJSON_GetObjectItem j "end") = Ret (pe_end e) ∧
  address_value (cJSON_GetObjectItem j "subnet") = Ret (pe_mask e) ∧
  config_load_dhcp_options [subnet_mask_option (pe_mask e)] (cJSON_GetObjectItem j "options") =
    Ret (0, pe_options e) ∧
  (is_u32 (pe_start e) ∧ is_u32 (pe_end e) ∧ is_u32 (pe_mask e)).

(** An entry of a pool: its addresses are not 0.0.0.0, which counts as missing. *)
Definition addressed (e : pool_entry) : Prop := pe_start e ≠ 0 ∧ pe_end e ≠ 0 ∧ pe_mask e ≠ 0.
#[export] Instance addressed_dec e : Decision (addressed e).
Proof. unfold addressed. apply _. Defined.

(** The pool of an entry, with no address in use. *)
Definition fresh_pool (e : pool_entry) : address_pool :=
  Pool (pe_name e) (pe_start e) (pe_end e) (pe_mask e)
    (zeros (Z.to_nat (pool_range (pe_start e) (pe_end e)))) (pe_end e - pe_start e + 1) (pe_options e).

(** The pools after the entries: those with addresses, on their subnet and with a
    name that is not taken yet are appended. *)
Fixpoint configured (pools : list address_pool) (es : list pool_entry) : list address_pool :=
  match es with
  | [] => pools
  | e :: es =>
      configured (if decide (addressed e ∧ range_on_subnet (pe_start e) (pe_end e) (pe_mask e) ∧
                             pe_name e ∉ p_name <$> pools)
                  then pools ++ [fresh_pool e] else pools) es
  end.

Definition fields_of (e : pool_entry) : pool_fields :=
  PoolFields (Some (pe_name e)) (pe_start e) (pe_end e) (pe_mask e).

Lemma address_field_present j key before a :
  address_value (cJSON_GetObjectItem j key) = Ret a → address_field j key before = Ret a.
Proof. unfold address_field. by destruct (cJSON_GetObjectItem j key). Qed.

Lemma name_field_present j before name :
  get_string (cJSON_GetObjectItem j "name") = Some name → name_field j before = Some name.
Proof. unfold name_field. by destruct (cJSON_GetObjectItem j "name"). Qed.

Lemma add_pool_eq al p : (allocator_add_pool al (Some p)).2 =
  with_pools al (if decide (p_name p ∉ p_name <$> address_pools al)
                 then address_pools al ++ [p] else address_pools al).
Proof.
  unfold allocator_add_pool. cbn [allocator_get_pool_by_name].
  destruct (list_find _ (address_pools al)) as [[i q]|] eqn:E; cbn [snd].
  - apply list_find_Some in E as (Hi & Hn & _). rewrite decide_False; [by destruct al|].
    intros Hni. apply Hni. rewrite <-Hn. apply list_elem_of_fmap_2. by eapply list_elem_of_lookup_2.
  - rewrite decide_True; [done|]. intros (q & Hq & Hin)%list_elem_of_fmap.
    apply list_find_None in E. rewrite Forall_forall in E. by eapply E.
Qed.

(** The fields of an entry and its options determine its pool. *)
Lemma add_fields_run j e al :
  config_load_dhcp_options [subnet_mask_option (pe_mask e)] (cJSON_GetObjectItem j "options") =
    Ret (0, pe_options e) →
  is_u32 (pe_start e) ∧ is_u32 (pe_end e) ∧ is_u32 (pe_mask e) → addressed e →
  add_configured_pool (fields_of e) j al =
    Ret (with_pools al (configured (address_pools al) [e])).
Proof.
  intros Hopt (Hs & He & Hm) Had. pose proof Had as [Hs0 _]. unfold add_configured_pool, fields_of.
  cbn [pool_name pool_start pool_end pool_mask configured].
  pose proof (pool_new_correct (pe_name e) _ _ _ Hs He Hm) as Hnew.
  destruct (address_pool_new _ _ _ _) as [p|] eqn:Enew.
  2: { rewrite decide_False by tauto. by destruct al. }
  destruct Hnew as (Hr & Hname & Hst & Hen & Hma & Hov & _).
  assert (Hfresh : Pool (p_name p) (p_start_address p) (p_end_address p) (p_mask p) (p_leases_bm p)
    (p_available_addresses p) (pe_options e) = fresh_pool e ∧
    (cJSON_GetObjectItem j "options" = None → p = fresh_pool e)).
  { unfold address_pool_new in Enew. destruct (negb (can_range_be_on_subnet _ _ _)); [done|].
    destruct (negb _) eqn:Hlt; [done|]. cbn [dhcp_option_add dhcp_option_retrieve] in Enew.
    rewrite if_failed_spec in Enew. cbn [Z.eqb negb app] in Enew. injection Enew as <-.
    cbn [p_name p_start_address p_end_address p_mask p_leases_bm p_available_addresses].
    apply negb_false_iff, Z.ltb_lt in Hlt. unfold is_u32 in *.
    assert (Hav : pe_end e -32 pe_start e +32 1 = pe_end e - pe_start e + 1)
      by (rewrite (u32_small (pe_end e - _)), u32_small; unfold is_u32; lia).
    unfold fresh_pool. rewrite Hav. split; [done|]. intros Hno. rewrite Hno in Hopt.
    by injection Hopt as <-. }
  destruct Hfresh as [Hf1 Hf2]. rewrite Hov.
  assert (Hadd : ∀ q, q = fresh_pool e → (allocator_add_pool al (Some q)).2 =
    with_pools al (if decide (addressed e ∧ range_on_subnet (pe_start e) (pe_end e) (pe_mask e) ∧
      pe_name e ∉ p_name <$> address_pools al) then address_pools al ++ [fresh_pool e] else address_pools al)).
  { intros q ->. rewrite add_pool_eq. f_equal. apply decide_ext. tauto. }
  destruct (cJSON_GetObjectItem j "options") as [object|] eqn:Eo.
  - rewrite Hopt. cbn [mbind result_bind]. change (0 <? 0) with false. cbv iota. rewrite Hf1. by rewrite Hadd.
  - rewrite Hadd by (by apply Hf2). done.
Qed.

Lemma configured_cons pools e es : configured (configured pools [e]) es = configured pools (e :: es).
Proof. done. Qed.

(** What an entry says does not depend on the entries before. *)
Lemma load_addressed_run f j e al : describes j e → addressed e →
  load_pool f j al = Ret (fields_of e, with_pools al (configured (address_pools al) [e])).
Proof.
  intros (Hn & Hs & He & Hm & Ho & Hu) Had. pose proof Had as (Hs0 & He0 & Hm0). unfold load_pool.
  rewrite (name_field_present _ _ _ Hn). cbn [pool_name pool_start pool_end pool_mask].
  rewrite (address_field_present _ _ _ _ Hs), ret_bind, (proj2 (Z.eqb_neq _ _) Hs0).
  rewrite (address_field_present _ _ _ _ He), ret_bind, (proj2 (Z.eqb_neq _ _) He0).
  rewrite (address_field_present _ _ _ _ Hm), ret_bind, (proj2 (Z.eqb_neq _ _) Hm0).
  pose proof (add_fields_run j e al Ho Hu Had) as Hadd. unfold fields_of in Hadd. by rewrite Hadd.
Qed.

Lemma load_entry_run f j e al : describes j e →
  ∃ f', load_pool f j al = Ret (f', with_pools al (configured (address_pools al) [e])).
Proof.
  intros Hd. destruct (decide (addressed e)) as [Had|Hna]; [eexists; by apply load_addressed_run|].
  pose proof Hd as (Hn & Hs & He & Hm & _). unfold load_pool. cbn [configured].
  rewrite decide_False by tauto. assert (with_pools al (address_pools al) = al) as -> by by destruct al.
  rewrite (name_field_present _ _ _ Hn). cbn [pool_name pool_start pool_end pool_mask].
  rewrite (address_field_present _ _ _ _ Hs), ret_bind. destruct (Z.eqb_spec (pe_start e) 0); [by eexists|].
  rewrite (address_field_present _ _ _ _ He), ret_bind. destruct (Z.eqb_spec (pe_end e) 0); [by eexists|].
  rewrite (address_field_present _ _ _ _ Hm), ret_bind. destruct (Z.eqb_spec (pe_mask e) 0); [by eexists|].
  by destruct Hna.
Qed.

Lemma load_pools_run js es : Forall2 describes js es → ∀ f al,
  load_pools_loop f js al = Ret (with_pools al (configured (address_pools al) es)).
Proof.
  induction 1 as [|j e js es Hd _ IH]; intros f al; cbn [load_pools_loop]; [by destruct al|].
  destruct (load_entry_run f j e al Hd) as [f' ->]. rewrite ret_bind. by rewrite IH.
Qed.

(** Of a file with complete entries, every entry with addresses other than 0.0.0.0
    whose range lies on its subnet and whose name is new becomes a pool of its own, with no address in use and
    the options of the entry, in the order of the file; the other entries and the
    rest of the allocator are left alone. *)
Theorem config_load_pools_config_spec pools_config es al :
  Forall2 describes (cJSON_children pools_config) es →
  config_load_pools_config (Some pools_config) al =
    Ret (0, with_pools al (configured (address_pools al) es)).
Proof. intros Hd. unfold config_load_pools_config. by rewrite (load_pools_run _ _ Hd). Qed.

(** An entry that lacks its end gets the one of the entry before it. *)
Theorem config_load_pools_config_stale pools_config j1 j2 e1 e2 al :
  cJSON_children pools_config = [j1; j2] → describes j1 e1 → addressed e1 →
  get_string (cJSON_GetObjectItem j2 "name") = Some (pe_name e2) →
  address_value (cJSON_GetObjectItem j2 "start") = Ret (pe_start e2) → is_u32 (pe_start e2) →
  pe_start e2 ≠ 0 → cJSON_GetObjectItem j2 "end" = None → pe_end e2 = pe_end e1 →
  cJSON_GetObjectItem j2 "subnet" = None → pe_mask e2 = pe_mask e1 →
  cJSON_GetObjectItem j2 "options" = None → pe_options e2 = [subnet_mask_option (pe_mask e1)] →
  config_load_pools_config (Some pools_config) al =
    Ret (0, with_pools al (configured (address_pools al) [e1; e2])).
Proof.
  intros Hc H1 Had1 Hn Hs Hsu Hs0 He Hee Hm Hme Ho Hoo. unfold config_load_pools_config. rewrite Hc.
  cbn [load_pools_loop]. rewrite (load_addressed_run _ j1 e1 al H1 Had1), ret_bind.
  pose proof H1 as (_ & _ & _ & _ & _ & (_ & Heu & Hmu)). destruct Had1 as (_ & He0 & Hm0).
  set (al1 := with_pools al (configured (address_pools al) [e1])).
  unfold load_pool, fields_of. rewrite (name_field_present _ _ _ Hn).
  cbn [pool_name pool_start pool_end pool_mask].
  rewrite (address_field_present _ _ _ _ Hs), ret_bind, (proj2 (Z.eqb_neq _ _) Hs0).
  unfold address_field. rewrite He, Hm, !ret_bind.
  rewrite (proj2 (Z.eqb_neq _ _) He0), (proj2 (Z.eqb_neq _ _) Hm0).
  (* the second entry as if it had all its fields *)
  assert (Hadd : add_configured_pool (PoolFields (Some (pe_name e2)) (pe_start e2) (pe_end e1) (pe_mask e1)) j2 al1 =
    Ret (with_pools al1 (configured (address_pools al1) [e2]))).
  { pose proof (add_fields_run j2 e2 al1) as H. unfold fields_of in H. rewrite Hee, Hme in H. apply H.
    - by rewrite Ho, Hoo.
    - by rewrite ?Hee, ?Hme.
    - split; [done|]. by rewrite Hee, Hme. }
  rewrite Hadd, !ret_bind. done.
Qed.
End PoolTheorems.

(** ** Witnesses *)
(** [dhcp_server_t dhcp_server = {0}]; the pointers of the parts are set before
    they are used. *)
Definition zeroed (now : Z) (e : env) : dhcp_server :=
  Server address_allocator_new [] (Timer TIMER_ONCE 0 0 false 0 None) None None
    (Config "" "" 0 0 0 0 0 0 0 0 0 0 0 0) now ∅ e [] (Ipc true 0 [] []).

Definition object_of (members : list (string * TreeJson.tree)) : TreeJson.tree :=
  GenNode 1 ((λ kv, TreeJson.member kv.1 kv.2) <$> members).
Definition text (s : string) : TreeJson.tree := GenLeaf (inl s).
Definition number (n : Z) : TreeJson.tree := GenLeaf (inr n).

(** The router of a network. *)
Definition router_options : TreeJson.tree :=
  GenNode 0 [object_of [("tag"%string, number 3); ("lenght"%string, number 4);
                        ("value"%string, text "192.168.1.1")]].

Lemma config_load_dhcp_options_sendable_witness : ∃ rv dest',
  @config_load_dhcp_options TreeJson.tree_json [] (Some router_options) = Ret (rv, dest') ∧
  sendable dest' ∧ o_lenght <$> dest' = [4].
Proof.
  assert (H : sendable [] ∧ Forall (@sendable_entry TreeJson.tree_json) (@cJSON_children TreeJson.tree_json router_options)).
  { split; [constructor|]. constructor; [|constructor]. split; [discriminate|]. intros n [= <-]. discriminate. }
  pose proof (@config_load_dhcp_options_sendable TreeJson.tree_json [] router_options (proj1 H) (proj2 H)) as Hs.
  match type of Hs with context [@config_load_dhcp_options ?J ?d ?o] =>
    destruct (@config_load_dhcp_options J d o) as [[rv dest']| |] eqn:E end;
    [|vm_compute in E; discriminate E..].
  exists rv, dest'. split; [exact E|]. split; [apply Hs|].
  assert (Hl : o_lenght <$> dest' = [4]) by (vm_compute in E; injection E as _ <-; reflexivity). exact Hl.
Defined.

(** A lease time of eight bytes. *)
Definition long_number : TreeJson.tree :=
  GenNode 0 [object_of [("tag"%string, number 51); ("lenght"%string, number 8);
                        ("value"%string, number 3600)]].

Lemma config_load_dhcp_options_overread_witness :
  @config_load_dhcp_options TreeJson.tree_json [] (Some long_number) = Undef OutOfBounds.
Proof.
  by eapply (@config_load_dhcp_options_overread TreeJson.tree_json [] long_number _ [] 51 8 _ 3600);
    try reflexivity; vm_compute; repeat split; discriminate.
Defined.

(** The server after "-i eth0" was read. *)
Definition named_server : dhcp_server :=
  match @config_parse_arguments cclog_run None 3 [(code "i", Some "eth0"%string)] (zeroed 0 (Env ∅ [])) with
  | Ret (_, s) => s
  | _ => zeroed 0 (Env ∅ [])
  end.

Lemma config_interface_argument_witness : ∃ s2,
  @config_load_configuration cclog_run TreeJson.tree_json None named_server = Ret (0, s2) ∧
  bound_ip (s_config s2) = 0 ∧ interface (s_config s2) = "eth0"%string.
Proof.
  destruct (@config_load_configuration cclog_run TreeJson.tree_json None named_server) as [[rv s2]| |] eqn:E;
    [|vm_compute in E; discriminate E..].
  assert (Hrv : rv = 0 ∧ interface (s_config s2) = "eth0"%string)
    by (vm_compute in E; injection E as <- <-; split; reflexivity).
  destruct Hrv as [-> Hi]. exists s2. split; [reflexivity|]. split; [|exact Hi].
  apply (@config_interface_argument cclog_run TreeJson.tree_json None 3 [(code "i", Some "eth0"%string)]
    (zeroed 0 (Env ∅ [])) named_server None 0 s2).
  - reflexivity.
  - reflexivity.
  - vm_compute. intros H. inversion H as [|? ? ? H']. inversion H'.
  - vm_compute. reflexivity.
  - discriminate.
  - exact E.
Defined.

Lemma config_load_server_config_spec_witness : ∃ s',
  @config_load_server_config TreeJson.tree_json None
    (Some (object_of [("cache_size"%string, number 7)])) named_server = Ret (0, s') ∧
  cache_size (s_config s') = 7 ∧ tick_delay (s_config s') = 1000.
Proof.
  eexists. split.
  - apply (@config_load_server_config_spec TreeJson.tree_json None
      (Some (object_of [("cache_size"%string, number 7)])) named_server);
      [discriminate | exact I | exists 7; split; [reflexivity | by_decision] | exact I..].
  - split; reflexivity.
Defined.

Definition pool_json (members : list (string * TreeJson.tree)) : TreeJson.tree := object_of members.
Definition office_json : TreeJson.tree := pool_json
  [("name"%string, text "office"); ("start"%string, text "10.0.0.1"); ("end"%string, text "10.0.0.9");
   ("subnet"%string, text "255.255.255.0")].
Definition office : pool_entry :=
  PoolEntry "office" 167772161 167772169 4294967040 [subnet_mask_option 4294967040].

Lemma office_described : describes (CJ := TreeJson.tree_json) office_json office.
Proof. split_and!; try done; by_decision. Qed.

Lemma config_load_pools_config_spec_witness :
  @config_load_pools_config cclog_run TreeJson.tree_json (Some (GenNode 0 [office_json]))
    address_allocator_new = Ret (0, Allocator [] [fresh_pool office]).
Proof.
  rewrite (@config_load_pools_config_spec cclog_run TreeJson.tree_json (GenNode 0 [office_json]) [office]).
  - cbn [configured address_allocator_new address_pools with_pools default_options].
    rewrite decide_True; [reflexivity|].
    split; [by_decision|]. split; [by_decision | intros H; inversion H].
  - constructor; [exact office_described | constructor].
Defined.

(** The second entry lacks its end and its mask. *)
Definition lab : pool_entry :=
  PoolEntry "lab" 167772165 167772169 4294967040 [subnet_mask_option 4294967040].

Lemma config_load_pools_config_stale_witness :
  @config_load_pools_config cclog_run TreeJson.tree_json
    (Some (GenNode 0 [office_json; pool_json [("name"%string, text "lab"); ("start"%string, text "10.0.0.5")]]))
    address_allocator_new = Ret (0, Allocator [] [fresh_pool office; fresh_pool lab]).
Proof.
  rewrite (@config_load_pools_config_stale cclog_run TreeJson.tree_json _ office_json
    (pool_json [("name"%string, text "lab"); ("start"%string, text "10.0.0.5")]) office lab);
    try reflexivity; try by_decision.
  exact office_described.
Defined.
