(* ===== verification/Agreement.v ===== *)
(** What the Config tab of the interface ([TabConfig]) writes is what the server
    ([Config]) reads: the settings of the server section, the options and the
    pools, from the text fields of the one program to the state of the other. *)
From Stdlib Require Import Ascii String.
From S2P Require Import Prelude Bytes Xtoy Json Files Rfc Options AddressPool Allocator Timer Acl Lease Server GuiRfc TabConfig Config.
Local Open Scope Z_scope.

(** ** Settings *)

(** The number of a field. *)
Definition setting (es : list conf_entry) (i : nat) : Z :=
  match stoi (ce_val (entry es i)) with Ret n => n | _ => 0 end.

(** A number that fits the variable of the server. *)
Definition usable (w : Z) (es : list conf_entry) (i : nat) : Prop :=
  ∃ n, stoi (ce_val (entry es i)) = Ret n ∧ 0 ≤ n < 2 ^ w.

(** The argument of the command line, when there is one. *)
Definition argument_or (argument v : Z) : Z := if argument =? 0 then v else argument.

(** ** Options *)

(** The bytes the server keeps of the value of an option. *)
Definition server_bytes (o : gui_option) : list Z :=
  match gui_tag_to_type (go_tag o) with
  | DHCP_OPTION_IP => le_bytes 4 (ipv4_address_to_uint32 (go_value o))
  | DHCP_OPTION_NUMERIC => le_bytes 4 (match stoi (go_value o) with Ret n => n | _ => 0 end)
  | DHCP_OPTION_BOOL => [match stoi (go_value o) with Ret n => if n =? 0 then 0 else 1 | _ => 0 end]
  | DHCP_OPTION_STRING | DHCP_OPTION_BIN => code <$> list_ascii_of_string (go_value o)
  end.

Definition server_option (o : gui_option) : dhcp_option :=
  let len := go_lenght (with_lenght o) in
  Option_ (gui_tag_to_type (go_tag o)) (go_tag o) len
    (take (Z.to_nat len) (server_bytes o) ++ zeros (VALUE_SIZE - Z.to_nat len)).

(** An option the tab writes and the server takes: a text of at least one and
    less than 256 characters, an address other than 0.0.0.0, a number, in one to
    four bytes, or a truth value typed as a number. *)
Definition transferable (o : gui_option) : Prop :=
  0 < go_tag o < 2 ^ 8 ∧
  match gui_tag_to_type (go_tag o) with
  | DHCP_OPTION_STRING => (0 < String.length (go_value o) < 256)%nat
  | DHCP_OPTION_IP => ipv4_address_to_uint32 (go_value o) ≠ 0
  | DHCP_OPTION_NUMERIC => 0 ≤ go_lenght o ≤ 4 ∧ ∃ n, stoi (go_value o) = Ret n ∧ 0 ≤ n
  | DHCP_OPTION_BOOL => ∃ n, stoi (go_value o) = Ret n
  | DHCP_OPTION_BIN => False
  end.

(** "Apply" returns at the first address that is empty or not one, so that neither
    this option nor any after it is written; an option of bytes is never written. *)
Definition bad_address (o : gui_option) : Prop :=
  gui_tag_to_type (go_tag o) = DHCP_OPTION_IP ∧ ipv4_address_to_uint32 (go_value o) = 0.
#[export] Instance bad_address_dec o : Decision (bad_address o).
Proof. unfold bad_address. apply _. Defined.

Definition settable (o : gui_option) : Prop :=
  transferable o ∨ bad_address o ∨ gui_tag_to_type (go_tag o) = DHCP_OPTION_BIN.

Fixpoint reaching (os : list gui_option) : list gui_option :=
  match os with
  | [] => []
  | o :: os =>
      if decide (bad_address o) then []
      else if decide (gui_tag_to_type (go_tag o) = DHCP_OPTION_BIN) then reaching os
      else o :: reaching os
  end.

(** The options the tab shows afterwards: up to the bad address their lengths are
    set. *)
Fixpoint sized (os : list gui_option) : list gui_option :=
  match os with
  | [] => []
  | o :: os => if decide (bad_address o) then o :: os else with_lenght o :: sized os
  end.

(** The server keeps the first option of a tag. *)
Definition add_all (dest os : list dhcp_option) : list dhcp_option :=
  foldl (λ d o, (dhcp_option_add d (Some o)).2) dest os.

(** ** Pools *)

Section Agreement.
Context `{CC : !Cclog} `{CJ : !Cjson}.

(** A pool of the tab and its options, as the server reads them; its subnet mask
    is the first option. *)
Definition server_pool (p : gui_pool) (os : list gui_option) : pool_entry :=
  let mask := ipv4_address_to_uint32 (gp_subnet p) in
  PoolEntry (gp_name p) (ipv4_address_to_uint32 (gp_start_addr p)) (ipv4_address_to_uint32 (gp_end_addr p))
    mask (add_all [subnet_mask_option mask] (server_option <$> reaching os)).

(** ** Options *)
Lemma transferable_applicable o : transferable o → applicable o.
Proof.
  intros (_ & Hv). unfold applicable, applied_lenght, applied_value.
  destruct (gui_tag_to_type (go_tag o)); try done.
  - destruct Hv as (_ & n & -> & _). split_and!; [done | by eexists | by eexists].
  - split_and!; [done | by eexists | by eexists].
  - rewrite (proj2 (Z.eqb_neq _ _) Hv). split_and!; [done | by eexists | by eexists].
  - destruct Hv as [n ->]. split_and!; [done | by eexists | by eexists].
Qed.

Lemma same_type o : transferable o → dhcp_option_tag_to_type (go_tag o) = gui_tag_to_type (go_tag o).
Proof.
  intros (_ & Hv). rewrite gui_tag_to_type_eq in *. by destruct (go_tag o =? DHCP_OPTION_MERIT_DUMP).
Qed.

Lemma transferable_lenght o : transferable o →
  0 < go_lenght (with_lenght o) < 256 ∧ go_lenght (with_lenght o) ≤ zlen (server_bytes o).
Proof.
  intros (_ & Hv). unfold with_lenght, applied_lenght, server_bytes, zlen. cbn [go_lenght].
  destruct (gui_tag_to_type (go_tag o)); try done.
  - rewrite length_le_bytes. cbn [default from_option id]. destruct (Z.eqb_spec (go_lenght o) 0); lia.
  - rewrite length_fmap, length_list_ascii. cbn [default from_option id]. lia.
  - rewrite length_le_bytes, (proj2 (Z.eqb_neq _ _) Hv). cbn [default from_option id]. lia.
Qed.

Lemma stoi_range s n : stoi s = Ret n → - 2 ^ 31 ≤ n < 2 ^ 31.
Proof.
  unfold stoi. destruct (scan_sign _) as [neg [|c s']]; [done|]. destruct (digit_val c); [|done]. cbv zeta.
  set (m := if (neg : bool) then _ else _).
  destruct (Z.leb_spec (- 2 ^ 31) m), (Z.ltb_spec m (2 ^ 31)); cbn [andb]; try done. intros [= <-]. lia.
Qed.

Lemma server_option_run o : transferable o →
  ∃ v, applied_value o = Ret v ∧
    option_of_value (go_tag o) (go_lenght (with_lenght o)) v = Ret (Some (server_option o)).
Proof.
  intros Ho. pose proof (transferable_lenght o Ho) as [Hl Hz]. pose proof (same_type o Ho) as Hty.
  pose proof Ho as [Ht Hv].
  assert (Hnew : ∀ v rest, v = server_bytes o ++ rest →
    dhcp_option_new_values (go_tag o) (go_lenght (with_lenght o)) v = Ret (server_option o)).
  { intros v rest ->. rewrite new_values_pad by (unfold VALUE_SIZE; rewrite ?zlen_app; pose proof (zlen_nonneg rest); lia).
    unfold server_option. cbv zeta. rewrite Hty, !u8_small by (unfold is_u8; lia).
    rewrite take_app_le by (unfold zlen in Hz; lia). done. }
  unfold applied_value, option_of_value. rewrite Hty. unfold server_bytes in Hnew.
  destruct (gui_tag_to_type (go_tag o)); try done.
  - destruct Hv as (Hlen & n & Hn & Hn0). rewrite Hn in *. rewrite ret_bind. eexists. split; [done|].
    assert (Hu : is_u32 n).
    { apply stoi_range in Hn. unfold is_u32. lia. }
    rewrite (is_number_spec _ n) by (by apply get_number_spec). cbn [negb].
    pose proof (to_unsigned_u32 n Hu) as Hget. unfold get_number in Hget. cbn [mbind option_bind] in Hget.
    rewrite Hget, ret_bind. by rewrite (Hnew _ []) by (by rewrite app_nil_r).
  - eexists. split; [done|]. rewrite (is_string_spec _ (go_value o)) by apply get_string_spec. cbn [negb].
    rewrite get_string_spec. unfold string_memory. by rewrite (Hnew _ [0]).
  - eexists. split; [done|]. rewrite (is_string_spec _ (go_value o)) by apply get_string_spec. cbn [negb].
    unfold address_value, get_string. cbn [mbind option_bind]. rewrite get_string_spec. cbn [deref].
    rewrite ret_bind. unfold mret, result_ret. rewrite ret_bind, (proj2 (Z.eqb_neq _ _) Hv).
    by rewrite (Hnew _ []) by (by rewrite app_nil_r).
  - destruct Hv as [n Hn]. rewrite Hn in *. rewrite ret_bind. eexists. split; [done|].
    rewrite is_bool_spec. cbn [negb]. unfold truth. rewrite is_true_bool_spec.
    rewrite (Hnew _ []); [done|]. by destruct (n =? 0).
Qed.

(** The loop of the server over options the tab wrote. *)
Lemma load_options_run os : Forall transferable os → ∀ dest,
  load_options_loop dest (option_json <$> (with_lenght <$> os)) = Ret (0, add_all dest (server_option <$> os)).
Proof.
  induction 1 as [|o os Ho Hall IH]; intros dest; cbn [fmap list_fmap load_options_loop]; [done|].
  destruct (server_option_run o Ho) as (v & Hv & Hopt).
  destruct (transferable_lenght o Ho) as [Hl _]. pose proof Ho as [Ht _].
  assert (Hj : option_json (with_lenght o) = option_object (go_tag (with_lenght o)) (go_lenght (with_lenght o)) v).
  { unfold option_json. by replace (applied_value (with_lenght o)) with (@Ret json v) by (symmetry; exact Hv). }
  rewrite Hj.
  destruct (option_object_fields (go_tag (with_lenght o)) (go_lenght (with_lenght o)) v) as (H1 & H2 & H3).
  rewrite H1, H2, H3.
  rewrite !to_unsigned_u8, !ret_bind by (unfold is_u8; cbn [with_lenght go_tag] in *; lia).
  rewrite (proj2 (Z.eqb_neq _ 0)) by (cbn [with_lenght go_tag] in *; lia).
  rewrite (proj2 (Z.eqb_neq _ 0)) by lia. cbn [orb]. change (go_tag (with_lenght o)) with (go_tag o).
  rewrite Hopt, ret_bind. by rewrite IH.
Qed.

Lemma add_all_new os : ∀ dest, NoDup (o_tag <$> (dest ++ os)) → add_all dest os = dest ++ os.
Proof.
  induction os as [|o os IH]; intros dest Hnd; cbn [add_all foldl]; [by rewrite app_nil_r|].
  assert (Hadd : (dhcp_option_add dest (Some o)).2 = dest ++ [o]).
  { unfold dhcp_option_add. rewrite fmap_app in Hnd. apply NoDup_app in Hnd as (_ & Hd & _).
    assert (dhcp_option_retrieve dest (o_tag o) = None) as ->; [|done].
    apply retrieve_None. intros Hin. apply (Hd _ Hin). left. }
  rewrite Hadd. change (add_all (dest ++ [o]) os = dest ++ o :: os).
  rewrite IH by (by rewrite <-app_assoc). by rewrite <-app_assoc.
Qed.

Lemma reaching_transferable os : Forall settable os → Forall transferable (reaching os).
Proof.
  induction 1 as [|o os Ho _ IH]; cbn [reaching]; [constructor|].
  destruct (decide (bad_address o)); [constructor|].
  destruct (decide (_ = _)); [done|]. constructor; [|done]. by destruct Ho as [?|[?|?]].
Qed.

Lemma transferable_good o : transferable o →
  ¬ bad_address o ∧ gui_tag_to_type (go_tag o) ≠ DHCP_OPTION_BIN.
Proof.
  intros [_ Hv]. unfold bad_address. destruct (gui_tag_to_type (go_tag o)); by try (split; [intros [? ?]|]).
Qed.

Lemma reaching_all os : Forall transferable os → reaching os = os.
Proof.
  induction 1 as [|o os Ho _ IH]; cbn [reaching]; [done|].
  destruct (transferable_good o Ho). rewrite !decide_False by done. by rewrite IH.
Qed.

(** "Apply" writes the options that reach the server. *)
Lemma apply_settable_run os : Forall settable os → ∀ done array,
  ∃ array', apply_loop os done array = Ret (array', done ++ sized os) ∧
    cJSON_children array' = cJSON_children array ++ (option_json <$> (with_lenght <$> reaching os)).
Proof.
  induction 1 as [|o os Ho _ IH]; intros done array; cbn [apply_loop reaching sized].
  { exists array. by rewrite !app_nil_r. }
  destruct (decide (bad_address o)) as [[Hty Hbad]|Hgood].
  { exists array. unfold applied_lenght. rewrite Hty, Hbad. by rewrite app_nil_r. }
  assert (Hlen : applied_lenght o = Some (go_lenght (with_lenght o))).
  { unfold with_lenght, applied_lenght, bad_address in *. cbn [go_lenght].
    destruct (gui_tag_to_type (go_tag o)); try done. rewrite (proj2 (Z.eqb_neq _ _)); [done|]. tauto. }
  rewrite Hlen. change (GuiOption _ _ _) with (with_lenght o). cbn [with_lenght go_tag].
  destruct (decide (gui_tag_to_type (go_tag o) = DHCP_OPTION_BIN)) as [Hbin|Hnb].
  - assert (Hv : applied_value (with_lenght o) = Ret (cJSON_CreateString (go_value o)))
      by (unfold applied_value; cbn [with_lenght go_tag]; by rewrite Hbin).
    change (GuiOption (go_tag o) _ (go_value o)) with (with_lenght o). rewrite Hv, ret_bind, Hbin.
    destruct (IH (done ++ [with_lenght o]) array) as (a & Ha & Hc).
    exists a. split; [|done]. rewrite Ha. by rewrite <-app_assoc.
  - assert (Ht : transferable o) by by destruct Ho as [?|[?|?]].
    destruct (server_option_run o Ht) as (v & Hv & _).
    assert (Hv' : applied_value (with_lenght o) = Ret v) by exact Hv.
    change (GuiOption (go_tag o) _ (go_value o)) with (with_lenght o). rewrite Hv', ret_bind.
    set (array1 := match gui_tag_to_type (go_tag o) with DHCP_OPTION_BIN => _ | _ => _ end).
    assert (Ha1 : array1 = cJSON_AddItemToArray array (option_json (with_lenght o))).
    { subst array1. unfold option_json. rewrite Hv'. cbn [with_lenght go_tag go_lenght].
      by destruct (gui_tag_to_type (go_tag o)). }
    destruct (IH (done ++ [with_lenght o]) array1) as (a & Ha & Hc). exists a. rewrite Ha, Hc, Ha1.
    split; [by rewrite <-app_assoc|]. rewrite children_add_spec. cbn [fmap list_fmap]. by rewrite <-app_assoc.
Qed.

(** C11. Options set in the tab are the options of the server.  Each is an option the
    server can take ([transferable]: a number in one to four bytes, a text that
    is not empty), an address that is empty or not one, or an option of bytes.
    "Apply" writes the options before the first bad address, where it returns and
    so loses that option and all after it, and leaves out options of bytes; from
    the array the server takes the options that were written, in order, each with
    its tag, its length and the bytes of its value, unless an option of the tag is
    there already, from the command line or from earlier in the array.  So, when
    all can be taken, have distinct tags and none of them is on the command line,
    the server appends one option for each option of the tab. *)
Theorem options_reach_server os array dest : Forall settable os →
  ∃ array', apply_options os array = Ret (array', sized os) ∧
    config_load_dhcp_options dest (Some array') = Ret (0, add_all dest (server_option <$> reaching os)) ∧
    (Forall transferable os → NoDup (o_tag <$> (dest ++ (server_option <$> os))) →
     add_all dest (server_option <$> reaching os) = dest ++ (server_option <$> os)).
Proof.
  intros Hs. destruct (apply_settable_run os Hs [] (clearArray array)) as (array' & Ha & Hc).
  rewrite clear_array_children, app_nil_l in Hc. exists array'. split; [done|]. split.
  - unfold config_load_dhcp_options. rewrite Hc. by apply load_options_run, reaching_transferable.
  - intros Ht Hnd. rewrite reaching_all by done. by apply add_all_new.
Qed.

(** ** Pools *)
Lemma add_pools_run ps : ∀ options array, length ps = length options →
  ∃ array', add_pools array ps options = Ret array' ∧
    cJSON_children array' = cJSON_children array ++ zip_with pool_object ps options.
Proof.
  induction ps as [|p ps IH]; intros [|o options] array Hl; try done; cbn [add_pools zip_with].
  - exists array. by rewrite app_nil_r.
  - destruct (IH options (cJSON_AddItemToArray array (pool_object p o))) as (a & Ha & Hc); [simpl in Hl; lia|].
    exists a. split; [done|]. by rewrite Hc, children_add_spec, <-app_assoc.
Qed.

Lemma apply_pool_options_run oss : Forall (Forall settable) oss →
  ∃ rs, apply_pool_options oss = Ret rs ∧
    Forall2 (λ os r, cJSON_children (r.1) = option_json <$> (with_lenght <$> reaching os)) oss rs.
Proof.
  induction 1 as [|os oss Hos _ IH]; [by exists []|].
  destruct (apply_settable_run os Hos [] (clearArray cJSON_CreateArray)) as (a & Ha & Hc).
  rewrite clear_array_children, app_nil_l in Hc. destruct IH as (rs & Hrs & Hall).
  exists ((a, sized os) :: rs). cbn [apply_pool_options]. unfold apply_options. rewrite Ha, ret_bind, Hrs, ret_bind.
  split; [done|]. by constructor.
Qed.

Lemma pool_object_describes p os options : Forall settable os →
  cJSON_children options = option_json <$> (with_lenght <$> reaching os) →
  describes (pool_object p options) (server_pool p os).
Proof.
  intros Hos Hc.
  pose proof (object_lookup [("name", cJSON_CreateString (gp_name p)); ("start", cJSON_CreateString (gp_start_addr p));
    ("end", cJSON_CreateString (gp_end_addr p)); ("subnet", cJSON_CreateString (gp_subnet p));
    ("options", options)]%string) as H.
  assert (Hk : ∀ k, cJSON_GetObjectItem (pool_object p options) k = assoc_lower
    [("name", cJSON_CreateString (gp_name p)); ("start", cJSON_CreateString (gp_start_addr p));
     ("end", cJSON_CreateString (gp_end_addr p)); ("subnet", cJSON_CreateString (gp_subnet p));
     ("options", options)]%string k) by (intros k; apply (H k); by apply (bool_decide_unpack _)).
  assert (Ha : ∀ s, address_value (Some (cJSON_CreateString s)) = Ret (ipv4_address_to_uint32 s)).
  { intros s. unfold address_value, get_string. cbn [mbind option_bind]. by rewrite get_string_spec. }
  unfold describes. rewrite !Hk. cbn [server_pool pe_name pe_start pe_end pe_mask pe_options].
  split_and!; try apply Ha; try apply ipv4_u32.
  - unfold get_string. apply get_string_spec.
  - unfold config_load_dhcp_options.
    change (assoc_lower _ "options") with (Some options). cbv iota. rewrite Hc.
    by apply load_options_run, reaching_transferable.
Qed.

(** C12. Pools set in the tab are the pools of the server.  The options of each
    are as in C11.  From the array that "Apply" writes the server makes a pool of
    each pool of the tab, in order, with its name, its range, its subnet and its
    options ([server_pool]); but a pool with an address that is 0.0.0.0, as in a
    new pool of the tab, or is none, with a range that is not on its subnet, or with a name that
    an earlier pool has is left out ([configured]), and of the options those
    before the first bad address are kept, without options of bytes, later
    options of the same tag and an option for the subnet mask ([reaching],
    [add_all]). *)
Theorem pools_reach_server ps oss array al :
  length ps = length oss → Forall (Forall settable) oss →
  ∃ applied array', apply_pool_options oss = Ret applied ∧
    add_pools (clearArray array) ps applied.*1 = Ret array' ∧
    config_load_pools_config (Some array') al =
      Ret (0, Allocator.with_pools al (configured (address_pools al) (zip_with server_pool ps oss))).
Proof.
  intros Hl Hall. destruct (apply_pool_options_run oss Hall) as (rs & Hrs & Hchildren).
  assert (Hlen : length ps = length rs.*1).
  { rewrite length_fmap, <-(Forall2_length _ _ _ Hchildren). done. }
  destruct (add_pools_run ps rs.*1 (clearArray array) Hlen) as (array' & Ha & Hc).
  exists rs, array'. split; [done|]. split; [done|]. unfold config_load_pools_config.
  rewrite clear_array_children, app_nil_l in Hc. rewrite Hc, (load_pools_run _ (zip_with server_pool ps oss)); [done|].
  clear -Hall Hl Hchildren. revert oss rs Hl Hall Hchildren.
  induction ps as [|p ps IH]; intros [|os oss] [|r rs] Hl Hall Hch; inversion Hch; subst; try done; try constructor.
  all: apply Forall_cons in Hall as [Hos Hall]; cbn [zip_with].
  - by apply pool_object_describes.
  - apply IH; [simpl in Hl; lia | done..].
Qed.

(** ** Settings *)
Lemma shaped_type es i : shaped es → (i < 8)%nat →
  Some (ce_type (entry es i)) = [STRING; NUMERIC; NUMERIC; NUMERIC; NUMERIC; NUMERIC; NUMERIC; BOOLEAN] !! i.
Proof.
  intros Hsh Hi. pose proof (shaped_path es i Hsh Hi) as Hp. destruct Hsh as [_ Ht].
  rewrite <-Ht, list_lookup_fmap, lookup_take_lt by done. unfold entry in *.
  destruct (es !! i) eqn:E; [done|]. exfalso. apply lookup_ge_None_1 in E.
  apply (f_equal length) in Ht. rewrite length_fmap, length_take in Ht. cbn [length] in Ht. lia.
Qed.

Lemma shaped_at es i key T : shaped es → (i < 8)%nat → server_paths !! i = Some key →
  [STRING; NUMERIC; NUMERIC; NUMERIC; NUMERIC; NUMERIC; NUMERIC; BOOLEAN] !! i = Some T →
  ce_json_path (entry es i) = key ∧ ce_type (entry es i) = T.
Proof.
  intros Hsh Hi Hk HT. pose proof (shaped_path es i Hsh Hi) as E1. pose proof (shaped_type es i Hsh Hi) as E2.
  rewrite Hk in E1. rewrite HT in E2. split; [by injection E1 | by injection E2].
Qed.

(** The server section after "Apply": every field left its item. *)
Definition applied_section (root : json) (es : list conf_entry) : Prop :=
  shaped es ∧ ∀ i key, (i < 8)%nat → server_paths !! i = Some key →
    ∃ j, get_item (section root "server") key = Some j ∧ applied_item (entry es i) j.

(** The number that a field leaves in the file. *)
Lemma applied_number root es i key w : applied_section root es → (i < 8)%nat → server_paths !! i = Some key →
  [STRING; NUMERIC; NUMERIC; NUMERIC; NUMERIC; NUMERIC; NUMERIC; BOOLEAN] !! i = Some NUMERIC →
  w ≤ 32 → usable w es i → ∀ argument d,
  chosen argument (get_item (section root "server") key) d = argument_or argument (setting es i) ∧
  fits w (get_item (section root "server") key).
Proof.
  intros [Hsh Hall] Hi Hk HT Hw (n & Hn & Hr) argument d.
  destruct (shaped_at es i key NUMERIC Hsh Hi Hk HT) as [_ Ht]. destruct (Hall i key Hi Hk) as (j & -> & Hitem).
  unfold applied_item in Hitem. rewrite Ht in Hitem. destruct Hitem as (m & Hm & ->).
  rewrite Hn in Hm. injection Hm as <-. unfold chosen, argument_or, setting, fits. rewrite Hn.
  assert (Hu : is_u32 n) by (split; [lia | eapply Z.lt_le_trans; [apply Hr | by apply Z.pow_le_mono_r]]).
  rewrite get_number_spec by done. split; [done | by exists n].
Qed.

(** The same for the switch. *)
Lemma applied_switch root es argument d : applied_section root es →
  chosen_switch argument (get_item (section root "server") "db_enable") d =
  if argument =? CONFIG_UNTOUCHED then (if ce_val_i (entry es CONF_DB_ENABLE) =? 0 then 0 else 1) else argument.
Proof.
  intros [Hsh Hall]. destruct (shaped_at es 7 "db_enable" BOOLEAN Hsh ltac:(lia) eq_refl eq_refl) as [_ Ht].
  destruct (Hall 7%nat "db_enable"%string) as (j & -> & Hitem); [lia | done|].
  unfold applied_item in Hitem. rewrite Ht in Hitem. rewrite Hitem. unfold chosen_switch, switch_value, truth.
  rewrite is_true_bool_spec. fold CONF_DB_ENABLE. by destruct (ce_val_i (entry es CONF_DB_ENABLE) =? 0).
Qed.

(** C10. Settings made in the tab are the settings of the server: of the file that "Apply"
    writes, a server whose command line has the interface takes the delay, the size
    of the cache, the interval of the check, the verbosity, the lease time
    and the switch of the database from the fields, unless the command line has them.  The
    duration of a transaction is the exception: the tab writes it under another
    name than the server reads, and whatever is typed the server goes on with what it had. *)
Theorem settings_reach_server t root t' ifap s :
  let es := config_entries t in
  let c := s_config s in
  tc_root t = Some root → shaped es →
  Forall (λ key, is_Some (get_item (section root "server") key)) server_paths →
  Forall (usable 32 es) [1; 2; 4; 6]%nat → usable 8 es 5 →
  fits 32 (get_item (section root "server") "trans_duration") →
  String.length (interface c) ≠ O → apply_tree t = Ret (0, t') →
  ∃ root', tc_root t' = Some root' ∧
    get_item (section root' "server") "interface" = Some (cJSON_CreateString (ce_val (entry es CONF_INTERFACE))) ∧
    config_load_server_config ifap (section root' "server") s = Ret (0, set_config (Config
      (config_path c) (interface c) (bound_ip c) (broadcast_addr c)
      (argument_or (tick_delay c) (setting es 1))
      (argument_or (cache_size c) (setting es 2))
      (chosen (trans_duration c) (get_item (section root "server") "trans_duration") CONFIG_DEFAULT_TRANS_DURATION)
      (argument_or (lease_expiration_check c) (setting es 4))
      (argument_or (lease_time c) (setting es 6))
      (argument_or (log_verbosity c) (setting es 5))
      (acl_enable c) (dynamic_acl_enable c) (acl_blacklist c)
      (if db_enable c =? CONFIG_UNTOUCHED
       then (if ce_val_i (entry es CONF_DB_ENABLE) =? 0 then 0 else 1) else db_enable c)) s).
Proof.
  intros es c Hroot Hsh Hpaths Hu32 Hu8 Htd Hif Happly.
  destruct (apply_tree_run _ _ _ Hroot Happly) as (root1 & root' & Hroot' & Hentries & Hserver & _).
  destruct (apply_server_run _ _ _ _ Hsh Hentries) as (_ & Hkeep & Hitems & _ & _).
  exists root'. split; [done|]. rewrite Hserver. clear Hserver. rewrite Forall_forall in Hpaths.
  assert (Hsec : applied_section root1 es).
  { split; [done|]. intros i key Hi Hk. pose proof (shaped_path es i Hsh Hi) as Hp. rewrite Hk in Hp.
    injection Hp as <-. apply Hitems; [done|]. by eapply Hpaths, list_elem_of_lookup_2. }
  split.
  - destruct (proj2 Hsec 0%nat "interface"%string) as (j & -> & Hj); [lia | done|].
    destruct (shaped_at es 0 "interface" STRING Hsh ltac:(lia) eq_refl eq_refl) as [_ Ht].
    unfold applied_item in Hj. rewrite Ht in Hj. by rewrite Hj.
  - rewrite !Forall_cons in Hu32. destruct Hu32 as (V1 & V2 & V4 & V6 & _).
    assert (U1 := applied_number _ es 1 "tick_delay" 32 Hsec ltac:(lia) eq_refl eq_refl ltac:(lia) V1).
    assert (U2 := applied_number _ es 2 "cache_size" 32 Hsec ltac:(lia) eq_refl eq_refl ltac:(lia) V2).
    assert (U4 := applied_number _ es 4 "lease_expiration_check" 32 Hsec ltac:(lia) eq_refl eq_refl ltac:(lia) V4).
    assert (U5 := applied_number _ es 5 "log_verbosity" 8 Hsec ltac:(lia) eq_refl eq_refl ltac:(lia) Hu8).
    assert (U6 := applied_number _ es 6 "lease_time" 32 Hsec ltac:(lia) eq_refl eq_refl ltac:(lia) V6).
    assert (Htd' := Hkeep "trans_duration"%string ltac:(by_decision)).
    rewrite load_server_run; rewrite ?Htd'; try done;
      try (first [apply U1 | apply U2 | apply U4 | apply U5 | apply U6]; exact 0).
    rewrite (proj1 (U1 _ _)), (proj1 (U2 _ _)), (proj1 (U4 _ _)), (proj1 (U5 _ _)), (proj1 (U6 _ _)).
    by rewrite (applied_switch _ es) by done.
Qed.
End Agreement.

(** ** Witnesses *)
Definition transferred : list gui_option := GuiOption 19 0 "1" :: sample_options.

Lemma transferred_ok : Forall transferable transferred.
Proof.
  repeat constructor; try (vm_compute; congruence).
  - by exists 1.
  - by exists 64.
Qed.

(** A router without an address, and a name after it, are lost. *)
Definition typed_options : list gui_option := transferred ++ [GuiOption 3 0 ""; GuiOption 40 0 "nis"].

Lemma typed_settable : Forall settable typed_options.
Proof.
  apply Forall_app. split; [eapply Forall_impl; [exact transferred_ok | by left]|].
  constructor; [right; left; split; vm_compute; reflexivity|]. constructor; [|constructor].
  left. split; [done|]. cbn. lia.
Qed.

Lemma options_reach_server_witness :
  ∃ array' os', @apply_options TreeJson.tree_json typed_options (GenNode 0 []) = Ret (array', os') ∧
    @config_load_dhcp_options TreeJson.tree_json [] (Some array') = Ret (0, server_option <$> transferred) ∧
    o_lenght <$> (server_option <$> transferred) = [1; 4; 6; 1].
Proof.
  destruct (@options_reach_server TreeJson.tree_json typed_options (GenNode 0 []) [] typed_settable)
    as (a & H1 & H2 & _).
  exists a, (sized typed_options). split; [exact H1|]. split; [|reflexivity].
  assert (E : add_all [] (server_option <$> reaching typed_options) = server_option <$> transferred)
    by (vm_compute; reflexivity).
  rewrite E in H2. exact H2.
Defined.

Definition transferred_pool : @gui_pool TreeJson.tree_json :=
  @GuiPool TreeJson.tree_json "office" "10.0.0.10" "10.0.0.20" "255.255.255.0" (GenNode 0 []).
(** A pool as the tab makes it. *)
Definition unset_pool : @gui_pool TreeJson.tree_json :=
  @GuiPool TreeJson.tree_json "new" "0.0.0.0" "0.0.0.0" "0.0.0.0" (GenNode 0 []).

Lemma pools_reach_server_witness :
  ∃ applied array', @apply_pool_options TreeJson.tree_json [[]; typed_options] = Ret applied ∧
    @add_pools TreeJson.tree_json (@clearArray TreeJson.tree_json (GenNode 0 []))
      [unset_pool; transferred_pool] applied.*1 = Ret array' ∧
    @config_load_pools_config cclog_run TreeJson.tree_json (Some array') address_allocator_new =
      Ret (0, Allocator [] [fresh_pool (server_pool transferred_pool typed_options)]).
Proof.
  destruct (@pools_reach_server cclog_run TreeJson.tree_json [unset_pool; transferred_pool] [[]; typed_options]
    (GenNode 0 []) address_allocator_new) as (applied & a & H1 & H2 & H3).
  - reflexivity.
  - constructor; [constructor|]. constructor; [exact typed_settable | constructor].
  - exists applied, a. split; [exact H1|]. split; [exact H2|]. rewrite H3. cbn [zip_with configured].
    rewrite (decide_False (P := addressed (server_pool unset_pool []) ∧ _)) by (intros ((H & _) & _); apply H; vm_compute; reflexivity).
    rewrite decide_True; [reflexivity|].
    split; [by_decision|]. split; [by_decision | intros H; inversion H].
Defined.

(** Delay and duration are typed, and the settings applied. *)
Definition typed_settings : @tab_config TreeJson.tree_json :=
  with_entries typed_once (<[1%nat := set_val (entry (config_entries typed_once) 1) "500"]>
    (<[3%nat := set_val (entry (config_entries typed_once) 3) "5"]> (config_entries typed_once))).
Definition typed_root : @json TreeJson.tree_json := default (GenNode 0 []) (tc_root typed_settings).
Definition written_settings := after (apply_tree typed_settings).

Lemma settings_reach_server_witness :
  ∃ root' s', tc_root written_settings = Some root' ∧
    config_load_server_config None (section root' "server") named_server = Ret (0, s') ∧
    tick_delay (s_config s') = 500 ∧ trans_duration (s_config s') = CONFIG_DEFAULT_TRANS_DURATION.
Proof.
  assert (Hkeys : Forall (λ key, is_Some (get_item (section typed_root "server") key)) server_paths)
    by by_decision.
  assert (Htd : get_item (section typed_root "server") "trans_duration" = None) by (vm_compute; reflexivity).
  destruct (@settings_reach_server TreeJson.tree_json typed_settings typed_root written_settings None named_server)
    as (root' & Hr & _ & H).
  - vm_compute. reflexivity.
  - split; vm_compute; reflexivity.
  - exact Hkeys.
  - repeat (apply Forall_cons; split); [exists 500 | exists 25 | exists 60 | exists 43200 | constructor];
      (split; [vm_compute; reflexivity | lia]).
  - exists 4. split; [vm_compute; reflexivity | lia].
  - rewrite Htd. exact I.
  - discriminate.
  - apply accepted_after. vm_compute. reflexivity.
  - rewrite Htd in H. exists root'. eexists. split; [exact Hr|]. split; [exact H|].
    split; vm_compute; reflexivity.
Defined.
