(* ===== verification/Init.v ===== *)
(** Initialisation, [init.c], [unix_server_init] of [unix_server.c] and the
    order of the calls in [main.c]. *)
From Stdlib Require Import Ascii String.
From S2P Require Import Prelude Bytes Xtoy Json Files Rfc Options Packet AddressPool Allocator Timer Transaction Acl Lease Server Messages Unix Serve Expiry Config.
Local Open Scope Z_scope.

Section Init.
Context `{CC : !Cclog} `{CJ : !Cjson}.

(** ** The parts of the server *)
Definition init_allocator : prog dhcp_server Z :=
  _ ← modify (set_allocator address_allocator_new); mret 0.

(** An option of four bytes added to the global ones. *)
Definition add_default_option (tag value : Z) : prog dhcp_server Z :=
  o ← lift (dhcp_option_new_values tag 4 (le_bytes 4 value));
  with_allocator (λ al,
    let '(rv, options) := dhcp_option_add (default_options al) (Some o) in
    mret (rv, Allocator options (address_pools al))).

Definition init_dhcp_options : prog dhcp_server Z :=
  c ← gets s_config;
  rv ← add_default_option DHCP_OPTION_IP_ADDRESS_LEASE_TIME (lease_time c);
  if if_failed rv then mret (-1)
  else
    rv ← add_default_option DHCP_OPTION_SERVER_IDENTIFIER (bound_ip c);
    if if_failed rv then mret (-1) else mret 0.

Definition init_cache : prog dhcp_server Z :=
  c ← gets s_config;
  now ← gets s_now;
  _ ← modify (set_cache (trans_cache_new now (cache_size c) (trans_duration c)));
  mret 0.

Definition init_ACL : prog dhcp_server Z :=
  c ← gets s_config;
  if (acl_enable c =? CONFIG_UNTOUCHED) || (acl_blacklist c =? CONFIG_UNTOUCHED) then mret (-1)
  else
    '(rv, acl) ← with_env (ACL_load_acl_entries
                   (Acl (acl_entries ACL_new) (negb (acl_enable c =? 0)) (negb (acl_blacklist c =? 0)))
                   (config_path c));
    _ ← modify (set_acl (Some acl));
    if rv <? 0 then mret (-1) else mret 0.

Definition init_dynamic_ACL : prog dhcp_server Z :=
  _ ← modify (set_dacl (Some (Acl (acl_entries dynamic_ACL_new) true
                                (acl_is_blacklist dynamic_ACL_new))));
  mret 0.

(** ** The UNIX server *)
Definition register_command (name : string) (f : command_func) : prog dhcp_server Z :=
  _ ← modify (λ s, let i := s_ipc s in
        set_ipc (Ipc (server_keep_running i) (xid_used_in_scan i) (i_commands i ++ [(name, f)])
                   (i_responses i)) s);
  mret 0.

(** The commands registered one after the other. *)
Fixpoint register_commands (commands : list (string * command_func)) : prog dhcp_server Z :=
  match commands with
  | [] => mret 0
  | (name, f) :: commands =>
      rv ← register_command name f;
      if if_failed rv then mret (-1) else register_commands commands
  end.

Definition init_unix_commands : prog dhcp_server Z :=
  _ ← modify (λ s, let i := s_ipc s in
        set_ipc (Ipc (server_keep_running i) (xid_used_in_scan i) [] (i_responses i)) s);
  register_commands [("echo"%string, command_echo_ptr); ("stop-server"%string, command_stop_ptr);
    ("rogue-scan"%string, command_rogue_scan_ptr); ("pool-status"%string, command_pool_status_ptr)].

(** [socket], [unlink], [bind] and [listen]: the descriptor [fd] of the socket
    is returned even when a later call fails. *)
Definition unix_server_init (fd : Z) : prog dhcp_server Z :=
  f ← with_env fails;
  if (f : bool) then mret (-1)
  else
    f ← with_env fails;
    if (f : bool) then mret fd else _ ← with_env fails; mret fd.

(** ** [main], up to [dhcp_server_serve] *)
Definition check_for_version_or_usage_flags (argv : list string) : bool :=
  existsb (λ a, existsb (String.eqb a) ["--version"%string; "-v"%string; "--help"%string; "-h"%string]) argv.

(** [if_failed(call, exit)] where [exit] returns [rv]: [Some rv] is the end of
    the program. *)
Definition check_failed (failed : Z → bool) (rv : Z) (call : prog dhcp_server Z)
    (rest : prog dhcp_server (option Z)) : prog dhcp_server (option Z) :=
  v ← call; if failed v then mret (Some rv) else rest.

(** What the program is started with: its arguments, what [getopt_long] makes
    of them, the interfaces and the descriptor of the UNIX socket. *)
Record start_input := StartInput {
  st_argv : list string;
  st_args : list (Z * option string);
  st_ifap : option (list ifaddrs);
  st_fd : Z;
}.

(** [None]: the server runs.  The value returned by a failure after the command
    line was parsed is the 0 of [config_parse_arguments]. *)
Definition main_start (i : start_input) : prog dhcp_server (option Z) :=
  if check_for_version_or_usage_flags (st_argv i) then mret (Some 0)
  else
    _ ← assign (set_config_path CONFIG_DEFAULT_PATH);
    check_failed if_failed 1 init_allocator
      (rv ← config_parse_arguments (st_ifap i) (zlen (st_argv i)) (st_args i);
       if rv =? CONFIG_EXIT_PROGRAM then mret (Some 0)
       else if negb (rv =? 0) then mret (Some 1)
       else
         check_failed if_failed rv (config_load_configuration (st_ifap i))
        (check_failed if_failed rv init_dhcp_server
        (check_failed if_failed rv init_dhcp_server_timers
        (check_failed if_failed_n rv (unix_server_init (st_fd i))
        (check_failed if_failed rv init_unix_commands
        (check_failed if_failed rv init_dhcp_options
        (check_failed if_failed rv init_ACL
        (check_failed if_failed rv init_cache
        (check_failed if_failed rv init_dynamic_ACL
        (check_failed if_failed rv init_load_persisten_leases (mret None))))))))))).
End Init.

(** ** The default configuration *)
Section Start.
Context `{CC : !Cclog} `{CJ : !Cjson}.

(** No system call fails, and there is no configuration file. *)
Definition quiet (s : dhcp_server) : Prop :=
  e_faults (s_env s) = [] ∧ e_files (s_env s) !! CONFIG_DEFAULT_PATH = None.

(** [config_load_defaults] sets every field. *)
Definition default_config (name : string) (ip broadcast : Z) : config :=
  Config CONFIG_DEFAULT_PATH name ip broadcast CONFIG_DEFAULT_TICK_DELAY CONFIG_DEFAULT_CACHE_SIZE
    CONFIG_DEFAULT_TRANS_DURATION CONFIG_DEFAULT_LEASE_EXPIRATION_CHECK CONFIG_DEFAULT_LEASE_TIME
    CONFIG_DEFAULT_LOG_VERBOSITY CONFIG_BOOL_FALSE CONFIG_DEFAULT_DACL CONFIG_BOOL_FALSE
    CONFIG_DEFAULT_DB_ENABLE.

(** The first interface of that name has an address and a broadcast address. *)
Definition interface_listed (ifap : list ifaddrs) (name : string) (ip broadcast : Z) : Prop :=
  ip ≠ 0 ∧ broadcast ≠ 0 ∧ ∃ before a b after,
    ifap = before ++ Ifaddrs name (Some (AF_INET, a)) (Some (AF_INET, b)) :: after ∧
    Forall (λ i, ifa_name i ≠ name) before ∧ ntohl a = ip ∧ ntohl b = broadcast.

Lemma interface_loop_listed ifap name ip broadcast c :
  interface_listed ifap name ip broadcast → interface c = name →
  interface_loop ifap c = set_addresses ip broadcast c.
Proof.
  intros (Hip & Hbc & before & a & b & after & -> & Hbefore & <- & <-) Hc.
  induction Hbefore as [|i before Hi _ IH]; cbn [app interface_loop].
  - cbn [ifa_addr ifa_name ifa_broadaddr]. rewrite Hc, String.eqb_refl. cbn [negb].
    change (AF_INET =? AF_INET) with true. cbv iota. cbn [bound_ip broadcast_addr set_addresses].
    by rewrite (proj2 (Z.eqb_neq _ _) Hip), (proj2 (Z.eqb_neq _ _) Hbc).
  - destruct (ifa_addr i) as [[family addr]|]; [|exact IH].
    rewrite Hc, (proj2 (String.eqb_neq _ _) Hi). exact IH.
Qed.

Lemma interface_info_run ifap name ip broadcast s :
  interface_listed ifap name ip broadcast → interface (s_config s) = name →
  config_get_interface_info (Some ifap) s =
    Ret (0, set_config (set_addresses ip broadcast (s_config s)) s).
Proof.
  intros Hl Hc. unfold config_get_interface_info, assign. rewrite bind_modify.
  rewrite (interface_loop_listed _ _ _ _ _ Hl Hc), bind_gets.
  cbn [s_config set_config bound_ip broadcast_addr set_addresses].
  by rewrite (proj2 (Z.eqb_neq _ _) (proj1 Hl)), (proj2 (Z.eqb_neq _ _) (proj1 (proj2 Hl))).
Qed.

(** The pool of the default configuration. *)
Lemma default_pool_new :
  address_pool_new_str (Some CONFIG_DEFAULT_POOL_NAME) CONFIG_DEFAULT_POOL_START
    CONFIG_DEFAULT_POOL_END CONFIG_DEFAULT_POOL_MASK = Some sample_pool.
Proof.
  unfold address_pool_new_str, address_pool_new.
  cbn [dhcp_option_add dhcp_option_retrieve]. rewrite if_failed_spec. vm_compute. reflexivity.
Qed.

Definition lease_time_option : dhcp_option :=
  numeric_option DHCP_OPTION_IP_ADDRESS_LEASE_TIME 4 CONFIG_DEFAULT_LEASE_TIME.

Lemma load_defaults_run ifap name ip broadcast s :
  (String.length name < INTERFACE_SIZE)%nat → s_allocator s = address_allocator_new →
  interface_listed ifap name ip broadcast →
  config_load_defaults (Some ifap) name s =
    Ret (0, set_allocator (Allocator [lease_time_option] [sample_pool])
              (set_config (default_config name ip broadcast) s)).
Proof.
  intros Hlen Hal Hl. unfold config_load_defaults, assign. rewrite bind_modify, prog_bind_eq.
  unfold lift at 1, copy_field. rewrite (proj2 (Nat.ltb_lt _ _) Hlen). cbv beta iota.
  rewrite !bind_modify, prog_bind_eq. unfold lift at 1.
  assert (dhcp_option_new_values DHCP_OPTION_IP_ADDRESS_LEASE_TIME 4
    (le_bytes 4 CONFIG_DEFAULT_LEASE_TIME) = Ret lease_time_option) as -> by (vm_compute; reflexivity).
  cbv beta iota. rewrite prog_bind_eq. unfold with_allocator at 1.
  cbn [s_allocator set_config]. rewrite Hal. cbn [default_options address_allocator_new dhcp_option_add
    dhcp_option_retrieve app]. unfold mret at 1, result_ret at 1. cbv beta iota.
  change (0 <? 0) with false. cbv iota.
  rewrite prog_bind_eq, default_pool_new. unfold with_allocator.
  cbn [s_allocator set_allocator]. cbn [allocator_add_pool allocator_get_pool_by_name address_pools
    address_allocator_new list_find app]. unfold mret, result_ret. cbv beta iota.
  change (negb (ALLOCATOR_OK =? ALLOCATOR_OK)) with false. cbv iota.
  rewrite prog_bind_eq, (interface_info_run _ _ _ _ _ Hl) by done. reflexivity.
Qed.

(** ** Without a configuration file *)
Lemma read_missing e path : e_faults e = [] → e_files e !! path = None → read_file path e = Ret (None, e).
Proof.
  intros Hf Hp. unfold read_file, sys_stat, mbind, prog_bind, fails, get_state. rewrite Hf. cbn.
  by rewrite Hp.
Qed.

Lemma quiet_parts s name ip broadcast : quiet s → s_config s = default_config name ip broadcast →
  with_env (config_load_json_file CONFIG_DEFAULT_PATH) s = Ret (None, s) ∧
  ∀ acl, with_env (ACL_load_acl_entries acl (config_path (s_config s))) s = Ret ((ACL_OK, acl), s).
Proof.
  intros [Hf Hp] ->. cbn [config_path default_config]. split.
  - unfold config_load_json_file, with_env. rewrite prog_bind_eq, read_missing by done. by destruct s.
  - intros acl. unfold ACL_load_acl_entries, load_config_file, with_env.
    rewrite !prog_bind_eq, read_missing by done. by destruct s.
Qed.

Lemma security_nothing_run name ip broadcast s : s_config s = default_config name ip broadcast →
  config_load_security_config None s = Ret (0, s).
Proof.
  intros Hc. assert (Hs : set_config (default_config name ip broadcast) s = s)
    by (rewrite <-Hc; by destruct s).
  unfold config_load_security_config.
  do 3 (rewrite prog_bind_eq, load_switch_run by (rewrite Hc; reflexivity); cbv beta iota;
    rewrite Hc; change (set_config _ s) with (set_config (default_config name ip broadcast) s); rewrite Hs).
  reflexivity.
Qed.

Lemma load_nothing_run ifap name ip broadcast s :
  quiet s → s_config s = default_config name ip broadcast → String.length name ≠ O →
  config_load_configuration ifap s = Ret (0, s).
Proof.
  intros Hq Hc Hn. destruct (quiet_parts s _ _ _ Hq Hc) as [Hload _].
  unfold config_load_configuration. rewrite bind_gets, Hc. cbn [config_path interface default_config].
  change (if (String.length CONFIG_DEFAULT_PATH =? 0)%nat then CONFIG_DEFAULT_PATH else CONFIG_DEFAULT_PATH)
    with CONFIG_DEFAULT_PATH.
  rewrite prog_bind_eq, Hload. cbv beta iota.
  rewrite (proj2 (Nat.eqb_neq _ _) Hn), prog_bind_eq. unfold mret at 1, prog_ret at 1. cbv beta iota.
  change (0 <? 0) with false. cbv iota. change (get_item None ?k) with (@None json).
  rewrite prog_bind_eq, (load_server_run ifap None s) by (rewrite ?Hc; done). cbv beta iota.
  rewrite Hc. change (0 <? 0) with false. cbv iota.
  assert (Hs : set_config (default_config name ip broadcast) s = s) by (rewrite <-Hc; by destruct s).
  set (c := Config _ _ _ _ _ _ _ _ _ _ _ _ _ _). change c with (default_config name ip broadcast).
  rewrite Hs, prog_bind_eq. unfold with_allocator at 1. cbn [config_load_pools_config].
  unfold mret at 1, result_ret at 1. cbv beta iota.
  assert (Ha : set_allocator (s_allocator s) s = s) by (by destruct s).
  rewrite Ha. change (0 <? 0) with false. cbv iota. rewrite prog_bind_eq. unfold with_allocator at 1.
  cbn [config_load_dhcp_options]. unfold mret at 1 2, result_ret at 1 2. rewrite ret_bind. cbv beta iota.
  assert (Ha' : set_allocator (Allocator (default_options (s_allocator s)) (address_pools (s_allocator s))) s = s)
    by (by destruct s as [[] ? ? ? ? ? ? ? ? ? ?]).
  rewrite Ha'. change (0 <? 0) with false. cbv iota.
  rewrite prog_bind_eq, (security_nothing_run name ip broadcast s Hc). reflexivity.
Qed.

(** ** From the start of the program to the loop *)

Definition server_id_option (ip : Z) : dhcp_option :=
  numeric_option DHCP_OPTION_SERVER_IDENTIFIER 4 ip.

(** The server of the default configuration before the leases are loaded. *)
Definition default_server (now : Z) (e : env) (name : string) (ip broadcast : Z) : dhcp_server :=
  Server (Allocator [lease_time_option; server_id_option ip] [sample_pool])
    (trans_cache_new now CONFIG_DEFAULT_CACHE_SIZE CONFIG_DEFAULT_TRANS_DURATION)
    (timer_new now TIMER_REPEAT CONFIG_DEFAULT_LEASE_EXPIRATION_CHECK true
       (Some check_lease_expirations_ptr))
    (Some (Acl [] false false)) (Some (Acl [] true true)) (default_config name ip broadcast)
    now ∅ e []
    (Ipc true 0 [("echo"%string, command_echo_ptr); ("stop-server"%string, command_stop_ptr);
       ("rogue-scan"%string, command_rogue_scan_ptr); ("pool-status"%string, command_pool_status_ptr)] []).

Lemma check_failed_0 rv (call : prog dhcp_server Z) rest s s' :
  call s = Ret (0, s') → check_failed if_failed rv call rest s = rest s'.
Proof. intros H. unfold check_failed. by rewrite prog_bind_eq, H, if_failed_spec. Qed.

Lemma no_fault_call s : e_faults (s_env s) = [] → with_env fails s = Ret (false, s).
Proof. intros Hf. unfold with_env, fails. rewrite Hf. by destruct s. Qed.

Lemma all_succeed_run n s : e_faults (s_env s) = [] → with_env (all_succeed n) s = Ret (0, s).
Proof.
  intros Hf. unfold with_env. assert (all_succeed n (s_env s) = Ret (0, s_env s)) as ->; [|by destruct s].
  induction n as [|n IH]; [done|]. cbn [all_succeed]. rewrite prog_bind_eq. unfold fails at 1.
  by rewrite Hf.
Qed.

Lemma unix_server_init_run fd s : e_faults (s_env s) = [] → unix_server_init fd s = Ret (fd, s).
Proof.
  intros Hf. unfold unix_server_init.
  do 3 (rewrite prog_bind_eq, (no_fault_call s Hf); cbv beta iota). done.
Qed.

Lemma commands_run s : i_responses (s_ipc s) = [] → ∃ i, init_unix_commands s = Ret (0, set_ipc i s) ∧
  i = Ipc (server_keep_running (s_ipc s)) (xid_used_in_scan (s_ipc s))
    [("echo"%string, command_echo_ptr); ("stop-server"%string, command_stop_ptr);
     ("rogue-scan"%string, command_rogue_scan_ptr); ("pool-status"%string, command_pool_status_ptr)] [].
Proof.
  intros Hr. eexists. split; [|reflexivity]. unfold init_unix_commands. rewrite bind_modify.
  cbn [register_commands]. unfold register_command.
  do 4 (rewrite prog_bind_eq, bind_modify; unfold mret at 1, prog_ret at 1; cbv beta iota;
    rewrite if_failed_spec; cbn [Z.eqb negb]).
  cbn [s_ipc set_ipc i_commands i_responses server_keep_running xid_used_in_scan app]. by rewrite Hr.
Qed.

Lemma new_number tag n : is_u8 tag → is_u32 n →
  dhcp_option_new_values tag 4 (le_bytes 4 n) = Ret (numeric_option tag 4 n).
Proof.
  intros Ht Hn. rewrite new_values_pad by (unfold zlen; rewrite ?length_le_bytes; unfold VALUE_SIZE; lia).
  rewrite !u8_small by (done || by_decision). unfold numeric_option. do 3 f_equal.
Qed.

Lemma default_options_run s name ip broadcast pools : is_u32 ip →
  s_config s = default_config name ip broadcast →
  s_allocator s = Allocator [lease_time_option] pools →
  init_dhcp_options s =
    Ret (0, set_allocator (Allocator [lease_time_option; server_id_option ip] pools) s).
Proof.
  intros Hip Hc Ha. unfold init_dhcp_options, add_default_option. rewrite bind_gets, Hc.
  cbn [lease_time bound_ip default_config]. rewrite !prog_bind_eq. unfold lift at 1.
  rewrite new_number by by_decision. cbv beta iota. unfold with_allocator at 1. rewrite Ha.
  cbn [default_options]. change (dhcp_option_add [lease_time_option] _) with (0, [lease_time_option]).
  unfold mret at 1, result_ret at 1. cbv beta iota. rewrite if_failed_spec. cbn [Z.eqb negb].
  rewrite !prog_bind_eq. unfold lift at 1. rewrite new_number by (done || by_decision). cbv beta iota.
  unfold with_allocator. cbn [s_allocator set_allocator default_options address_pools].
  change (dhcp_option_add [lease_time_option] _) with (0, [lease_time_option; server_id_option ip]).
  unfold mret at 1, result_ret at 1. cbv beta iota. rewrite if_failed_spec. reflexivity.
Qed.

Definition default_arguments (program name : string) (ifap : list ifaddrs) (fd : Z) : start_input :=
  StartInput [program; "--default-configuration"%string; name] [(1, Some name)] (Some ifap) fd.

Lemma default_arguments_run ifap name ip broadcast s :
  (String.length name < INTERFACE_SIZE)%nat → s_allocator s = address_allocator_new →
  interface_listed ifap name ip broadcast →
  config_parse_arguments (Some ifap) 3 [(1, Some name)] s =
    Ret (0, set_allocator (Allocator [lease_time_option] [sample_pool])
              (set_config (default_config name ip broadcast) s)).
Proof.
  intros Hlen Hal Hl. unfold config_parse_arguments, assign. rewrite !bind_modify.
  cbn [parse_loop]. rewrite prog_bind_eq. unfold parse_argument.
  change (1 =? code "v") with false. cbv iota zeta beta. cbn [orb].
  repeat match goal with |- context [1 =? code ?c] => change (1 =? code c) with false; cbv iota beta end.
  change (1 =? 1) with true. change (negb (3 =? 3)) with false. cbv iota. rewrite !prog_bind_eq.
  unfold lift at 1, deref. cbv beta iota. rewrite prog_bind_eq, (load_defaults_run _ _ _ _ _ Hlen) by done.
  reflexivity.
Qed.

Lemma init_run name ip broadcast now e i fd pools : is_u32 ip → 0 ≤ fd → e_faults e = [] →
  e_files e !! CONFIG_DEFAULT_PATH = None →
  let s := Server (Allocator [lease_time_option] pools) [] (Timer TIMER_ONCE 0 0 false 0 None) None None
    (default_config name ip broadcast) now ∅ e [] (Ipc true 0 [] []) in
  let s' := default_server now e name ip broadcast in
  pools = [sample_pool] →
  (check_failed if_failed 0 init_dhcp_server
  (check_failed if_failed 0 init_dhcp_server_timers
  (check_failed if_failed_n 0 (unix_server_init fd)
  (check_failed if_failed 0 init_unix_commands
  (check_failed if_failed 0 init_dhcp_options
  (check_failed if_failed 0 init_ACL
  (check_failed if_failed 0 init_cache
  (check_failed if_failed 0 init_dynamic_ACL i)))))))) s = i s'.
Proof.
  intros Hip Hfd Hf Hp s s' ->.
  rewrite (check_failed_0 _ init_dhcp_server _ s s) by (by apply all_succeed_run).
  set (s1 := set_lease_timer (timer_new now TIMER_REPEAT CONFIG_DEFAULT_LEASE_EXPIRATION_CHECK true
    (Some check_lease_expirations_ptr)) s).
  rewrite (check_failed_0 _ init_dhcp_server_timers _ s s1) by reflexivity.
  unfold check_failed at 1. rewrite prog_bind_eq, unix_server_init_run by done. cbv beta iota.
  rewrite if_failed_n_spec, (proj2 (Z.ltb_ge _ _)) by done. cbv iota.
  destruct (commands_run s1 eq_refl) as (c & Hc & ->).
  rewrite (check_failed_0 _ init_unix_commands _ s1 _ Hc).
  set (s2 := set_ipc _ s1).
  rewrite (check_failed_0 _ init_dhcp_options _ s2 _
    (default_options_run s2 name ip broadcast [sample_pool] Hip eq_refl eq_refl)).
  set (s3 := set_allocator _ s2).
  assert (Hacl : init_ACL s3 = Ret (0, set_acl (Some (Acl [] false false)) s3)).
  { unfold init_ACL. rewrite bind_gets. change (s_config s3) with (default_config name ip broadcast).
    cbn [acl_enable acl_blacklist default_config].
    destruct (quiet_parts s3 name ip broadcast) as [_ Hload]; [done | done|].
    change (config_path (default_config name ip broadcast)) with (config_path (s_config s3)).
    change ((CONFIG_BOOL_FALSE =? CONFIG_UNTOUCHED) || _) with false. cbv iota.
    rewrite prog_bind_eq, Hload. cbv beta iota. rewrite bind_modify. reflexivity. }
  rewrite (check_failed_0 _ init_ACL _ s3 _ Hacl).
  rewrite (check_failed_0 _ init_cache _ _ (set_cache
    (trans_cache_new now CONFIG_DEFAULT_CACHE_SIZE CONFIG_DEFAULT_TRANS_DURATION)
    (set_acl (Some (Acl [] false false)) s3))) by reflexivity.
  by erewrite check_failed_0 by reflexivity.
Qed.

Lemma number_sendable tag n : is_u8 tag → tag ≠ DHCP_OPTION_PAD → tag ≠ DHCP_OPTION_END → is_u32 n →
  dhcp_option_tag_to_type tag = DHCP_OPTION_NUMERIC ∨ dhcp_option_tag_to_type tag = DHCP_OPTION_IP →
  option_ok (numeric_option tag 4 n) ∧ option_canonical (numeric_option tag 4 n).
Proof.
  intros Ht Hp He Hn Hty. apply (new_values_sendable tag 4 (le_bytes 4 n)); try done.
  - apply le_bytes_is_bytes.
  - by apply new_number.
  - destruct Hty as [-> | ->]; unfold zlen; by rewrite length_le_bytes.
Qed.

Lemma default_server_wf now e name ip broadcast : is_u32 ip → is_u32 broadcast →
  server_wf (default_server now e name ip broadcast).
Proof.
  intros Hip Hbc. split; [|split; [apply trans_cache_new_wf|]].
  - destruct (sample_server_wf []) as [[Hw [Hd Hn]] _]. done.
  - split; [|split; [exact (proj1 (proj2 (proj2 (proj2 (sample_server_wf []))))) | done]].
    repeat apply Forall_cons_2; [| |apply Forall_nil_2].
    + apply number_sendable; [by_decision | done | done | by_decision | by left].
    + apply number_sendable; [by_decision | done | done | done | by right].
Qed.

(** C22. The program started with the default configuration and no configuration
    file, on an interface that has an address and a broadcast address, gets to
    its loop in a well-formed state: the pool of 192.168.1.1 to 192.168.1.100 in
    which exactly the addresses with a valid lease are in use, an empty cache,
    the four commands, and the server identifier of the interface. *)
Theorem main_start_default program name ifap fd ip broadcast now e ls :
  let arguments := default_arguments program name ifap fd in
  check_for_version_or_usage_flags (st_argv arguments) = false →
  String.length name ≠ O → (String.length name < INTERFACE_SIZE)%nat →
  interface_listed ifap name ip broadcast → is_u32 ip → is_u32 broadcast → 0 ≤ fd →
  e_files e !! CONFIG_DEFAULT_PATH = None → lease_file e "Pool" ls →
  ∃ al e', let s := set_allocator al (set_env e' (default_server now e name ip broadcast)) in
    main_start arguments (zeroed now e) = Ret (None, s) ∧ server_wf s ∧
    (∀ a, a ∈ in_use al ↔ ∃ l, l ∈ ls ∧ held (u32 now) sample_pool l ∧ l_address l = a) ∧
    lease_file e' "Pool" (filter (λ l, u32 now < l_lease_expire l) ls).
Proof.
  intros arguments Hflags Hne Hlen Hl Hip Hbc Hfd Hp Hf. pose proof Hf as [Hnf _].
  unfold main_start. rewrite Hflags. unfold assign at 1. rewrite bind_modify.
  set (z := set_config _ (zeroed now e)).
  rewrite (check_failed_0 _ init_allocator _ z z) by reflexivity.
  rewrite prog_bind_eq. change (zlen (st_argv arguments)) with 3.
  cbn [st_ifap st_args arguments default_arguments].
  rewrite (default_arguments_run ifap name ip broadcast z Hlen eq_refl Hl). cbv beta iota.
  set (s1 := set_allocator _ _). change (0 =? CONFIG_EXIT_PROGRAM) with false. cbn [Z.eqb negb].
  rewrite (check_failed_0 _ (config_load_configuration (Some ifap)) _ s1 s1)
    by (by apply (load_nothing_run _ name ip broadcast)).
  cbn [st_fd arguments default_arguments].
  rewrite (init_run name ip broadcast now e _ fd [sample_pool]) by done.
  pose proof (default_server_wf now e name ip broadcast Hip Hbc) as Hwf.
  set (s := default_server now e name ip broadcast) in *.
  destruct (load_all_run (λ _, ls) 1 0 s) as
    (s' & Hrun & al & e' & -> & Hw' & Hc & Hu & _ & Hf' & _); [apply Hwf | done | done | |].
  { intros k p _ Hk. destruct k as [|k]; [|done]. by injection Hk as <-. }
  exists al, e'. cbv zeta.
  assert (Hload : init_load_persisten_leases s = Ret (0, set_allocator al (set_env e' s))).
  { unfold init_load_persisten_leases. rewrite bind_gets, prog_bind_eq.
    change (length (address_pools (s_allocator s))) with 1%nat. by rewrite Hrun. }
  rewrite (check_failed_0 _ init_load_persisten_leases _ s _ Hload).
  split; [done|]. split; [by apply (same_configuration_wf (set_env e' s))|]. split.
  - intros a. rewrite Hu. assert (Hnone : a ∉ in_use (s_allocator s)).
    { change (in_use (s_allocator s)) with (in_use sample_allocator).
      rewrite (proj1 (proj2 sample_allocator_ok)). apply not_elem_of_empty. }
    split.
    + intros [?|(k & p & l & _ & Hk & Hin & Hh & Ha)]; [done|]. destruct k as [|k]; [|done].
      injection Hk as <-. by exists l.
    + intros (l & Hin & Hh & Ha). right. by exists 0%nat, sample_pool, l.
  - by apply (Hf' 0%nat sample_pool).
Qed.
(** A program that cannot be configured ends with the exit status of success:
    the variable it returns was set to 0 by the command line. *)
Theorem main_start_failure_status program ifap fd now e :
  check_for_version_or_usage_flags [program] = false → e_faults e = [] →
  e_files e !! CONFIG_DEFAULT_PATH = None →
  ∃ s', main_start (StartInput [program] [] ifap fd) (zeroed now e) = Ret (Some 0, s').
Proof.
  intros Hflags Hf Hp. unfold main_start. cbn [st_argv]. rewrite Hflags. unfold assign at 1.
  rewrite bind_modify. set (z := set_config _ (zeroed now e)).
  rewrite (check_failed_0 _ init_allocator _ z z) by reflexivity.
  set (s1 := set_config (set_switches CONFIG_UNTOUCHED CONFIG_UNTOUCHED CONFIG_UNTOUCHED CONFIG_UNTOUCHED
    (s_config z)) z).
  cbn [st_ifap st_args st_argv]. rewrite prog_bind_eq.
  assert (config_parse_arguments ifap (zlen [program]) [] z = Ret (0, s1)) as -> by reflexivity.
  cbv beta iota. change (0 =? CONFIG_EXIT_PROGRAM) with false. cbn [Z.eqb negb].
  exists s1. unfold check_failed at 1. rewrite prog_bind_eq.
  assert (config_load_configuration ifap s1 = Ret (-1, s1)) as ->.
  { unfold config_load_configuration. rewrite bind_gets, prog_bind_eq.
    assert (with_env (config_load_json_file CONFIG_DEFAULT_PATH) s1 = Ret (None, s1)) as Hload.
    { unfold config_load_json_file, with_env. change (s_env s1) with e.
      by rewrite prog_bind_eq, read_missing. }
    change (if (String.length (config_path (s_config s1)) =? 0)%nat then CONFIG_DEFAULT_PATH
      else config_path (s_config s1)) with CONFIG_DEFAULT_PATH. by rewrite Hload. }
  cbv beta iota. by rewrite if_failed_spec.
Qed.

(** The result does not tell whether the socket was bound and listens. *)
Theorem unix_server_init_unbound fd faults s : e_faults (s_env s) = false :: faults →
  ∃ s', unix_server_init fd s = Ret (fd, s').
Proof.
  intros Hf. unfold unix_server_init, with_env, fails. rewrite prog_bind_eq, Hf. cbv beta iota.
  rewrite prog_bind_eq. cbn [s_env set_env e_faults].
  destruct faults as [|[|] [|f faults]]; by eexists.
Qed.
End Start.

(** ** Witness: the interface eth0 with the address 192.168.1.1 *)
Definition eth0 : list ifaddrs :=
  [Ifaddrs "lo" (Some (AF_INET, htonl 2130706433)) None;
   Ifaddrs "eth0" (Some (AF_INET, htonl 3232235777)) (Some (AF_INET, htonl 3232236031))].

Lemma main_start_default_witness : ∃ files al e',
  @main_start cclog_run TreeJson.tree_json (default_arguments "dhcp" "eth0" eth0 3)
    (zeroed 1000 (Env files [])) =
    Ret (None, set_allocator al (set_env e' (default_server 1000 (Env files []) "eth0" 3232235777 3232236031))) ∧
  3232235780 ∈ in_use al.
Proof.
  destruct (@add_correct cclog_run TreeJson.tree_json no_files "Pool" [] sample_lease)
    as ([files fs] & _ & Hf & Hn & Ho); [exact sample_lease_wf | done | done | done |].
  cbn in Hn. subst fs. exists files.
  destruct (@main_start_default cclog_run TreeJson.tree_json "dhcp" "eth0" eth0 3 3232235777 3232236031
    1000 (Env files []) [sample_lease]) as (al & e' & H & _ & Hu & _).
  - reflexivity.
  - discriminate.
  - apply Nat.ltb_lt. reflexivity.
  - split; [discriminate|]. split; [discriminate|].
    exists [Ifaddrs "lo" (Some (AF_INET, htonl 2130706433)) None], (htonl 3232235777), (htonl 3232236031), [].
    split; [reflexivity|]. split; [repeat constructor; discriminate | split; vm_compute; reflexivity].
  - by_decision.
  - by_decision.
  - discriminate.
  - transitivity (e_files no_files !! CONFIG_DEFAULT_PATH); [apply Ho; discriminate | reflexivity].
  - split; [reflexivity|]. split; [exact Hf | apply NoDup_singleton].
  - exists al, e'. split; [exact H|]. apply Hu. exists sample_lease. split; [left|].
    split; [split; [reflexivity | vm_compute; split; discriminate] | reflexivity].
Defined.
